(* ===== verification/_CoqProject ===== *)
-Q . S2P
Prelude.v
GoStrings.v
GoFloat.v
GoTime.v
Json.v
GoText.v
GoHttp.v
GoSha256.v
Message.v
Framing.v
RingBuffer.v
GoIO.v
WAL.v
DLQ.v
Router.v
Bridges.v
Server.v
Restart.v
Client.v
Api.v
Escalations.v
Kubectl.v
Samples.v
Rules.v
OpsIntent.v
Webhook.v
AgentRuntime.v
MockMode.v
Discord.v
Slack.v
SidecarMain.v
Conversation.v
SlackEvents.v
Signet.v
ClawOps.v
OpenEscalations.v
GoDuration.v
Registry.v
Kube.v
AutoUpdate.v
PodBuilder.v
Validator.v
Channel.v
StatefulSet.v
Composition.v
TestRuntime.v
SubResources.v
GoFloatText.v
ConfigMerge.v
SdkClient.v
ClawInit.v
Companion.v
ClawStore.v
Snapshots.v
ClawController.v
Repair.v
ClawConverge.v
Metrics.v
ChannelController.v
SelfConfig.v
Operator.v
