(* ===== verification/Prelude.v ===== *)
(** * k8s4claw: a verification library

    k8s4claw runs AI agent runtimes ("claws") on Kubernetes.  This library
    models its Go sources, file by file, and proves what makes them correct;
    where they are not, it proves that instead.  Paths below are relative to
    [src/].

    ** The program

    - The _operator_ ([internal/controller], [internal/runtime],
      [internal/webhook], [internal/registry], [internal/rules]) turns a Claw
      resource into a StatefulSet, services and volumes, updates its image,
      takes snapshots, repairs it, and counts the references of channels.
    - In each pod the _IPC bus_ ([cmd/ipcbus], [internal/ipcbus]) carries
      messages between the channel sidecars and the runtime, with a
      write-ahead log, a dead letter queue and backpressure.
    - The _channel sidecars_ ([cmd/channel-webhook], [cmd/channel-discord],
      [cmd/channel-slack]) stand between a messaging service and the bus; they
      talk to the bus through the _channel SDK_ ([sdk/channel]) over a Unix
      socket.  The _OpenClaw runtime_ ([runtimes/openclaw]) is the program at
      the other end of the bus, and the _init container_ ([cmd/claw-init])
      installs its configuration before it starts.
    - The _companion_ ([cmd/claw4k8s]) analyses escalations with a language
      model; a person approves or rejects them with [cmd/kubectl-claw].
      [internal/signet] signs receipts of what was done.
    - The _Go SDK_ ([sdk]) creates and updates Claws from other programs.

    ** The files

    The ground: [Prelude] (effects, program logic, reachability), [GoStrings],
    [GoText], [GoFloat], [GoFloatText], [GoTime], [GoDuration], [Json]
    (encoding/json), [GoIO] (files, bufio), [GoHttp], [GoSha256].  They model
    what the sources use of the Go language and its standard library.

    The bus: [Message] and [Framing] (message.go, framing.go and their copies
    in the SDK), [RingBuffer] (ringbuffer.go), [WAL] (wal.go), [DLQ] (dlq.go),
    [Router] (router.go), [Bridges] (bridge*.go), [Server] (server.go,
    shutdown.go, cmd/ipcbus), [Restart] (a start after a stop), [Client] (sdk/channel).  [Router.World] contains
    the log, the queue and the buffers of the files before it; [Server] drives
    the router with the bytes that arrive on a connection.

    Around the bus: [Webhook], [Discord] and [Slack] (the sidecars, on top of
    [Client]), [SidecarMain] (what they open and close), [AgentRuntime] and
    [MockMode] (runtimes/openclaw), [ClawInit] (cmd/claw-init),
    [Conversation], which runs a message from the client through the bus to
    the runtime and back, and [SlackEvents], which does so with an event that
    the Slack sidecar reads.

    The operator's data: [Api] (api/v1alpha1), [Kube] (the Kubernetes types it
    uses), [Samples] (concrete instances for the witnesses).

    The operator's parts: [Rules], [OpsIntent] and [ClawOps] (repair),
    [Registry] and [AutoUpdate] (updates), [PodBuilder], [Validator],
    [Channel], [StatefulSet] (the pod of a Claw), [SubResources] (the other
    objects), [ConfigMerge] (its configuration), [ClawStore] (the cluster),
    [Snapshots], [ClawController] (the whole reconciler), [ClawConverge] (it
    settles), [Metrics], [ChannelController], [SelfConfig], and [Operator]
    (cmd/operator: what wakes which reconciler).  [Composition] reads what the
    operator writes into a pod the way the programs in it read it, and
    [TestRuntime] puts the image of the integration tests (runtimes/mock) in it.

    Beside the operator: [Escalations] and [Kubectl] (the escalations and
    cmd/kubectl-claw), [Companion] (cmd/claw4k8s), [OpenEscalations] (an open
    escalation seen by the ops controller), [Repair] (from the approval at the
    command line over a run of the ops controller and one of the claw
    reconciler to the repaired claw), [Signet] (internal/signet),
    [SdkClient] (sdk).

    ** How the code is modelled

    Sequential Go becomes functions; what touches the world is a handler of
    the monad [M] below: a function of the state, of a count of the effects so
    far and of an [Oracle] that fixes the outcome of every I/O call, every
    fresh identifier and every reading of the clock.  Theorems quantify over
    the oracle, so they hold for every pattern of failures and every clock.
    Handlers also emit events, on which the ordering theorems speak.  Errors
    are values of [result]; a panic is [None] or a constructor of its own.

    A handler of the router or of a reconciler runs to its end before the
    next one; the interleavings that matter across components are explicit
    step relations (the steps of [Router], [Server], [Client], [OpsIntent],
    [ClawOps], [AutoUpdate]), with reachability from [Prelude] and proofs by
    rule induction.  Within one reconciliation nobody else writes to the
    cluster, with the exceptions the files name.  [ClawStore] is one namespace.

    Integers are [Z]; where the code depends on a width (frame lengths,
    [int32] fields, [strconv], [time.Duration]) the bounds or the wrap-around
    are written out.  [float64] is IEEE 754 binary64 from the standard
    library's specification floats.  Bytes are [list ascii]; strings are byte
    strings, as in Go.

    Code that is not in the repository is a parameter, a type class with its
    documented behaviour as laws: the BoltDB bucket ([DLQ.Bucket]), resource
    quantities ([Api.QuantityLib]), semantic versions ([Registry.SemverLib]),
    cron schedules ([AutoUpdate.CronLib]), signatures
    ([Signet.SignatureScheme]), watches ([Operator.WatchLib]) and others
    declared where they are used; each has a concrete instance on which the
    witnesses evaluate.  What HTTP peers, the API server and the language
    model answer is an argument over which the theorems quantify.

    Recursion that is not structural carries fuel, and the fuel is enough: the
    JSON parser takes twice the length of its input ([Json.parse_print] and
    [Json.parse_render] show that printed documents parse, with any spacing), decimal
    printing the binary logarithm, readers of byte streams the length of the
    stream.  Loops that wait for the world (accept, read, reconnect) are
    functions of what the world sends, which is finite in any run.

    ** The theorems

    - The log: a crash at any point leaves a file that recovers to a prefix of
      what was logged, a flush makes everything durable, and the shutdown
      sequence of the bus keeps every pending message ([WAL], [Server]), which
      the next start offers to the runtime again; a start that goes down for
      want of a connection to the runtime loses none ([Restart]).
    - The router delivers each message once or keeps it pending; the queues
      are bounded; the ring buffer refines a bounded queue with hysteresis;
      frames and event streams are read back as they were written ([Router],
      [DLQ], [RingBuffer], [Framing], [Bridges]).
    - What does not work, as theorems: dead letters are never written, a
      slowed-down sidecar is never resumed, an oversized record stops every
      later start ([Router], [WAL]).
    - A payload that a sidecar sends is answered, or lost if it is longer than
      the runtime's WebSocket reads ([Conversation]); the sidecars forward
      authentic requests only, bound their attempts, and what goes wrong
      between them and the runtime is proved ([Webhook], [Discord], [Slack],
      [SlackEvents]);
      they close all they open and serve in exactly the modes asked for
      ([SidecarMain]).
    - Reconciling a Claw: data survives deletion as its reclaim policy says,
      objects of other owners are left alone, nothing is created before the
      finalizer ([ClawController]); a second pass changes nothing
      ([ClawConverge]), and what others delete wakes the reconciler and comes
      back as it was ([Operator]).
    - The pods: hardened security contexts, every mount has its volume,
      an admitted Claw always builds, the objects select the same pods
      ([StatefulSet], [Validator], [SubResources]).
    - Updates end, failed versions are not retried, one step refines an
      abstract machine ([AutoUpdate]); snapshots keep to their schedule
      ([Snapshots]).
    - Repair: generations increase, the intents of rules keep to the rate
      limit as long as requests are answered, escalations need approval
      ([OpsIntent], [ClawOps]); channels and self-configuration keep
      to their gates ([ChannelController], [SelfConfig]).
    - Escalations: the command decides with one write or none, the companion
      ends each analysis within its attempts and moves phases only forward,
      an open escalation silences its trigger ([Escalations], [Companion],
      [OpenEscalations]); what is approved is executed, once and as proposed,
      if neither another approval nor a rule writes an intent meanwhile ([Repair]).
    - A signed receipt verifies ([Signet]); an update through the SDK changes
      only what it names ([SdkClient]); the init container installs a
      configuration or fails ([ClawInit]); gauges read the last phase, and
      some alerts can never fire ([Metrics]).

    ** Not modelled

    Generated deep copies and scheme registration ([zz_generated.deepcopy.go],
    [groupversion_info.go]); the wrapper of the WebSocket library in
    [cmd/channel-slack/ws.go]; the registry and the endpoint of the metrics
    library; logging, signals and flag parsing in the [main] functions; the
    tests, which are not part of the program. *)

From Stdlib Require Export ZArith Lia Ascii String.
From stdpp Require Export base tactics list gmap strings relations.
From stdpp Require Import options.
#[export] Set Default Goal Selector "!".

Declare Scope claw_scope.
Delimit Scope claw_scope with claw.
Open Scope Z_scope.
Open Scope claw_scope.

(** A Go [[]byte] (and a Go string read as bytes) is a list of 8-bit
    characters; a Go string used as an identifier or a map key is a
    [string]. *)
Abbreviation bytes := (list ascii).

Definition bytes_of (s : string) : bytes := String.list_ascii_of_string s.

Lemma bytes_of_app s t : bytes_of (s +:+ t) = bytes_of s ++ bytes_of t.
Proof. induction s as [|c s IH]; [done|]. unfold bytes_of in *. simpl. by f_equal. Qed.

Lemma bytes_of_inj s t : bytes_of s = bytes_of t -> s = t.
Proof.
  intros H. rewrite <- (String.string_of_list_ascii_of_string s),
    <- (String.string_of_list_ascii_of_string t).
  by f_equal.
Qed.

#[export] Instance ascii_eq_dec : EqDecision ascii := Ascii.ascii_dec.

(** ** Go errors: a fallible Go function returns a [result]. *)

Inductive result (E A : Type) : Type :=
| Ok (a : A)
| Err (e : E).
Arguments Ok {E A} a.
Arguments Err {E A} e.

Definition is_ok {E A} (r : result E A) : bool :=
  match r with Ok _ => true | Err _ => false end.

Definition rbind {E A B} (r : result E A) (k : A -> result E B) : result E B :=
  match r with Ok a => k a | Err e => Err e end.

Notation "'let?' x ':=' c 'in' k" := (rbind c (fun x => k))
  (at level 10, x pattern, c at level 100, k at level 200)
  : claw_scope.

(** ** Effects

    An [Oracle] fixes, for every point of a run, the outcome of the next I/O
    operation, the next identifier of the uuid generator and the reading of
    the clock.  Theorems quantify over every oracle, so they hold for every
    pattern of I/O failures.  A handler is a function from the oracle, the
    component's state and the number of effects performed so far to its
    result, the new state, the new count and the events it emitted. *)

Record Oracle := mkOracle {
  o_ok : nat -> bool;
  o_uuid : nat -> string;
  o_now : nat -> Z;
  o_len : nat -> nat;
}.

Record Run (S E : Type) := mkRun {
  run_st : S;
  run_tick : nat;
  run_trace : list E;
}.
Arguments mkRun {S E} _ _ _.
Arguments run_st {S E} _.
Arguments run_tick {S E} _.
Arguments run_trace {S E} _.

Definition M (S E A : Type) : Type := Oracle -> Run S E -> A * Run S E.

Section Monad.
Context {S E : Type}.

Definition mret {A} (a : A) : M S E A := fun _ r => (a, r).

Definition mbind {A B} (m : M S E A) (k : A -> M S E B) : M S E B :=
  fun w r => let '(a, r') := m w r in k a w r'.

Definition mget : M S E S := fun _ r => (run_st r, r).

Definition mput (s : S) : M S E unit :=
  fun _ r => (tt, mkRun s (run_tick r) (run_trace r)).

Definition emit (e : E) : M S E unit :=
  fun _ r => (tt, mkRun (run_st r) (run_tick r) (run_trace r ++ [e])).

(** One I/O operation: did it succeed? *)
Definition io : M S E bool :=
  fun w r => (o_ok w (run_tick r),
              mkRun (run_st r) (1 + run_tick r)%nat (run_trace r)).

(** [uuid.NewV7()]. *)
Definition new_uuid : M S E string :=
  fun w r => (o_uuid w (run_tick r),
              mkRun (run_st r) (1 + run_tick r)%nat (run_trace r)).

(** [time.Now()], in nanoseconds since the Unix epoch. *)
Definition now : M S E Z :=
  fun w r => (o_now w (run_tick r),
              mkRun (run_st r) (1 + run_tick r)%nat (run_trace r)).

(** How many bytes a failing write still transferred. *)
Definition partial : M S E nat :=
  fun w r => (o_len w (run_tick r),
              mkRun (run_st r) (1 + run_tick r)%nat (run_trace r)).

Definition mgets {A} (f : S -> A) : M S E A := fun _ r => (f (run_st r), r).

Definition mmodify (f : S -> S) : M S E unit :=
  fun _ r => (tt, mkRun (f (run_st r)) (run_tick r) (run_trace r)).

(** Iterate a handler over a list, in order. *)
Fixpoint mfor {A} (l : list A) (f : A -> M S E unit) : M S E unit :=
  match l with
  | [] => mret tt
  | a :: l' => mbind (f a) (fun _ => mfor l' f)
  end.

End Monad.

Notation "'let*' x ':=' c 'in' k" := (mbind c (fun x => k))
  (at level 10, x pattern, c at level 100, k at level 200)
  : claw_scope.
Notation "c ';;;' k" := (mbind c (fun _ => k))
  (at level 100, k at level 200, right associativity) : claw_scope.

(** Run the handler of a sub-component on its part of the state; its events
    become events of the whole. *)
Definition zoom {S T E F A} (get : S -> T) (set : T -> S -> S) (ev : F -> E) (m : M T F A)
    : M S E A :=
  fun w r =>
    let '(a, r') := m w (mkRun (get (run_st r)) (run_tick r) []) in
    (a, mkRun (set (run_st r') (run_st r)) (run_tick r') (run_trace r ++ map ev (run_trace r'))).

(** Run a handler on a private state and return the state it ends in. *)
Definition local {S T E F A} (t : T) (m : M T F A) : M S E (A * T) :=
  fun w r =>
    let '(a, r') := m w (mkRun t (run_tick r) []) in
    ((a, run_st r'), mkRun (run_st r) (run_tick r') (run_trace r)).

(** ** A program logic for handlers

    [wp m Q] is the weakest precondition of [Q] under one oracle.  The
    equations below evaluate a handler step by step; the database [wp] holds
    them. *)

Definition wp {S E A} (w : Oracle) (m : M S E A) (Q : A -> Run S E -> Prop) (r : Run S E) : Prop :=
  let '(a, r') := m w r in Q a r'.

Section WP.
Context {S E : Type} (w : Oracle).
Implicit Types r : Run S E.

Lemma wp_ret {A} (a : A) Q r : wp w (mret a) Q r = Q a r.
Proof. done. Qed.

Lemma wp_bind {A B} (m : M S E A) (k : A -> M S E B) Q r :
  wp w (mbind m k) Q r = wp w m (fun a r' => wp w (k a) Q r') r.
Proof. unfold wp, mbind. by destruct (m w r). Qed.

Lemma wp_mget Q r : wp w mget Q r = Q (run_st r) r.
Proof. done. Qed.

Lemma wp_mgets {A} (f : S -> A) Q r : wp w (mgets f) Q r = Q (f (run_st r)) r.
Proof. done. Qed.

Lemma wp_mput s Q r : wp w (mput s) Q r = Q tt (mkRun s (run_tick r) (run_trace r)).
Proof. done. Qed.

Lemma wp_mmodify f Q r :
  wp w (mmodify f) Q r = Q tt (mkRun (f (run_st r)) (run_tick r) (run_trace r)).
Proof. done. Qed.

Lemma wp_emit e Q r :
  wp w (emit e) Q r = Q tt (mkRun (run_st r) (run_tick r) (run_trace r ++ [e])).
Proof. done. Qed.

Lemma wp_io Q r :
  wp w io Q r = Q (o_ok w (run_tick r)) (mkRun (run_st r) (1 + run_tick r)%nat (run_trace r)).
Proof. done. Qed.

Lemma wp_partial Q r :
  wp w partial Q r =
  Q (o_len w (run_tick r)) (mkRun (run_st r) (1 + run_tick r)%nat (run_trace r)).
Proof. done. Qed.

Lemma wp_now Q r :
  wp w now Q r = Q (o_now w (run_tick r)) (mkRun (run_st r) (1 + run_tick r)%nat (run_trace r)).
Proof. done. Qed.

Lemma wp_new_uuid Q r :
  wp w new_uuid Q r =
  Q (o_uuid w (run_tick r)) (mkRun (run_st r) (1 + run_tick r)%nat (run_trace r)).
Proof. done. Qed.

Lemma wp_conseq {A} (m : M S E A) (P Q : A -> Run S E -> Prop) r :
  (forall a r', P a r' -> Q a r') -> wp w m P r -> wp w m Q r.
Proof. unfold wp. destruct (m w r). auto. Qed.

Lemma wp_true {A} (m : M S E A) r : wp w m (fun _ _ => True) r.
Proof. unfold wp. by destruct (m w r). Qed.

Lemma wp_mfor {A} (l : list A) (f : A -> M S E unit) (I : Run S E -> Prop) r :
  I r -> (forall a r', a ∈ l -> I r' -> wp w (f a) (fun _ => I) r') ->
  wp w (mfor l f) (fun _ => I) r.
Proof.
  revert r. induction l as [|a l IH]; intros r Hr Hf; [done|].
  cbn [mfor]. rewrite wp_bind. eapply wp_conseq; [|apply Hf; [by left|done]].
  cbn. intros [] r' Hr'. apply IH; [done|]. intros b r'' Hb. apply Hf. by right.
Qed.
End WP.

Lemma wp_and {S E A} w (m : M S E A) (P Q : A -> Run S E -> Prop) r :
  wp w m P r -> wp w m Q r -> wp w m (fun a r' => P a r' /\ Q a r') r.
Proof. unfold wp. by destruct (m w r). Qed.

Lemma wp_zoom {S T E F A} w (get : S -> T) set (ev : F -> E) (m : M T F A) Q (r : Run S E) :
  wp w (zoom get set ev m) Q r =
  wp w m (fun a r' => Q a (mkRun (set (run_st r') (run_st r)) (run_tick r')
                             (run_trace r ++ map ev (run_trace r'))))
    (mkRun (get (run_st r)) (run_tick r) []).
Proof. unfold wp, zoom. by destruct (m w _). Qed.

Lemma wp_local {S T E F A} w (t : T) (m : M T F A) Q (r : Run S E) :
  wp w (local t m) Q r =
  wp w m (fun a r' => Q (a, run_st r') (mkRun (run_st r) (run_tick r') (run_trace r)))
    (mkRun t (run_tick r) []).
Proof. unfold wp, local. by destruct (m w _). Qed.

Create Rewrite HintDb wp.
#[export] Hint Rewrite @wp_ret @wp_bind @wp_mget @wp_mgets @wp_mput @wp_mmodify @wp_emit
  @wp_io @wp_partial @wp_now @wp_new_uuid @wp_zoom @wp_local : wp.

(** Evaluate a handler: the equations, then projections of known records. *)
Ltac wp_step := autorewrite with wp; cbn [run_st run_tick run_trace].

(** ** Preservation

    [preserves w I m]: the handler [m] keeps the invariant [I] of states,
    counters and traces.  The database [preserves] and the tactic [preserve]
    walk through a handler call by call. *)

Definition preserves {S E A} (w : Oracle) (I : Run S E -> Prop) (m : M S E A) : Prop :=
  forall r, I r -> wp w m (fun _ => I) r.

Section Preserves.
Context {S E : Type} (w : Oracle) (I : Run S E -> Prop).

Lemma preserves_ret {A} (a : A) : preserves w I (mret a).
Proof. by intros r Hr. Qed.

Lemma preserves_bind {A B} (m : M S E A) (k : A -> M S E B) :
  preserves w I m -> (forall a, preserves w I (k a)) -> preserves w I (mbind m k).
Proof.
  intros Hm Hk r Hr. rewrite wp_bind. eapply wp_conseq; [|by apply Hm].
  intros a r' Hr'. by apply Hk.
Qed.

Lemma preserves_mget : preserves w I mget.
Proof. by intros r Hr. Qed.

Lemma preserves_mgets {A} (f : S -> A) : preserves w I (mgets f).
Proof. by intros r Hr. Qed.

Lemma preserves_mfor {A} (l : list A) (f : A -> M S E unit) :
  (forall a, a ∈ l -> preserves w I (f a)) -> preserves w I (mfor l f).
Proof. intros Hf r Hr. apply wp_mfor; [done|]. intros a r' Ha Hr'. by apply Hf. Qed.
End Preserves.

Create HintDb preserves.
#[export] Hint Resolve preserves_ret preserves_bind preserves_mget preserves_mgets : preserves.

(** One call at a time, with case analysis on what the handler tests. *)
Ltac preserve :=
  repeat first
    [ solve [eauto 2 with preserves]
    | apply preserves_bind; [|intros ?]
    | apply preserves_mfor; intros ? _
    | progress cbv beta zeta
    | case_match ].

(** Run a handler for its final state and for the events it adds. *)
Definition exec {S E A} (m : M S E A) (w : Oracle) (s : S) : A * Run S E :=
  m w (mkRun s 0 []).

(** An oracle for evaluation: everything succeeds. *)
Definition all_ok : Oracle :=
  mkOracle (fun _ => true) (fun n => "id"%string) (fun n => 1700000000000000000) (fun _ => 0%nat).

(** ** Reachability and invariants *)

Section Reach.
Context {S : Type} (init : S -> Prop) (step : S -> S -> Prop).

Definition reachable (s : S) : Prop := exists s0, init s0 /\ rtc step s0 s.

Lemma reachable_init s : init s -> reachable s.
Proof. intros H. by exists s. Qed.

Lemma reachable_step s s' : reachable s -> step s s' -> reachable s'.
Proof. intros (s0 & ? & ?) ?. exists s0. split; [done|]. by eapply rtc_r. Qed.

(** The induction principle of every safety proof: an inductive invariant
    holds in every reachable state. *)
Lemma reachable_invariant (I : S -> Prop) :
  (forall s, init s -> I s) ->
  (forall s s', I s -> step s s' -> I s') ->
  forall s, reachable s -> I s.
Proof.
  intros Hi Hs s (s0 & H0 & Hr). apply Hi in H0.
  induction Hr as [s|s s1 s' Hs1 _ IH]; eauto.
Qed.
End Reach.

(** ** Go's [range] over a map visits the entries in an unspecified order *)

Class RangeOrder := {
  range {A : Type} (m : gmap string A) : list (string * A);
  range_perm {A : Type} (m : gmap string A) : range m ≡ₚ map_to_list m;
}.

(** One order, for evaluation. *)
Definition sorted_range : RangeOrder :=
  {| range _ m := map_to_list m; range_perm _ m := Permutation_refl _ |}.

(** ** Automation *)

Create HintDb claw.

(** Case analysis on every match and if of the goal or a hypothesis, with the
    equations kept, closing the absurd cases. *)
Ltac case_all :=
  repeat (case_match; simplify_eq/=; try done).

(** Case analysis on the first conditional of the goal only. *)
Ltac case_if :=
  match goal with
  | |- context [if ?b then _ else _] => match type of b with bool => destruct b eqn:? end
  end.

(** Close a decidable proposition about concrete data. *)
Ltac decide_now := apply (bool_decide_unpack _); vm_compute; exact I.

Ltac split_bools :=
  repeat match goal with
  | H : _ && _ = true |- _ => apply andb_true_iff in H as [? ?]
  | H : _ || _ = false |- _ => apply orb_false_iff in H as [? ?]
  | H : negb _ = true |- _ => apply negb_true_iff in H
  | H : negb _ = false |- _ => apply negb_false_iff in H
  end.

(** ** Lists used by several components *)

Section Lists.
Context {A : Type}.
Implicit Types l : list A.

(** Go's [append([]T(nil), ...)] with a bound: keep the last [n]. *)
Definition keep_last (n : nat) l : list A := drop (length l - n) l.

Lemma keep_last_length n l : (length (keep_last n l) <= n)%nat.
Proof. unfold keep_last. rewrite length_drop. lia. Qed.

Lemma keep_last_short n l : (length l <= n)%nat -> keep_last n l = l.
Proof. intros H. unfold keep_last. by replace (length l - n)%nat with 0%nat by lia. Qed.

(** Appending one element and trimming keeps that element last. *)
Lemma keep_last_snoc n l x :
  (0 < n)%nat -> exists l', keep_last n (l ++ [x]) = l' ++ [x].
Proof.
  intros Hn. unfold keep_last. rewrite length_app. cbn.
  exists (drop (length l + 1 - n) l). apply drop_app_le. lia.
Qed.

Fixpoint find_first (f : A -> bool) l : option A :=
  match l with
  | [] => None
  | a :: l' => if f a then Some a else find_first f l'
  end.

Lemma find_first_Some f l a :
  find_first f l = Some a <->
  exists l1 l2, l = l1 ++ a :: l2 /\ f a = true /\ Forall (fun x => f x = false) l1.
Proof.
  split.
  - induction l as [|b l IH]; [done|]. cbn. destruct (f b) eqn:Hb.
    + intros [= ->]. exists [], l. auto.
    + intros H. destruct (IH H) as (l1 & l2 & -> & ? & ?).
      exists (b :: l1), l2. auto.
  - intros (l1 & l2 & -> & Ha & Hall). induction l1 as [|b l1 IH]; cbn.
    + by rewrite Ha.
    + inversion_clear Hall as [|?? Hb Hr]. rewrite Hb. auto.
Qed.

Lemma find_first_None f l :
  find_first f l = None <-> Forall (fun x => f x = false) l.
Proof.
  induction l as [|b l IH]; cbn.
  - split; auto.
  - destruct (f b) eqn:Hb.
    + split; [done|]. inversion 1; congruence.
    + rewrite IH. split; [auto|]. by inversion 1.
Qed.
End Lists.

#[export] Hint Resolve keep_last_length : claw.
