(* ===== verification/GoStrings.v ===== *)
(** * Strings and decimal integers, as package strings and strconv define them

    Go strings are byte strings.  The functions here work on [bytes]; the
    [string] wrappers convert at the edges. *)

From S2P Require Import Prelude.

Definition code (c : ascii) : Z := Z.of_N (N_of_ascii c).
Definition chr (z : Z) : ascii := ascii_of_N (Z.to_N z).

Lemma code_range c : 0 <= code c < 256.
Proof. unfold code. pose proof (N_ascii_bounded c). lia. Qed.

Lemma code_chr z : 0 <= z < 256 -> code (chr z) = z.
Proof. intros H. unfold code, chr. rewrite N_ascii_embedding; lia. Qed.

Lemma chr_code c : chr (code c) = c.
Proof. unfold code, chr. rewrite N2Z.id. apply ascii_N_embedding. Qed.

Lemma code_inj c d : code c = code d -> c = d.
Proof. intros H. by rewrite <- (chr_code c), <- (chr_code d), H. Qed.

(** A byte string as a string. *)
Definition str_of (b : bytes) : string := String.string_of_list_ascii b.

Lemma bytes_of_str_of b : bytes_of (str_of b) = b.
Proof. apply String.list_ascii_of_string_of_list_ascii. Qed.

Lemma str_of_bytes_of s : str_of (bytes_of s) = s.
Proof. apply String.string_of_list_ascii_of_string. Qed.

Definition ascii_eqb (c d : ascii) : bool := bool_decide (c = d).

Definition between (lo x hi : Z) : bool := (lo <=? x) && (x <=? hi).

Lemma between_spec lo x hi : between lo x hi = true <-> lo <= x <= hi.
Proof. unfold between. rewrite andb_true_iff, !Z.leb_le. done. Qed.

(** ** package strings *)

(** [strings.CutPrefix]: the rest after [p], if [s] starts with [p]. *)
Fixpoint cut_prefix (p s : bytes) : option bytes :=
  match p, s with
  | [], _ => Some s
  | c :: p', d :: s' => if ascii_eqb c d then cut_prefix p' s' else None
  | _ :: _, [] => None
  end.

Definition has_prefix (p s : bytes) : bool := bool_decide (is_Some (cut_prefix p s)).

(** [strings.TrimPrefix]. *)
Definition trim_prefix (p s : bytes) : bytes := default s (cut_prefix p s).

(** [strings.Index] of one byte, and the split around it. *)
Fixpoint cut_byte (c : ascii) (s : bytes) : option (bytes * bytes) :=
  match s with
  | [] => None
  | d :: s' =>
      if ascii_eqb d c then Some ([], s')
      else match cut_byte c s' with Some (a, b) => Some (d :: a, b) | None => None end
  end.

(** The split around the last occurrence ([strings.LastIndex]). *)
Fixpoint cut_last_byte (c : ascii) (s : bytes) : option (bytes * bytes) :=
  match s with
  | [] => None
  | d :: s' =>
      match cut_last_byte c s' with
      | Some (a, b) => Some (d :: a, b)
      | None => if ascii_eqb d c then Some ([], s') else None
      end
  end.

(** [strings.Contains]. *)
Fixpoint contains (p s : bytes) : bool :=
  has_prefix p s || match s with [] => false | _ :: s' => contains p s' end.

Lemma ascii_eqb_refl c : ascii_eqb c c = true.
Proof. by apply bool_decide_eq_true. Qed.

Lemma ascii_eqb_true c d : ascii_eqb c d = true <-> c = d.
Proof. apply bool_decide_eq_true. Qed.

Lemma ascii_eqb_false c d : ascii_eqb c d = false <-> c <> d.
Proof. apply bool_decide_eq_false. Qed.

Lemma cut_prefix_app p s : cut_prefix p (p ++ s) = Some s.
Proof. induction p as [|c p IH]; [done|]. cbn. by rewrite ascii_eqb_refl. Qed.

Lemma cut_prefix_Some p s t : cut_prefix p s = Some t <-> s = p ++ t.
Proof.
  revert s. induction p as [|c p IH]; intros s; cbn; [split; congruence|].
  destruct s as [|d s]; [done|]. destruct (ascii_eqb c d) eqn:E.
  - apply ascii_eqb_true in E as ->. rewrite IH. split; congruence.
  - apply ascii_eqb_false in E. split; congruence.
Qed.

Lemma has_prefix_spec p s : has_prefix p s = true <-> exists t, s = p ++ t.
Proof.
  unfold has_prefix. rewrite bool_decide_eq_true. unfold is_Some.
  split; intros [t H]; exists t; by apply cut_prefix_Some.
Qed.

Lemma cut_byte_app c a b : c ∉ a -> cut_byte c (a ++ c :: b) = Some (a, b).
Proof.
  induction a as [|d a IH]; cbn; intros H; [by rewrite ascii_eqb_refl|].
  rewrite not_elem_of_cons in H. destruct H as [H1 H2].
  assert (ascii_eqb d c = false) as -> by (apply ascii_eqb_false; congruence).
  by rewrite IH.
Qed.

Lemma cut_byte_None c s : cut_byte c s = None <-> c ∉ s.
Proof.
  induction s as [|d s IH]; cbn; [split; [intros _; apply not_elem_of_nil|done]|].
  rewrite not_elem_of_cons. destruct (ascii_eqb d c) eqn:E.
  - apply ascii_eqb_true in E as ->. split; [done|]. tauto.
  - apply ascii_eqb_false in E. destruct (cut_byte c s) as [[]|].
    + split; [done|]. intros [_ H]. by apply IH in H.
    + split; [|done]. intros _. split; [congruence|]. by apply IH.
Qed.

Lemma cut_byte_Some c s a b : cut_byte c s = Some (a, b) -> s = a ++ c :: b /\ c ∉ a.
Proof.
  revert a. induction s as [|d s IH]; cbn; intros a; [done|].
  destruct (ascii_eqb d c) eqn:E.
  - apply ascii_eqb_true in E as ->. intros [= <- <-]. split; [done|apply not_elem_of_nil].
  - apply ascii_eqb_false in E. destruct (cut_byte c s) as [[a' b']|]; [|done].
    intros [= <- <-]. destruct (IH a') as [-> H]; [done|].
    split; [done|]. rewrite not_elem_of_cons. split; [congruence|done].
Qed.

Lemma cut_last_byte_None c s : cut_last_byte c s = None <-> c ∉ s.
Proof.
  induction s as [|d s IH]; cbn; [split; [intros _; apply not_elem_of_nil|done]|].
  rewrite not_elem_of_cons. destruct (cut_last_byte c s) as [[]|].
  - split; [done|]. intros [_ H]. by apply IH in H.
  - destruct (ascii_eqb d c) eqn:E.
    + apply ascii_eqb_true in E as ->. split; [done|]. tauto.
    + apply ascii_eqb_false in E. split; [|done].
      intros _. split; [congruence|]. by apply IH.
Qed.

Lemma cut_last_byte_app c a b : c ∉ b -> cut_last_byte c (a ++ c :: b) = Some (a, b).
Proof.
  intros Hb. induction a as [|d a IH]; cbn.
  - apply cut_last_byte_None in Hb. by rewrite Hb, ascii_eqb_refl.
  - by rewrite IH.
Qed.

(** Lexicographic order of byte strings: Go's [<] on strings. *)
Fixpoint bytes_lt (s t : bytes) : bool :=
  match s, t with
  | _, [] => false
  | [], _ :: _ => true
  | c :: s', d :: t' => (code c <? code d) || (ascii_eqb c d && bytes_lt s' t')
  end.

Definition string_lt (s t : string) : bool := bytes_lt (bytes_of s) (bytes_of t).

Lemma bytes_lt_irrefl s : bytes_lt s s = false.
Proof. induction s as [|c s IH]; [done|]. cbn. by rewrite Z.ltb_irrefl, IH, andb_false_r. Qed.

Lemma bytes_lt_trans s t u : bytes_lt s t = true -> bytes_lt t u = true -> bytes_lt s u = true.
Proof.
  revert t u. induction s as [|c s IH]; intros [|d t] [|e u]; cbn; try done.
  rewrite !orb_true_iff, !andb_true_iff, !ascii_eqb_true, !Z.ltb_lt.
  intros [H1|[-> H1]] [H2|[-> H2]]; eauto; left; lia.
Qed.

Lemma bytes_lt_total s t : bytes_lt s t = true \/ s = t \/ bytes_lt t s = true.
Proof.
  revert t. induction s as [|c s IH]; intros [|d t]; cbn; auto.
  rewrite !orb_true_iff, !andb_true_iff, !ascii_eqb_true, !Z.ltb_lt.
  destruct (Z.lt_trichotomy (code c) (code d)) as [H|[H|H]]; auto.
  apply code_inj in H as ->. destruct (IH t) as [?|[->|?]]; auto.
Qed.

(** ** package strconv: decimal integers *)

Definition digit (d : Z) : ascii := chr (48 + d).
Definition is_digit (c : ascii) : bool := between 48 (code c) 57.
Definition digit_val (c : ascii) : Z := code c - 48.

Fixpoint dec_digits (fuel : nat) (n : Z) (acc : bytes) : bytes :=
  match fuel with
  | O => acc
  | S k => let acc' := digit (n mod 10) :: acc in
           if n <? 10 then acc' else dec_digits k (n / 10) acc'
  end.

(** [strconv.FormatInt(n, 10)].  The fuel is one more than the number of
    binary digits, hence at least the number of decimal ones. *)
Definition format_nat (n : Z) : bytes := dec_digits (S (Z.to_nat (Z.log2 n))) n [].
Definition format_int (n : Z) : bytes :=
  if n <? 0 then "-"%char :: format_nat (- n) else format_nat n.

Fixpoint digits_value (acc : Z) (s : bytes) : option Z :=
  match s with
  | [] => Some acc
  | c :: s' => if is_digit c then digits_value (acc * 10 + digit_val c) s' else None
  end.

(** [strconv.ParseInt(s, 10, bits)]: an optional sign, at least one digit, and
    the range check. *)
Definition parse_int (bits : Z) (s : bytes) : option Z :=
  let value t := match t with [] => None | _ => digits_value 0 t end in
  match s with
  | [] => None
  | c :: s' =>
      let '(neg, v) := if ascii_eqb c "-" then (true, value s')
                       else if ascii_eqb c "+" then (false, value s')
                       else (false, value s) in
      match v with
      | None => None
      | Some n =>
          let m := if neg then - n else n in
          if between (- 2 ^ (bits - 1)) m (2 ^ (bits - 1) - 1) then Some m else None
      end
  end.

Lemma is_digit_digit d : 0 <= d < 10 -> is_digit (digit d) = true.
Proof. intros H. apply between_spec. unfold digit. rewrite code_chr; lia. Qed.

Lemma digit_val_digit d : 0 <= d < 10 -> digit_val (digit d) = d.
Proof. intros H. unfold digit_val, digit. rewrite code_chr; lia. Qed.

Lemma digits_value_dec_digits fuel n acc v :
  0 <= n -> n < 2 ^ Z.of_nat fuel ->
  digits_value v (dec_digits fuel n acc) =
  digits_value (v * 10 ^ Z.of_nat (length (dec_digits fuel n acc) - length acc) + n) acc /\
  (length acc <= length (dec_digits fuel n acc))%nat.
Proof.
  revert n acc. induction fuel as [|k IH]; intros n acc Hn Hlt.
  { cbn in *. assert (n = 0) as -> by lia. rewrite Nat.sub_diag. cbn.
    split; [f_equal; lia|lia]. }
  cbn [dec_digits]. pose proof (Z.mod_pos_bound n 10 ltac:(lia)) as Hm.
  assert (Hstep : forall w, digits_value w (digit (n mod 10) :: acc) =
    digits_value (w * 10 + n mod 10) acc).
  { intros w. cbn [digits_value]. by rewrite is_digit_digit, digit_val_digit by lia. }
  destruct (n <? 10) eqn:E.
  - apply Z.ltb_lt in E. rewrite Hstep. cbn [length].
    replace (S (length acc) - length acc)%nat with 1%nat by lia.
    rewrite Z.mod_small by lia. split; [f_equal; lia|lia].
  - apply Z.ltb_ge in E. destruct (IH (n / 10) (digit (n mod 10) :: acc)) as [H1 H2].
    { apply Z.div_pos; lia. }
    { apply Z.div_lt_upper_bound; [lia|].
      rewrite Nat2Z.inj_succ, Z.pow_succ_r in Hlt by lia. lia. }
    cbn [length] in H2. split; [|lia]. rewrite H1, Hstep. f_equal. cbn [length].
    set (L := length (dec_digits k (n / 10) (digit (n mod 10) :: acc))) in *.
    replace (L - length acc)%nat with (S (L - S (length acc)))%nat by lia.
    rewrite Nat2Z.inj_succ, Z.pow_succ_r by lia.
    pose proof (Z.div_mod n 10 ltac:(lia)). lia.
Qed.

Lemma format_nat_fuel n : 0 <= n -> n < 2 ^ Z.of_nat (S (Z.to_nat (Z.log2 n))).
Proof.
  intros H. rewrite Nat2Z.inj_succ, Z2Nat.id by apply Z.log2_nonneg.
  destruct (decide (n = 0)) as [->|]; [done|]. apply Z.log2_spec. lia.
Qed.

Lemma digits_value_format_nat n : 0 <= n -> digits_value 0 (format_nat n) = Some n.
Proof.
  intros H. unfold format_nat.
  destruct (digits_value_dec_digits _ n [] 0 H (format_nat_fuel n H)) as [-> _].
  cbn. f_equal.
Qed.

Lemma dec_digits_all fuel n acc :
  0 <= n -> forallb is_digit acc = true -> forallb is_digit (dec_digits fuel n acc) = true.
Proof.
  revert n acc. induction fuel as [|k IH]; intros n acc Hn Ha; [done|]. cbn [dec_digits].
  pose proof (Z.mod_pos_bound n 10 ltac:(lia)).
  assert (forallb is_digit (digit (n mod 10) :: acc) = true).
  { cbn. rewrite is_digit_digit by lia. done. }
  case_if; [done|]. apply IH; [apply Z.div_pos; lia|done].
Qed.

Lemma format_nat_digits n : 0 <= n -> forallb is_digit (format_nat n) = true.
Proof. intros H. by apply dec_digits_all. Qed.

Lemma dec_digits_nonempty fuel n acc : dec_digits (S fuel) n acc <> [].
Proof.
  revert n acc. induction fuel as [|k IH]; intros n acc; cbn [dec_digits].
  - by case_if.
  - case_if; [done|]. apply IH.
Qed.

Lemma format_nat_nonempty n : format_nat n <> [].
Proof. apply dec_digits_nonempty. Qed.

(** No leading zero. *)
Lemma dec_digits_head fuel n acc :
  0 < n -> n < 2 ^ Z.of_nat fuel ->
  exists d t, dec_digits fuel n acc = digit d :: t /\ 1 <= d <= 9.
Proof.
  revert n acc. induction fuel as [|k IH]; intros n acc Hn Hlt; [cbn in Hlt; lia|].
  cbn [dec_digits]. destruct (n <? 10) eqn:E.
  - rewrite Z.mod_small by lia. exists n, acc. split; [done|lia].
  - rewrite Nat2Z.inj_succ, Z.pow_succ_r in Hlt by lia. apply IH.
    + apply Z.div_str_pos. lia.
    + apply Z.div_lt_upper_bound; lia.
Qed.

Lemma format_nat_head n :
  0 <= n -> exists c t, format_nat n = c :: t /\ (code c = 48 -> t = []).
Proof.
  intros Hn. destruct (decide (n = 0)) as [->|Hne]; [by exists "0"%char, []|].
  destruct (dec_digits_head _ n [] ltac:(lia) (format_nat_fuel n Hn)) as (d & t & H & Hd).
  exists (digit d), t. split; [done|]. unfold digit. rewrite code_chr; lia.
Qed.

(** Parsing inverts formatting on the whole range of the type. *)
Lemma parse_format_int bits n :
  - 2 ^ (bits - 1) <= n <= 2 ^ (bits - 1) - 1 -> parse_int bits (format_int n) = Some n.
Proof.
  intros Hr. apply between_spec in Hr. unfold format_int, parse_int.
  destruct (n <? 0) eqn:E.
  - apply Z.ltb_lt in E. rewrite ascii_eqb_refl.
    destruct (format_nat (- n)) as [|d l] eqn:Hf; [by apply format_nat_nonempty in Hf|].
    rewrite <- Hf, digits_value_format_nat by lia. by rewrite Z.opp_involutive, Hr.
  - apply Z.ltb_ge in E.
    pose proof (format_nat_digits n E) as Hd.
    destruct (format_nat n) as [|d l] eqn:Hf; [by apply format_nat_nonempty in Hf|].
    cbn in Hd. apply andb_true_iff in Hd as [Hd _].
    assert (ascii_eqb d "-" = false) as ->.
    { apply ascii_eqb_false. intros ->. done. }
    assert (ascii_eqb d "+" = false) as ->.
    { apply ascii_eqb_false. intros ->. done. }
    by rewrite <- Hf, digits_value_format_nat, Hr by lia.
Qed.

#[export] Hint Resolve ascii_eqb_refl cut_prefix_app parse_format_int : claw.

(** What is parsed is in range. *)
Lemma parse_int_range bits s n :
  parse_int bits s = Some n -> - 2 ^ (bits - 1) <= n <= 2 ^ (bits - 1) - 1.
Proof.
  unfold parse_int. destruct s as [|c s]; [done|].
  destruct (if ascii_eqb c "-" then _ else _) as [neg [v|]]; [|done].
  destruct (between _ _ _) eqn:E; [|done]. intros [= <-]. by apply between_spec.
Qed.
