(* ===== verification/GoFloat.v ===== *)
(** * IEEE 754 binary64, the arithmetic behind Go's [float64]

    The bus compares fill ratios computed in [float64].  The model uses the
    executable specification floats of the standard library at precision 53
    and maximal exponent 1024, so a ratio is rounded exactly as the program
    rounds it. *)

From Stdlib Require Import SpecFloat.
From S2P Require Import Prelude.

Abbreviation float64 := spec_float.

(** [float64(n)] for an integer [n]: round to nearest, ties to even. *)
Definition of_int (n : Z) : float64 := binary_normalize 53 1024 n 0 false.

(** [x / y], [x <= y], [x < y] on [float64]; a NaN compares false. *)
Definition fdiv (x y : float64) : float64 := SFdiv 53 1024 x y.
Definition fle (x y : float64) : bool := SFleb x y.
Definition flt (x y : float64) : bool := SFltb x y.
Definition fge (x y : float64) : bool := fle y x.
Definition fgt (x y : float64) : bool := flt y x.

(** The decimal literals [0.8], [0.3] and [1.0] as the compiler rounds them. *)
Definition f0 : float64 := S754_zero false.
Definition f0_8 : float64 := S754_finite false 7205759403792794 (-53).
Definition f0_3 : float64 := S754_finite false 5404319552844595 (-54).
Definition f1_0 : float64 := of_int 1.

(** The literals are the correctly rounded quotients. *)
Lemma f0_8_rounded : f0_8 = fdiv (of_int 8) (of_int 10).
Proof. vm_compute. reflexivity. Qed.

Lemma f0_3_rounded : f0_3 = fdiv (of_int 3) (of_int 10).
Proof. vm_compute. reflexivity. Qed.

Lemma of_int_0 : of_int 0 = f0.
Proof. reflexivity. Qed.

(** An executable sweep: a boolean property of every [n < k]. *)
Definition all_below (k : nat) (f : nat -> bool) : bool := forallb f (seq 0 k).

Lemma all_below_spec k f n : all_below k f = true -> (n < k)%nat -> f n = true.
Proof.
  intros H Hn. unfold all_below in H. rewrite forallb_forall in H.
  apply H. apply in_seq. lia.
Qed.
