(* ===== verification/GoTime.v ===== *)
(** * package time: instants and RFC 3339 with nanoseconds

    An instant is the number of nanoseconds since the Unix epoch; the location
    of a [time.Time] is not kept (every zone of the program is UTC).
    [format_nano] is [t.UTC().Format(time.RFC3339Nano)], [parse_rfc3339] is
    [time.Parse(time.RFC3339Nano, s)].  A formatted instant drops the trailing
    zeros of its fraction: parsing still recovers it, but formatted instants
    are not ordered like the instants themselves. *)

From S2P Require Import Prelude.
From S2P Require Import GoStrings.

(** ** The proleptic Gregorian calendar *)

Definition is_leap (y : Z) : bool :=
  (y mod 4 =? 0) && (negb (y mod 100 =? 0) || (y mod 400 =? 0)).

Definition days_in (m y : Z) : Z :=
  if m =? 2 then (if is_leap y then 29 else 28)
  else if (m =? 4) || (m =? 6) || (m =? 9) || (m =? 11) then 30 else 31.

(** The month and day of a day of a year that starts on 1 March. *)
Definition month_day (doy : Z) : Z * Z :=
  let mp := (5 * doy + 2) / 153 in
  (if mp <? 10 then mp + 3 else mp - 9, doy - (153 * mp + 2) / 5 + 1).

(** A day of a 400-year era that starts on 1 March: centuries of 36524 days,
    cycles of 1461 days, years of 365 days, the last of each group longer. *)
Definition civil_of_doe (doe : Z) : Z * Z * Z :=
  let c := Z.min (doe / 36524) 3 in
  let q := (doe - 36524 * c) / 1461 in
  let y := Z.min ((doe - 36524 * c - 1461 * q) / 365) 3 in
  let doy := doe - 36524 * c - 1461 * q - 365 * y in
  let '(m, d) := month_day doy in
  (100 * c + 4 * q + y + (if m <=? 2 then 1 else 0), m, d).

Definition civil (days : Z) : Z * Z * Z :=
  let z := days + 719468 in
  let '(y, m, d) := civil_of_doe (z mod 146097) in
  (y + 400 * (z / 146097), m, d).

Definition doe_of_civil (yoe m d : Z) : Z :=
  let doy := (153 * (if 2 <? m then m - 3 else m + 9) + 2) / 5 + d - 1 in
  yoe * 365 + yoe / 4 - yoe / 100 + doy.

Definition days_of (y m d : Z) : Z :=
  let y' := if m <=? 2 then y - 1 else y in
  y' / 400 * 146097 + doe_of_civil (y' mod 400) m d - 719468.

Fixpoint sweep (k : nat) (z : Z) (f : Z -> bool) : bool :=
  match k with O => true | S k' => f z && sweep k' (z + 1) f end.

Lemma sweep_spec k z f n :
  sweep k z f = true -> z <= n < z + Z.of_nat k -> f n = true.
Proof.
  revert z. induction k as [|k IH]; intros z; [lia|].
  cbn [sweep]. rewrite andb_true_iff. intros [Hz Hk] Hn.
  destruct (decide (n = z)) as [->|]; [done|]. apply (IH (z + 1)); [done|lia].
Qed.

Definition doy_check (doy : Z) : bool :=
  let '(m, d) := month_day doy in
  between 1 m 12 && between 1 d 31 &&
  (between 1 d (days_in m 1) || ((doy =? 365) && (m =? 2) && (d =? 29))) &&
  ((153 * (if 2 <? m then m - 3 else m + 9) + 2) / 5 + d - 1 =? doy).

Lemma doy_check_all doy : 0 <= doy < 366 -> doy_check doy = true.
Proof.
  intros H. apply (sweep_spec (Z.to_nat 366) 0); [vm_compute; reflexivity|lia].
Qed.

Lemma days_in_not_feb m y y' : m <> 2 -> days_in m y = days_in m y'.
Proof. intros H. unfold days_in. by apply Z.eqb_neq in H as ->. Qed.

Lemma is_leap_4 c q :
  is_leap (100 * c + 4 * q) = true <-> (q mod 25 <> 0 \/ c mod 4 = 0 /\ q = 0) \/
    (100 * c + 4 * q) mod 400 = 0.
Proof.
  unfold is_leap.
  replace (100 * c + 4 * q) with ((25 * c + q) * 4) by lia.
  rewrite Z.mod_mul by lia. cbn [Z.eqb andb]. change (0 =? 0) with true. cbn [andb].
  rewrite orb_true_iff, negb_true_iff, Z.eqb_neq, Z.eqb_eq.
  replace ((25 * c + q) * 4) with (q * 4 + c * 100) by lia. rewrite Z.mod_add by lia.
  replace (q * 4 + c * 100) with ((25 * c + q) * 4) by lia.
  pose proof (Zmult_mod_distr_r q 25 4). change (25 * 4) with 100 in *.
  split.
  - intros [H1|H1]; [|by right]. left. left. lia.
  - intros [[H1|[H1 ->]]|H1]; [left; lia|right|by right].
    replace ((25 * c + 0) * 4) with (c * 100) by lia. change 400 with (4 * 100).
    rewrite Zmult_mod_distr_r. lia.
Qed.

Lemma civil_of_doe_spec doe y m d :
  0 <= doe < 146097 -> civil_of_doe doe = (y, m, d) ->
  exists yoe, y = yoe + (if m <=? 2 then 1 else 0) /\ 0 <= yoe <= 399 /\
    1 <= m <= 12 /\ 1 <= d <= days_in m y /\ doe_of_civil yoe m d = doe.
Proof.
  intros Hdoe. unfold civil_of_doe.
  set (c := Z.min (doe / 36524) 3). set (q := (doe - 36524 * c) / 1461).
  set (y4 := Z.min ((doe - 36524 * c - 1461 * q) / 365) 3).
  set (doy := doe - 36524 * c - 1461 * q - 365 * y4).
  assert (Hc : 0 <= c <= 3 /\ 0 <= doe - 36524 * c <= 36524 /\
    (c < 3 -> doe - 36524 * c < 36524)).
  { subst c. pose proof (Z.div_mod doe 36524 ltac:(lia)).
    pose proof (Z.mod_pos_bound doe 36524 ltac:(lia)). lia. }
  assert (Hq : 0 <= q <= 24 /\ 0 <= doe - 36524 * c - 1461 * q < 1461).
  { subst q. pose proof (Z.div_mod (doe - 36524 * c) 1461 ltac:(lia)).
    pose proof (Z.mod_pos_bound (doe - 36524 * c) 1461 ltac:(lia)). lia. }
  assert (Hy : 0 <= y4 <= 3 /\ 0 <= doy <= 365 /\ (y4 < 3 -> doy < 365)).
  { subst doy y4. set (r := doe - 36524 * c - 1461 * q) in *.
    pose proof (Z.div_mod r 365 ltac:(lia)). pose proof (Z.mod_pos_bound r 365 ltac:(lia)). lia. }
  pose proof (doy_check_all doy ltac:(lia)) as Hck. unfold doy_check in Hck.
  destruct (month_day doy) as [m0 d0]. intros [= <- <- <-].
  rewrite !andb_true_iff, orb_true_iff, !andb_true_iff, !between_spec, !Z.eqb_eq in Hck.
  destruct Hck as [[[Hm Hd31] Hd] Hdoy].
  exists (100 * c + 4 * q + y4). split_and!; try lia.
  - destruct Hd as [Hd|[[H365 ->] ->]].
    + destruct (decide (m0 = 2)) as [->|Hne].
      * change (days_in 2 1) with 28 in Hd. unfold days_in. change (2 =? 2) with true. cbn iota. case_if; lia.
      * rewrite (days_in_not_feb m0 _ 1); [lia|done].
    + cbn [Z.leb]. unfold days_in. change (2 =? 2) with true. cbn iota.
      change (2 <=? 2) with true. cbn iota.
      assert (y4 = 3) as Ey by lia.
      replace (100 * c + 4 * q + y4 + 1) with (100 * c + 4 * (q + 1)) by lia.
      assert (is_leap (100 * c + 4 * (q + 1)) = true) as ->; [|lia].
      apply is_leap_4. destruct (decide (q = 24)) as [->|].
      * right. assert (c = 3) as -> by lia. reflexivity.
      * left. left. rewrite Z.mod_small by lia. lia.
  - unfold doe_of_civil. rewrite Hdoy.
    replace (100 * c + 4 * q + y4) with (y4 + (25 * c + q) * 4) by lia.
    rewrite Z.div_add, (Z.div_small y4 4) by lia.
    replace (y4 + (25 * c + q) * 4) with ((4 * q + y4) + c * 100) by lia.
    rewrite Z.div_add, (Z.div_small _ 100) by lia. lia.
Qed.

Lemma is_leap_era y e : is_leap (y + 400 * e) = is_leap y.
Proof.
  unfold is_leap.
  replace ((y + 400 * e) mod 4) with (y mod 4)
    by (replace (400 * e) with ((100 * e) * 4) by lia; by rewrite Z.mod_add).
  replace ((y + 400 * e) mod 100) with (y mod 100)
    by (replace (400 * e) with ((4 * e) * 100) by lia; by rewrite Z.mod_add).
  replace ((y + 400 * e) mod 400) with (y mod 400)
    by (replace (400 * e) with (e * 400) by lia; by rewrite Z.mod_add).
  done.
Qed.

Lemma civil_days days y m d :
  civil days = (y, m, d) ->
  1 <= m <= 12 /\ 1 <= d <= days_in m y /\ days_of y m d = days.
Proof.
  unfold civil. set (z := days + 719468).
  pose proof (Z.mod_pos_bound z 146097 ltac:(lia)) as Hb.
  destruct (civil_of_doe (z mod 146097)) as [[y0 m0] d0] eqn:E. intros [= <- <- <-].
  destruct (civil_of_doe_spec _ _ _ _ Hb E) as (yoe & -> & H1 & H2 & H3 & H4).
  split; [done|]. split; [unfold days_in in *; by rewrite is_leap_era|].
  unfold days_of. set (e := z / 146097).
  replace (if m0 <=? 2 then _ else _) with (yoe + e * 400) by (case_if; lia).
  rewrite Z.div_add, Z.mod_add, Z.div_small, Z.mod_small, H4 by lia.
  pose proof (Z.div_mod z 146097 ltac:(lia)). lia.
Qed.

(** ** Fixed-width decimal fields *)

Fixpoint fixed (w : nat) (n : Z) : bytes :=
  match w with O => [] | S k => fixed k (n / 10) ++ [digit (n mod 10)] end.

Definition read_fixed (w : nat) (lo hi : Z) (l : bytes) : option (Z * bytes) :=
  if decide (length (take w l) = w) then
    match digits_value 0 (take w l) with
    | Some v => if between lo v hi then Some (v, drop w l) else None
    | None => None
    end
  else None.

Definition read_char (c : ascii) (l : bytes) : option bytes := cut_prefix [c] l.

Lemma fixed_length w n : length (fixed w n) = w.
Proof. revert n. induction w as [|w IH]; intros n; [done|]. cbn. rewrite length_app, IH. cbn. lia. Qed.

Lemma digits_value_app a s t :
  digits_value a (s ++ t) = digits_value a s ≫= (fun b => digits_value b t).
Proof. revert a. induction s as [|c s IH]; intros a; cbn; [done|]. case_if; [apply IH|done]. Qed.

Lemma fixed_value w n :
  0 <= n < 10 ^ Z.of_nat w -> digits_value 0 (fixed w n) = Some n.
Proof.
  revert n. induction w as [|w IH]; intros n Hn; [cbn in *; f_equal; lia|].
  cbn [fixed]. rewrite Nat2Z.inj_succ, Z.pow_succ_r in Hn by lia.
  pose proof (Z.mod_pos_bound n 10 ltac:(lia)).
  rewrite digits_value_app, IH.
  - cbn [base.mbind option_bind digits_value].
    rewrite is_digit_digit, digit_val_digit by lia. f_equal.
    pose proof (Z.div_mod n 10 ltac:(lia)). lia.
  - split; [apply Z.div_pos; lia|]. apply Z.div_lt_upper_bound; lia.
Qed.

Lemma read_fixed_fixed w lo hi n l :
  0 <= n < 10 ^ Z.of_nat w -> lo <= n <= hi ->
  read_fixed w lo hi (fixed w n ++ l) = Some (n, l).
Proof.
  intros Hn Hb. unfold read_fixed.
  rewrite take_app_length', drop_app_length' by (by rewrite fixed_length).
  rewrite decide_True by apply fixed_length.
  rewrite fixed_value by done. apply between_spec in Hb. by rewrite Hb.
Qed.

(** ** Fractions of a second *)

Fixpoint trim_zeros (l : bytes) : bytes :=
  match l with
  | [] => []
  | c :: t => match trim_zeros t with
              | [] => if ascii_eqb c "0" then [] else [c]
              | t' => c :: t'
              end
  end.

Definition pad_zeros (w : nat) (l : bytes) : bytes := l ++ repeat "0"%char (w - length l).

Lemma pad_trim_zeros l : pad_zeros (length l) (trim_zeros l) = l.
Proof.
  unfold pad_zeros. induction l as [|c t IH]; [done|]. cbn [trim_zeros length].
  destruct (trim_zeros t) as [|x t'].
  - destruct (ascii_eqb c "0") eqn:E.
    + apply ascii_eqb_true in E as ->. cbn in IH |- *. rewrite Nat.sub_0_r in IH.
      by rewrite IH.
    + cbn in IH |- *. rewrite Nat.sub_0_r in *. by rewrite IH.
  - cbn [app length] in *. rewrite Nat.sub_succ. by rewrite IH.
Qed.

Lemma trim_zeros_length l : (length (trim_zeros l) <= length l)%nat.
Proof.
  induction l as [|c t IH]; cbn [trim_zeros length]; [lia|].
  destruct (trim_zeros t); [case_if; cbn in *; lia|cbn in *; lia].
Qed.

Lemma trim_zeros_digits l : forallb is_digit l = true -> forallb is_digit (trim_zeros l) = true.
Proof.
  induction l as [|c t IH]; cbn [trim_zeros forallb]; [done|].
  rewrite andb_true_iff. intros [Hc Ht]. specialize (IH Ht).
  destruct (trim_zeros t) as [|x t']; [case_if; [done|]; cbn; by rewrite Hc|].
  cbn [forallb] in *. by rewrite Hc.
Qed.

Definition format_frac (ns : Z) : bytes :=
  match trim_zeros (fixed 9 ns) with [] => [] | ds => "."%char :: ds end.

Fixpoint span_digits (l : bytes) : bytes * bytes :=
  match l with
  | c :: t => if is_digit c then let '(a, b) := span_digits t in (c :: a, b) else ([], l)
  | [] => ([], [])
  end.

Definition parse_frac (l : bytes) : option (Z * bytes) :=
  match l with
  | c :: t =>
      if ascii_eqb c "." then
        match span_digits t with
        | ([], _) => None
        | (ds, r) => (fun n => (n, r)) <$> digits_value 0 (pad_zeros 9 (take 9 ds))
        end
      else Some (0, l)
  | [] => Some (0, [])
  end.

Lemma span_digits_app ds c t :
  forallb is_digit ds = true -> is_digit c = false ->
  span_digits (ds ++ c :: t) = (ds, c :: t).
Proof.
  intros Hd Hc. induction ds as [|d ds IH]; cbn in *; [by rewrite Hc|].
  apply andb_true_iff in Hd as [-> Hd]. by rewrite IH.
Qed.

Lemma fixed_digits w n : 0 <= n -> forallb is_digit (fixed w n) = true.
Proof.
  revert n. induction w as [|w IH]; intros n Hn; [done|]. cbn [fixed].
  pose proof (Z.mod_pos_bound n 10 ltac:(lia)).
  rewrite forallb_app, IH by (apply Z.div_pos; lia). cbn. by rewrite is_digit_digit by lia.
Qed.

Lemma parse_frac_format ns :
  0 <= ns < 1000000000 -> parse_frac (format_frac ns ++ ["Z"%char]) = Some (ns, ["Z"%char]).
Proof.
  intros H. unfold format_frac.
  pose proof (pad_trim_zeros (fixed 9 ns)) as Hp. rewrite fixed_length in Hp.
  pose proof (trim_zeros_digits _ (fixed_digits 9 ns ltac:(lia))) as Hd.
  pose proof (trim_zeros_length (fixed 9 ns)) as Hl. rewrite fixed_length in Hl.
  pose proof (fixed_value 9 ns ltac:(lia)) as Hv.
  destruct (trim_zeros (fixed 9 ns)) as [|c t] eqn:E.
  - rewrite <- Hp in Hv. vm_compute in Hv. injection Hv as <-. reflexivity.
  - cbn [app parse_frac]. rewrite ascii_eqb_refl.
    change (c :: t ++ ["Z"%char]) with ((c :: t) ++ ["Z"%char]).
    rewrite span_digits_app by done.
    rewrite take_ge by (cbn in *; lia). rewrite Hp, Hv. done.
Qed.

(** ** RFC 3339 *)

Definition ns_per_s : Z := 1000000000.
Definition ns_per_day : Z := 86400 * ns_per_s.

Definition format_nano (t : Z) : bytes :=
  let '(y, m, d) := civil (t / ns_per_day) in
  let r := t mod ns_per_day in
  let s := r / ns_per_s in
  fixed 4 y ++ ["-"%char] ++ fixed 2 m ++ ["-"%char] ++ fixed 2 d ++ ["T"%char] ++
  fixed 2 (s / 3600) ++ [":"%char] ++ fixed 2 (s / 60 mod 60) ++ [":"%char] ++
  fixed 2 (s mod 60) ++ format_frac (r mod ns_per_s) ++ ["Z"%char].

(** The offset of a zone, in seconds east of UTC. *)
Definition parse_zone (l : bytes) : option Z :=
  match l with
  | [c] => if ascii_eqb c "Z" then Some 0 else None
  | c :: t =>
      if ascii_eqb c "+" || ascii_eqb c "-" then
        '(h, t) ← read_fixed 2 0 23 t;
        t ← read_char ":" t;
        '(mi, t) ← read_fixed 2 0 59 t;
        match t with
        | [] => Some ((if ascii_eqb c "-" then -1 else 1) * (h * 3600 + mi * 60))
        | _ => None
        end
      else None
  | [] => None
  end.

Definition parse_rfc3339 (l : bytes) : option Z :=
  '(y, l) ← read_fixed 4 0 9999 l; l ← read_char "-" l;
  '(m, l) ← read_fixed 2 1 12 l; l ← read_char "-" l;
  '(d, l) ← read_fixed 2 1 (days_in m y) l; l ← read_char "T" l;
  '(h, l) ← read_fixed 2 0 23 l; l ← read_char ":" l;
  '(mi, l) ← read_fixed 2 0 59 l; l ← read_char ":" l;
  '(s, l) ← read_fixed 2 0 59 l;
  '(ns, l) ← parse_frac l;
  off ← parse_zone l;
  Some (days_of y m d * ns_per_day + (h * 3600 + mi * 60 + s - off) * ns_per_s + ns).

(** The years RFC 3339 can write: [MarshalJSON] refuses the others. *)
Definition year_ok (t : Z) : bool :=
  let '(y, _, _) := civil (t / ns_per_day) in between 0 y 9999.

Lemma read_char_cons c l : read_char c (c :: l) = Some l.
Proof. unfold read_char. cbn. by rewrite ascii_eqb_refl. Qed.

Theorem parse_format_nano t : year_ok t = true -> parse_rfc3339 (format_nano t) = Some t.
Proof.
  unfold year_ok, format_nano.
  destruct (civil (t / ns_per_day)) as [[y m] d] eqn:Hc. intros Hy%between_spec.
  destruct (civil_days _ _ _ _ Hc) as (Hm & Hd & Hdays).
  assert (days_in m y <= 31) as Hmax by (unfold days_in; repeat case_if; lia).
  set (r := t mod ns_per_day). set (s := r / ns_per_s).
  assert (0 <= r < ns_per_day) as Hr by (apply Z.mod_pos_bound; done).
  assert (0 <= r mod ns_per_s < 1000000000) as Hn by (apply Z.mod_pos_bound; done).
  assert (0 <= s < 86400) as Hs.
  { split; [apply Z.div_pos; done || lia|]. apply Z.div_lt_upper_bound; [done|]. unfold ns_per_day in Hr. lia. }
  assert (0 <= s / 3600 <= 23) as Hh.
  { split; [apply Z.div_pos; lia|]. assert (s / 3600 < 24); [|lia]. apply Z.div_lt_upper_bound; lia. }
  pose proof (Z.mod_pos_bound (s / 60) 60 ltac:(lia)). pose proof (Z.mod_pos_bound s 60 ltac:(lia)).
  unfold parse_rfc3339.
  rewrite read_fixed_fixed by lia. cbn [base.mbind option_bind app]. rewrite read_char_cons. cbn [base.mbind option_bind].
  rewrite read_fixed_fixed by lia. cbn [base.mbind option_bind app]. rewrite read_char_cons. cbn [base.mbind option_bind].
  rewrite read_fixed_fixed by lia. cbn [base.mbind option_bind app]. rewrite read_char_cons. cbn [base.mbind option_bind].
  rewrite read_fixed_fixed by lia. cbn [base.mbind option_bind app]. rewrite read_char_cons. cbn [base.mbind option_bind].
  rewrite read_fixed_fixed by lia. cbn [base.mbind option_bind app]. rewrite read_char_cons. cbn [base.mbind option_bind].
  rewrite read_fixed_fixed by lia. cbn [base.mbind option_bind].
  rewrite parse_frac_format by done. cbn [base.mbind option_bind parse_zone].
  rewrite ascii_eqb_refl, Hdays.
  pose proof (Z.div_mod t ns_per_day ltac:(done)).
  pose proof (Z.div_mod r ns_per_s ltac:(done)).
  assert (s / 3600 * 3600 + s / 60 mod 60 * 60 + s mod 60 = s) as Hsum.
  { pose proof (Z.div_mod s 60 ltac:(lia)). pose proof (Z.div_mod (s / 60) 60 ltac:(lia)).
    rewrite Z.div_div in * by lia. change (60 * 60) with 3600 in *. lia. }
  cbn [base.mbind option_bind]. f_equal. rewrite Z.sub_0_r, Hsum. subst s r. lia.
Qed.

(** Formatted instants are not ordered like the instants: the fraction ".1Z"
    follows ".12Z" in the order of strings. *)
Example format_not_monotone :
  100000000 < 120000000 /\
  bytes_lt (format_nano 100000000) (format_nano 120000000) = false /\
  bytes_lt (format_nano 120000000) (format_nano 100000000) = true.
Proof. vm_compute. done. Qed.

(** The layout [RFC3339] has no fraction. *)
Definition trunc_s (t : Z) : Z := t / ns_per_s * ns_per_s.
Definition format_rfc3339 (t : Z) : bytes := format_nano (trunc_s t).

(** [a.Sub(b)] saturates at the bounds of a duration. *)
Definition time_sub (a b : Z) : Z := Z.max (- 2 ^ 63) (Z.min (2 ^ 63 - 1) (a - b)).
