(* ===== verification/Json.v ===== *)
(** * encoding/json

    The wire and the write-ahead log carry JSON produced by [json.Marshal] and
    read back by [json.Unmarshal].  A document keeps its strings in escaped
    form and its numbers as literals, as [json.RawMessage] does; [quote] and
    [unquote] convert to and from Go strings (UTF-8 handling and HTML escaping
    included).  The theorems of this file are the round trips the other files
    rely on. *)

From S2P Require Import Prelude.
From S2P Require Import GoStrings.

Definition dquote : ascii := chr 34.
Definition bslash : ascii := chr 92.

(** ** UTF-8, as unicode/utf8 decodes it *)

Definition is_cont (c : ascii) : bool := between 128 (code c) 191.

Definition utf8_2 (a b : ascii) : bool := between 194 (code a) 223 && is_cont b.

Definition utf8_3 (a b c : ascii) : bool :=
  is_cont c &&
  (((code a =? 224) && between 160 (code b) 191) ||
   ((between 225 (code a) 236 || between 238 (code a) 239) && is_cont b) ||
   ((code a =? 237) && between 128 (code b) 159)).

Definition utf8_4 (a b c d : ascii) : bool :=
  is_cont c && is_cont d &&
  (((code a =? 240) && between 144 (code b) 191) ||
   (between 241 (code a) 243 && is_cont b) ||
   ((code a =? 244) && between 128 (code b) 143)).

(** One decoded rune: an ASCII byte, the bytes of a longer rune, or a byte
    that starts no valid encoding ([RuneError], width 1). *)
Inductive tok := TAscii (c : ascii) | TRune (l : bytes) | TBad (c : ascii).

Fixpoint runes (l : bytes) : list tok :=
  match l with
  | [] => []
  | a :: t =>
      if code a <? 128 then TAscii a :: runes t
      else match t with
           | [] => TBad a :: runes t
           | b :: t2 =>
               if utf8_2 a b then TRune [a; b] :: runes t2
               else match t2 with
                    | [] => TBad a :: runes t
                    | c :: t3 =>
                        if utf8_3 a b c then TRune [a; b; c] :: runes t3
                        else match t3 with
                             | [] => TBad a :: runes t
                             | d :: t4 =>
                                 if utf8_4 a b c d then TRune [a; b; c; d] :: runes t4
                                 else TBad a :: runes t
                             end
                    end
           end
  end.

Definition tok_bytes (t : tok) : bytes :=
  match t with TAscii c => [c] | TRune l => l | TBad c => [c] end.

Definition good_tok (t : tok) : bool :=
  match t with
  | TAscii c => code c <? 128
  | TRune [a; b] => negb (code a <? 128) && utf8_2 a b
  | TRune [a; b; c] => negb (code a <? 128) && negb (utf8_2 a b) && utf8_3 a b c
  | TRune [a; b; c; d] =>
      negb (code a <? 128) && negb (utf8_2 a b) && negb (utf8_3 a b c) && utf8_4 a b c d
  | _ => false
  end.

(** [utf8.Valid]. *)
Definition valid_utf8 (s : bytes) : bool := forallb good_tok (runes s).

(** The replacement character U+FFFD in UTF-8. *)
Definition rune_error : bytes := [chr 239; chr 191; chr 189].

(** ** Quoting: the body of a string literal, as [appendString] with HTML
    escaping writes it *)

Definition hex_digit (n : Z) : ascii := chr (if n <? 10 then 48 + n else 87 + n).

Definition u_escape (r : Z) : bytes :=
  [bslash; "u"%char; hex_digit (r / 4096 mod 16); hex_digit (r / 256 mod 16);
   hex_digit (r / 16 mod 16); hex_digit (r mod 16)].

(** The HTML-unsafe bytes [<], [>], [&]. *)
Definition html_unsafe (c : ascii) : bool :=
  (code c =? 60) || (code c =? 62) || (code c =? 38).

Definition quote_ascii (c : ascii) : bytes :=
  if (code c =? 34) || (code c =? 92) then [bslash; c]
  else if code c =? 8 then [bslash; "b"%char]
  else if code c =? 12 then [bslash; "f"%char]
  else if code c =? 10 then [bslash; "n"%char]
  else if code c =? 13 then [bslash; "r"%char]
  else if code c =? 9 then [bslash; "t"%char]
  else if (code c <? 32) || html_unsafe c then u_escape (code c)
  else [c].

(** U+2028 and U+2029, the runes escaped for JavaScript. *)
Definition line_sep (l : bytes) : option Z :=
  match map code l with
  | [226; 128; 168] => Some 8232
  | [226; 128; 169] => Some 8233
  | _ => None
  end.

Definition quote_tok (t : tok) : bytes :=
  match t with
  | TAscii c => quote_ascii c
  | TRune l => match line_sep l with Some r => u_escape r | None => l end
  | TBad _ => u_escape 65533
  end.

Definition quote (s : bytes) : bytes := flat_map quote_tok (runes s).

(** ** Unquoting, as [unquoteBytes] reads the body of a literal *)

Definition hex_val (c : ascii) : option Z :=
  if between 48 (code c) 57 then Some (code c - 48)
  else if between 97 (code c) 102 then Some (code c - 87)
  else if between 65 (code c) 70 then Some (code c - 55)
  else None.

Definition hex4 (a b c d : ascii) : option Z :=
  match hex_val a, hex_val b, hex_val c, hex_val d with
  | Some w, Some x, Some y, Some z => Some (w * 4096 + x * 256 + y * 16 + z)
  | _, _, _, _ => None
  end.

(** [utf8.EncodeRune]. *)
Definition encode_rune (r : Z) : bytes :=
  if r <? 128 then [chr r]
  else if r <? 2048 then [chr (192 + r / 64); chr (128 + r mod 64)]
  else if between 55296 r 57343 || (1114111 <? r) then rune_error
  else if r <? 65536 then [chr (224 + r / 4096); chr (128 + r / 64 mod 64); chr (128 + r mod 64)]
  else [chr (240 + r / 262144); chr (128 + r / 4096 mod 64);
        chr (128 + r / 64 mod 64); chr (128 + r mod 64)].

Definition simple_escape (e : ascii) : ascii :=
  if code e =? 98 then chr 8
  else if code e =? 102 then chr 12
  else if code e =? 110 then chr 10
  else if code e =? 114 then chr 13
  else if code e =? 116 then chr 9
  else e.

Definition is_surrogate (r : Z) : bool := between 55296 r 57343.

(** [utf16.DecodeRune] on a high and a low surrogate. *)
Definition surrogate_pair (r1 r2 : Z) : option Z :=
  if between 55296 r1 56319 && between 56320 r2 57343
  then Some ((r1 - 55296) * 1024 + (r2 - 56320) + 65536) else None.

Fixpoint unquote_toks (l : list tok) : option bytes :=
  match l with
  | [] => Some []
  | TBad _ :: t => app rune_error <$> unquote_toks t
  | TRune r :: t => app r <$> unquote_toks t
  | TAscii c :: t =>
      if negb (ascii_eqb c bslash) then cons c <$> unquote_toks t
      else match t with
           | TAscii e :: t1 =>
               if negb (ascii_eqb e "u") then cons (simple_escape e) <$> unquote_toks t1
               else match t1 with
                    | TAscii h1 :: TAscii h2 :: TAscii h3 :: TAscii h4 :: t5 =>
                        match hex4 h1 h2 h3 h4 with
                        | None => None
                        | Some r =>
                            if negb (is_surrogate r) then app (encode_rune r) <$> unquote_toks t5
                            else match t5 with
                                 | TAscii c2 :: TAscii u2 :: TAscii k1 :: TAscii k2 ::
                                   TAscii k3 :: TAscii k4 :: t11 =>
                                     match (if ascii_eqb c2 bslash && ascii_eqb u2 "u"
                                            then hex4 k1 k2 k3 k4 ≫= surrogate_pair r
                                            else None) with
                                     | Some r' => app (encode_rune r') <$> unquote_toks t11
                                     | None => app rune_error <$> unquote_toks t5
                                     end
                                 | _ => app rune_error <$> unquote_toks t5
                                 end
                        end
                    | _ => None
                    end
           | _ => None
           end
  end.

Definition unquote (raw : bytes) : option bytes := unquote_toks (runes raw).

(** ** Documents *)

#[warnings="-register-all"]
Inductive json :=
| JNull
| JBool (b : bool)
| JNum (lit : bytes)
| JStr (raw : bytes)
| JArr (l : list json)
| JObj (l : list (bytes * json)).

Fixpoint json_size (v : json) : nat :=
  match v with
  | JArr l => S (list_sum (map (fun v => S (json_size v)) l))
  | JObj l => S (list_sum (map (fun '(_, v) => S (json_size v)) l))
  | _ => 1%nat
  end.

(** Induction through the two nested lists. *)
Section JsonInd.
Context (P : json -> Prop).
Hypothesis Hnull : P JNull.
Hypothesis Hbool : forall b, P (JBool b).
Hypothesis Hnum : forall l, P (JNum l).
Hypothesis Hstr : forall r, P (JStr r).
Hypothesis Harr : forall l, Forall P l -> P (JArr l).
Hypothesis Hobj : forall l, Forall (fun kv => P (snd kv)) l -> P (JObj l).

Fixpoint json_ind' (v : json) : P v :=
  match v with
  | JNull => Hnull
  | JBool b => Hbool b
  | JNum l => Hnum l
  | JStr r => Hstr r
  | JArr l =>
      Harr l ((fix go l := match l return Forall P l with
               | [] => @List.Forall_nil _ _
               | v :: l' => @List.Forall_cons _ _ v l' (json_ind' v) (go l')
               end) l)
  | JObj l =>
      Hobj l ((fix go l := match l return Forall (fun kv => P (snd kv)) l with
               | [] => @List.Forall_nil _ _
               | (k, v) :: l' => @List.Forall_cons _ _ (k, v) l' (json_ind' v) (go l')
               end) l)
  end.
End JsonInd.

(** ** Printing, compact *)

Definition print_str (raw : bytes) : bytes := dquote :: raw ++ [dquote].

Definition lit_true : bytes := bytes_of "true".
Definition lit_false : bytes := bytes_of "false".
Definition lit_null : bytes := bytes_of "null".

Fixpoint print (v : json) : bytes :=
  match v with
  | JNull => lit_null
  | JBool true => lit_true
  | JBool false => lit_false
  | JNum l => l
  | JStr r => print_str r
  | JArr l =>
      "["%char ::
      match l with
      | [] => ["]"%char]
      | v0 :: l' => print v0 ++ flat_map (fun v => ","%char :: print v) l' ++ ["]"%char]
      end
  | JObj l =>
      "{"%char ::
      match l with
      | [] => ["}"%char]
      | (k0, v0) :: l' =>
          print_str k0 ++ ":"%char :: print v0 ++
          flat_map (fun '(k, v) => ","%char :: print_str k ++ ":"%char :: print v) l' ++
          ["}"%char]
      end
  end.

(** ** Parsing, as the scanner of encoding/json accepts documents *)

Definition is_ws (c : ascii) : bool :=
  (code c =? 32) || (code c =? 9) || (code c =? 10) || (code c =? 13).

Fixpoint skip_ws (l : bytes) : bytes :=
  match l with c :: t => if is_ws c then skip_ws t else l | [] => [] end.

Definition escape_char (e : ascii) : bool :=
  (code e =? 98) || (code e =? 102) || (code e =? 110) || (code e =? 114) ||
  (code e =? 116) || (code e =? 92) || (code e =? 47) || (code e =? 34).

Definition is_hex (c : ascii) : bool := bool_decide (is_Some (hex_val c)).

(** The body of a string literal up to its closing quote. *)
Fixpoint scan_body (l : bytes) : option (bytes * bytes) :=
  let pre p r := match r with Some (a, b) => Some (p ++ a, b) | None => None end in
  match l with
  | [] => None
  | c :: t =>
      if ascii_eqb c dquote then Some ([], t)
      else if ascii_eqb c bslash then
        match t with
        | [] => None
        | e :: t1 =>
            if ascii_eqb e "u" then
              match t1 with
              | h1 :: h2 :: h3 :: h4 :: t5 =>
                  if is_hex h1 && is_hex h2 && is_hex h3 && is_hex h4
                  then pre [c; e; h1; h2; h3; h4] (scan_body t5) else None
              | _ => None
              end
            else if escape_char e then pre [c; e] (scan_body t1) else None
        end
      else if code c <? 32 then None
      else pre [c] (scan_body t)
  end.

Fixpoint take_digits (l : bytes) : bytes * bytes :=
  match l with
  | c :: t => if is_digit c then let '(a, b) := take_digits t in (c :: a, b) else ([], l)
  | [] => ([], [])
  end.

Definition opt_byte (p : ascii -> bool) (l : bytes) : bytes * bytes :=
  match l with c :: t => if p c then ([c], t) else ([], l) | [] => ([], []) end.

(** A number literal: sign, integer part without leading zeros, fraction and
    exponent. *)
Definition scan_int (l : bytes) : option (bytes * bytes) :=
  match l with
  | c :: t =>
      if code c =? 48 then Some ([c], t)
      else if is_digit c then let '(a, b) := take_digits t in Some (c :: a, b)
      else None
  | [] => None
  end.

Definition scan_frac (l : bytes) : option (bytes * bytes) :=
  match l with
  | c :: t =>
      if code c =? 46 then
        match take_digits t with
        | ([], _) => None
        | (ds, r) => Some (c :: ds, r)
        end
      else Some ([], l)
  | [] => Some ([], [])
  end.

Definition scan_exp (l : bytes) : option (bytes * bytes) :=
  match l with
  | c :: t =>
      if (code c =? 101) || (code c =? 69) then
        let '(s, t1) := opt_byte (fun d => (code d =? 43) || (code d =? 45)) t in
        match take_digits t1 with
        | ([], _) => None
        | (ds, r) => Some (c :: s ++ ds, r)
        end
      else Some ([], l)
  | [] => Some ([], [])
  end.

Definition scan_num (l : bytes) : option (bytes * bytes) :=
  let '(s, l1) := opt_byte (fun d => code d =? 45) l in
  match scan_int l1 with
  | None => None
  | Some (i, l2) =>
      match scan_frac l2 with
      | None => None
      | Some (f, l3) =>
          match scan_exp l3 with
          | None => None
          | Some (e, l4) => Some (s ++ i ++ f ++ e, l4)
          end
      end
  end.

Definition parse_str (l : bytes) : option (bytes * bytes) :=
  match l with c :: t => if ascii_eqb c dquote then scan_body t else None | [] => None end.

(** Recursive descent.  The fuel bounds the nesting and the number of
    elements, so the length of the input is always enough. *)
Fixpoint parse_value (fuel : nat) (l : bytes) : option (json * bytes) :=
  match fuel with
  | O => None
  | S k =>
      match skip_ws l with
      | [] => None
      | c :: t =>
          if ascii_eqb c dquote then
            match scan_body t with Some (r, l') => Some (JStr r, l') | None => None end
          else if ascii_eqb c "[" then
            match skip_ws t with
            | [] => None
            | d :: t' =>
                if ascii_eqb d "]" then Some (JArr [], t')
                else match parse_value k (d :: t') with
                     | None => None
                     | Some (v, l') =>
                         match parse_elems k l' with
                         | Some (vs, l'') => Some (JArr (v :: vs), l'')
                         | None => None
                         end
                     end
            end
          else if ascii_eqb c "{" then
            match skip_ws t with
            | [] => None
            | d :: t' =>
                if ascii_eqb d "}" then Some (JObj [], t')
                else match parse_member k (d :: t') with
                     | None => None
                     | Some (kv, l') =>
                         match parse_members k l' with
                         | Some (kvs, l'') => Some (JObj (kv :: kvs), l'')
                         | None => None
                         end
                     end
            end
          else if (code c =? 45) || is_digit c then
            match scan_num (c :: t) with Some (n, l') => Some (JNum n, l') | None => None end
          else match cut_prefix lit_true (c :: t) with
               | Some l' => Some (JBool true, l')
               | None =>
                   match cut_prefix lit_false (c :: t) with
                   | Some l' => Some (JBool false, l')
                   | None =>
                       match cut_prefix lit_null (c :: t) with
                       | Some l' => Some (JNull, l')
                       | None => None
                       end
                   end
               end
      end
  end
with parse_elems (fuel : nat) (l : bytes) : option (list json * bytes) :=
  match fuel with
  | O => None
  | S k =>
      match skip_ws l with
      | [] => None
      | c :: t =>
          if ascii_eqb c "]" then Some ([], t)
          else if ascii_eqb c "," then
            match parse_value k t with
            | None => None
            | Some (v, l') =>
                match parse_elems k l' with
                | Some (vs, l'') => Some (v :: vs, l'')
                | None => None
                end
            end
          else None
      end
  end
with parse_member (fuel : nat) (l : bytes) : option ((bytes * json) * bytes) :=
  match fuel with
  | O => None
  | S k =>
      match parse_str (skip_ws l) with
      | None => None
      | Some (key, l1) =>
          match skip_ws l1 with
          | [] => None
          | c :: t =>
              if ascii_eqb c ":" then
                match parse_value k t with
                | Some (v, l2) => Some ((key, v), l2)
                | None => None
                end
              else None
          end
      end
  end
with parse_members (fuel : nat) (l : bytes) : option (list (bytes * json) * bytes) :=
  match fuel with
  | O => None
  | S k =>
      match skip_ws l with
      | [] => None
      | c :: t =>
          if ascii_eqb c "}" then Some ([], t)
          else if ascii_eqb c "," then
            match parse_member k t with
            | None => None
            | Some (kv, l') =>
                match parse_members k l' with
                | Some (kvs, l'') => Some (kv :: kvs, l'')
                | None => None
                end
            end
          else None
      end
  end.

(** A whole document: one value and only white space after it. *)
Definition parse (l : bytes) : option json :=
  match parse_value (S (2 * length l)) l with
  | Some (v, rest) => match skip_ws rest with [] => Some v | _ => None end
  | None => None
  end.

(** ** Well-formed documents *)

Definition valid_raw (r : bytes) : bool :=
  bool_decide (scan_body (r ++ [dquote]) = Some (r, [])).
Definition valid_num (l : bytes) : bool := bool_decide (scan_num l = Some (l, [])).

Fixpoint wf_json (v : json) : bool :=
  match v with
  | JNull | JBool _ => true
  | JNum l => valid_num l
  | JStr r => valid_raw r
  | JArr l => forallb wf_json l
  | JObj l => forallb (fun '(k, v) => valid_raw k && wf_json v) l
  end.

(** What may follow a value inside a document. *)
Definition delim (c : ascii) : bool :=
  (code c =? 44) || (code c =? 93) || (code c =? 125) || is_ws c.
Definition delim_start (l : bytes) : Prop :=
  match l with [] => True | c :: _ => delim c = true end.

Lemma delim_inv c :
  delim c = true ->
  is_digit c = false /\ (code c =? 45) = false /\ (code c =? 46) = false /\
  (code c =? 101) = false /\ (code c =? 69) = false /\ (code c =? 48) = false /\
  (code c =? 43) = false.
Proof.
  unfold delim, is_ws, is_digit, between. rewrite !orb_true_iff, !Z.eqb_eq.
  intros H. rewrite andb_false_iff, !Z.leb_gt, !Z.eqb_neq. lia.
Qed.

(** ** The scanners extend to longer inputs *)

Lemma scan_body_ext l a b rest :
  scan_body l = Some (a, b) -> scan_body (l ++ rest) = Some (a, b ++ rest).
Proof.
  revert a b. remember (length l) as n eqn:Hn. revert l Hn.
  induction n as [n IH] using lt_wf_ind; intros l -> a b.
  assert (Hrec : forall p t a b, (length t < length l)%nat ->
    match scan_body t with Some (a, b) => Some (p ++ a, b) | None => None end = Some (a, b) ->
    match scan_body (t ++ rest) with Some (a, b) => Some (p ++ a, b) | None => None end
      = Some (a, b ++ rest)).
  { intros p t a' b' Hlt. destruct (scan_body t) as [[x y]|] eqn:E; [|done].
    intros [= <- <-]. by rewrite (IH _ Hlt t eq_refl x y E). }
  destruct l as [|c t]; [done|]. cbn [scan_body app].
  case_if; [by intros [= <- <-]|]. case_if.
  - destruct t as [|e t1]; [done|]. cbn [app]. case_if.
    + destruct t1 as [|h1 [|h2 [|h3 [|h4 t5]]]]; try done. cbn [app].
      case_if; [|done]. apply (Hrec [c; e; h1; h2; h3; h4]). cbn. lia.
    + case_if; [|done]. apply (Hrec [c; e]). cbn. lia.
  - case_if; [done|]. apply (Hrec [c]). cbn. lia.
Qed.

Lemma valid_raw_scan r rest :
  valid_raw r = true -> scan_body (r ++ dquote :: rest) = Some (r, rest).
Proof.
  intros H. apply bool_decide_eq_true in H.
  apply (scan_body_ext _ _ _ rest) in H. by rewrite <- app_assoc in H.
Qed.

Lemma take_digits_ext l a b rest :
  take_digits l = (a, b) -> (b = [] -> delim_start rest) ->
  take_digits (l ++ rest) = (a, b ++ rest).
Proof.
  revert a b. induction l as [|c t IH]; cbn; intros a b.
  - intros [= <- <-] H. specialize (H eq_refl). destruct rest as [|d rest]; [done|].
    cbn in *. apply delim_inv in H as [-> _]. done.
  - case_if.
    + destruct (take_digits t) as [x y]. intros [= <- <-] H. by rewrite (IH x y).
    + by intros [= <- <-].
Qed.

Lemma opt_byte_ext p l a b rest :
  (forall c, delim c = true -> p c = false) ->
  opt_byte p l = (a, b) -> (l = [] -> delim_start rest) ->
  opt_byte p (l ++ rest) = (a, b ++ rest).
Proof.
  intros Hp. destruct l as [|c t]; cbn.
  - intros [= <- <-] H. destruct rest as [|d rest]; [done|].
    cbn. by rewrite (Hp d (H eq_refl)).
  - case_if; by intros [= <- <-].
Qed.

Lemma scan_int_ext l a b rest :
  scan_int l = Some (a, b) -> (b = [] -> delim_start rest) ->
  scan_int (l ++ rest) = Some (a, b ++ rest).
Proof.
  destruct l as [|c t]; [done|]. cbn. case_if; [by intros [= <- <-]|].
  case_if; [|done]. destruct (take_digits t) as [x y] eqn:E. intros [= <- <-] H.
  by rewrite (take_digits_ext t x y rest).
Qed.

Lemma scan_frac_ext l a b rest :
  scan_frac l = Some (a, b) -> (b = [] -> delim_start rest) ->
  scan_frac (l ++ rest) = Some (a, b ++ rest).
Proof.
  destruct l as [|c t]; cbn.
  - intros [= <- <-] H. specialize (H eq_refl). destruct rest as [|d rest]; [done|].
    cbn in *. apply delim_inv in H as (_ & _ & -> & _). done.
  - case_if; [|by intros [= <- <-]].
    destruct (take_digits t) as [[|x0 x] y] eqn:E; [done|]. intros [= <- <-] H.
    by rewrite (take_digits_ext t (x0 :: x) y rest).
Qed.

Lemma scan_exp_ext l a b rest :
  scan_exp l = Some (a, b) -> (b = [] -> delim_start rest) ->
  scan_exp (l ++ rest) = Some (a, b ++ rest).
Proof.
  destruct l as [|c t]; cbn [scan_exp app].
  - intros [= <- <-] H. specialize (H eq_refl). destruct rest as [|d rest]; [done|].
    cbn in *. apply delim_inv in H as (_ & _ & _ & -> & -> & _). done.
  - case_if; [|by intros [= <- <-]].
    destruct (opt_byte _ t) as [s t1] eqn:Eo.
    destruct (take_digits t1) as [[|x0 x] y] eqn:E; [done|]. intros [= <- <-] H.
    assert (t <> []) as Ht.
    { intros ->. cbn in Eo. injection Eo as <- <-. done. }
    rewrite (opt_byte_ext _ t s t1 rest).
    + by rewrite (take_digits_ext t1 (x0 :: x) y rest).
    + intros d (_ & E1 & _ & _ & _ & _ & E2)%delim_inv. by rewrite E1, E2.
    + done.
    + done.
Qed.

Lemma scan_num_ext l a b rest :
  scan_num l = Some (a, b) -> (b = [] -> delim_start rest) ->
  scan_num (l ++ rest) = Some (a, b ++ rest).
Proof.
  unfold scan_num. destruct (opt_byte _ l) as [s l1] eqn:E0.
  destruct (scan_int l1) as [[i l2]|] eqn:E1; [|done].
  destruct (scan_frac l2) as [[f l3]|] eqn:E2; [|done].
  destruct (scan_exp l3) as [[e l4]|] eqn:E3; [|done].
  intros [= <- <-] H.
  assert (l3 = [] -> l4 = []) as H3 by (intros ->; cbn in E3; congruence).
  assert (l2 = [] -> l3 = []) as H2 by (intros ->; cbn in E2; congruence).
  assert (l <> []) as Hl by (intros ->; cbn in E0; injection E0 as <- <-; done).
  rewrite (opt_byte_ext _ l s l1 rest);
    [|by intros c (_ & E & _)%delim_inv|done|done].
  rewrite (scan_int_ext l1 i l2 rest), (scan_frac_ext l2 f l3 rest),
    (scan_exp_ext l3 e l4 rest); eauto.
Qed.

Lemma take_digits_all l : forallb is_digit l = true -> take_digits l = (l, []).
Proof.
  induction l as [|c l IH]; [done|]. cbn. rewrite andb_true_iff. intros [-> Hl].
  by rewrite IH.
Qed.

Lemma format_int_valid n : valid_num (format_int n) = true.
Proof.
  assert (Hnat : forall m, 0 <= m -> scan_int (format_nat m) = Some (format_nat m, []) /\
    exists c t, format_nat m = c :: t /\ is_digit c = true).
  { intros m Hm. destruct (format_nat_head m Hm) as (c & t & Hc & H0).
    pose proof (format_nat_digits m Hm) as Hd. rewrite Hc in *. cbn in Hd.
    apply andb_true_iff in Hd as [Hdc Hd]. split; [|eauto]. cbn [scan_int].
    destruct (code c =? 48) eqn:E.
    - apply Z.eqb_eq, H0 in E as ->. done.
    - by rewrite Hdc, take_digits_all. }
  apply bool_decide_eq_true. unfold format_int, scan_num. destruct (n <? 0) eqn:E.
  - destruct (Hnat (- n) ltac:(lia)) as [Hs _]. cbn [opt_byte].
    change (code "-" =? 45) with true. cbn iota. rewrite Hs. cbn. by rewrite app_nil_r.
  - destruct (Hnat n ltac:(lia)) as [Hs (c & t & Hc & Hd)].
    assert (opt_byte (fun d => code d =? 45) (format_nat n) = ([], format_nat n)) as ->.
    { rewrite Hc. cbn. unfold is_digit in Hd. rewrite between_spec in Hd.
      by replace (code c =? 45) with false by lia. }
    rewrite Hs. cbn. by rewrite app_nil_r.
Qed.

(** ** Parsing inverts printing *)

Lemma valid_num_start l :
  valid_num l = true -> exists c t, l = c :: t /\ ((code c =? 45) || is_digit c) = true.
Proof.
  intros H. apply bool_decide_eq_true in H. destruct l as [|c t]; [done|].
  exists c, t. split; [done|]. unfold scan_num in H. cbn [opt_byte] in H.
  destruct (code c =? 45) eqn:E; [done|]. cbn in *.
  destruct (code c =? 48) eqn:E0.
  - apply Z.eqb_eq in E0. unfold is_digit. rewrite E0. done.
  - by destruct (is_digit c).
Qed.

(** Replace the code of a literal character by its value. *)
Ltac compute_code E :=
  match type of E with _ = ?r => let z := eval vm_compute in r in change r with z in E end.

(** The first byte of a printed value: not white space, and it tells the
    kind of the value. *)
Lemma num_start_class c :
  ((code c =? 45) || is_digit c) = true ->
  is_ws c = false /\ ascii_eqb c dquote = false /\ ascii_eqb c "[" = false /\
  ascii_eqb c "{" = false /\ ascii_eqb c "]" = false /\ ascii_eqb c "}" = false.
Proof.
  intros H. unfold is_ws, is_digit in *. rewrite orb_true_iff, between_spec, Z.eqb_eq in H.
  rewrite !orb_false_iff, !Z.eqb_neq, !ascii_eqb_false.
  split_and!; try lia; intros E; apply (f_equal code) in E; compute_code E; lia.
Qed.

Lemma skip_ws_cons c l : is_ws c = false -> skip_ws (c :: l) = c :: l.
Proof. intros H. cbn. by rewrite H. Qed.

(** [json.Indent]: [sep d] separates the lines at depth [d], [colon] follows
    a colon; both are white space. *)
Section Render.
Context (sep : nat -> bytes) (colon : bytes).

Fixpoint render (d : nat) (v : json) : bytes :=
  match v with
  | JNull => lit_null
  | JBool true => lit_true
  | JBool false => lit_false
  | JNum l => l
  | JStr r => print_str r
  | JArr l =>
      "["%char ::
      match l with
      | [] => ["]"%char]
      | v0 :: l' =>
          sep (S d) ++ render (S d) v0 ++
          flat_map (fun v => ","%char :: sep (S d) ++ render (S d) v) l' ++ sep d ++ ["]"%char]
      end
  | JObj l =>
      "{"%char ::
      match l with
      | [] => ["}"%char]
      | (k0, v0) :: l' =>
          sep (S d) ++ (print_str k0 ++ ":"%char :: colon ++ render (S d) v0) ++
          flat_map (fun '(k, v) =>
            ","%char :: sep (S d) ++ print_str k ++ ":"%char :: colon ++ render (S d) v) l' ++
          sep d ++ ["}"%char]
      end
  end.

Definition render_elem (d : nat) (v : json) : bytes := ","%char :: sep d ++ render d v.
Definition render_member (d : nat) (kv : bytes * json) : bytes :=
  print_str (fst kv) ++ ":"%char :: colon ++ render d (snd kv).
Definition render_next (d : nat) (kv : bytes * json) : bytes := ","%char :: sep d ++ render_member d kv.

Context (sep_ws : forall d, forallb is_ws (sep d) = true) (colon_ws : forallb is_ws colon = true).

Lemma skip_ws_ws ws l : forallb is_ws ws = true -> skip_ws (ws ++ l) = skip_ws l.
Proof using Type.
  induction ws as [|c ws IH]; cbn; [done|]. intros [-> Hw]%andb_true_iff. by apply IH.
Qed.

Lemma parse_value_ws fuel ws l : forallb is_ws ws = true -> parse_value fuel (ws ++ l) = parse_value fuel l.
Proof using Type. intros H. destruct fuel; [done|]. cbn [parse_value]. by rewrite skip_ws_ws. Qed.
Lemma parse_elems_ws fuel ws l : forallb is_ws ws = true -> parse_elems fuel (ws ++ l) = parse_elems fuel l.
Proof using Type. intros H. destruct fuel; [done|]. cbn [parse_elems]. by rewrite skip_ws_ws. Qed.
Lemma parse_member_ws fuel ws l : forallb is_ws ws = true -> parse_member fuel (ws ++ l) = parse_member fuel l.
Proof using Type. intros H. destruct fuel; [done|]. cbn [parse_member]. by rewrite skip_ws_ws. Qed.
Lemma parse_members_ws fuel ws l : forallb is_ws ws = true -> parse_members fuel (ws ++ l) = parse_members fuel l.
Proof using Type. intros H. destruct fuel; [done|]. cbn [parse_members]. by rewrite skip_ws_ws. Qed.

(** A value is followed by white space or a delimiter. *)
Lemma delim_start_ws ws l : forallb is_ws ws = true -> delim_start l -> delim_start (ws ++ l).
Proof using Type.
  destruct ws as [|c ws]; [done|]. cbn. intros [Hc _]%andb_true_iff _. unfold delim. by rewrite Hc, !orb_true_r.
Qed.

Lemma render_start d v rest :
  wf_json v = true ->
  exists c t, render d v ++ rest = c :: t /\ is_ws c = false /\
              ascii_eqb c "]" = false /\ ascii_eqb c "}" = false.
Proof using Type.
  destruct v as [|[]|l|r|l|l]; intros H; cbn [render]; try (eexists _, _; split; [reflexivity|done]).
  cbn in H. apply valid_num_start in H as (c & t & -> & Hc).
  apply num_start_class in Hc as (? & ? & ? & ? & ? & ?). cbn. eauto 10.
Qed.

Definition roundtrips (v : json) : Prop :=
  forall d fuel rest, (length (render d v) < fuel)%nat -> wf_json v = true -> delim_start rest ->
    parse_value fuel (render d v ++ rest) = Some (v, rest).

Lemma parse_elems_render d vs fuel rest :
  Forall roundtrips vs -> forallb wf_json vs = true ->
  (length (flat_map (render_elem (S d)) vs) + 1 < fuel)%nat ->
  parse_elems fuel (flat_map (render_elem (S d)) vs ++ sep d ++ "]"%char :: rest) = Some (vs, rest).
Proof using sep_ws.
  revert fuel. induction vs as [|v vs IH]; intros [|k] Hall Hwf Hf; try lia.
  { cbn [flat_map app]. by rewrite parse_elems_ws. }
  cbn in Hwf. apply andb_true_iff in Hwf as [Hv Hvs].
  inversion_clear Hall as [|?? Hrv Hrvs].
  cbn [flat_map render_elem app] in *. rewrite length_cons, !length_app in Hf.
  cbn [parse_elems]. rewrite skip_ws_cons by done.
  change (ascii_eqb "," "]") with false. change (ascii_eqb "," ",") with true. cbn iota.
  rewrite <- !app_assoc, parse_value_ws by done. rewrite Hrv; [|lia|done|].
  - rewrite IH by (done || lia). done.
  - destruct vs; [by apply (delim_start_ws (sep d))|done].
Qed.

Lemma parse_member_render d kv fuel rest :
  roundtrips (snd kv) -> valid_raw (fst kv) = true -> wf_json (snd kv) = true ->
  delim_start rest -> (length (render_member d kv) <= fuel)%nat ->
  parse_member fuel (render_member d kv ++ rest) = Some (kv, rest).
Proof using colon_ws.
  destruct kv as [key v]. cbn [fst snd]. intros Hr Hk Hv Hd Hf.
  unfold render_member, print_str in *. cbn [fst snd app length] in *.
  rewrite !length_app in Hf. cbn [length] in Hf. rewrite !length_app in Hf.
  destruct fuel as [|k]; [lia|]. cbn [parse_member].
  rewrite skip_ws_cons by done. cbn [parse_str]. rewrite ascii_eqb_refl.
  rewrite <- !app_assoc. cbn [app].
  rewrite valid_raw_scan by done. rewrite skip_ws_cons by done.
  change (ascii_eqb ":" ":") with true. cbn iota. rewrite <- app_assoc, parse_value_ws by done.
  by rewrite Hr by (done || lia).
Qed.

Lemma parse_members_render d kvs fuel rest :
  Forall (fun kv => roundtrips (snd kv)) kvs ->
  forallb (fun '(k, v) => valid_raw k && wf_json v) kvs = true ->
  (length (flat_map (render_next (S d)) kvs) + 1 < fuel)%nat ->
  parse_members fuel (flat_map (render_next (S d)) kvs ++ sep d ++ "}"%char :: rest) = Some (kvs, rest).
Proof using sep_ws colon_ws.
  revert fuel. induction kvs as [|[key v] kvs IH]; intros [|k] Hall Hwf Hf; try lia.
  { cbn [flat_map app]. by rewrite parse_members_ws. }
  cbn in Hwf. apply andb_true_iff in Hwf as [Hv Hvs]. apply andb_true_iff in Hv as [Hk Hv].
  inversion_clear Hall as [|?? Hrv Hrvs].
  cbn [flat_map render_next app] in *. rewrite length_cons, !length_app in Hf.
  cbn [parse_members]. rewrite skip_ws_cons by done.
  change (ascii_eqb "," "}") with false. change (ascii_eqb "," ",") with true. cbn iota.
  rewrite <- !app_assoc, parse_member_ws, parse_member_render; [|done..| |lia|done].
  - rewrite IH by (done || lia). done.
  - destruct kvs; [by apply (delim_start_ws (sep d))|done].
Qed.

Lemma render_obj_members d kvs :
  flat_map (fun '(k, v) => ","%char :: sep d ++ print_str k ++ ":"%char :: colon ++ render d v) kvs =
  flat_map (render_next d) kvs.
Proof using Type. induction kvs as [|[k v] kvs IH]; [done|]. cbn [flat_map]. by rewrite IH. Qed.

Theorem render_roundtrips v : roundtrips v.
Proof using sep_ws colon_ws.
  induction v as [|b|l|r|l IH|l IH] using json_ind'; intros d [|k] rest Hf Hwf Hd; try lia.
  - reflexivity.
  - destruct b; reflexivity.
  - cbn in Hwf. cbn [render parse_value].
    destruct (valid_num_start l Hwf) as (c & t & -> & Hc).
    destruct (num_start_class c Hc) as (Hw & E1 & E2 & E3 & _).
    cbn [app]. rewrite skip_ws_cons, E1, E2, E3, Hc by done.
    apply bool_decide_eq_true in Hwf.
    rewrite (scan_num_ext (c :: t) (c :: t) [] rest Hwf (fun _ => Hd) : scan_num (c :: t ++ rest) = _).
    done.
  - cbn [render parse_value print_str app]. rewrite skip_ws_cons, ascii_eqb_refl by done.
    rewrite <- app_assoc. cbn [app]. by rewrite valid_raw_scan.
  - cbn [render parse_value app]. rewrite skip_ws_cons by done.
    change (ascii_eqb "[" dquote) with false. change (ascii_eqb "[" "[") with true. cbn iota.
    destruct l as [|v0 l]; [done|].
    cbn in Hwf. apply andb_true_iff in Hwf as [Hv Hvs]. inversion_clear IH as [|?? Hr0 Hrs].
    cbn [render length] in Hf. rewrite !length_app in Hf. cbn [length] in Hf.
    rewrite <- !app_assoc, skip_ws_ws by done. cbn [app].
    change (flat_map (fun v => ","%char :: sep (S d) ++ render (S d) v) l)
      with (flat_map (render_elem (S d)) l) in *.
    destruct (render_start (S d) v0 (flat_map (render_elem (S d)) l ++ sep d ++ "]"%char :: rest) Hv)
      as (c & t & Hc & Hw & E & _).
    rewrite Hc, skip_ws_cons, E, <- Hc by done.
    rewrite Hr0; [|lia|done|destruct l; [by apply (delim_start_ws (sep d))|done]].
    rewrite parse_elems_render by (done || lia). done.
  - cbn [render parse_value app]. rewrite skip_ws_cons by done.
    change (ascii_eqb "{" dquote) with false. change (ascii_eqb "{" "[") with false.
    change (ascii_eqb "{" "{") with true. cbn iota. destruct l as [|[k0 v0] l]; [done|].
    cbn in Hwf. apply andb_true_iff in Hwf as [Hv Hvs]. apply andb_true_iff in Hv as [Hk0 Hv0].
    inversion_clear IH as [|?? Hr0 Hrs]. cbn [render length] in Hf. rewrite render_obj_members in *.
    change (print_str k0 ++ ":"%char :: colon ++ render (S d) v0) with (render_member (S d) (k0, v0)) in *.
    rewrite !length_app in Hf. cbn [length] in Hf. rewrite <- !app_assoc, skip_ws_ws by done. cbn [app].
    assert (Hm := parse_member_render (S d) (k0, v0) k
      (flat_map (render_next (S d)) l ++ sep d ++ "}"%char :: rest) Hr0 Hk0 Hv0).
    change (render_member (S d) (k0, v0)) with
      (dquote :: ((k0 ++ [dquote]) ++ ":"%char :: colon ++ render (S d) v0)) in Hm, Hf |- *.
    cbn [app] in Hm |- *. rewrite skip_ws_cons by done. change (ascii_eqb dquote "}") with false. cbn iota.
    rewrite Hm; [|destruct l; [by apply (delim_start_ws (sep d))|done]|lia].
    rewrite parse_members_render by (done || lia). done.
Qed.

(** Parsing inverts printing, however it is laid out. *)
Theorem parse_render d v : wf_json v = true -> parse (render d v) = Some v.
Proof using sep_ws colon_ws.
  intros H. unfold parse.
  pose proof (render_roundtrips v d (S (2 * length (render d v))) [] ltac:(lia) H I) as Hp.
  rewrite app_nil_r in Hp. by rewrite Hp.
Qed.
End Render.

(** Without white space this is [print]. *)
Lemma print_render d v : print v = render (fun _ => []) [] d v.
Proof.
  revert d. induction v as [|b|l|r|l IH|l IH] using json_ind'; intros d; try reflexivity.
  - destruct l as [|v0 l]; [done|]. inversion_clear IH as [|?? H0 Hl]. cbn [print render app].
    rewrite <- H0. do 2 f_equal. f_equal. clear -Hl. induction Hl as [|v l Hv _ IH]; [done|].
    cbn [flat_map app]. by rewrite IH, <- Hv.
  - destruct l as [|[k0 v0] l]; [done|]. inversion_clear IH as [|?? H0 Hl]. cbn [print render app snd] in *.
    rewrite <- H0, <- app_assoc. do 3 f_equal. cbn [app]. f_equal. f_equal. f_equal.
    clear -Hl. induction Hl as [|[k v] l Hv _ IH]; [done|]. cbn [flat_map app snd] in *. by rewrite IH, <- Hv.
Qed.

Lemma print_roundtrips v fuel rest :
  (length (print v) < fuel)%nat -> wf_json v = true -> delim_start rest ->
  parse_value fuel (print v ++ rest) = Some (v, rest).
Proof.
  rewrite (print_render 0 v). intros Hf Hwf Hd.
  by apply (render_roundtrips (fun _ => []) [] (fun _ => eq_refl) eq_refl v 0%nat fuel rest).
Qed.

Lemma cut_lit lit l : cut_prefix lit (lit ++ l) = Some l.
Proof. apply cut_prefix_app. Qed.

Theorem parse_print v : wf_json v = true -> parse (print v) = Some v.
Proof.
  intros H. unfold parse.
  pose proof (print_roundtrips v (S (2 * length (print v))) [] ltac:(lia) H I) as Hp.
  rewrite app_nil_r in Hp. by rewrite Hp.
Qed.

(** ** A strict prefix of an object is no document

    Parsing looks at no byte beyond the value it returns, except after a
    number, so it gives the same value with more input and more fuel. *)

Definition not_num (v : json) : Prop := match v with JNum _ => False | _ => True end.

Lemma skip_ws_app l c t q : skip_ws l = c :: t -> skip_ws (l ++ q) = c :: t ++ q.
Proof.
  induction l as [|d l IH]; [done|]. cbn. case_if; [auto|]. by intros [= <- <-].
Qed.

Definition value_ext (k : nat) : Prop := forall k' l v r q,
  (k <= k')%nat -> parse_value k l = Some (v, r) -> (r = [] -> not_num v) ->
  parse_value k' (l ++ q) = Some (v, r ++ q).
Definition elems_ext (k : nat) : Prop := forall k' l vs r q,
  (k <= k')%nat -> parse_elems k l = Some (vs, r) ->
  parse_elems k' (l ++ q) = Some (vs, r ++ q).
Definition member_ext (k : nat) : Prop := forall k' l kv r q,
  (k <= k')%nat -> parse_member k l = Some (kv, r) -> (r = [] -> not_num (snd kv)) ->
  parse_member k' (l ++ q) = Some (kv, r ++ q).
Definition members_ext (k : nat) : Prop := forall k' l kvs r q,
  (k <= k')%nat -> parse_members k l = Some (kvs, r) ->
  parse_members k' (l ++ q) = Some (kvs, r ++ q).

Lemma parse_elems_nil k : parse_elems k [] = None.
Proof. by destruct k. Qed.
Lemma parse_members_nil k : parse_members k [] = None.
Proof. by destruct k. Qed.

Lemma literal_ext c t v r q :
  match cut_prefix lit_true (c :: t) with
  | Some l' => Some (JBool true, l')
  | None => match cut_prefix lit_false (c :: t) with
            | Some l' => Some (JBool false, l')
            | None => match cut_prefix lit_null (c :: t) with
                      | Some l' => Some (JNull, l')
                      | None => None
                      end
            end
  end = Some (v, r) ->
  match cut_prefix lit_true (c :: t ++ q) with
  | Some l' => Some (JBool true, l')
  | None => match cut_prefix lit_false (c :: t ++ q) with
            | Some l' => Some (JBool false, l')
            | None => match cut_prefix lit_null (c :: t ++ q) with
                      | Some l' => Some (JNull, l')
                      | None => None
                      end
            end
  end = Some (v, r ++ q).
Proof.
  change (c :: t ++ q) with ((c :: t) ++ q). generalize (c :: t); intros l.
  destruct (cut_prefix lit_true l) as [l'|] eqn:E1.
  { apply cut_prefix_Some in E1 as ->. intros [= <- <-]. by rewrite <- app_assoc, cut_prefix_app. }
  destruct (cut_prefix lit_false l) as [l'|] eqn:E2.
  { apply cut_prefix_Some in E2 as ->. intros [= <- <-]. reflexivity. }
  destruct (cut_prefix lit_null l) as [l'|] eqn:E3; [|done].
  apply cut_prefix_Some in E3 as ->. intros [= <- <-]. reflexivity.
Qed.

Lemma value_ext_S k :
  value_ext k -> elems_ext k -> member_ext k -> members_ext k -> value_ext (S k).
Proof.
  intros Hv He Hm Hms [|k'] l v r q Hk; [lia|]. apply le_S_n in Hk. cbn [parse_value].
  destruct (skip_ws l) as [|c t] eqn:Es; [done|]. rewrite (skip_ws_app _ _ _ q Es).
  case_if.
  { destruct (scan_body t) as [[x y]|] eqn:E; [|done]. intros [= <- <-] _.
    by rewrite (scan_body_ext _ _ _ q E). }
  case_if.
  { destruct (skip_ws t) as [|d t'] eqn:Et; [done|]. rewrite (skip_ws_app _ _ _ q Et).
    case_if; [by intros [= <- <-]|].
    destruct (parse_value k (d :: t')) as [[v1 l1]|] eqn:E1; [|done].
    destruct (parse_elems k l1) as [[vs l2]|] eqn:E2; [|done]. intros [= <- <-] _.
    change (d :: t' ++ q) with ((d :: t') ++ q).
    rewrite (Hv _ _ _ _ q Hk E1); [by rewrite (He _ _ _ _ q Hk E2)|].
    intros ->. by rewrite parse_elems_nil in E2. }
  case_if.
  { destruct (skip_ws t) as [|d t'] eqn:Et; [done|]. rewrite (skip_ws_app _ _ _ q Et).
    case_if; [by intros [= <- <-]|].
    destruct (parse_member k (d :: t')) as [[kv l1]|] eqn:E1; [|done].
    destruct (parse_members k l1) as [[kvs l2]|] eqn:E2; [|done]. intros [= <- <-] _.
    change (d :: t' ++ q) with ((d :: t') ++ q).
    rewrite (Hm _ _ _ _ q Hk E1); [by rewrite (Hms _ _ _ _ q Hk E2)|].
    intros ->. by rewrite parse_members_nil in E2. }
  case_if; [|intros H _; by apply literal_ext].
  destruct (scan_num (c :: t)) as [[n y]|] eqn:E; [|done]. intros [= <- <-] Hn.
  assert (Hd : y = [] -> delim_start q) by (intros Hy; destruct (Hn Hy)).
  pose proof (scan_num_ext (c :: t) n y q E Hd) as Hx. cbn [app] in Hx. by rewrite Hx.
Qed.

Lemma parse_ext k : value_ext k /\ elems_ext k /\ member_ext k /\ members_ext k.
Proof.
  induction k as [|k (Hv & He & Hm & Hms)]; [done|].
  split_and!; [by apply value_ext_S|..]; intros [|k'] l x r q Hk; try lia; apply le_S_n in Hk.
  - cbn [parse_elems]. destruct (skip_ws l) as [|c t] eqn:Es; [done|].
    rewrite (skip_ws_app _ _ _ q Es). case_if; [by intros [= <- <-]|]. case_if; [|done].
    destruct (parse_value k t) as [[v1 l1]|] eqn:E1; [|done].
    destruct (parse_elems k l1) as [[vs l2]|] eqn:E2; [|done]. intros [= <- <-].
    rewrite (Hv _ _ _ _ q Hk E1); [by rewrite (He _ _ _ _ q Hk E2)|].
    intros ->. by rewrite parse_elems_nil in E2.
  - cbn [parse_member]. unfold parse_str. destruct (skip_ws l) as [|c t] eqn:Es; [done|].
    rewrite (skip_ws_app _ _ _ q Es). case_if; [|done].
    destruct (scan_body t) as [[key l1]|] eqn:E; [|done]. rewrite (scan_body_ext _ _ _ q E).
    destruct (skip_ws l1) as [|d t1] eqn:Es1; [done|]. rewrite (skip_ws_app _ _ _ q Es1).
    case_if; [|done]. destruct (parse_value k t1) as [[v l2]|] eqn:E1; [|done].
    intros [= <- <-] Hn. by rewrite (Hv _ _ _ _ q Hk E1).
  - cbn [parse_members]. destruct (skip_ws l) as [|c t] eqn:Es; [done|].
    rewrite (skip_ws_app _ _ _ q Es). case_if; [by intros [= <- <-]|]. case_if; [|done].
    destruct (parse_member k t) as [[v1 l1]|] eqn:E1; [|done].
    destruct (parse_members k l1) as [[vs l2]|] eqn:E2; [|done]. intros [= <- <-].
    rewrite (Hm _ _ _ _ q Hk E1); [by rewrite (Hms _ _ _ _ q Hk E2)|].
    intros ->. by rewrite parse_members_nil in E2.
Qed.

Lemma parse_value_brace k t v r : parse_value k ("{"%char :: t) = Some (v, r) -> not_num v.
Proof.
  destruct k as [|k]; [done|]. cbn [parse_value]. rewrite skip_ws_cons by done.
  change (ascii_eqb "{" dquote) with false. change (ascii_eqb "{" "[") with false.
  change (ascii_eqb "{" "{") with true. cbn iota.
  destruct (skip_ws t) as [|d t']; [done|]. case_if; [by intros [= <- <-]|].
  destruct (parse_member _ _) as [[? ?]|]; [|done].
  destruct (parse_members _ _) as [[? ?]|]; [|done]. by intros [= <- <-].
Qed.

Lemma parse_prefix_free l p q :
  wf_json (JObj l) = true -> print (JObj l) = p ++ q -> q <> [] -> parse p = None.
Proof.
  intros Hwf Hp Hq. unfold parse.
  destruct (parse_value _ p) as [[v r]|] eqn:E; [|done]. exfalso.
  destruct p as [|c p]; [done|].
  assert (c = "{"%char) as -> by (destruct l as [|[? ?] ?]; by injection Hp).
  pose proof (parse_value_brace _ _ _ _ E) as Hn.
  set (F := (S (2 * length ("{"%char :: p)) + length (print (JObj l)))%nat).
  destruct (parse_ext (S (2 * length ("{"%char :: p)))) as [Hext _].
  pose proof (Hext F _ _ _ q ltac:(lia) E (fun _ => Hn)) as H1.
  pose proof (print_roundtrips (JObj l) F [] ltac:(lia) Hwf I) as H2.
  rewrite app_nil_r, Hp, H1 in H2. injection H2 as _ H2. by destruct r.
Qed.

(** Case analysis on the 256 bytes. *)
Ltac all_bytes c := destruct c as [[] [] [] [] [] [] [] []].

(** ** Printed documents hold no control byte, so one document is one line *)

Definition no_ctl (l : bytes) : bool := forallb (fun c => (32 <=? code c)) l.

Lemma no_ctl_cons c l : no_ctl (c :: l) = (32 <=? code c) && no_ctl l.
Proof. done. Qed.

Lemma no_ctl_app l l' : no_ctl (l ++ l') = no_ctl l && no_ctl l'.
Proof. apply forallb_app. Qed.

Lemma no_ctl_spec l : no_ctl l = true <-> Forall (fun c => 32 <= code c) l.
Proof.
  unfold no_ctl. rewrite forallb_forall, List.Forall_forall.
  by setoid_rewrite Z.leb_le.
Qed.

Lemma no_ctl_not_elem d z : no_ctl d = true -> 0 <= z < 32 -> chr z ∉ d.
Proof.
  rewrite no_ctl_spec, Forall_forall. intros H Hz Hin. specialize (H _ Hin).
  rewrite code_chr in H by lia. lia.
Qed.

Lemma scan_body_no_ctl l a b : scan_body l = Some (a, b) -> no_ctl a = true.
Proof.
  remember (length l) as n eqn:Hn. revert l Hn a b.
  induction n as [n IH] using lt_wf_ind; intros l -> a b.
  assert (Hrec : forall p t a b, (length t < length l)%nat -> no_ctl p = true ->
    match scan_body t with Some (a, b) => Some (p ++ a, b) | None => None end = Some (a, b) ->
    no_ctl a = true).
  { intros p t a' b' Hlt Hp. destruct (scan_body t) as [[x y]|] eqn:E; [|done].
    intros [= <- <-]. rewrite no_ctl_app, Hp. by eapply IH. }
  assert (Hge : forall c, (code c <? 32) = false -> (32 <=? code c) = true).
  { intros c H. lia. }
  assert (Hhex : forall c, is_hex c = true -> (32 <=? code c) = true).
  { intros c. all_bytes c; intros H; try discriminate H; reflexivity. }
  assert (Hesc : forall c, escape_char c = true -> (32 <=? code c) = true).
  { intros c. all_bytes c; intros H; try discriminate H; reflexivity. }
  destruct l as [|c t]; [done|]. cbn [scan_body].
  case_if; [by intros [= <- <-]|]. case_if.
  - match goal with H : ascii_eqb c bslash = true |- _ => apply ascii_eqb_true in H as -> end.
    destruct t as [|e t1]; [done|]. case_if.
    + match goal with H : ascii_eqb e _ = true |- _ => apply ascii_eqb_true in H as -> end.
      destruct t1 as [|h1 [|h2 [|h3 [|h4 t5]]]]; try done.
      case_if; [|done]. split_bools. apply (Hrec [_; _; h1; h2; h3; h4]); [cbn; lia|].
      unfold no_ctl; cbn [forallb]. by rewrite (Hhex h1), (Hhex h2), (Hhex h3), (Hhex h4) by done.
    + case_if; [|done]. apply (Hrec [_; e]); [cbn; lia|]. unfold no_ctl; cbn [forallb]. by rewrite (Hesc e) by done.
  - case_if; [done|]. apply (Hrec [c]); [cbn; lia|]. unfold no_ctl; cbn [forallb]. by rewrite (Hge c) by done.
Qed.

Lemma take_digits_no_ctl l a b : take_digits l = (a, b) -> no_ctl a = true.
Proof.
  revert a b. induction l as [|c t IH]; cbn; intros a b; [by intros [= <- <-]|].
  case_if; [|by intros [= <- <-]]. destruct (take_digits t) as [x y]. intros [= <- <-].
  rewrite no_ctl_cons, (IH x y) by done. rewrite andb_true_r. apply Z.leb_le.
  unfold is_digit in *. rewrite between_spec in *. lia.
Qed.

Lemma valid_num_no_ctl l : valid_num l = true -> no_ctl l = true.
Proof.
  intros H. apply bool_decide_eq_true in H. unfold scan_num in H.
  assert (Hopt : forall p l a b, (forall c, p c = true -> 32 <= code c) ->
    opt_byte p l = (a, b) -> no_ctl a = true).
  { intros p [|c t] a b Hp; cbn; [by intros [= <- <-]|].
    destruct (p c) eqn:E; intros [= <- <-]; [|done].
    rewrite no_ctl_cons, andb_true_r. apply Z.leb_le. by apply Hp. }
  destruct (opt_byte _ l) as [s l1] eqn:E0.
  destruct (scan_int l1) as [[i l2]|] eqn:E1; [|done].
  destruct (scan_frac l2) as [[f l3]|] eqn:E2; [|done].
  destruct (scan_exp l3) as [[e l4]|] eqn:E3; [|done].
  injection H as <- ->. rewrite !no_ctl_app.
  assert (no_ctl s = true) as -> by (eapply Hopt, E0; cbn beta; intros; lia).
  assert (no_ctl i = true) as ->.
  { destruct l1 as [|c t]; [done|]. cbn in E1.
    destruct (code c =? 48) eqn:Ec.
    - injection E1 as <- <-. rewrite no_ctl_cons. apply Z.eqb_eq in Ec. by rewrite Ec.
    - destruct (is_digit c) eqn:Ed; [|done].
      destruct (take_digits t) as [x y] eqn:Et. injection E1 as <- <-.
      rewrite no_ctl_cons, (take_digits_no_ctl _ _ _ Et), andb_true_r. apply Z.leb_le.
      unfold is_digit in Ed. rewrite between_spec in Ed. lia. }
  assert (no_ctl f = true) as ->.
  { destruct l2 as [|c t]; cbn in E2; [by injection E2 as <- <-|].
    destruct (code c =? 46) eqn:Ec; [|by injection E2 as <- <-].
    destruct (take_digits t) as [[|x0 x] y] eqn:Et; [done|]. injection E2 as <- <-.
    rewrite no_ctl_cons, (take_digits_no_ctl _ _ _ Et).
    apply Z.eqb_eq in Ec. by rewrite Ec. }
  destruct l3 as [|c t]; cbn in E3; [by injection E3 as <-|].
  destruct ((code c =? 101) || (code c =? 69)) eqn:Ec; [|by injection E3 as <-].
  destruct (opt_byte _ t) as [sg t1] eqn:Es.
  destruct (take_digits t1) as [[|x0 x] y] eqn:Et; [done|]. injection E3 as <- _.
  change (c :: sg ++ x0 :: x) with ([c] ++ sg ++ (x0 :: x)). rewrite !no_ctl_app.
  rewrite (take_digits_no_ctl _ _ _ Et).
  assert (no_ctl sg = true) as ->.
  { eapply Hopt, Es. cbn beta. intros. lia. }
  rewrite no_ctl_cons, !andb_true_r. apply Z.leb_le.
  rewrite orb_true_iff, !Z.eqb_eq in Ec. lia.
Qed.

Lemma valid_raw_no_ctl r : valid_raw r = true -> no_ctl r = true.
Proof. intros H. apply bool_decide_eq_true in H. by eapply scan_body_no_ctl. Qed.

Lemma no_ctl_flat_map {A} (f : A -> bytes) l :
  Forall (fun x => no_ctl (f x) = true) l -> no_ctl (flat_map f l) = true.
Proof. induction 1 as [|x l Hx _ IH]; [done|]. cbn. by rewrite no_ctl_app, Hx, IH. Qed.

Lemma no_ctl_print_str r : valid_raw r = true -> no_ctl (print_str r) = true.
Proof.
  intros H. unfold print_str. change (no_ctl (dquote :: ?x)) with (no_ctl x).
  by rewrite no_ctl_app, valid_raw_no_ctl.
Qed.

Theorem print_no_ctl v : wf_json v = true -> no_ctl (print v) = true.
Proof.
  induction v as [|b|l|r|l IH|l IH] using json_ind'; intros Hwf.
  - done.
  - by destruct b.
  - by apply valid_num_no_ctl.
  - by apply no_ctl_print_str.
  - cbn in Hwf. destruct l as [|v0 l]; [done|]. cbn [print].
    change (no_ctl (?c :: ?x)) with (no_ctl ([c] ++ x)). rewrite !no_ctl_app.
    cbn in Hwf. apply andb_true_iff in Hwf as [Hv Hvs].
    inversion_clear IH as [|?? Hr0 Hrs]. rewrite Hr0 by done.
    rewrite no_ctl_flat_map; [done|]. rewrite forallb_forall in Hvs.
    rewrite List.Forall_forall in Hrs |- *. intros v Hin. cbn.
    by apply Hrs, Hvs.
  - cbn in Hwf. destruct l as [|[k0 v0] l]; [done|]. cbn [print].
    change (no_ctl (?c :: ?x)) with (no_ctl ([c] ++ x)). rewrite !no_ctl_app.
    change (no_ctl (":"%char :: ?x)) with (no_ctl x). rewrite !no_ctl_app.
    cbn in Hwf. apply andb_true_iff in Hwf as [Hv Hvs]. apply andb_true_iff in Hv as [Hk0 Hv0].
    inversion_clear IH as [|?? Hr0 Hrs]. cbn [snd] in Hr0. rewrite no_ctl_print_str, Hr0 by done.
    rewrite no_ctl_flat_map; [done|]. rewrite forallb_forall in Hvs.
    rewrite List.Forall_forall in Hrs |- *. intros [k v] Hin.
    specialize (Hvs _ Hin). cbn in Hvs. apply andb_true_iff in Hvs as [Hk Hv].
    change (no_ctl (","%char :: ?x)) with (no_ctl x). rewrite no_ctl_app.
    change (no_ctl (":"%char :: ?x)) with (no_ctl x). rewrite no_ctl_print_str by done.
    by apply (Hrs (k, v)).
Qed.

(** ** Quoted strings are well formed and unquote to the original *)

(** The tokens [runes] produces. *)
Definition run_tok (t : tok) : bool :=
  match t with TBad _ => true | _ => good_tok t end.

Lemma runes_run_tok s : Forall (fun t => run_tok t = true) (runes s).
Proof.
  remember (length s) as n eqn:Hn. revert s Hn.
  induction n as [n IH] using lt_wf_ind; intros s ->.
  destruct s as [|a t]; [constructor|]. cbn [runes].
  destruct (code a <? 128) eqn:E1; [constructor; [done|]; eapply IH; [|done]; cbn; lia|].
  assert (Hbad : Forall (fun t => run_tok t = true) (TBad a :: runes t)).
  { constructor; [done|]. eapply IH; [|done]. cbn. lia. }
  destruct t as [|b t2]; [done|].
  destruct (utf8_2 a b) eqn:E2.
  { constructor; [cbn; by rewrite E1, E2|]. eapply IH; [|done]. cbn. lia. }
  destruct t2 as [|c t3]; [done|].
  destruct (utf8_3 a b c) eqn:E3.
  { constructor; [cbn; by rewrite E1, E2, E3|]. eapply IH; [|done]. cbn. lia. }
  destruct t3 as [|d t4]; [done|].
  destruct (utf8_4 a b c d) eqn:E4; [|done].
  constructor; [cbn; by rewrite E1, E2, E3, E4|]. eapply IH; [|done]. cbn. lia.
Qed.

Lemma runes_bytes s : flat_map tok_bytes (runes s) = s.
Proof.
  remember (length s) as n eqn:Hn. revert s Hn.
  induction n as [n IH] using lt_wf_ind; intros s ->.
  destruct s as [|a t]; [done|]. cbn [runes].
  assert (Ht : flat_map tok_bytes (runes t) = t) by (eapply IH; [|done]; cbn; lia).
  case_if; [cbn; by rewrite Ht|].
  destruct t as [|b t2]; [done|].
  case_if; [cbn; repeat f_equal; eapply IH; [|done]; cbn; lia|].
  destruct t2 as [|c t3]; [by cbn -[runes]; rewrite Ht|].
  case_if; [cbn; repeat f_equal; eapply IH; [|done]; cbn; lia|].
  destruct t3 as [|d t4]; [by cbn -[runes]; rewrite Ht|].
  case_if; [cbn; repeat f_equal; eapply IH; [|done]; cbn; lia|].
  by cbn -[runes]; rewrite Ht.
Qed.

Lemma runes_ascii c l : (code c <? 128) = true -> runes (c :: l) = TAscii c :: runes l.
Proof. intros H. cbn. by rewrite H. Qed.

Lemma runes_rune r l : good_tok (TRune r) = true -> runes (r ++ l) = TRune r :: runes l.
Proof.
  destruct r as [|a [|b [|c [|d [|e r]]]]]; try done; cbn [good_tok app runes];
    intros H; split_bools.
  - by rewrite H, H0.
  - by rewrite H, H1, H0.
  - by rewrite H, H2, H1, H0.
Qed.

Lemma rune_bytes_high r : good_tok (TRune r) = true -> Forall (fun c => 128 <= code c) r.
Proof.
  destruct r as [|a [|b [|c [|d [|e r]]]]]; try done; cbn [good_tok];
    unfold utf8_2, utf8_3, utf8_4, is_cont;
    rewrite ?andb_true_iff, ?negb_true_iff, ?orb_true_iff, ?andb_true_iff, ?orb_true_iff,
      ?between_spec, ?Z.ltb_ge, ?Z.eqb_eq;
    intros H; repeat constructor; lia.
Qed.

Lemma line_sep_Some r z :
  line_sep r = Some z ->
  (r = [chr 226; chr 128; chr 168] /\ z = 8232) \/ (r = [chr 226; chr 128; chr 169] /\ z = 8233).
Proof.
  unfold line_sep. intros H.
  assert (Hr : r = map chr (map code r)).
  { rewrite map_map. rewrite <- (map_id r) at 1. apply map_ext. intros c. by rewrite chr_code. }
  rewrite Hr. revert H. generalize (map code r). intros l H.
  repeat case_match; simplify_eq/=; auto.
Qed.

Lemma unquote_quote_ascii c rest :
  (code c <? 128) = true ->
  unquote_toks (runes (quote_ascii c ++ rest)) = cons c <$> unquote_toks (runes rest).
Proof. all_bytes c; intros H; try discriminate H; reflexivity. Qed.

Lemma scan_quote_ascii c rest :
  (code c <? 128) = true ->
  scan_body (quote_ascii c ++ rest) =
  match scan_body rest with Some (a, b) => Some (quote_ascii c ++ a, b) | None => None end.
Proof.
  all_bytes c; intros H; try discriminate H; reflexivity.
Qed.

Lemma scan_high r rest :
  Forall (fun c => 128 <= code c) r ->
  scan_body (r ++ rest) =
  match scan_body rest with Some (a, b) => Some (r ++ a, b) | None => None end.
Proof.
  induction 1 as [|c r Hc _ IH]; cbn [scan_body app]; [by destruct (scan_body rest) as [[]|]|].
  assert (ascii_eqb c dquote = false) as ->.
  { apply ascii_eqb_false. intros ->. cbv in Hc. done. }
  assert (ascii_eqb c bslash = false) as ->.
  { apply ascii_eqb_false. intros ->. cbv in Hc. done. }
  assert ((code c <? 32) = false) as -> by lia.
  rewrite IH. by destruct (scan_body rest) as [[]|].
Qed.

Lemma scan_quote_tok t rest :
  run_tok t = true ->
  scan_body (quote_tok t ++ rest) =
  match scan_body rest with Some (a, b) => Some (quote_tok t ++ a, b) | None => None end.
Proof.
  destruct t as [c|r|c]; cbn [run_tok quote_tok]; intros H.
  - by apply scan_quote_ascii.
  - destruct (line_sep r) as [z|] eqn:E.
    + apply line_sep_Some in E as [[_ ->]|[_ ->]]; reflexivity.
    + by apply scan_high, rune_bytes_high.
  - reflexivity.
Qed.

Lemma quote_valid s : valid_raw (quote s) = true.
Proof.
  apply bool_decide_eq_true. unfold quote.
  pose proof (runes_run_tok s) as H. induction H as [|t l Ht _ IH]; [done|].
  cbn [flat_map]. rewrite <- app_assoc, scan_quote_tok, IH by done. done.
Qed.

Lemma unquote_quote_toks l :
  forallb good_tok l = true ->
  unquote_toks (runes (flat_map quote_tok l)) = Some (flat_map tok_bytes l).
Proof.
  induction l as [|t l IH]; [done|]. cbn [forallb flat_map].
  rewrite andb_true_iff. intros [Ht Hl]. specialize (IH Hl).
  destruct t as [c|r|c]; [| |done]; cbn [quote_tok tok_bytes].
  - by rewrite unquote_quote_ascii, IH.
  - destruct (line_sep r) as [z|] eqn:E.
    + apply line_sep_Some in E as [[-> ->]|[-> ->]]; cbn -[runes];
        repeat (rewrite runes_ascii by done); cbn -[runes]; by rewrite IH.
    + rewrite runes_rune by done. cbn [unquote_toks]. by rewrite IH.
Qed.

Lemma unquote_quote s : valid_utf8 s = true -> unquote (quote s) = Some s.
Proof.
  intros H. unfold unquote, quote. rewrite unquote_quote_toks by done. by rewrite runes_bytes.
Qed.

(** ** [json.RawMessage] and HTML escaping

    [json.Marshal] compacts a RawMessage and escapes [<], [>], [&], U+2028 and
    U+2029 inside it ([appendCompact] with escaping). *)

Fixpoint escape_raw (l : bytes) : bytes :=
  match l with
  | [] => []
  | c :: t =>
      if html_unsafe c then u_escape (code c) ++ escape_raw t
      else match t with
           | d :: e :: t3 =>
               if (code c =? 226) && (code d =? 128) && between 168 (code e) 169
               then u_escape (8232 + (code e - 168)) ++ escape_raw t3
               else c :: escape_raw t
           | _ => c :: escape_raw t
           end
  end.

Fixpoint escape_html (v : json) : json :=
  match v with
  | JStr r => JStr (escape_raw r)
  | JArr l => JArr (map escape_html l)
  | JObj l => JObj (map (fun '(k, v) => (escape_raw k, escape_html v)) l)
  | _ => v
  end.

(** A byte the escaping leaves alone whatever follows. *)
Definition plain_byte (c : ascii) : bool := negb (html_unsafe c) && negb (code c =? 226).

Lemma escape_raw_plain c t : plain_byte c = true -> escape_raw (c :: t) = c :: escape_raw t.
Proof.
  unfold plain_byte. intros H. split_bools. cbn [escape_raw]. rewrite H, H0.
  by destruct t as [|d [|e t]].
Qed.

Lemma hex_plain c : is_hex c = true -> plain_byte c = true.
Proof. all_bytes c; intros H; try discriminate H; reflexivity. Qed.

Lemma escape_char_plain c : escape_char c = true -> plain_byte c = true.
Proof. all_bytes c; intros H; try discriminate H; reflexivity. Qed.

Lemma html_unsafe_scan c rest :
  html_unsafe c = true ->
  scan_body (u_escape (code c) ++ rest) =
  match scan_body rest with Some (a, b) => Some (u_escape (code c) ++ a, b) | None => None end.
Proof. all_bytes c; intros H; try discriminate H; reflexivity. Qed.

Lemma scan_sep e rest :
  between 168 (code e) 169 = true ->
  scan_body (u_escape (8232 + (code e - 168)) ++ rest) =
  match scan_body rest with
  | Some (a, b) => Some (u_escape (8232 + (code e - 168)) ++ a, b) | None => None end.
Proof. all_bytes e; intros H; try discriminate H; reflexivity. Qed.

(** A literal body is a sequence of escapes and plain bytes. *)
Inductive body : bytes -> Prop :=
| body_nil : body []
| body_u h1 h2 h3 h4 r :
    is_hex h1 = true -> is_hex h2 = true -> is_hex h3 = true -> is_hex h4 = true ->
    body r -> body (bslash :: "u"%char :: h1 :: h2 :: h3 :: h4 :: r)
| body_esc e r : escape_char e = true -> body r -> body (bslash :: e :: r)
| body_byte c r :
    ascii_eqb c dquote = false -> ascii_eqb c bslash = false -> (code c <? 32) = false ->
    body r -> body (c :: r).

Lemma scan_body_body l a b : scan_body l = Some (a, b) -> body a.
Proof.
  remember (length l) as n eqn:Hn. revert l Hn a b.
  induction n as [n IH] using lt_wf_ind; intros l -> a b.
  destruct l as [|c t]; [done|]. cbn [scan_body].
  case_if; [intros [= <- <-]; constructor|]. case_if.
  - match goal with H : ascii_eqb c bslash = true |- _ => apply ascii_eqb_true in H as -> end.
    destruct t as [|e t1]; [done|]. case_if.
    + match goal with H : ascii_eqb e _ = true |- _ => apply ascii_eqb_true in H as -> end.
      destruct t1 as [|h1 [|h2 [|h3 [|h4 t5]]]]; try done.
      case_if; [|done]. split_bools.
      destruct (scan_body t5) as [[x y]|] eqn:E; [|done]. intros [= <- <-].
      constructor; try done. eapply (IH (length t5)); [cbn; lia|done|done].
    + case_if; [|done]. destruct (scan_body t1) as [[x y]|] eqn:E; [|done].
      intros [= <- <-]. apply body_esc; [done|]. eapply (IH (length t1)); [cbn; lia|done|done].
  - case_if; [done|]. destruct (scan_body t) as [[x y]|] eqn:E; [|done].
    intros [= <- <-]. apply body_byte; try done. eapply (IH (length t)); [cbn; lia|done|done].
Qed.

Lemma body_scan a rest : body a -> scan_body (a ++ dquote :: rest) = Some (a, rest).
Proof.
  induction 1 as [|h1 h2 h3 h4 r H1 H2 H3 H4 _ IH|e r He _ IH|c r H1 H2 H3 _ IH].
  - done.
  - cbn [scan_body app]. change (ascii_eqb bslash dquote) with false.
    rewrite !ascii_eqb_refl, H1, H2, H3, H4. cbn iota. cbn [andb]. by rewrite IH.
  - cbn [scan_body app]. change (ascii_eqb bslash dquote) with false.
    rewrite ascii_eqb_refl. cbn iota.
    assert (ascii_eqb e "u" = false) as -> by (apply ascii_eqb_false; intros ->; done).
    by rewrite He, IH.
  - cbn [scan_body app]. by rewrite H1, H2, H3, IH.
Qed.

Lemma valid_raw_body r : valid_raw r = true <-> body r.
Proof.
  split.
  - intros H. apply bool_decide_eq_true in H. by eapply scan_body_body.
  - intros H. apply bool_decide_eq_true. by apply body_scan.
Qed.

(** The same through the token-wise scanning equation. *)
Lemma body_app_scan p r :
  (forall rest, scan_body (p ++ rest) =
    match scan_body rest with Some (a, b) => Some (p ++ a, b) | None => None end) ->
  body r -> body (p ++ r).
Proof.
  intros Hp H. apply (body_scan r []) in H.
  apply (scan_body_body (p ++ r ++ [dquote]) _ []). by rewrite Hp, H.
Qed.

Lemma body_high_tail c r : body (c :: r) -> ascii_eqb c bslash = false -> body r.
Proof. inversion 1; subst; intros E; by try (cbv in E; discriminate E). Qed.

Lemma escape_raw_body_len n r : (length r <= n)%nat -> body r -> body (escape_raw r).
Proof.
  revert r. induction n as [|n IH]; intros r Hn Hb.
  { destruct r; [constructor|cbn in Hn; lia]. }
  destruct Hb as [|h1 h2 h3 h4 r H1 H2 H3 H4 Hr|e r He Hr|c r H1 H2 H3 Hr]; cbn [length] in Hn.
  - constructor.
  - rewrite !escape_raw_plain by (done || by apply hex_plain).
    apply body_u; try done. apply IH; [lia|done].
  - rewrite !escape_raw_plain by (done || by apply escape_char_plain).
    apply body_esc; [done|]. apply IH; [lia|done].
  - cbn [escape_raw]. destruct (html_unsafe c) eqn:Hc.
    { apply body_app_scan; [intros; by apply html_unsafe_scan|]. apply IH; [lia|done]. }
    assert (Hplain : body (c :: escape_raw r)).
    { apply body_byte; try done. apply IH; [lia|done]. }
    destruct r as [|d [|e t3]]; try done.
    destruct (_ && _ && _) eqn:E; [|done].
    apply andb_true_iff in E as [[_ Ed]%andb_true_iff Ee].
    apply body_app_scan; [intros; by apply scan_sep|].
    apply IH; [cbn in Hn; lia|].
    apply body_high_tail in Hr.
    + apply body_high_tail in Hr; [done|].
      apply ascii_eqb_false. intros ->. by vm_compute in Ee.
    + apply ascii_eqb_false. intros ->. by vm_compute in Ed.
Qed.

Lemma escape_raw_valid r : valid_raw r = true -> valid_raw (escape_raw r) = true.
Proof. rewrite !valid_raw_body. by eapply escape_raw_body_len. Qed.

Lemma escape_html_wf v : wf_json v = true -> wf_json (escape_html v) = true.
Proof.
  induction v as [|b|l|r|l IH|l IH] using json_ind'; cbn [wf_json escape_html]; try done.
  - by apply escape_raw_valid.
  - rewrite !forallb_forall. intros H v (v0 & <- & Hin)%in_map_iff.
    rewrite List.Forall_forall in IH. auto.
  - rewrite !forallb_forall. intros H v ([k v0] & <- & Hin)%in_map_iff.
    rewrite List.Forall_forall in IH. specialize (H _ Hin). cbn in H.
    apply andb_true_iff in H as [Hk Hv].
    rewrite escape_raw_valid by done. cbn. by apply (IH _ Hin).
Qed.

(** Escaping again changes nothing. *)
Definition escaped (l : bytes) : Prop := escape_raw l = l.

Lemma escaped_plain c l : plain_byte c = true -> escaped l -> escaped (c :: l).
Proof. intros Hc Hl. unfold escaped. by rewrite escape_raw_plain, Hl. Qed.

Lemma escaped_u_escape r l :
  forallb plain_byte (u_escape r) = true -> escaped l -> escaped (u_escape r ++ l).
Proof.
  generalize (u_escape r). intros p. induction p as [|c p IH]; [done|]. cbn [forallb app].
  rewrite andb_true_iff. intros [Hc Hp] Hl. apply escaped_plain; auto.
Qed.

(** What follows a byte in the escaped text starts like what followed it in
    the original, or with a backslash. *)
Definition head_kept (l : bytes) : Prop :=
  match escape_raw l with
  | [] => True
  | d :: l' => d = bslash \/ exists t, l = d :: t /\ l' = escape_raw t
  end.

Lemma escape_raw_head l : head_kept l.
Proof.
  unfold head_kept. destruct l as [|c t]; [done|]. cbn [escape_raw].
  destruct (html_unsafe c); [by left|].
  destruct t as [|d [|e t3]]; [by right; eauto|by right; eauto|].
  destruct (_ && _ && _); [by left|]. right. eauto.
Qed.

Lemma escape_raw_idem l : escape_raw (escape_raw l) = escape_raw l.
Proof.
  change (escaped (escape_raw l)). remember (length l) as n eqn:Hn. revert l Hn.
  induction n as [n IH] using lt_wf_ind; intros l ->.
  destruct l as [|c t]; [done|]. cbn [escape_raw].
  assert (Ht : escaped (escape_raw t)) by (eapply IH; [|done]; cbn; lia).
  destruct (html_unsafe c) eqn:Hc.
  { apply escaped_u_escape; [|done]. revert Hc. all_bytes c; intros H; try discriminate H; reflexivity. }
  assert (Hkeep : (forall d e t3, t = d :: e :: t3 ->
      (code c =? 226) && (code d =? 128) && between 168 (code e) 169 = false) ->
    escaped (c :: escape_raw t)).
  { intros Hno. unfold escaped. cbn [escape_raw]. rewrite Hc. red in Ht. rewrite Ht.
    pose proof (escape_raw_head t) as H1. unfold head_kept in H1.
    destruct (escape_raw t) as [|d l1]; [done|]. destruct l1 as [|e l2]; [done|].
    destruct (_ && _ && _) eqn:E; [exfalso|done].
    apply andb_true_iff in E as [[Ec Ed]%andb_true_iff Ee].
    destruct H1 as [->|(t1 & -> & E1)]; [by vm_compute in Ed|].
    pose proof (escape_raw_head t1) as H2. unfold head_kept in H2. rewrite <- E1 in H2.
    destruct H2 as [->|(t2 & -> & E2)]; [by vm_compute in Ee|].
    specialize (Hno d e t2 eq_refl). by rewrite Ec, Ed, Ee in Hno. }
  destruct t as [|d [|e t3]]; [by apply Hkeep|by apply Hkeep|].
  destruct (_ && _ && _) eqn:E.
  - apply andb_true_iff in E as [_ Ee]. apply escaped_u_escape.
    + revert Ee. all_bytes e; intros H; try discriminate H; reflexivity.
    + eapply IH; [|done]. cbn. lia.
  - apply Hkeep. by intros ? ? ? [= <- <- <-].
Qed.

Lemma escape_html_idem v : escape_html (escape_html v) = escape_html v.
Proof.
  induction v as [|b|l|r|l IH|l IH] using json_ind'; cbn [escape_html]; try done.
  - by rewrite escape_raw_idem.
  - f_equal. rewrite map_map. apply map_ext_in. intros v Hin.
    rewrite List.Forall_forall in IH. auto.
  - f_equal. rewrite map_map. apply map_ext_in. intros [k v] Hin.
    rewrite List.Forall_forall in IH. rewrite escape_raw_idem. f_equal. by apply (IH (k, v)).
Qed.

(** ** [json.Marshal] and [json.Unmarshal] of structs

    A [json.RawMessage] is empty, a valid document (held up to insignificant
    white space, which [json.Marshal] removes), or bytes that are not valid
    JSON (which [json.Marshal] refuses). *)
Inductive raw_message := RawEmpty | RawDoc (v : json) | RawBad (b : bytes).

(** A member with a string value; [omitempty] drops an empty one. *)
Definition str_json (s : string) : json := JStr (quote (bytes_of s)).
Definition field (k : string) (v : json) : bytes * json := (bytes_of k, v).
Definition str_field_omitempty (k s : string) : list (bytes * json) :=
  if decide (s = ""%string) then [] else [field k (str_json s)].
Definition raw_field_omitempty (k : string) (r : raw_message) : option (list (bytes * json)) :=
  match r with
  | RawEmpty => Some []
  | RawDoc v => Some [field k (escape_html v)]
  | RawBad _ => None
  end.

(** Decoding a value into a Go string: null leaves it as it was. *)
Definition dec_str (v : json) (old : string) : option string :=
  match v with
  | JNull => Some old
  | JStr r => String.string_of_list_ascii <$> unquote r
  | _ => None
  end.

(** Decoding a number into a Go [int]. *)
Definition dec_int (v : json) (old : Z) : option Z :=
  match v with
  | JNull => Some old
  | JNum l => parse_int 64 l
  | _ => None
  end.

(** Key folding: keys are matched exactly or else without regard to case,
    with the two non-ASCII letters that fold to ASCII ones. *)
Definition fold_tok (t : tok) : bytes :=
  match t with
  | TAscii c => [if between 65 (code c) 90 then chr (code c + 32) else c]
  | TRune [a; b] => if (code a =? 197) && (code b =? 191) then ["s"%char] else [a; b]
  | TRune [a; b; c] =>
      if (code a =? 226) && (code b =? 132) && (code c =? 170) then ["k"%char] else [a; b; c]
  | t => tok_bytes t
  end.
Definition fold_key (k : bytes) : bytes := flat_map fold_tok (runes k).

(** The field a key selects among the field names of a struct. *)
Definition find_key (names : list string) (k : bytes) : option string :=
  match find_first (fun n => bool_decide (bytes_of n = k)) names with
  | Some n => Some n
  | None => find_first (fun n => bool_decide (fold_key (bytes_of n) = fold_key k)) names
  end.

Section Struct.
Context {A : Type} (names : list string) (set : string -> json -> A -> option A).

(** Members in order; unknown keys are skipped, later members override. *)
Fixpoint dec_members (l : list (bytes * json)) (a : A) : option A :=
  match l with
  | [] => Some a
  | (k, v) :: l' =>
      match unquote k with
      | None => None
      | Some k' =>
          match find_key names k' with
          | None => dec_members l' a
          | Some n => set n v a ≫= dec_members l'
          end
      end
  end.

Definition dec_struct (v : json) (zero : A) : option A :=
  match v with
  | JNull => Some zero
  | JObj l => dec_members l zero
  | _ => None
  end.

Lemma dec_members_app l l' a :
  dec_members (l ++ l') a = dec_members l a ≫= dec_members l'.
Proof.
  revert a. induction l as [|[k v] l IH]; intros a; cbn; [done|].
  destruct (unquote k) as [k'|]; [|done]. destruct (find_key names k') as [n|]; [|done].
  destruct (set n v a); cbn; auto.
Qed.

(** A member written by [json.Marshal] reaches its field. *)
Lemma dec_members_field k v l a :
  unquote (bytes_of k) = Some (bytes_of k) -> find_key names (bytes_of k) = Some k ->
  dec_members (field k v :: l) a = set k v a ≫= dec_members l.
Proof. intros H1 H2. cbn [dec_members field]. by rewrite H1, H2. Qed.
End Struct.

Lemma dec_str_json s old : valid_utf8 (bytes_of s) = true -> dec_str (str_json s) old = Some s.
Proof.
  intros H. unfold dec_str, str_json. rewrite unquote_quote by done.
  cbn. by rewrite String.string_of_list_ascii_of_string.
Qed.

(** What a component asks of its codec: what it writes it reads back, up to
    the normalisation the encoding performs, and a document is one line. *)
Class JsonCodec (A : Type) := {
  marshal : A -> option bytes;
  unmarshal : bytes -> option A;
  json_ok : A -> Prop;
  json_norm : A -> A;
}.

Class JsonLaws (A : Type) `{JsonCodec A} := {
  marshal_unmarshal a b : json_ok a -> marshal a = Some b -> unmarshal b = Some (json_norm a);
  marshal_no_ctl a b : json_ok a -> marshal a = Some b -> no_ctl b = true;
  marshal_prefix_free a p q :
    json_ok a -> marshal a = Some (p ++ q) -> q <> [] -> unmarshal p = None;
  json_norm_idem a : json_norm (json_norm a) = json_norm a;
}.

(** The codec of a struct: an encoder into objects and a decoder from
    documents. *)
Section StructCodec.
Context {A : Type} (enc : A -> option (list (bytes * json))) (dec : json -> option A)
  (ok : A -> Prop) (norm : A -> A).

Definition struct_codec : JsonCodec A := {|
  marshal a := (fun l => print (JObj l)) <$> enc a;
  unmarshal b := parse b ≫= dec;
  json_ok := ok;
  json_norm := norm;
|}.

Lemma struct_laws :
  (forall a l, ok a -> enc a = Some l ->
     wf_json (JObj l) = true /\ dec (JObj l) = Some (norm a)) ->
  (forall a, norm (norm a) = norm a) ->
  @JsonLaws A struct_codec.
Proof.
  intros H Hidem. split; unfold struct_codec; cbn [marshal unmarshal json_ok json_norm]; [..|done].
  - intros a b Hok. destruct (enc a) as [l|] eqn:E; [|done]. intros <-%Some_inj.
    destruct (H a l Hok E) as [Hwf Hdec]. by rewrite parse_print.
  - intros a b Hok. destruct (enc a) as [l|] eqn:E; [|done]. intros <-%Some_inj.
    destruct (H a l Hok E) as [Hwf Hdec]. by apply print_no_ctl.
  - intros a p q Hok. destruct (enc a) as [l|] eqn:E; [|done]. intros Hp%Some_inj Hq.
    destruct (H a l Hok E) as [Hwf Hdec]. by rewrite (parse_prefix_free l p q).
Qed.

(** Decoding is defined on documents only. *)
Lemma unmarshal_nil : @unmarshal A struct_codec [] = None.
Proof. done. Qed.
End StructCodec.
