(* ===== verification/GoText.v ===== *)
(** * Text: more of package strings, and package encoding/hex

    Cutting, trimming and splitting byte strings; Unicode white space; hex.
    The last part shows that a decoded JSON string is always valid UTF-8. *)

From S2P Require Import Prelude.
From S2P Require Import GoStrings.
From S2P Require Import Json.

(** Arithmetic with division by constants. *)
Ltac div_lia := Z.to_euclidean_division_equations; lia.

(** ** package strings *)

(** [strings.Cut]: the text around the first occurrence of [p]. *)
Fixpoint cut (p s : bytes) : option (bytes * bytes) :=
  match cut_prefix p s with
  | Some t => Some ([], t)
  | None =>
      match s with
      | [] => None
      | c :: s' => match cut p s' with Some (a, b) => Some (c :: a, b) | None => None end
      end
  end.

Definition has_suffix (p s : bytes) : bool := has_prefix (rev p) (rev s).

(** [strings.TrimSuffix]. *)
Definition trim_suffix (p s : bytes) : bytes :=
  match cut_prefix (rev p) (rev s) with Some t => rev t | None => s end.

Fixpoint drop_while {A} (f : A -> bool) (l : list A) : list A :=
  match l with
  | [] => []
  | a :: l' => if f a then drop_while f l' else l
  end.

Definition drop_end_while {A} (f : A -> bool) (l : list A) : list A := rev (drop_while f (rev l)).

(** [strings.TrimRight] with a cutset of one byte. *)
Definition trim_right (c : ascii) (s : bytes) : bytes := drop_end_while (fun d => ascii_eqb d c) s.

(** [strings.Split] at a byte. *)
Fixpoint split_byte (c : ascii) (s : bytes) : list bytes :=
  match s with
  | [] => [[]]
  | d :: s' =>
      if ascii_eqb d c then [] :: split_byte c s'
      else match split_byte c s' with
           | [] => [[d]]
           | p :: ps => (d :: p) :: ps
           end
  end.

(** [unicode.IsSpace]. *)
Definition is_space (t : tok) : bool :=
  match t with
  | TAscii c => between 9 (code c) 13 || (code c =? 32)
  | TRune l =>
      match map code l with
      | [194; b] => (b =? 133) || (b =? 160)
      | [225; 154; 128] => true
      | [226; 128; b] => between 128 b 138 || (b =? 168) || (b =? 169) || (b =? 175)
      | [226; 129; 159] => true
      | [227; 128; 128] => true
      | _ => false
      end
  | TBad _ => false
  end.

(** [strings.TrimSpace]. *)
Definition trim_space (s : bytes) : bytes :=
  flat_map tok_bytes (drop_end_while is_space (drop_while is_space (runes s))).

Lemma cut_Some p s a b : cut p s = Some (a, b) -> s = a ++ p ++ b.
Proof.
  revert a b. induction s as [|c s IH]; intros a b; cbn [cut].
  - destruct (cut_prefix p []) as [t|] eqn:E; [|done]. intros [= <- <-]. cbn [app]. by apply cut_prefix_Some.
  - destruct (cut_prefix p (c :: s)) as [t|] eqn:E.
    { intros [= <- <-]. cbn [app]. by apply cut_prefix_Some. }
    destruct (cut p s) as [[a' b']|]; [|done]. intros [= <- <-]. cbn. f_equal. by apply IH.
Qed.

Lemma cut_contains p s : is_Some (cut p s) <-> contains p s = true.
Proof.
  induction s as [|c s IH]; cbn [cut contains]; unfold has_prefix.
  - rewrite orb_false_r, bool_decide_eq_true. destruct (cut_prefix p []) as [t|]; split; intros H.
    all: by eauto || by destruct H.
  - rewrite orb_true_iff, <- IH, bool_decide_eq_true.
    destruct (cut_prefix p (c :: s)) as [t|]; [split; eauto|].
    destruct (cut p s) as [[a b]|]; split; intros H; try (by eauto); by destruct H as [[? ?]|[? ?]].
Qed.

Lemma drop_while_head {A} (f : A -> bool) l a l' : drop_while f l = a :: l' -> f a = false.
Proof. induction l as [|b l IH]; cbn; [done|]. destruct (f b) eqn:E; [auto|]. by intros [= -> ->]. Qed.

Lemma drop_while_id {A} (f : A -> bool) l :
  match l with [] => True | a :: _ => f a = false end -> drop_while f l = l.
Proof. destruct l as [|a l]; [done|]. cbn. by intros ->. Qed.

Lemma drop_while_suffix {A} (f : A -> bool) l : exists p, l = p ++ drop_while f l /\ forallb f p = true.
Proof.
  induction l as [|a l [p [Hp Hf]]]; [by exists []|]. cbn. destruct (f a) eqn:E.
  - exists (a :: p). cbn. rewrite E, Hf. split; [by f_equal|done].
  - by exists [].
Qed.

Lemma drop_end_while_prefix {A} (f : A -> bool) l :
  exists q, l = drop_end_while f l ++ q /\ forallb f q = true.
Proof.
  destruct (drop_while_suffix f (rev l)) as (p & Hp & Hf). exists (rev p). unfold drop_end_while.
  rewrite <- rev_app_distr, <- Hp, rev_involutive. split; [done|].
  rewrite forallb_forall in *. intros x. rewrite <- in_rev. auto.
Qed.

(** Trimming removes white space only, at both ends. *)
Lemma trim_space_parts s :
  exists p q, runes s = p ++ drop_end_while is_space (drop_while is_space (runes s)) ++ q /\
    s = flat_map tok_bytes p ++ trim_space s ++ flat_map tok_bytes q /\
    forallb is_space p = true /\ forallb is_space q = true.
Proof.
  destruct (drop_while_suffix is_space (runes s)) as (p & Hp & Hfp).
  destruct (drop_end_while_prefix is_space (drop_while is_space (runes s))) as (q & Hq & Hfq).
  exists p, q. rewrite Hq in Hp. split_and!; [done| |done|done].
  rewrite <- (runes_bytes s) at 1. rewrite Hp, !flat_map_app. done.
Qed.

(** ** package encoding/hex *)

Definition hex_encode (b : bytes) : bytes :=
  flat_map (fun c => [hex_digit (code c / 16); hex_digit (code c mod 16)]) b.

Fixpoint hex_decode (s : bytes) : option bytes :=
  match s with
  | [] => Some []
  | [_] => None
  | a :: b :: s' =>
      match hex_val a, hex_val b with
      | Some x, Some y => cons (chr (x * 16 + y)) <$> hex_decode s'
      | _, _ => None
      end
  end.

Lemma hex_val_digit n : 0 <= n < 16 -> hex_val (hex_digit n) = Some n.
Proof.
  intros H. unfold hex_val, hex_digit, between. destruct (n <? 10) eqn:E.
  - rewrite code_chr by lia. repeat case_match; f_equal; lia.
  - rewrite code_chr by lia. repeat case_match; f_equal; lia.
Qed.

Lemma hex_decode_encode b : hex_decode (hex_encode b) = Some b.
Proof.
  induction b as [|c b IH]; [done|]. cbn [hex_encode flat_map app hex_decode].
  pose proof (code_range c). rewrite !hex_val_digit by div_lia.
  change (flat_map _ b) with (hex_encode b). rewrite IH. cbn [fmap option_fmap option_map].
  replace (code c / 16 * 16 + code c mod 16) with (code c) by div_lia. by rewrite chr_code.
Qed.

(** ** Decoded strings are valid UTF-8 *)

Definition clean (a : bytes) : Prop := forall s, valid_utf8 s = true -> valid_utf8 (a ++ s) = true.

Lemma clean_ascii c : (code c <? 128) = true -> clean [c].
Proof. intros H s Hs. unfold valid_utf8. cbn [app]. rewrite runes_ascii by done. cbn. by rewrite H. Qed.

Lemma clean_rune r : good_tok (TRune r) = true -> clean r.
Proof.
  intros H s Hs. unfold valid_utf8. rewrite runes_rune by done. cbn [forallb]. by rewrite H.
Qed.

Lemma clean_rune_error : clean rune_error.
Proof. by apply clean_rune. Qed.

Lemma clean_encode_rune r : 0 <= r -> clean (encode_rune r).
Proof.
  intros Hr. unfold encode_rune.
  destruct (r <? 128) eqn:E1; [apply clean_ascii; by rewrite code_chr by lia|].
  destruct (r <? 2048) eqn:E2.
  { apply clean_rune. cbn [good_tok]. unfold utf8_2, is_cont, between. rewrite !code_chr by div_lia; div_lia. }
  destruct (between 55296 r 57343 || (1114111 <? r)) eqn:E3; [apply clean_rune_error|].
  apply orb_false_iff in E3 as [E3 E4]. unfold between in E3.
  destruct (r <? 65536) eqn:E5; apply clean_rune; cbn [good_tok];
    unfold utf8_2, utf8_3, utf8_4, is_cont, between; rewrite !code_chr by div_lia; div_lia.
Qed.

Lemma clean_app a s : clean a -> valid_utf8 s = true -> valid_utf8 (a ++ s) = true.
Proof. intros H. apply H. Qed.

Lemma hex_val_range c n : hex_val c = Some n -> 0 <= n.
Proof.
  unfold hex_val, between. pose proof (code_range c). repeat case_match; intros [= <-]; lia.
Qed.

Lemma hex4_range a b c d n : hex4 a b c d = Some n -> 0 <= n.
Proof.
  unfold hex4. destruct (hex_val a) eqn:Ha, (hex_val b) eqn:Hb, (hex_val c) eqn:Hc, (hex_val d) eqn:Hd;
    try done.
  apply hex_val_range in Ha, Hb, Hc, Hd. intros [= <-]. lia.
Qed.

Lemma surrogate_pair_range r1 r2 r : surrogate_pair r1 r2 = Some r -> 0 <= r.
Proof.
  unfold surrogate_pair. destruct (between 55296 r1 56319 && between 56320 r2 57343) eqn:E; [|done].
  apply andb_true_iff in E as [E1%between_spec E2%between_spec]. intros [= <-]. lia.
Qed.

Lemma simple_escape_ascii e : (code e <? 128) = true -> (code (simple_escape e) <? 128) = true.
Proof. unfold simple_escape. intros H. repeat case_match; done. Qed.

Lemma unquote_toks_valid n l s :
  (length l <= n)%nat -> Forall (fun t => run_tok t = true) l ->
  unquote_toks l = Some s -> valid_utf8 s = true.
Proof.
  revert l s. induction n as [|n IH]; intros l s Hn Hl; [by destruct l; [intros [= <-]|cbn in Hn; lia]|].
  assert (forall a (l' : list tok), clean a -> (length l' <= n)%nat ->
    Forall (fun t => run_tok t = true) l' -> app a <$> unquote_toks l' = Some s -> valid_utf8 s = true) as K.
  { intros a l' Ha Hl' Hf. destruct (unquote_toks l') as [s'|] eqn:E; [|done].
    intros [= <-]. apply Ha. by apply (IH l'). }
  destruct l as [|[c|r|c] t]; [by intros [= <-]| | |]; cbn in Hn; inversion Hl as [|?? Ht Hf]; subst;
    cbn [unquote_toks].
  2:{ apply K; [by apply clean_rune|lia|done]. }
  2:{ apply K; [apply clean_rune_error|lia|done]. }
  destruct (negb (ascii_eqb c bslash)).
  { apply (K [c]); [by apply clean_ascii|lia|done]. }
  destruct t as [|[e|r|e] t1]; try done. inversion Hf as [|?? He Hf1]; subst. cbn in Hn.
  destruct (negb (ascii_eqb e "u")).
  { apply (K [simple_escape e]); [|lia|done]. by apply clean_ascii, simple_escape_ascii. }
  destruct t1 as [|[h1| |] [|[h2| |] [|[h3| |] [|[h4| |] t5]]]]; try done. cbn in Hn.
  repeat match goal with H : Forall _ (_ :: _) |- _ => inversion H as [|?? _ ?]; clear H; subst end.
  destruct (hex4 h1 h2 h3 h4) as [r|] eqn:Er; [|done]. apply hex4_range in Er.
  destruct (negb (is_surrogate r)).
  { apply K; [by apply clean_encode_rune|lia|done]. }
  pose proof (K rune_error t5 clean_rune_error ltac:(lia) ltac:(done)) as Ke.
  destruct t5 as [|[c2| |] [|[u2| |] [|[k1| |] [|[k2| |] [|[k3| |] [|[k4| |] t11]]]]]]; try exact Ke.
  cbn in Hn. repeat match goal with H : Forall _ (_ :: _) |- _ => inversion H as [|?? _ ?]; clear H; subst end.
  destruct (ascii_eqb c2 bslash && ascii_eqb u2 "u"); [|exact Ke].
  destruct (hex4 k1 k2 k3 k4) as [r2|]; cbn [base.mbind option_bind]; [|exact Ke].
  destruct (surrogate_pair r r2) as [r'|] eqn:Hr; [|exact Ke].
  apply K; [|lia|done]. by eapply clean_encode_rune, surrogate_pair_range.
Qed.

(** Whatever a document contains, decoding one of its strings gives UTF-8. *)
Lemma unquote_valid raw s : unquote raw = Some s -> valid_utf8 s = true.
Proof. unfold unquote. apply (unquote_toks_valid (length (runes raw))); [done|apply runes_run_tok]. Qed.

Lemma dec_str_valid v old s :
  valid_utf8 (bytes_of old) = true -> dec_str v old = Some s -> valid_utf8 (bytes_of s) = true.
Proof.
  unfold dec_str. intros Ho. destruct v; try done; [by intros [= <-]|].
  destruct (unquote _) as [u|] eqn:E; [|done]. intros [= <-].
  unfold bytes_of. rewrite String.list_ascii_of_string_of_list_ascii. by apply unquote_valid in E.
Qed.

(** An invariant that every field keeps holds of the decoded value. *)
Lemma dec_struct_inv {A} names (set : string -> json -> A -> option A) (I : A -> Prop) v a a' :
  (forall k v a a', I a -> set k v a = Some a' -> I a') ->
  I a -> dec_struct names set v a = Some a' -> I a'.
Proof.
  intros Hset Ha. destruct v as [| | | | |l]; cbn [dec_struct]; try done; [by intros [= <-]|].
  revert a Ha. induction l as [|[k v] l IH]; intros a Ha; cbn [dec_members]; [by intros [= <-]|].
  destruct (unquote k) as [k'|]; [|done]. destruct (find_key names k') as [n|]; [|by apply IH].
  destruct (set n v a) as [a1|] eqn:E; cbn [base.mbind option_bind]; [|done]. eapply IH, Hset; done.
Qed.

(** ** What encoding has escaped is not escaped again *)

Lemma escape_plain_app l s : forallb plain_byte l = true -> escape_raw (l ++ s) = l ++ escape_raw s.
Proof.
  induction l as [|c l IH]; [done|]. cbn [forallb app]. intros [Hc Hl]%andb_true_iff.
  by rewrite escape_raw_plain, IH.
Qed.

Lemma quote_ascii_plain c : (code c <? 128) = true -> forallb plain_byte (quote_ascii c) = true.
Proof. all_bytes c; intros H; try discriminate H; reflexivity. Qed.

Lemma high_plain c : 128 <= code c -> code c <> 226 -> plain_byte c = true.
Proof. unfold plain_byte, html_unsafe. intros H1 H2. repeat case_match; lia. Qed.

Lemma escape_quote_tok t s : run_tok t = true -> escape_raw (quote_tok t ++ s) = quote_tok t ++ escape_raw s.
Proof.
  destruct t as [c|r|c]; cbn [run_tok quote_tok]; intros H.
  - by apply escape_plain_app, quote_ascii_plain.
  - destruct (line_sep r) as [z|] eqn:E.
    { apply line_sep_Some in E as [[_ ->]|[_ ->]]; by apply escape_plain_app. }
    pose proof (rune_bytes_high r H) as Hhigh. rewrite Forall_forall in Hhigh.
    destruct r as [|a [|b [|c [|d [|e r]]]]]; try done; cbn [good_tok] in H; split_bools.
    + apply (escape_plain_app [a; b]). cbn [forallb]. unfold utf8_2, is_cont, between in *.
      rewrite !high_plain by lia. done.
    + unfold utf8_3, is_cont, between in *.
      assert (Hb : plain_byte b = true /\ plain_byte c = true) by (split; apply high_plain; lia).
      destruct Hb as [Hb Hc]. destruct (decide (code a = 226)) as [Ea|Ea].
      2: { apply (escape_plain_app [a; b; c]). cbn [forallb]. rewrite Hb, Hc, high_plain; [done|lia|done]. }
      assert (Hno : ((code b =? 128) && between 168 (code c) 169) = false).
      { apply not_true_is_false. intros [Eb Ec]%andb_true_iff. unfold line_sep in E. cbn [map] in E.
        apply Z.eqb_eq in Eb. apply between_spec in Ec. rewrite Ea, Eb in E.
        assert (Ec' : code c = 168 \/ code c = 169) by lia. by destruct Ec' as [Ec'|Ec']; rewrite Ec' in E. }
      cbn [app escape_raw]. unfold html_unsafe at 1. rewrite Ea. cbn [Z.eqb Pos.eqb orb andb]. rewrite Hno.
      f_equal. by apply (escape_plain_app [b; c]); cbn [forallb]; rewrite Hb, Hc.
    + apply (escape_plain_app [a; b; c; d]). cbn [forallb]. unfold utf8_4, is_cont, between in *.
      rewrite !high_plain by lia. done.
  - by apply (escape_plain_app (u_escape 65533)).
Qed.

(** Encoding has escaped what a RawMessage would escape again. *)
Lemma quote_escaped s : escape_raw (quote s) = quote s.
Proof.
  unfold quote. pose proof (runes_run_tok s) as H. induction H as [|t l Ht _ IH]; [done|].
  cbn [flat_map]. by rewrite escape_quote_tok, IH.
Qed.

Lemma str_json_escaped s : escape_html (str_json s) = str_json s.
Proof. unfold str_json. cbn [escape_html]. by rewrite quote_escaped. Qed.

(** ** Bytes as a [json.RawMessage] *)

Definition raw_of (body : bytes) : raw_message :=
  match body with
  | [] => RawEmpty
  | _ => match parse body with Some v => RawDoc v | None => RawBad body end
  end.

(** The bytes of a raw message. *)
Definition raw_bytes (r : raw_message) : bytes :=
  match r with RawEmpty => [] | RawDoc v => print v | RawBad b => b end.

Lemma raw_of_print v : wf_json v = true -> raw_of (print v) = RawDoc v.
Proof.
  intros H. unfold raw_of. rewrite parse_print by done.
  destruct (print v) eqn:E; [|done]. pose proof (parse_print v H) as Hp. rewrite E in Hp. done.
Qed.

(** [json.Unmarshal] of a raw message into a struct. *)
Definition unmarshal_raw {A} (names : list string) (set : string -> json -> A -> option A) (zero : A)
    (r : raw_message) : option A :=
  match r with RawDoc v => dec_struct names set v zero | _ => None end.
