(* ===== verification/GoHttp.v ===== *)
(** * HTTP exchanges (package net/http)

    What a client request comes back with: nothing, or a response with its
    status, its headers and its body, if the body could be read to its end. *)

From S2P Require Import Prelude.
From S2P Require Import GoStrings.

Record http_response := mkResponse {
  StatusCode : Z;
  Header : gmap string string;
  Body : option bytes;
}.

(** [Header.Get]: an absent header reads as the empty string. *)
Definition header_get (k : string) (h : gmap string string) : string := default ""%string (h !! k).

(** [io.LimitReader]. *)
Definition limit_body (n : Z) (b : bytes) : bytes := take (Z.to_nat n) b.

(** A request as the peer sees it. *)
Record http_request := mkRequest {
  rq_Method : string;
  rq_URL : string;
  rq_Header : gmap string string;
  rq_Body : bytes;
}.
