(* ===== verification/GoSha256.v ===== *)
(** * crypto/sha256 and crypto/hmac

    SHA-256 as FIPS 180-4 defines it, on 32-bit words as integers below 2^32,
    and HMAC as RFC 2104 does.  The examples are the test vectors of the
    standards. *)

From S2P Require Import Prelude.
From S2P Require Import GoStrings.
From S2P Require Import Json.
From S2P Require Import GoText.

Definition mask32 : Z := 2 ^ 32 - 1.
Definition add32 (x y : Z) : Z := Z.land (x + y) mask32.
Definition rotr (x n : Z) : Z := Z.land (Z.lor (Z.shiftr x n) (Z.shiftl x (32 - n))) mask32.

Definition big_sigma0 (x : Z) : Z := Z.lxor (rotr x 2) (Z.lxor (rotr x 13) (rotr x 22)).
Definition big_sigma1 (x : Z) : Z := Z.lxor (rotr x 6) (Z.lxor (rotr x 11) (rotr x 25)).
Definition small_sigma0 (x : Z) : Z := Z.lxor (rotr x 7) (Z.lxor (rotr x 18) (Z.shiftr x 3)).
Definition small_sigma1 (x : Z) : Z := Z.lxor (rotr x 17) (Z.lxor (rotr x 19) (Z.shiftr x 10)).
Definition choose (x y z : Z) : Z := Z.lxor (Z.land x y) (Z.land (Z.lxor x mask32) z).
Definition majority (x y z : Z) : Z := Z.lxor (Z.land x y) (Z.lxor (Z.land x z) (Z.land y z)).

(** The constants are the first 32 bits of the fractional parts of the roots
    of the first primes: of cube roots in the rounds, of square roots at the
    start.  [root_below k n bits r] extends [r] bit by bit to the greatest
    number whose [k]-th power is at most [n]. *)
Fixpoint root_below (k n : Z) (bits : nat) (r : Z) : Z :=
  match bits with
  | O => r
  | S b => let r' := r + 2 ^ Z.of_nat b in root_below k n b (if r' ^ k <=? n then r' else r)
  end.

Definition root_fraction (k p : Z) : Z := Z.land (root_below k (p * 2 ^ (32 * k)) 40 0) mask32.

Definition is_prime (p : Z) : bool := forallb (fun d => negb (p mod d =? 0)) (seqZ 2 (p - 2)).
Definition first_primes : list Z := List.filter is_prime (seqZ 2 310).

Definition round_constants : list Z := map (root_fraction 3) first_primes.
Definition initial_state : list Z := map (root_fraction 2) (take 8 first_primes).

Example constants_count : (length round_constants, length initial_state) = (64, 8)%nat.
Proof. vm_compute. reflexivity. Qed.

(** Bytes of a word, the most significant first. *)
Definition word_bytes (x : Z) : bytes :=
  [chr (Z.land (Z.shiftr x 24) 255); chr (Z.land (Z.shiftr x 16) 255);
   chr (Z.land (Z.shiftr x 8) 255); chr (Z.land x 255)].

Fixpoint words (b : bytes) : list Z :=
  match b with
  | a :: b1 :: c :: d :: rest =>
      (code a * 2 ^ 24 + code b1 * 2 ^ 16 + code c * 2 ^ 8 + code d) :: words rest
  | _ => []
  end.

(** The message with its padding: a bit 1, zeros, and the length in bits. *)
Definition pad (m : bytes) : bytes :=
  let n := Z.of_nat (length m) in
  let zeros := Z.to_nat ((55 - n) mod 64) in
  m ++ chr 128 :: repeat (chr 0) zeros ++ word_bytes (Z.shiftr (8 * n) 32) ++ word_bytes (8 * n).

(** The schedule, the newest word first; [t] words are missing. *)
Fixpoint extend (t : nat) (ws : list Z) : list Z :=
  match t with
  | O => ws
  | S t' =>
      let word i := nth i ws 0 in
      extend t' (add32 (add32 (small_sigma1 (word 1%nat)) (word 6%nat))
                       (add32 (small_sigma0 (word 14%nat)) (word 15%nat)) :: ws)
  end.

Definition schedule (block : list Z) : list Z := rev (extend 48 (rev block)).

Definition round (st : list Z) (kw : Z * Z) : list Z :=
  match st with
  | [a; b; c; d; e; f; g; h] =>
      let t1 := add32 (add32 h (big_sigma1 e)) (add32 (choose e f g) (add32 (kw.1) (kw.2))) in
      let t2 := add32 (big_sigma0 a) (majority a b c) in
      [add32 t1 t2; a; b; c; add32 d t1; e; f; g]
  | _ => st
  end.

Definition compress (st : list Z) (block : list Z) : list Z :=
  zip_with add32 st (foldl round st (zip round_constants (schedule block))).

Fixpoint blocks (fuel : nat) (ws : list Z) (st : list Z) : list Z :=
  match fuel, ws with
  | S fuel', _ :: _ => blocks fuel' (drop 16 ws) (compress st (take 16 ws))
  | _, _ => st
  end.

(** [sha256.Sum256]: the fuel is the number of words, more than there are
    blocks. *)
Definition sha256 (m : bytes) : bytes :=
  let ws := words (pad m) in
  flat_map word_bytes (blocks (length ws) ws initial_state).

Definition xor_byte (n : Z) (c : ascii) : ascii := chr (Z.lxor (code c) n).

(** [hmac.New(sha256.New, key)], written with [m] and summed. *)
Definition hmac_sha256 (key m : bytes) : bytes :=
  let key := if decide (64 < length key)%nat then sha256 key else key in
  let key := key ++ repeat (chr 0) (64 - length key) in
  sha256 (map (xor_byte 92) key ++ sha256 (map (xor_byte 54) key ++ m)).

Lemma word_bytes_length x : length (word_bytes x) = 4%nat.
Proof. done. Qed.

Lemma compress_length st block :
  length st = 8%nat -> length (compress st block) = 8%nat.
Proof.
  intros H. unfold compress. rewrite length_zip_with.
  assert (forall l s, length s = 8%nat -> length (foldl round s l) = 8%nat) as Hf.
  { induction l as [|kw l IH]; intros s Hs; [done|]. cbn [foldl]. apply IH.
    destruct s as [|a [|b [|c [|d [|e [|f [|g [|h [|]]]]]]]]]; done. }
  rewrite Hf by done. lia.
Qed.

Lemma blocks_length fuel ws st : length st = 8%nat -> length (blocks fuel ws st) = 8%nat.
Proof.
  revert ws st. induction fuel as [|fuel IH]; intros ws st H; destruct ws; cbn [blocks]; try done.
  apply IH. by apply compress_length.
Qed.

(** A digest has 32 bytes. *)
Lemma sha256_length m : length (sha256 m) = 32%nat.
Proof.
  unfold sha256. set (l := blocks _ _ _).
  assert (length l = 8%nat) as Hl by (apply blocks_length; vm_compute; reflexivity).
  clearbody l. destruct l as [|a [|b [|c [|d [|e [|f [|g [|h [|]]]]]]]]]; done.
Qed.

Lemma hmac_sha256_length key m : length (hmac_sha256 key m) = 32%nat.
Proof. apply sha256_length. Qed.

Example sha256_abc :
  str_of (hex_encode (sha256 (bytes_of "abc"))) =
  "ba7816bf8f01cfea414140de5dae2223b00361a396177a9cb410ff61f20015ad"%string.
Proof. vm_compute. reflexivity. Qed.

Example sha256_two_blocks :
  str_of (hex_encode (sha256 (bytes_of "abcdbcdecdefdefgefghfghighijhijkijkljklmklmnlmnomnopnopq"))) =
  "248d6a61d20638b8e5c026930c3e6039a33ce45964ff2167f6ecedd419db06c1"%string.
Proof. vm_compute. reflexivity. Qed.

Example hmac_jefe :
  str_of (hex_encode (hmac_sha256 (bytes_of "Jefe") (bytes_of "what do ya want for nothing?"))) =
  "5bdcc146bf60754e6a042426089575c75a003f089d2739839dec58b964ec3843"%string.
Proof. vm_compute. reflexivity. Qed.
