(* ===== verification/Message.v ===== *)
(** * Messages (internal/ipcbus/message.go, sdk/channel/message.go)

    The struct the bus and the sidecars exchange, once as the bus declares it
    ([Message]) and once as the channel SDK declares it ([Sdk.message]), with
    the JSON codec of each.  The instances at the end discharge the codec
    interface of Json.v for both. *)

From S2P Require Import Prelude.
From S2P Require Import GoStrings.
From S2P Require Import Json.
From S2P Require Import GoTime.

(** ** Timestamps in JSON ([time.Time.MarshalJSON], [UnmarshalJSON]) *)

Definition time_json (t : Z) : option json :=
  if year_ok t then Some (JStr (format_nano t)) else None.

Definition dec_time (v : json) (old : Z) : option Z :=
  match v with
  | JNull => Some old
  | JStr r => parse_rfc3339 r
  | _ => None
  end.

(** A byte that stands for itself in a string literal. *)
Definition self_byte (c : ascii) : bool :=
  negb (ascii_eqb c dquote) && negb (ascii_eqb c bslash) && negb (code c <? 32).

Lemma self_bytes_valid l : forallb self_byte l = true -> valid_raw l = true.
Proof.
  rewrite valid_raw_body. induction l as [|c l IH]; cbn [forallb]; [constructor|].
  rewrite andb_true_iff. intros [Hc Hl]. unfold self_byte in Hc. split_bools.
  apply body_byte; auto.
Qed.

(** A timestamp consists of digits and punctuation. *)
Lemma format_nano_forallb (p : ascii -> bool) t :
  (forall c, is_digit c = true -> p c = true) ->
  p "-"%char && p "T"%char && p ":"%char && p "."%char && p "Z"%char = true ->
  forallb p (format_nano t) = true.
Proof.
  intros Hd Hp. rewrite !andb_true_iff in Hp. destruct Hp as [[[[H1 H2] H3] H4] H5].
  unfold format_nano. destruct (civil (t / ns_per_day)) as [[y m] d].
  assert (Hf : forall w n, forallb p (fixed w n) = true).
  { intros w. induction w as [|w IH]; intros n; [done|]. cbn [fixed].
    rewrite forallb_app, IH. cbn [forallb andb]. rewrite andb_true_r. apply Hd, is_digit_digit.
    apply Z.mod_pos_bound. lia. }
  assert (Htrim : forall l, forallb p l = true -> forallb p (trim_zeros l) = true).
  { intros l. induction l as [|c l IH]; cbn [trim_zeros forallb]; [done|].
    rewrite andb_true_iff. intros [Hc Hl]. specialize (IH Hl).
    destruct (trim_zeros l); [case_if; [done|]; cbn [forallb]; by rewrite Hc|].
    cbn [forallb] in *. by rewrite Hc. }
  rewrite !forallb_app, !Hf. unfold format_frac.
  match goal with |- context [fixed 9 ?n] => pose proof (Htrim _ (Hf 9%nat n)) as H9 end.
  destruct (trim_zeros _); cbn [forallb app] in *; by rewrite ?H1, ?H2, ?H3, ?H4, ?H5, ?H9.
Qed.

Lemma format_nano_self t : forallb self_byte (format_nano t) = true.
Proof.
  apply format_nano_forallb; [|reflexivity]. intros c. all_bytes c; intros H; try discriminate H; reflexivity.
Qed.

Lemma time_json_wf t v : time_json t = Some v -> wf_json v = true.
Proof.
  unfold time_json. case_if; [|done]. intros [= <-]. apply self_bytes_valid, format_nano_self.
Qed.

Lemma dec_time_json t v old : time_json t = Some v -> dec_time v old = Some t.
Proof.
  unfold time_json. destruct (year_ok t) eqn:E; [|done]. intros [= <-].
  by apply parse_format_nano.
Qed.

(** ** Members of an encoded struct *)

Lemma str_json_wf s : wf_json (str_json s) = true.
Proof. apply quote_valid. Qed.

Lemma str_omitempty_wf k s :
  valid_raw (bytes_of k) = true ->
  forallb (fun '(k, v) => valid_raw k && wf_json v) (str_field_omitempty k s) = true.
Proof.
  intros Hk. unfold str_field_omitempty. destruct (decide _); [done|].
  cbn [forallb field]. by rewrite Hk, str_json_wf.
Qed.

(** A RawMessage after a round trip. *)
Definition norm_raw (r : raw_message) : raw_message :=
  match r with RawDoc v => RawDoc (escape_html v) | r => r end.
Definition raw_ok (r : raw_message) : bool :=
  match r with RawDoc v => wf_json v | _ => true end.

Lemma norm_raw_idem r : norm_raw (norm_raw r) = norm_raw r.
Proof. destruct r; cbn; [done| |done]. by rewrite escape_html_idem. Qed.

Lemma raw_omitempty_wf k r l :
  valid_raw (bytes_of k) = true -> raw_ok r = true -> raw_field_omitempty k r = Some l ->
  forallb (fun '(k, v) => valid_raw k && wf_json v) l = true.
Proof.
  intros Hk Hr. destruct r as [|v|b]; cbn; [by intros [= <-]| |done]. intros [= <-].
  cbn [forallb field]. by rewrite Hk, escape_html_wf.
Qed.

Definition utf8_str (s : string) : bool := valid_utf8 (bytes_of s).

(** ** The bus's message *)

(** The constants of [MessageType]. *)
Definition TypeMessage : string := "message".
Definition TypeAck : string := "ack".
Definition TypeNack : string := "nack".
Definition TypeSlowDown : string := "slow_down".
Definition TypeResume : string := "resume".
Definition TypeShutdown : string := "shutdown".
Definition TypeRegister : string := "register".
Definition TypeHeartbeat : string := "heartbeat".

Record Message := mkMessage {
  ID : string;
  Type_ : string;
  Channel : string;
  CorrelationID : string;
  ReplyTo : string;
  Timestamp : Z;
  Payload : raw_message;
}.

Definition NewMessage {S E} (msgType channel : string) (payload : raw_message) : M S E Message :=
  let* id := new_uuid in
  let* t := now in
  mret (mkMessage id msgType channel "" "" t payload).

(** The payload of an acknowledgement: [{"ref": id}]. *)
Definition ref_payload (id : string) : raw_message := RawDoc (JObj [field "ref" (str_json id)]).

Definition NewAck {S E} (id : string) : M S E Message :=
  let* uid := new_uuid in
  let* t := now in
  mret (mkMessage uid TypeAck "" id "" t (ref_payload id)).

Definition IsControl (m : Message) : bool :=
  bool_decide (Type_ m ∈ [TypeAck; TypeNack; TypeSlowDown; TypeResume; TypeShutdown;
                          TypeRegister; TypeHeartbeat]).

Definition enc_message (m : Message) : option (list (bytes * json)) :=
  ts ← time_json (Timestamp m);
  payload ← raw_field_omitempty "payload" (Payload m);
  Some ([field "id" (str_json (ID m)); field "type" (str_json (Type_ m))] ++
              str_field_omitempty "channel" (Channel m) ++
              str_field_omitempty "correlationId" (CorrelationID m) ++
              str_field_omitempty "replyTo" (ReplyTo m) ++
              [field "timestamp" ts] ++ payload).

Definition message_keys : list string :=
  ["id"; "type"; "channel"; "correlationId"; "replyTo"; "timestamp"; "payload"]%string.

Definition set_message (k : string) (v : json) (m : Message) : option Message :=
  let '(mkMessage i t c co r ts p) := m in
  if decide (k = "id"%string) then (fun x => mkMessage x t c co r ts p) <$> dec_str v i
  else if decide (k = "type"%string) then (fun x => mkMessage i x c co r ts p) <$> dec_str v t
  else if decide (k = "channel"%string) then (fun x => mkMessage i t x co r ts p) <$> dec_str v c
  else if decide (k = "correlationId"%string) then
    (fun x => mkMessage i t c x r ts p) <$> dec_str v co
  else if decide (k = "replyTo"%string) then (fun x => mkMessage i t c co x ts p) <$> dec_str v r
  else if decide (k = "timestamp"%string) then
    (fun x => mkMessage i t c co r x p) <$> dec_time v ts
  else Some (mkMessage i t c co r ts (RawDoc v)).

(** The zero [time.Time] is the first instant of year 1. *)
Definition zero_time : Z := days_of 1 1 1 * ns_per_day.
Definition zero_message : Message := mkMessage "" "" "" "" "" zero_time RawEmpty.

Definition dec_message (v : json) : option Message :=
  dec_struct message_keys set_message v zero_message.

Definition message_ok (m : Message) : Prop :=
  utf8_str (ID m) && utf8_str (Type_ m) && utf8_str (Channel m) &&
  utf8_str (CorrelationID m) && utf8_str (ReplyTo m) && raw_ok (Payload m) = true.

Definition norm_message (m : Message) : Message :=
  mkMessage (ID m) (Type_ m) (Channel m) (CorrelationID m) (ReplyTo m) (Timestamp m)
    (norm_raw (Payload m)).

#[export] Instance Message_codec : JsonCodec Message :=
  struct_codec enc_message dec_message message_ok norm_message.

(** Decoding a member that [json.Marshal] wrote, or omitted because the field
    holds its zero value. *)
Lemma dec_omitempty {A} names (set : string -> json -> A -> option A) k s l a a' :
  unquote (bytes_of k) = Some (bytes_of k) -> find_key names (bytes_of k) = Some k ->
  (s = ""%string -> a' = a) -> set k (str_json s) a = Some a' ->
  dec_members names set (str_field_omitempty k s ++ l) a = dec_members names set l a'.
Proof.
  intros H1 H2 He Hs. unfold str_field_omitempty. destruct (decide _) as [E|].
  - by rewrite He.
  - cbn [app]. by rewrite dec_members_field, Hs.
Qed.

Lemma dec_field {A} names (set : string -> json -> A -> option A) k v l a a' :
  unquote (bytes_of k) = Some (bytes_of k) -> find_key names (bytes_of k) = Some k ->
  set k v a = Some a' ->
  dec_members names set (field k v :: l) a = dec_members names set l a'.
Proof. intros H1 H2 Hs. by rewrite dec_members_field, Hs. Qed.

(** Evaluate a setter at a literal key down to the decoder of the field. *)
Ltac set_key lem :=
  match goal with
  | |- ?set ?k ?v ?a = _ =>
      let r := eval lazy -[dec_str dec_time dec_int str_json fmap option_fmap option_map] in (set k v a) in
      change (set k v a) with r
  end; erewrite lem by eassumption; reflexivity.

Lemma enc_message_wf m l : message_ok m -> enc_message m = Some l -> wf_json (JObj l) = true.
Proof.
  unfold message_ok. rewrite !andb_true_iff. intros [_ Hr]. unfold enc_message.
  destruct (time_json _) as [ts|] eqn:Ets; [|done].
  destruct (raw_field_omitempty _ _) as [pl|] eqn:Epl; [|done].
  pose proof (raw_omitempty_wf "payload" _ _ eq_refl Hr Epl) as Hp.
  cbn [base.mbind option_bind]. intros [= <-]. cbn [wf_json app forallb field].
  rewrite !forallb_app, !str_omitempty_wf by reflexivity. cbn [forallb field].
  rewrite Hp, !str_json_wf, (time_json_wf _ _ Ets). reflexivity.
Qed.

Lemma enc_dec_message m l :
  message_ok m -> enc_message m = Some l ->
  wf_json (JObj l) = true /\ dec_message (JObj l) = Some (norm_message m).
Proof.
  intros Hok He. split; [by eapply enc_message_wf|]. revert He. unfold message_ok, utf8_str in Hok.
  rewrite !andb_true_iff in Hok. destruct Hok as [[[[[H1 H2] H3] H4] H5] H6].
  unfold enc_message. destruct (time_json _) as [ts|] eqn:Ets; [|done].
  destruct (raw_field_omitempty _ _) as [pl|] eqn:Epl; [|done].
  cbn [base.mbind option_bind]. intros [= <-].
  destruct m as [i t c co r tm p]. cbn [ID Type_ Channel CorrelationID ReplyTo Timestamp Payload] in *.
  unfold dec_message, dec_struct, zero_message. cbn [app].
  erewrite dec_field; [|reflexivity..|set_key dec_str_json].
  erewrite dec_field; [|reflexivity..|set_key dec_str_json].
  erewrite dec_omitempty; [|reflexivity..| |set_key dec_str_json]; [|by intros ->].
  erewrite dec_omitempty; [|reflexivity..| |set_key dec_str_json]; [|by intros ->].
  erewrite dec_omitempty; [|reflexivity..| |set_key dec_str_json]; [|by intros ->].
  erewrite dec_field; [|reflexivity..|set_key dec_time_json].
  destruct p as [|v|b]; cbn in Epl; [| |done]; injection Epl as <-; reflexivity.
Qed.

Lemma norm_message_idem m : norm_message (norm_message m) = norm_message m.
Proof. unfold norm_message. cbn. f_equal. apply norm_raw_idem. Qed.

#[export] Instance Message_laws : JsonLaws Message := struct_laws _ _ _ _ enc_dec_message norm_message_idem.

(** ** The SDK's message: the same struct, declared again *)

Module Sdk.

Definition typeMessage : string := "message".
Definition typeAck : string := "ack".
Definition typeNack : string := "nack".
Definition typeSlowDown : string := "slow_down".
Definition typeResume : string := "resume".
Definition typeShutdown : string := "shutdown".
Definition typeRegister : string := "register".
Definition typeHeartbeat : string := "heartbeat".

Record message := mkMsg {
  id_ : string;
  typ : string;
  channel_ : string;
  correlationID : string;
  replyTo : string;
  timestamp_ : Z;
  payload_ : raw_message;
}.

Definition newMessage {S E} (msgType channel : string) (payload : raw_message) : M S E message :=
  let* id := new_uuid in
  let* t := now in
  mret (mkMsg id msgType channel "" "" t payload).

Definition newAck {S E} (id : string) : M S E message :=
  let* uid := new_uuid in
  let* t := now in
  mret (mkMsg uid typeAck "" id "" t (ref_payload id)).

Definition isControl (m : message) : bool :=
  bool_decide (typ m ∈ [typeAck; typeNack; typeSlowDown; typeResume; typeShutdown;
                          typeRegister; typeHeartbeat]).

Definition enc_msg (m : message) : option (list (bytes * json)) :=
  ts ← time_json (timestamp_ m);
  payload ← raw_field_omitempty "payload" (payload_ m);
  Some ([field "id" (str_json (id_ m)); field "type" (str_json (typ m))] ++
              str_field_omitempty "channel" (channel_ m) ++
              str_field_omitempty "correlationId" (correlationID m) ++
              str_field_omitempty "replyTo" (replyTo m) ++
              [field "timestamp" ts] ++ payload).

Definition msg_keys : list string :=
  ["id"; "type"; "channel"; "correlationId"; "replyTo"; "timestamp"; "payload"]%string.

Definition set_msg (k : string) (v : json) (m : message) : option message :=
  let '(mkMsg i t c co r ts p) := m in
  if decide (k = "id"%string) then (fun x => mkMsg x t c co r ts p) <$> dec_str v i
  else if decide (k = "type"%string) then (fun x => mkMsg i x c co r ts p) <$> dec_str v t
  else if decide (k = "channel"%string) then (fun x => mkMsg i t x co r ts p) <$> dec_str v c
  else if decide (k = "correlationId"%string) then
    (fun x => mkMsg i t c x r ts p) <$> dec_str v co
  else if decide (k = "replyTo"%string) then (fun x => mkMsg i t c co x ts p) <$> dec_str v r
  else if decide (k = "timestamp"%string) then
    (fun x => mkMsg i t c co r x p) <$> dec_time v ts
  else Some (mkMsg i t c co r ts (RawDoc v)).

Definition zero_msg : message := mkMsg "" "" "" "" "" zero_time RawEmpty.

Definition dec_msg (v : json) : option message :=
  dec_struct msg_keys set_msg v zero_msg.

Definition msg_ok (m : message) : Prop :=
  utf8_str (id_ m) && utf8_str (typ m) && utf8_str (channel_ m) &&
  utf8_str (correlationID m) && utf8_str (replyTo m) && raw_ok (payload_ m) = true.

Definition norm_msg (m : message) : message :=
  mkMsg (id_ m) (typ m) (channel_ m) (correlationID m) (replyTo m) (timestamp_ m)
    (norm_raw (payload_ m)).

#[global] Instance message_codec : JsonCodec message :=
  struct_codec enc_msg dec_msg msg_ok norm_msg.

Lemma enc_msg_wf m l : msg_ok m -> enc_msg m = Some l -> wf_json (JObj l) = true.
Proof.
  unfold msg_ok. rewrite !andb_true_iff. intros [_ Hr]. unfold enc_msg.
  destruct (time_json _) as [ts|] eqn:Ets; [|done].
  destruct (raw_field_omitempty _ _) as [pl|] eqn:Epl; [|done].
  pose proof (raw_omitempty_wf "payload" _ _ eq_refl Hr Epl) as Hp.
  cbn [base.mbind option_bind]. intros [= <-]. cbn [wf_json app forallb field].
  rewrite !forallb_app, !str_omitempty_wf by reflexivity. cbn [forallb field].
  rewrite Hp, !str_json_wf, (time_json_wf _ _ Ets). reflexivity.
Qed.

Lemma enc_dec_msg m l :
  msg_ok m -> enc_msg m = Some l ->
  wf_json (JObj l) = true /\ dec_msg (JObj l) = Some (norm_msg m).
Proof.
  intros Hok He. split; [by eapply enc_msg_wf|]. revert He. unfold msg_ok, utf8_str in Hok.
  rewrite !andb_true_iff in Hok. destruct Hok as [[[[[H1 H2] H3] H4] H5] H6].
  unfold enc_msg. destruct (time_json _) as [ts|] eqn:Ets; [|done].
  destruct (raw_field_omitempty _ _) as [pl|] eqn:Epl; [|done].
  cbn [base.mbind option_bind]. intros [= <-].
  destruct m as [i t c co r tm p]. cbn [id_ typ channel_ correlationID replyTo timestamp_ payload_] in *.
  unfold dec_msg, dec_struct, zero_msg. cbn [app].
  erewrite dec_field; [|reflexivity..|set_key dec_str_json].
  erewrite dec_field; [|reflexivity..|set_key dec_str_json].
  erewrite dec_omitempty; [|reflexivity..| |set_key dec_str_json]; [|by intros ->].
  erewrite dec_omitempty; [|reflexivity..| |set_key dec_str_json]; [|by intros ->].
  erewrite dec_omitempty; [|reflexivity..| |set_key dec_str_json]; [|by intros ->].
  erewrite dec_field; [|reflexivity..|set_key dec_time_json].
  destruct p as [|v|b]; cbn in Epl; [| |done]; injection Epl as <-; reflexivity.
Qed.

Lemma norm_msg_idem m : norm_msg (norm_msg m) = norm_msg m.
Proof. unfold norm_msg. cbn. f_equal. apply norm_raw_idem. Qed.

#[global] Instance message_laws : JsonLaws message := struct_laws _ _ _ _ enc_dec_msg norm_msg_idem.

(** The same fields as a message of the bus. *)
Definition to_bus (m : message) : Message :=
  mkMessage (id_ m) (typ m) (channel_ m) (correlationID m) (replyTo m) (timestamp_ m) (payload_ m).

Definition of_bus (m : Message) : message :=
  mkMsg (ID m) (Type_ m) (Channel m) (CorrelationID m) (ReplyTo m) (Timestamp m) (Payload m).

Lemma to_of_bus m : to_bus (of_bus m) = m.
Proof. by destruct m. Qed.

Lemma of_to_bus m : of_bus (to_bus m) = m.
Proof. by destruct m. Qed.

(** The two codecs agree, so either side reads what the other writes. *)
Lemma marshal_to_bus m : marshal m = marshal (to_bus m).
Proof. by destruct m. Qed.

Lemma set_msg_of_bus k v m : set_msg k v (of_bus m) = of_bus <$> set_message k v m.
Proof.
  destruct m as [i t c co r ts p]. unfold set_msg, set_message, of_bus.
  cbn [ID Type_ Channel CorrelationID ReplyTo Timestamp Payload].
  repeat case_match; try done; rewrite <- option_fmap_compose; reflexivity.
Qed.

Lemma dec_members_of_bus l m :
  dec_members msg_keys set_msg l (of_bus m) =
  of_bus <$> dec_members message_keys set_message l m.
Proof.
  revert m. induction l as [|[k v] l IH]; intros m; [done|]. cbn [dec_members].
  destruct (unquote k) as [k'|]; [|done]. unfold msg_keys, message_keys in *.
  destruct (find_key _ k') as [n|]; [|apply IH].
  rewrite set_msg_of_bus. destruct (set_message n v m) as [m'|]; [apply IH|done].
Qed.

Lemma unmarshal_of_bus b :
  unmarshal (A := message) b = of_bus <$> unmarshal (A := Message) b.
Proof.
  cbn [unmarshal message_codec Message_codec struct_codec].
  destruct (parse b) as [v|]; [|done]. cbn [base.mbind option_bind].
  unfold dec_msg, dec_message, dec_struct. destruct v; try done.
  apply (dec_members_of_bus l zero_message).
Qed.

End Sdk.
