(* ===== verification/Framing.v ===== *)
(** * Length-prefixed frames (internal/ipcbus/framing.go, sdk/channel/message.go)

    A frame is the length of a JSON document in four bytes, big end first,
    and the document.  Reading is over the bytes that arrive before the
    connection ends, as [io.ReadFull] consumes them. *)

From S2P Require Import Prelude.
From S2P Require Import GoStrings.
From S2P Require Import Json.
From S2P Require Import Message.

Definition MaxMessageSize : Z := 16 * 1024 * 1024.
Definition FrameHeaderSize : nat := 4.

(** ** encoding/binary, big endian *)

Definition PutUint32 (n : Z) : bytes :=
  [chr (n / 2 ^ 24 mod 256); chr (n / 2 ^ 16 mod 256); chr (n / 2 ^ 8 mod 256); chr (n mod 256)].

Definition Uint32 (l : bytes) : Z :=
  match l with
  | a :: b :: c :: d :: _ => code a * 2 ^ 24 + code b * 2 ^ 16 + code c * 2 ^ 8 + code d
  | _ => 0
  end.

(** Go's conversion of an [int] to [uint32]. *)
Definition to_uint32 (n : Z) : Z := n mod 2 ^ 32.

Lemma Uint32_PutUint32 n rest : 0 <= n < 2 ^ 32 -> Uint32 (PutUint32 n ++ rest) = n.
Proof.
  intros H. cbn [PutUint32 app Uint32].
  rewrite !code_chr by (apply Z.mod_pos_bound; lia).
  pose proof (Z.div_mod n 256 ltac:(lia)). pose proof (Z.div_mod (n / 256) 256 ltac:(lia)).
  pose proof (Z.div_mod (n / 256 / 256) 256 ltac:(lia)).
  change (2 ^ 24) with (256 * 256 * 256). change (2 ^ 16) with (256 * 256).
  change (2 ^ 8) with 256. rewrite <- !Z.div_div by lia.
  assert (n / 256 / 256 / 256 < 256).
  { rewrite !Z.div_div by lia. apply Z.div_lt_upper_bound; lia. }
  assert (0 <= n / 256 / 256 / 256) by (rewrite !Z.div_div by lia; apply Z.div_pos; lia).
  rewrite (Z.mod_small (n / 256 / 256 / 256)) by lia. lia.
Qed.

(** ** io.ReadFull on what is left of a stream *)

Inductive read_error := EOF | UnexpectedEOF.

Definition read_full (n : nat) (s : bytes) : result read_error bytes * bytes :=
  if decide (n <= length s)%nat then (Ok (take n s), drop n s)
  else match s with [] => (Err EOF, []) | _ => (Err UnexpectedEOF, []) end.

Inductive frame_error :=
| ErrMarshal
| ErrMessageSize (n : Z)
| ErrWrite
| ErrHeader (e : read_error)
| ErrFrameSize (n : Z)
| ErrBody (e : read_error)
| ErrUnmarshal.

Section Frames.
Context {A : Type} `{JsonCodec A} {S : Type}.

(** Marshal, check the size, write header and document in one call. *)
Definition write_frame (write : bytes -> S -> S * bool) (a : A) (s : S)
    : S * result frame_error unit :=
  match marshal a with
  | None => (s, Err ErrMarshal)
  | Some data =>
      let n := Z.of_nat (length data) in
      if MaxMessageSize <? n then (s, Err (ErrMessageSize n))
      else let '(s', ok) := write (PutUint32 (to_uint32 n) ++ data) s in
           (s', if ok : bool then Ok tt else Err ErrWrite)
  end.

(** Read the header, check the length, read and decode the document. *)
Definition read_frame (s : bytes) : result frame_error A * bytes :=
  match read_full FrameHeaderSize s with
  | (Err e, s1) => (Err (ErrHeader e), s1)
  | (Ok header, s1) =>
      let length := Uint32 header in
      if MaxMessageSize <? length then (Err (ErrFrameSize length), s1)
      else match read_full (Z.to_nat length) s1 with
           | (Err e, s2) => (Err (ErrBody e), s2)
           | (Ok data, s2) =>
               match unmarshal data with
               | None => (Err ErrUnmarshal, s2)
               | Some a => (Ok a, s2)
               end
           end
  end.
End Frames.

(** A read loop until the first error. *)
Fixpoint read_all {A} `{JsonCodec A} (fuel : nat) (s : bytes) : list A * frame_error :=
  match fuel with
  | O => ([], ErrUnmarshal)
  | S k => match read_frame s with
           | (Ok a, s') => let '(l, e) := read_all k s' in (a :: l, e)
           | (Err e, _) => ([], e)
           end
  end.

Definition WriteMessage {S} : (bytes -> S -> S * bool) -> Message -> S ->
  S * result frame_error unit := write_frame.
Definition ReadMessage : bytes -> result frame_error Message * bytes := read_frame.

(** The SDK's copies. *)
Definition writeMessage {S} : (bytes -> S -> S * bool) -> Sdk.message -> S ->
  S * result frame_error unit := write_frame.
Definition readMessage : bytes -> result frame_error Sdk.message * bytes := read_frame.

(** A connection whose writes succeed: bytes are appended. *)
Definition wire_write (b : bytes) (s : bytes) : bytes * bool := (s ++ b, true).

Fixpoint write_all {A} `{JsonCodec A} (l : list A) (s : bytes) : bytes * result frame_error unit :=
  match l with
  | [] => (s, Ok tt)
  | a :: l' => match write_frame wire_write a s with
               | (s', Ok _) => write_all l' s'
               | (s', Err e) => (s', Err e)
               end
  end.

(** ** Shared lemmas *)

Lemma read_full_app n s t : length s = n -> read_full n (s ++ t) = (Ok s, t).
Proof.
  intros Hn. unfold read_full. rewrite decide_True by (rewrite length_app; lia).
  by rewrite take_app_length', drop_app_length'.
Qed.

Lemma read_full_length n s a s' :
  read_full n s = (Ok a, s') -> s = a ++ s' /\ length a = n.
Proof.
  unfold read_full. destruct (decide _); [|by destruct s]. intros [= <- <-].
  rewrite take_drop, length_take. split; [done|lia].
Qed.

Section FrameLemmas.
Context {A : Type} `{JsonLaws A}.

(** The frame a successful write appends. *)
Definition frame_of (a : A) (data : bytes) : Prop :=
  marshal a = Some data /\ Z.of_nat (length data) <= MaxMessageSize.

Lemma write_frame_Ok a s s' :
  write_frame wire_write a s = (s', Ok tt) <->
  exists data, frame_of a data /\
    s' = s ++ PutUint32 (Z.of_nat (length data)) ++ data.
Proof.
  unfold write_frame, frame_of. destruct (marshal a) as [data|].
  2:{ split; [done|]. intros (data & [[=] _] & _). }
  destruct (MaxMessageSize <? _) eqn:E.
  - split; [done|]. intros (d & [[= <-] Hl] & _). apply Z.ltb_lt in E. lia.
  - apply Z.ltb_ge in E. unfold wire_write, to_uint32.
    rewrite Z.mod_small by (unfold MaxMessageSize in E; lia). split.
    + intros [= <-]. eauto.
    + by intros (d & [[= <-] Hl] & ->).
Qed.

Lemma read_frame_frame a data rest :
  json_ok a -> frame_of a data ->
  read_frame (PutUint32 (Z.of_nat (length data)) ++ data ++ rest) = (Ok (json_norm a), rest).
Proof.
  intros Hok [Hm Hl]. unfold read_frame.
  rewrite read_full_app by done.
  replace (Uint32 _) with (Z.of_nat (length data)).
  2:{ rewrite <- (app_nil_r (PutUint32 _)), Uint32_PutUint32; [done|].
      unfold MaxMessageSize in Hl. lia. }
  apply Z.ltb_ge in Hl. rewrite Hl, Nat2Z.id, read_full_app by done.
  by rewrite (marshal_unmarshal a data).
Qed.

Lemma read_frame_consumes s a s' :
  read_frame (A := A) s = (Ok a, s') ->
  exists h data, s = h ++ data ++ s' /\ length h = 4%nat /\
    Z.of_nat (length data) <= MaxMessageSize /\ unmarshal data = Some a.
Proof.
  unfold read_frame.
  destruct (read_full FrameHeaderSize s) as [[h|e] s1] eqn:E1; [|done].
  apply read_full_length in E1 as [-> Hh].
  destruct (MaxMessageSize <? Uint32 h) eqn:E; [done|].
  destruct (read_full _ s1) as [[data|e] s2] eqn:E2; [|done].
  apply read_full_length in E2 as [-> Hd].
  destruct (unmarshal data) as [x|] eqn:E3; [|done]. intros [= -> ->].
  exists h, data. split_and!; try done. apply Z.ltb_ge in E.
  assert (0 <= MaxMessageSize) by done. lia.
Qed.

(** A frame cut short. *)
Lemma read_frame_cut a data p q :
  frame_of a data -> p ++ q = PutUint32 (Z.of_nat (length data)) ++ data -> q <> [] ->
  exists e, fst (read_frame (A := A) p) = Err e /\
    e = (if decide (p = []) then ErrHeader EOF
         else if decide (length p < 4)%nat then ErrHeader UnexpectedEOF
         else if decide (length p = 4)%nat then ErrBody EOF else ErrBody UnexpectedEOF).
Proof.
  intros [_ Hl] Hpq Hq.
  assert (0 < length q)%nat by (destruct q; [done|cbn; lia]).
  pose proof (f_equal length Hpq) as Hlen. rewrite !length_app in Hlen. cbn in Hlen.
  unfold read_frame, read_full at 1, FrameHeaderSize.
  destruct (decide (4 <= length p)%nat) as [H4|H4].
  - assert (Hp : p = PutUint32 (Z.of_nat (length data)) ++ drop 4 p).
    { rewrite <- (take_drop 4 p) at 1. f_equal.
      apply (f_equal (take 4)) in Hpq. rewrite take_app_le in Hpq by lia. rewrite Hpq. done. }
    replace (Uint32 (take 4 p)) with (Z.of_nat (length data)).
    2:{ rewrite Hp. rewrite take_app_le by done.
        rewrite take_ge by done. rewrite <- (app_nil_r (PutUint32 _)), Uint32_PutUint32; [done|].
        unfold MaxMessageSize in Hl. lia. }
    apply Z.ltb_ge in Hl. rewrite Hl, Nat2Z.id. unfold read_full.
    rewrite decide_False by (rewrite length_drop; lia).
    rewrite (decide_False (P := p = [])) by (intros ->; cbn in H4; lia).
    rewrite (decide_False (P := (length p < 4)%nat)) by lia.
    destruct (decide (length p = 4)%nat) as [E|E].
    + rewrite drop_ge by lia. eauto.
    + destruct (drop 4 p) eqn:Ed; [|eauto].
      apply (f_equal length) in Ed. rewrite length_drop in Ed. cbn in Ed. lia.
  - destruct p as [|c p]; [eauto|]. cbn [decide].
    rewrite (decide_False (P := c :: p = [])) by done. rewrite decide_True by lia. eauto.
Qed.

Lemma write_all_app l s s' :
  write_all l s = (s', Ok tt) ->
  exists ds, Forall2 frame_of l ds /\
    s' = s ++ concat (map (fun d => PutUint32 (Z.of_nat (length d)) ++ d) ds).
Proof.
  revert s. induction l as [|a l IH]; cbn [write_all]; intros s.
  - intros [= <-]. exists []. by rewrite app_nil_r.
  - destruct (write_frame wire_write a s) as [s1 [[]|e]] eqn:E; [|done].
    apply write_frame_Ok in E as (d & Hd & ->). intros Hl.
    destruct (IH _ Hl) as (ds & Hds & ->). exists (d :: ds). split; [by constructor|].
    cbn [map concat]. by rewrite !app_assoc.
Qed.
End FrameLemmas.

Lemma read_all_frames {A} `{JsonLaws A} (l : list A) ds fuel :
  Forall json_ok l -> Forall2 frame_of l ds -> (length l < fuel)%nat ->
  read_all fuel (concat (map (fun d => PutUint32 (Z.of_nat (length d)) ++ d) ds)) =
  (map json_norm l, ErrHeader EOF).
Proof.
  intros Hok HF. revert fuel. induction HF as [|a d l ds Hd HF IH]; intros [|k] Hk; cbn in Hk; try lia.
  - done.
  - inversion_clear Hok as [|?? Ha Hl]. cbn [read_all map concat]. rewrite <- app_assoc.
    rewrite (read_frame_frame a d) by done. rewrite IH by (done || lia). done.
Qed.

(** ** Properties *)

(** C31: A stream of messages written by WriteMessage is read back message by
    message, in order and without loss, and then the reader sees the end of
    the stream.  Messages come back as they were sent, up to the HTML escaping
    json.Marshal applies inside payloads. *)
Theorem frame_stream_roundtrip (l : list Message) (s : bytes) :
  Forall json_ok l -> write_all l [] = (s, Ok tt) ->
  read_all (S (length l)) s = (map norm_message l, ErrHeader EOF).
Proof.
  intros Hok Hw. apply write_all_app in Hw as (ds & Hds & ->).
  exact (read_all_frames l ds (S (length l)) Hok Hds (Nat.lt_succ_diag_r _)).
Qed.

(** Property: A connection cut anywhere inside a frame is an error for the reader,
    never a shorter message: a clean EOF only before the first byte, an
    unexpected EOF in the header or in the document. *)
Theorem frame_truncated (a : Message) (frame p q : bytes) :
  WriteMessage wire_write a [] = (frame, Ok tt) -> frame = p ++ q -> q <> [] ->
  exists e, fst (ReadMessage p) = Err e /\
    e = (if decide (p = []) then ErrHeader EOF
         else if decide (length p < 4)%nat then ErrHeader UnexpectedEOF
         else if decide (length p = 4)%nat then ErrBody EOF else ErrBody UnexpectedEOF).
Proof.
  intros Hw -> Hq. apply write_frame_Ok in Hw as (data & Hd & Hpq). cbn [app] in Hpq.
  exact (read_frame_cut a data p q Hd Hpq Hq).
Qed.

(** Property: The size bound holds on both sides: a write is at most four bytes and
    16 MiB and an over-long document writes nothing; a header that announces
    more than 16 MiB is refused before any byte of the document is read. *)
Theorem frame_size_bound :
  (forall (w : bytes -> bytes -> bytes * bool) (a : Message) (s : bytes),
     (forall b s, Z.of_nat (length b) <= 4 + MaxMessageSize -> w b s = wire_write b s) ->
     WriteMessage w a s = WriteMessage wire_write a s) /\
  (forall (a : Message) (data s : bytes), marshal a = Some data ->
     MaxMessageSize < Z.of_nat (length data) ->
     WriteMessage wire_write a s = (s, Err (ErrMessageSize (Z.of_nat (length data))))) /\
  (forall (n : Z) (rest : bytes), MaxMessageSize < n < 2 ^ 32 ->
     ReadMessage (PutUint32 n ++ rest) = (Err (ErrFrameSize n), rest)).
Proof.
  split_and!.
  - intros w a s Hw. unfold WriteMessage, write_frame. destruct (marshal a) as [data|]; [|done].
    destruct (MaxMessageSize <? _) eqn:E; [done|]. apply Z.ltb_ge in E.
    rewrite Hw; [done|]. rewrite length_app. cbn [length PutUint32]. lia.
  - intros a data s Hm Hl. unfold WriteMessage, write_frame. rewrite Hm.
    apply Z.ltb_lt in Hl. by rewrite Hl.
  - intros n rest Hn. unfold ReadMessage, read_frame. rewrite read_full_app by done.
    rewrite <- (app_nil_r (PutUint32 n)), Uint32_PutUint32 by (unfold MaxMessageSize in Hn; lia).
    by replace (MaxMessageSize <? n) with true by (symmetry; apply Z.ltb_lt; lia).
Qed.

(** Property: The bus and the SDK speak the same wire format: a frame the SDK writes
    is the frame the bus writes for the same fields, and each side decodes any
    byte stream to the same fields or fails with the same error. *)
Theorem sdk_bus_interop {S} (w : bytes -> S -> S * bool) (m : Sdk.message) (s : S) (b : bytes) :
  writeMessage w m s = WriteMessage w (Sdk.to_bus m) s /\
  readMessage b = (let '(r, b') := ReadMessage b in
                   (match r with Ok x => Ok (Sdk.of_bus x) | Err e => Err e end, b')).
Proof.
  split.
  - unfold writeMessage, WriteMessage, write_frame. by rewrite Sdk.marshal_to_bus.
  - unfold readMessage, ReadMessage, read_frame.
    destruct (read_full FrameHeaderSize b) as [[h|e] s1]; [|done].
    case_if; [done|]. destruct (read_full _ s1) as [[data|e] s2]; [|done].
    rewrite Sdk.unmarshal_of_bus. by destruct (unmarshal data).
Qed.

(** ** Witnesses *)

Definition sample_message (id : string) : Message :=
  mkMessage id TypeMessage "slack" "" "" 1700000000123000000
    (RawDoc (JObj [field "text" (str_json "a<b")])).

Lemma frame_stream_roundtrip_witness :
  exists s, write_all [sample_message "1"; sample_message "2"] [] = (s, Ok tt) /\
    read_all 3 s = (map norm_message [sample_message "1"; sample_message "2"], ErrHeader EOF).
Proof.
  eexists. split; [vm_compute; reflexivity|].
  apply (frame_stream_roundtrip [sample_message "1"; sample_message "2"]).
  - repeat constructor.
  - vm_compute. reflexivity.
Defined.

Lemma frame_truncated_witness :
  exists frame p q, WriteMessage wire_write (sample_message "1") [] = (frame, Ok tt) /\
    frame = p ++ q /\ length p = 9%nat /\ fst (ReadMessage p) = Err (ErrBody UnexpectedEOF).
Proof.
  eexists _, (take 9 (fst (WriteMessage wire_write (sample_message "1") []))), _.
  split; [vm_compute; reflexivity|]. split; [vm_compute; reflexivity|].
  split; [vm_compute; reflexivity|].
  edestruct (frame_truncated (sample_message "1")) as (e & He & Hv).
  - vm_compute. reflexivity.
  - symmetry. apply (take_drop 9).
  - vm_compute. done.
  - etransitivity; [exact He|]. rewrite Hv. vm_compute. reflexivity.
Defined.
