(* ===== verification/RingBuffer.v ===== *)
(** * The per-channel ring buffer (internal/ipcbus/ringbuffer.go)

    A circular array of [size] slots with a read and a write position, and a
    two-state backpressure machine driven by the fill ratio.  The theorems
    refine it to a bounded FIFO queue and characterise when the machine
    switches. *)

From S2P Require Import Prelude.
From S2P Require Import GoFloat.

(** [BackpressureState]. *)
Inductive BackpressureState := StateNormal | StateSlowDown.

#[export] Instance BackpressureState_eq_dec : EqDecision BackpressureState.
Proof. solve_decision. Defined.

(** [String()] on the two declared states. *)
Definition BackpressureState_String (s : BackpressureState) : string :=
  match s with
  | StateNormal => "normal"
  | StateSlowDown => "slow_down"
  end%string.

Section RingBuffer.
Context {Msg : Type}.

(** [RingBuffer]; a slot holds a message pointer or nil. *)
Record RingBuffer := mkRB {
  buf : list (option Msg);
  size : nat;
  head : nat;
  tail : nat;
  count : nat;
  highMark : float64;
  lowMark : float64;
  state : BackpressureState;
}.

(** [NewRingBuffer] with its defaults for zero or invalid arguments. *)
Definition NewRingBuffer (sz : Z) (highWatermark lowWatermark : float64) : RingBuffer :=
  let sz := if decide (sz <= 0) then 1024 else sz in
  let high := if fle highWatermark f0 || fgt highWatermark f1_0
              then f0_8 else highWatermark in
  let low := if fle lowWatermark f0 || fge lowWatermark high
             then f0_3 else lowWatermark in
  mkRB (replicate (Z.to_nat sz) None) (Z.to_nat sz) 0 0 0 high low StateNormal.

(** [float64(rb.count) / float64(rb.size)]. *)
Definition ratio (cnt sz : nat) : float64 :=
  fdiv (of_int (Z.of_nat cnt)) (of_int (Z.of_nat sz)).

Definition FillRatio (rb : RingBuffer) : float64 := ratio (count rb) (size rb).
Definition Len (rb : RingBuffer) : nat := count rb.
Definition Cap (rb : RingBuffer) : nat := size rb.
Definition State (rb : RingBuffer) : BackpressureState := state rb.

(** [Push]: (ok, stateChanged) and the new buffer. *)
Definition Push (m : Msg) (rb : RingBuffer) : bool * bool * RingBuffer :=
  if decide (count rb = size rb) then (false, false, rb)
  else
    let buf' := <[tail rb := Some m]> (buf rb) in
    let tail' := ((tail rb + 1) mod size rb)%nat in
    let count' := (count rb + 1)%nat in
    let r := ratio count' (size rb) in
    if bool_decide (state rb = StateNormal) && fge r (highMark rb)
    then (true, true,
          mkRB buf' (size rb) (head rb) tail' count' (highMark rb) (lowMark rb) StateSlowDown)
    else (true, false,
          mkRB buf' (size rb) (head rb) tail' count' (highMark rb) (lowMark rb) (state rb)).

(** [Pop]: (message or nil, stateChanged) and the new buffer. *)
Definition Pop (rb : RingBuffer) : option Msg * bool * RingBuffer :=
  if decide (count rb = 0%nat) then (None, false, rb)
  else
    let m := mjoin (buf rb !! head rb) in
    let buf' := <[head rb := None]> (buf rb) in
    let head' := ((head rb + 1) mod size rb)%nat in
    let count' := (count rb - 1)%nat in
    let r := ratio count' (size rb) in
    if bool_decide (state rb = StateSlowDown) && fle r (lowMark rb)
    then (m, true,
          mkRB buf' (size rb) head' (tail rb) count' (highMark rb) (lowMark rb) StateNormal)
    else (m, false,
          mkRB buf' (size rb) head' (tail rb) count' (highMark rb) (lowMark rb) (state rb)).

(** The specification: a queue bounded by [size], with the same machine
    driven by the length of the queue. *)
Record BQueue := mkBQ {
  bq_items : list Msg;
  bq_size : nat;
  bq_high : float64;
  bq_low : float64;
  bq_state : BackpressureState;
}.

Inductive Op := OpPush (m : Msg) | OpPop.

(** What the caller of an operation observes. *)
Inductive Out := OutPush (ok changed : bool) | OutPop (m : option Msg) (changed : bool).

Definition rb_step (rb : RingBuffer) (o : Op) : Out * RingBuffer :=
  match o with
  | OpPush m => let '(ok, ch, rb') := Push m rb in (OutPush ok ch, rb')
  | OpPop => let '(m, ch, rb') := Pop rb in (OutPop m ch, rb')
  end.

Definition bq_step (q : BQueue) (o : Op) : Out * BQueue :=
  let '(mkBQ items sz high low st) := q in
  match o with
  | OpPush m =>
      if (length items =? sz)%nat then (OutPush false false, q)
      else
        let ch := bool_decide (st = StateNormal) && fge (ratio (length items + 1) sz) high in
        (OutPush true ch,
         mkBQ (items ++ [m]) sz high low (if ch then StateSlowDown else st))
  | OpPop =>
      match items with
      | [] => (OutPop None false, q)
      | m :: items' =>
          let ch := bool_decide (st = StateSlowDown) && fle (ratio (length items') sz) low in
          (OutPop (Some m) ch, mkBQ items' sz high low (if ch then StateNormal else st))
      end
  end.

Fixpoint run_ops {S} (step : S -> Op -> Out * S) (s : S) (ops : list Op) : list Out * S :=
  match ops with
  | [] => ([], s)
  | o :: ops' =>
      let '(out, s1) := step s o in
      let '(outs, s2) := run_ops step s1 ops' in (out :: outs, s2)
  end.

(** The transitions an observer is told about, in order. *)
Definition notified (o : Out) : option BackpressureState :=
  match o with
  | OutPush _ true => Some StateSlowDown
  | OutPop _ true => Some StateNormal
  | _ => None
  end.

(** [alternates s l]: starting in state [s], every transition of [l] leaves
    the current state for the other one. *)
Fixpoint alternates (s : BackpressureState) (l : list BackpressureState) : Prop :=
  match l with
  | [] => True
  | t :: l' => s <> t /\ alternates t l'
  end.

(** ** Representation *)

(** [rep rb q]: the slots from the read position hold exactly [q], all other
    slots are nil, and the counters agree. *)
Record rep (rb : RingBuffer) (q : list Msg) : Prop := mkRep {
  rep_size : (0 < size rb)%nat;
  rep_len : length (buf rb) = size rb;
  rep_head : (head rb < size rb)%nat;
  rep_count : count rb = length q;
  rep_bound : (count rb <= size rb)%nat;
  rep_tail : tail rb = ((head rb + count rb) mod size rb)%nat;
  rep_slots : forall i, (i < size rb)%nat ->
    buf rb !! ((head rb + i) mod size rb)%nat = Some (q !! i);
}.

Definition rep_bq (rb : RingBuffer) (b : BQueue) : Prop :=
  rep rb (bq_items b) /\ size rb = bq_size b /\ highMark rb = bq_high b /\
  lowMark rb = bq_low b /\ state rb = bq_state b.

(** Rotations of a residue are injective below the modulus. *)
Lemma mod_shift_inj (h i j n : nat) :
  (i < n)%nat -> (j < n)%nat -> ((h + i) mod n = (h + j) mod n)%nat -> i = j.
Proof.
  intros Hi Hj H.
  pose proof (Nat.div_mod_eq (h + i) n). pose proof (Nat.div_mod_eq (h + j) n).
  assert (((h + i) / n = (h + j) / n \/ (h + i) / n <> (h + j) / n)%nat) as [E|E] by lia.
  - rewrite E in *. lia.
  - exfalso. rewrite H in *. nia.
Qed.

Lemma mod_shift_lt (h i n : nat) : (0 < n)%nat -> ((h + i) mod n < n)%nat.
Proof. intros. apply Nat.mod_upper_bound. lia. Qed.

Lemma mod_succ_shift (h i n : nat) :
  (0 < n)%nat -> (((h + 1) mod n + i) mod n = (h + (i + 1)) mod n)%nat.
Proof.
  intros. rewrite Nat.Div0.add_mod_idemp_l. f_equal. lia.
Qed.

(** The queue a fresh buffer stands for. *)
Definition NewBQueue (sz : Z) (high low : float64) : BQueue :=
  let rb := NewRingBuffer sz high low in
  mkBQ [] (size rb) (highMark rb) (lowMark rb) (state rb).

Lemma rep_new sz hi lo : rep (NewRingBuffer sz hi lo) [].
Proof.
  unfold NewRingBuffer. set (n := if decide (sz <= 0) then 1024 else sz).
  assert (0 < Z.to_nat n)%nat by (subst n; case_decide; lia).
  split; cbn; try lia.
  - by rewrite length_replicate.
  - rewrite Nat.Div0.mod_0_l. done.
  - intros i Hi. rewrite Nat.mod_small by lia.
    by apply lookup_replicate_2.
Qed.

Lemma rep_push m rb q :
  rep rb q -> count rb <> size rb ->
  rep (snd (Push m rb)) (q ++ [m]).
Proof.
  intros [Hs Hl Hh Hc Hb Ht Hsl] Hne. unfold Push. rewrite decide_False by done.
  assert (Hrep : forall st, rep (mkRB (<[tail rb:=Some m]> (buf rb)) (size rb) (head rb)
    ((tail rb + 1) mod size rb) (count rb + 1) (highMark rb) (lowMark rb) st) (q ++ [m])).
  { intros st. split; cbn; try done; try lia.
    - by rewrite length_insert.
    - rewrite length_app. cbn. lia.
    - rewrite Ht, Nat.Div0.add_mod_idemp_l. f_equal. lia.
    - intros i Hi. destruct (decide (i = count rb)) as [->|Hic].
      + rewrite Ht, list_lookup_insert_eq by (rewrite Hl; by apply mod_shift_lt).
        rewrite Hc, list_lookup_middle by done. done.
      + rewrite list_lookup_insert_ne.
        * rewrite Hsl by done. f_equal. destruct (decide (i < length q)%nat).
          { by rewrite lookup_app_l. }
          { rewrite !lookup_ge_None_2; [done|rewrite length_app; cbn; lia|lia]. }
        * rewrite Ht. intros Heq. apply mod_shift_inj in Heq; lia. }
  case_match; apply Hrep.
Qed.

Lemma rep_pop m rb q :
  rep rb (m :: q) -> fst (fst (Pop rb)) = Some m /\ rep (snd (Pop rb)) q.
Proof.
  intros [Hs Hl Hh Hc Hb Ht Hsl]. unfold Pop. cbn in Hc.
  rewrite decide_False by lia.
  assert (Hm : buf rb !! head rb = Some (Some m)).
  { specialize (Hsl 0%nat Hs). rewrite Nat.add_0_r, Nat.mod_small in Hsl; done. }
  assert (Hrep : forall st, rep (mkRB (<[head rb:=None]> (buf rb)) (size rb)
    ((head rb + 1) mod size rb) (tail rb) (count rb - 1) (highMark rb) (lowMark rb) st) q).
  { intros st. split; cbn; try done; try lia.
    - by rewrite length_insert.
    - apply mod_shift_lt. lia.
    - rewrite mod_succ_shift by lia. rewrite Ht. f_equal. lia.
    - intros i Hi. rewrite mod_succ_shift by lia.
      destruct (decide (i + 1 = size rb)%nat) as [E|E].
      + assert (((head rb + (i + 1)) mod size rb)%nat = head rb) as ->.
        { rewrite E. rewrite <- (Nat.mul_1_l (size rb)) at 1.
          rewrite Nat.Div0.mod_add. by apply Nat.mod_small. }
        rewrite list_lookup_insert_eq by lia. rewrite lookup_ge_None_2 by lia. done.
      + rewrite list_lookup_insert_ne.
        * rewrite Hsl by lia. f_equal. rewrite Nat.add_1_r. done.
        * intros Heq. rewrite <- (Nat.mod_small (head rb) (size rb)) in Heq at 1 by done.
          rewrite <- (Nat.add_0_r (head rb)) in Heq at 1.
          apply mod_shift_inj in Heq; lia. }
  rewrite Hm. cbn. case_match; cbn; auto.
Qed.
(** ** Simulation *)

Lemma rb_step_simulates rb b o :
  rep_bq rb b ->
  fst (rb_step rb o) = fst (bq_step b o) /\
  rep_bq (snd (rb_step rb o)) (snd (bq_step b o)).
Proof.
  destruct b as [q sz hi lo st]. intros (Hr & Hsz & Hhi & Hlo & Hst). cbn in *. subst.
  destruct o as [m|]; cbn.
  - destruct (decide (count rb = size rb)) as [E|E].
    + unfold Push. rewrite decide_True by done. cbn.
      rewrite <- (rep_count _ _ Hr), E, Nat.eqb_refl. done.
    + pose proof (rep_push m rb q Hr E) as Hp.
      assert (length q <> size rb) as Hq by (by rewrite <- (rep_count _ _ Hr)).
      apply Nat.eqb_neq in Hq. rewrite Hq.
      unfold Push in *. rewrite decide_False in * by done.
      rewrite <- (rep_count _ _ Hr). case_match; cbn in *; done.
  - destruct q as [|m q].
    + unfold Pop. rewrite decide_True by (by rewrite (rep_count _ _ Hr)). done.
    + pose proof (rep_pop m rb q Hr) as [Hm Hp].
      pose proof (rep_count _ _ Hr) as Hc. cbn in Hc.
      unfold Pop in *. rewrite decide_False in * by lia.
      replace (length q) with (count rb - 1)%nat by lia.
      case_match; cbn in *; rewrite Hm; done.
Qed.

Lemma run_ops_simulates rb b ops :
  rep_bq rb b ->
  fst (run_ops rb_step rb ops) = fst (run_ops bq_step b ops) /\
  rep_bq (snd (run_ops rb_step rb ops)) (snd (run_ops bq_step b ops)).
Proof.
  revert rb b. induction ops as [|o ops IH]; intros rb b H; [done|]. cbn.
  destruct (rb_step_simulates rb b o H) as [Ho Hs].
  destruct (rb_step rb o) as [o1 rb1], (bq_step b o) as [o2 b1]. cbn in *. subst.
  destruct (IH rb1 b1 Hs) as [Hos Hss].
  destruct (run_ops rb_step rb1 ops), (run_ops bq_step b1 ops). cbn in *. by subst.
Qed.

Lemma rb_step_notified rb o :
  match notified (fst (rb_step rb o)) with
  | Some t => state rb <> t /\ state (snd (rb_step rb o)) = t
  | None => state (snd (rb_step rb o)) = state rb
  end.
Proof.
  destruct o as [m|]; cbn; unfold Push, Pop; repeat case_match; simplify_eq/=; try done;
    split_bools; rewrite bool_decide_eq_true in *; split; congruence.
Qed.

Lemma run_ops_alternates rb ops :
  alternates (state rb) (omap notified (fst (run_ops rb_step rb ops))).
Proof.
  revert rb. induction ops as [|o ops IH]; intros rb; [done|]. cbn.
  pose proof (rb_step_notified rb o) as Hn.
  destruct (rb_step rb o) as [out rb1]. cbn in *. specialize (IH rb1).
  destruct (run_ops rb_step rb1 ops) as [outs rb2]. cbn in *.
  destruct (notified out); [destruct Hn as [? <-]; by split|by rewrite <- Hn].
Qed.
End RingBuffer.
Arguments RingBuffer : clear implicits.
Arguments BQueue : clear implicits.
Arguments Op : clear implicits.
Arguments Out : clear implicits.

(** ** Properties *)

(** C7: the ring buffer refines a bounded FIFO queue.  For every capacity and
    pair of watermarks (defaulted as [NewRingBuffer] defaults them) and every
    sequence of [Push] and [Pop] calls, the ring buffer returns exactly what a
    bounded queue returns (the acceptance of each push, the message of each
    pop, and every backpressure notification), so no message is lost,
    duplicated or reordered by the wrap-around. *)
Theorem ring_refines_queue {Msg : Type} (sz : Z) (high low : float64) (ops : list (Op Msg)) :
  fst (run_ops rb_step (NewRingBuffer sz high low) ops) =
  fst (run_ops bq_step (NewBQueue sz high low) ops) /\
  rep_bq (snd (run_ops rb_step (NewRingBuffer sz high low) ops))
         (snd (run_ops bq_step (NewBQueue sz high low) ops)).
Proof. apply run_ops_simulates. split; [apply rep_new|]. done. Qed.

(** Property: the notifications of one buffer strictly alternate, slow_down first:
    an observer never hears two slow_downs, or two resumes, in a row. *)
Theorem backpressure_alternates {Msg : Type} (sz : Z) (high low : float64) (ops : list (Op Msg)) :
  alternates StateNormal
    (omap notified (fst (run_ops rb_step (NewRingBuffer sz high low) ops))).
Proof. apply (run_ops_alternates (NewRingBuffer sz high low)). Qed.

(** With the default configuration the two marks are the counts 820 and 307. *)
Lemma default_marks n :
  (n <= 1024)%nat ->
  fge (ratio n 1024) f0_8 = (820 <=? n)%nat /\ fle (ratio n 1024) f0_3 = (n <=? 307)%nat.
Proof.
  intros Hn.
  assert (all_below 1025 (fun n => eqb (fge (ratio n 1024) f0_8) (820 <=? n)%nat &&
    eqb (fle (ratio n 1024) f0_3) (n <=? 307)%nat) = true) as Hs by (vm_compute; reflexivity).
  pose proof (all_below_spec _ _ n Hs ltac:(lia)) as H. cbn beta in H.
  apply andb_true_iff in H as [H1 H2]. apply eqb_prop in H1, H2. split; assumption.
Qed.

(** The band of a default buffer: normal below the high mark, slowed down
    above the low mark. *)
Definition in_band {Msg} (rb : RingBuffer Msg) : Prop :=
  size rb = 1024%nat /\ highMark rb = f0_8 /\ lowMark rb = f0_3 /\ (count rb <= 1024)%nat /\
  match state rb with
  | StateNormal => (count rb < 820)%nat
  | StateSlowDown => (307 < count rb)%nat
  end.

(** The counters after one operation. *)
Lemma rb_step_fields {Msg} (rb : RingBuffer Msg) o :
  let rb' := snd (rb_step rb o) in
  size rb' = size rb /\ highMark rb' = highMark rb /\ lowMark rb' = lowMark rb /\
  match o with
  | OpPush _ =>
      count rb = size rb /\ rb' = rb \/
      count rb <> size rb /\ count rb' = (count rb + 1)%nat /\
      state rb' = if bool_decide (state rb = StateNormal) &&
                     fge (ratio (count rb') (size rb)) (highMark rb)
                  then StateSlowDown else state rb
  | OpPop =>
      count rb = 0%nat /\ rb' = rb \/
      count rb <> 0%nat /\ count rb' = (count rb - 1)%nat /\
      state rb' = if bool_decide (state rb = StateSlowDown) &&
                     fle (ratio (count rb') (size rb)) (lowMark rb)
                  then StateNormal else state rb
  end.
Proof.
  destruct o as [m|]; cbn -[ratio]; unfold Push, Pop; case_decide; cbn -[ratio];
    [tauto| |tauto|]; destruct (bool_decide _ && _) eqn:E; cbn -[ratio];
    (split_and!; [done..|right; split_and!; [done|done|by rewrite E]]).
Qed.

Ltac decide_state :=
  change (bool_decide (StateNormal = StateNormal)) with true;
  change (bool_decide (StateSlowDown = StateSlowDown)) with true;
  change (bool_decide (StateNormal = StateSlowDown)) with false;
  change (bool_decide (StateSlowDown = StateNormal)) with false;
  cbn [andb].

Lemma in_band_step {Msg} (rb : RingBuffer Msg) o :
  in_band rb -> in_band (snd (rb_step rb o)).
Proof.
  intros (Hs & Hh & Hl & Hc & Hst). pose proof (rb_step_fields rb o) as Hf.
  cbv zeta in Hf. set (rb' := snd (rb_step rb o)) in *. clearbody rb'.
  destruct Hf as (Es & Eh & El & Ho).
  assert (count rb' <= 1024)%nat as Hc' by (destruct o; intuition (subst; lia)).
  destruct (default_marks (count rb') Hc') as [H1 H2].
  split_and!; [congruence..|done|].
  rewrite Hs, Hh, Hl in Ho.
  destruct o as [m|]; destruct Ho as [[? ->]|(? & Ec & Ho)]; [done| |done|];
    rewrite Ho; [rewrite H1|rewrite H2]; destruct (state rb) eqn:E; decide_state;
    try case_if; repeat match goal with
    | H : (_ <=? _)%nat = true |- _ => apply Nat.leb_le in H
    | H : (_ <=? _)%nat = false |- _ => apply Nat.leb_gt in H
    end; lia.
Qed.

Lemma in_band_run {Msg} (rb : RingBuffer Msg) ops :
  in_band rb -> in_band (snd (run_ops rb_step rb ops)).
Proof.
  revert rb. induction ops as [|o ops IH]; intros rb H; [done|]. cbn.
  pose proof (in_band_step rb o H) as H1.
  destruct (rb_step rb o) as [out rb1]. specialize (IH rb1 H1).
  by destruct (run_ops rb_step rb1 ops).
Qed.

(** Property: hysteresis of a buffer built with the default configuration (also what
    zero or invalid arguments give).  After any sequence of operations the
    state is normal only below 820 of 1024 messages and slowed down only above
    307, with the marks computed in binary64 as the program computes them. *)
Theorem default_hysteresis {Msg : Type} (ops : list (Op Msg)) :
  let rb := snd (run_ops rb_step (@NewRingBuffer Msg 0 f0 f0) ops) in
  (Len rb <= Cap rb)%nat /\ Cap rb = 1024%nat /\
  (State rb = StateNormal -> (Len rb < 820)%nat) /\
  (State rb = StateSlowDown -> (307 < Len rb)%nat).
Proof.
  assert (in_band (@NewRingBuffer Msg 0 f0 f0)) as H0.
  { split_and!; vm_compute; try reflexivity; repeat constructor. }
  intros rb. destruct (in_band_run _ ops H0) as (Hs & _ & _ & Hc & Hst).
  fold rb in Hs, Hc, Hst. unfold Len, Cap, State. rewrite Hs.
  split_and!; [done|done|intros E; by rewrite E in Hst..].
Qed.
