(* ===== verification/GoIO.v ===== *)
(** * Files, bufio.Writer and bufio.Scanner

    A [Writer] is a buffered writer on a file opened for appending: the bytes
    on disk, the bytes still in the 4096-byte buffer, the sticky error of
    package bufio and whether the descriptor is open.  Every write to the file
    may fail after transferring some of its bytes. *)

From S2P Require Import Prelude.
From S2P Require Import GoStrings.

Record Writer := mkWriter {
  disk : bytes;
  wbuf : bytes;
  werr : bool;
  wopen : bool;
}.

Definition bufio_size : nat := 4096.

Section Ops.
Context {E : Type}.

(** [os.File.Write]: everything, or an error after a part. *)
Definition file_write (p : bytes) : M Writer E bool :=
  let* s := mget in
  if wopen s then
    let* ok := io in
    if ok then
      mput (mkWriter (disk s ++ p) (wbuf s) (werr s) true) ;;; mret true
    else
      let* k := partial in
      mput (mkWriter (disk s ++ take k p) (wbuf s) (werr s) true) ;;; mret false
  else mret false.

Definition set_werr : M Writer E unit :=
  mmodify (fun s => mkWriter (disk s) (wbuf s) true (wopen s)).
Definition set_wbuf (b : bytes) : M Writer E unit :=
  mmodify (fun s => mkWriter (disk s) b (werr s) (wopen s)).

(** [bufio.Writer.Flush].  After a failure the error is sticky, so what stays
    in the buffer is never written. *)
Definition flush : M Writer E bool :=
  let* s := mget in
  if werr s then mret false
  else if decide (wbuf s = []) then mret true
  else
    let* ok := file_write (wbuf s) in
    if ok then set_wbuf [] ;;; mret true
    else set_werr ;;; mret false.

(** Write past the buffer, when it is empty and the data is larger. *)
Definition write_through (p : bytes) : M Writer E bool :=
  let* ok := file_write p in
  if ok then mret true else set_werr ;;; mret false.

(** [bufio.Writer.Write].  Its loop fills the buffer at most once: after one
    flush the rest either fits or is written through. *)
Definition buf_write (p : bytes) : M Writer E bool :=
  let* s := mget in
  if werr s then mret false
  else
    let avail := (bufio_size - length (wbuf s))%nat in
    if decide (length p <= avail)%nat then set_wbuf (wbuf s ++ p) ;;; mret true
    else if decide (wbuf s = []) then write_through p
    else
      set_wbuf (wbuf s ++ take avail p) ;;;
      let* ok := flush in
      if ok then
        if decide (length (drop avail p) <= bufio_size)%nat
        then set_wbuf (drop avail p) ;;; mret true
        else write_through (drop avail p)
      else mret false.

(** [os.File.Sync] and [os.File.Close]. *)
Definition file_sync : M Writer E bool :=
  let* s := mget in
  if wopen s then io else mret false.

Definition file_close : M Writer E bool :=
  let* s := mget in
  if wopen s then
    mput (mkWriter (disk s) (wbuf s) (werr s) false) ;;; io
  else mret false.
End Ops.

(** [os.OpenFile] for appending and [bufio.NewWriter]. *)
Definition open_append (d : bytes) : Writer := mkWriter d [] false true.

(** The bytes a writer has accepted, as long as nothing has failed. *)
Definition accepted (s : Writer) : bytes := disk s ++ wbuf s.

(** ** What reaches the disk is a prefix of what was accepted *)

(** [holds s b]: the accepted bytes are [b]; after an error the disk still
    holds a prefix of [b] and nothing more will be written. *)
Definition holds (s : Writer) (b : bytes) : Prop :=
  if werr s then disk s `prefix_of` b else accepted s = b.

Lemma holds_disk s b : holds s b -> disk s `prefix_of` b.
Proof. unfold holds, accepted. case_if; [done|]. intros <-. by exists (wbuf s). Qed.

Lemma holds_err_app s b p : werr s = true -> holds s b -> holds s (b ++ p).
Proof. unfold holds. intros ->. apply prefix_app_r. Qed.

Section WriterSpec.
Context {E : Type} (w : Oracle).
Implicit Types r : Run Writer E.

(** A failed write leaves a strict part of [p] behind, a successful one all
    of it; nothing else of the writer changes. *)
Lemma file_write_spec p r :
  wp w (file_write p) (fun ok r' =>
    run_trace r' = run_trace r /\
    exists q, run_st r' = mkWriter (disk (run_st r) ++ q) (wbuf (run_st r))
                (werr (run_st r)) (wopen (run_st r)) /\
      if ok : bool then q = p else q `prefix_of` p) r.
Proof.
  unfold file_write. wp_step. destruct r as [[d b e o] tk tr]. cbn [wopen run_st].
  destruct o; wp_step.
  - destruct (o_ok w tk); wp_step; (split; [done|]); eexists; (split; [reflexivity|]).
    + done.
    + cbn. eexists. symmetry. apply take_drop.
  - split; [done|]. exists []. rewrite app_nil_r. split; [done|]. apply prefix_nil.
Qed.

Lemma flush_spec b r :
  holds (run_st r) b ->
  wp w flush (fun ok r' =>
    run_trace r' = run_trace r /\ holds (run_st r') b /\
    if ok : bool
    then werr (run_st r) = false /\ werr (run_st r') = false /\ wbuf (run_st r') = []
    else werr (run_st r') = true) r.
Proof.
  unfold flush. wp_step. destruct r as [[d bf e o] tk tr]. cbn [werr wbuf run_st run_trace].
  unfold holds. cbn [werr]. intros Hb. destruct e; wp_step; [done|].
  unfold accepted in Hb. cbn [disk wbuf] in Hb.
  destruct (decide (bf = [])) as [->|Hne]; wp_step; [done|].
  eapply wp_conseq; [|apply file_write_spec].
  intros ok r' [Ht (q & Hs & Hq)]. cbn [run_st disk wbuf werr wopen run_trace] in *.
  destruct ok; unfold set_wbuf, set_werr; wp_step; rewrite Hs, Ht; cbn.
  - subst q. unfold accepted. cbn. by rewrite app_nil_r.
  - split; [done|]. split; [|done]. rewrite <- Hb. by apply prefix_app.
Qed.

Lemma write_through_spec p b r :
  werr (run_st r) = false -> wbuf (run_st r) = [] -> holds (run_st r) b ->
  wp w (write_through p) (fun ok r' =>
    run_trace r' = run_trace r /\ holds (run_st r') (b ++ p) /\
    werr (run_st r') = negb ok) r.
Proof.
  intros He Hbf Hb. unfold write_through. wp_step.
  eapply wp_conseq; [|apply file_write_spec].
  intros ok r' [Ht (q & Hs & Hq)]. unfold holds in Hb. rewrite He in Hb.
  unfold accepted in Hb. rewrite Hbf, app_nil_r in Hb.
  destruct ok; unfold set_werr; wp_step; rewrite Hs, Ht; cbn; unfold holds, accepted; cbn.
  - by rewrite He, Hbf, Hb, Hq, app_nil_r.
  - split; [done|]. split; [|done]. rewrite Hb. by apply prefix_app.
Qed.

Lemma buf_write_spec p b r :
  holds (run_st r) b ->
  wp w (buf_write p) (fun ok r' =>
    run_trace r' = run_trace r /\ holds (run_st r') (b ++ p) /\
    werr (run_st r') = negb ok /\ (ok = true -> werr (run_st r) = false)) r.
Proof.
  unfold buf_write. wp_step. intros Hb.
  destruct (werr (run_st r)) eqn:He; wp_step.
  { split; [done|]. split; [|done]. by apply holds_err_app. }
  set (avail := (bufio_size - length (wbuf (run_st r)))%nat).
  destruct (decide _) as [Hfit|Hfit].
  { unfold set_wbuf. wp_step. unfold holds, accepted in *. cbn. rewrite He in *. 
    by rewrite app_assoc, Hb. }
  destruct (decide _) as [Hnil|Hne].
  { eapply wp_conseq; [|by apply (write_through_spec _ b)]. cbn. intros ? ? (? & ? & ?). done. }
  unfold set_wbuf. wp_step.
  eapply wp_conseq; [|apply (flush_spec (b ++ take avail p))].
  - cbn [run_st run_trace]. intros ok r' (Ht & Hh & Hok). destruct ok.
    + destruct Hok as (_ & He' & Hbf). destruct (decide _).
      * wp_step. split; [done|]. unfold holds, accepted in *. cbn. rewrite He' in *.
        split; [|done]. rewrite Hbf, app_nil_r in Hh. rewrite Hh.
        by rewrite <- app_assoc, take_drop.
      * eapply wp_conseq; [|by apply (write_through_spec _ (b ++ take avail p))].
        intros ok r'' (Ht' & Hh' & Hok'). rewrite <- app_assoc, take_drop in Hh'.
        split; [congruence|]. naive_solver.
    + wp_step. split; [done|]. split; [|done].
      apply (holds_err_app _ _ (drop avail p)) in Hh; [|done].
      by rewrite <- app_assoc, take_drop in Hh.
  - cbn. unfold holds, accepted in *. cbn. rewrite He in *. by rewrite app_assoc, Hb.
Qed.

(** Syncing and closing leave the bytes alone. *)
Lemma file_sync_spec r :
  wp w file_sync (fun _ r' => run_trace r' = run_trace r /\ run_st r' = run_st r) r.
Proof. unfold file_sync. wp_step. destruct (wopen _); by wp_step. Qed.

Lemma file_close_spec r :
  wp w file_close (fun _ r' => run_trace r' = run_trace r /\
    disk (run_st r') = disk (run_st r) /\ wbuf (run_st r') = wbuf (run_st r) /\
    werr (run_st r') = werr (run_st r) /\ wopen (run_st r') = false) r.
Proof. unfold file_close. wp_step. destruct (wopen _) eqn:Eo; by wp_step. Qed.
End WriterSpec.

Lemma holds_same s s' b :
  disk s' = disk s -> wbuf s' = wbuf s -> werr s' = werr s -> holds s b -> holds s' b.
Proof. unfold holds, accepted. by intros -> -> ->. Qed.

(** ** bufio.Scanner with ScanLines *)

Definition nl : ascii := chr 10.

(** The terminated lines of a file and the bytes after the last line feed. *)
Fixpoint lines (l : bytes) : list bytes * bytes :=
  match l with
  | [] => ([], [])
  | c :: t =>
      let '(ls, tl) := lines t in
      if ascii_eqb c nl then ([] :: ls, tl)
      else match ls with
           | [] => ([], c :: tl)
           | l0 :: ls' => ((c :: l0) :: ls', tl)
           end
  end.

(** [dropCR]. *)
Definition drop_cr (l : bytes) : bytes :=
  match last l with
  | Some c => if ascii_eqb c (chr 13) then take (length l - 1) l else l
  | None => l
  end.

(** The tokens up to the first that does not fit the buffer of [max] bytes
    (a line counts with its line feed), and whether there was one. *)
Fixpoint fit_lines (max : Z) (ls : list bytes) : list bytes * bool :=
  match ls with
  | [] => ([], true)
  | l :: ls' =>
      if Z.of_nat (length l) + 1 <=? max
      then let '(a, ok) := fit_lines max ls' in (drop_cr l :: a, ok)
      else ([], false)
  end.

Definition scan_lines (max : Z) (file : bytes) : list bytes * bool :=
  let '(ls, tl) := lines file in
  fit_lines max (ls ++ match tl with [] => [] | _ => [tl] end).

Definition line (d : bytes) : bytes := d ++ [nl].

Lemma no_nl_lines d t : nl ∉ d -> lines (d ++ nl :: t) = (d :: fst (lines t), snd (lines t)).
Proof.
  induction d as [|c d IH]; intros Hd.
  - cbn [app lines]. rewrite ascii_eqb_refl. by destruct (lines t).
  - rewrite not_elem_of_cons in Hd. destruct Hd as [Hc Hd]. cbn [app lines].
    rewrite IH by done. apply not_eq_sym, ascii_eqb_false in Hc. by rewrite Hc.
Qed.

Lemma no_nl_tail d : nl ∉ d -> lines d = ([], d).
Proof.
  induction d as [|c d IH]; intros Hd; [done|].
  rewrite not_elem_of_cons in Hd. destruct Hd as [Hc Hd]. cbn [lines].
  rewrite IH by done. apply not_eq_sym, ascii_eqb_false in Hc. by rewrite Hc.
Qed.

Lemma lines_concat ds t :
  Forall (fun d => nl ∉ d) ds -> nl ∉ t -> lines (concat (map line ds) ++ t) = (ds, t).
Proof.
  induction 1 as [|d ds Hd _ IH]; intros Ht; cbn [map concat app].
  - by apply no_nl_tail.
  - unfold line at 1. rewrite <- !app_assoc. cbn [app]. rewrite no_nl_lines by done.
    by rewrite IH.
Qed.

(** A prefix of a file of whole lines: some of its lines, and a part of the
    next one. *)
Lemma prefix_lines ds p :
  p `prefix_of` concat (map line ds) ->
  exists k t, p = concat (map line (take k ds)) ++ t /\
    (t = [] \/ exists d, ds !! k = Some d /\ t `prefix_of` d).
Proof.
  revert p. induction ds as [|d ds IH]; intros p [q Hq]; cbn [map concat] in Hq.
  { exists 0%nat, []. symmetry in Hq. apply app_nil in Hq as [-> _]. cbn. auto. }
  destruct (decide (length p <= length d)%nat) as [Hle|Hgt].
  - exists 0%nat, p. split; [done|]. right. exists d. split; [done|].
    unfold line in Hq. rewrite <- app_assoc in Hq.
    apply (f_equal (take (length p))) in Hq. rewrite take_app_le in Hq by done.
    rewrite take_app_length in Hq. exists (drop (length p) d).
    rewrite <- Hq at 1. symmetry. apply take_drop.
  - assert (Hp : p = line d ++ drop (length (line d)) p).
    { rewrite <- (take_drop (length (line d)) p) at 1. f_equal.
      apply (f_equal (take (length (line d)))) in Hq.
      rewrite take_app_length, take_app_le in Hq; [done|].
      unfold line. rewrite length_app. cbn. lia. }
    rewrite Hp in Hq. rewrite <- app_assoc in Hq. apply app_inv_head in Hq.
    destruct (IH (drop (length (line d)) p)) as (k & t & Ht & Hor); [by exists q|].
    exists (S k), t. cbn [take map concat]. rewrite <- app_assoc, <- Ht. by split.
Qed.

Lemma fit_lines_all max ls :
  Forall (fun l => Z.of_nat (length l) + 1 <= max) ls ->
  fit_lines max ls = (map drop_cr ls, true).
Proof.
  induction 1 as [|l ls Hl _ IH]; [done|]. cbn [fit_lines map].
  apply Z.leb_le in Hl. by rewrite Hl, IH.
Qed.

Lemma drop_cr_id l : chr 13 ∉ l -> drop_cr l = l.
Proof.
  intros H. unfold drop_cr. destruct (last l) as [c|] eqn:E; [|done].
  apply last_Some in E as [l' ->].
  assert (ascii_eqb c (chr 13) = false) as ->; [|done].
  apply ascii_eqb_false. intros ->. apply H, elem_of_app. right. by left.
Qed.
