(* ===== verification/WAL.v ===== *)
(** * The write-ahead log (internal/ipcbus/wal.go)

    The log is a file of JSON lines behind a buffered writer, next to the map
    of the pending entries.  Every operation is translated with all of its
    I/O, each call of which may fail.  A trace records the entries handed to
    the writer ([Recorded]) and the contents that replace the file when a
    compaction renames it into place ([Compacted]); [log_of] folds a trace
    into the log it stands for, which is what the theorems compare the file
    and the map with. *)

From S2P Require Import Prelude.
From S2P Require Import GoStrings.
From S2P Require Import Json.
From S2P Require Import GoTime.
From S2P Require Import Message.
From S2P Require Import Framing.
From S2P Require Import GoIO.

Definition WALPending : string := "pending".
Definition WALComplete : string := "complete".
Definition WALDLQ : string := "dlq".
Definition compactionThreshold : Z := 10 * 1024 * 1024.

Record WALEntry := mkEntry {
  E_ID : string;
  E_Channel : string;
  E_State : string;
  E_Attempts : Z;
  E_TS : string;
  E_Msg : option Message;
}.

(** ** The JSON form of an entry *)

Definition enc_entry (e : WALEntry) : option (list (bytes * json)) :=
  msg ← match E_Msg e with
        | None => Some []
        | Some m => l ← enc_message m; Some [field "msg" (JObj l)]
        end;
  Some ([field "id" (str_json (E_ID e)); field "channel" (str_json (E_Channel e));
         field "state" (str_json (E_State e)); field "attempts" (JNum (format_int (E_Attempts e)));
         field "ts" (str_json (E_TS e))] ++ msg).

Definition entry_keys : list string := ["id"; "channel"; "state"; "attempts"; "ts"; "msg"]%string.

(** Decoding into a [*Message]: null is nil, an object fills the message. *)
Definition dec_msg_ptr (v : json) (old : option Message) : option (option Message) :=
  match v with
  | JNull => Some None
  | v => Some <$> dec_struct message_keys set_message v (default zero_message old)
  end.

Definition set_entry (k : string) (v : json) (e : WALEntry) : option WALEntry :=
  let '(mkEntry i c s a t m) := e in
  if decide (k = "id"%string) then (fun x => mkEntry x c s a t m) <$> dec_str v i
  else if decide (k = "channel"%string) then (fun x => mkEntry i x s a t m) <$> dec_str v c
  else if decide (k = "state"%string) then (fun x => mkEntry i c x a t m) <$> dec_str v s
  else if decide (k = "attempts"%string) then (fun x => mkEntry i c s x t m) <$> dec_int v a
  else if decide (k = "ts"%string) then (fun x => mkEntry i c s a x m) <$> dec_str v t
  else (fun x => mkEntry i c s a t x) <$> dec_msg_ptr v m.

Definition zero_entry : WALEntry := mkEntry "" "" "" 0 "" None.

Definition entry_ok (e : WALEntry) : Prop :=
  utf8_str (E_ID e) && utf8_str (E_Channel e) && utf8_str (E_State e) && utf8_str (E_TS e) &&
  between (- 2 ^ 63) (E_Attempts e) (2 ^ 63 - 1) = true /\
  match E_Msg e with Some m => message_ok m | None => True end.

Definition norm_entry (e : WALEntry) : WALEntry :=
  mkEntry (E_ID e) (E_Channel e) (E_State e) (E_Attempts e) (E_TS e) (norm_message <$> E_Msg e).

#[export] Instance WALEntry_codec : JsonCodec WALEntry :=
  struct_codec enc_entry (fun v => dec_struct entry_keys set_entry v zero_entry)
    entry_ok norm_entry.

(** The members of an encoded message never make its object null. *)
Lemma dec_msg_ptr_enc m l :
  message_ok m -> enc_message m = Some l -> dec_msg_ptr (JObj l) None = Some (Some (norm_message m)).
Proof.
  intros Hok He. destruct (enc_dec_message m l Hok He) as [_ Hd].
  unfold dec_msg_ptr. unfold dec_message in Hd. cbn [default]. by rewrite Hd.
Qed.

Lemma set_entry_msg v i c s a t m :
  set_entry "msg" v (mkEntry i c s a t m) = (fun x => mkEntry i c s a t x) <$> dec_msg_ptr v m.
Proof. reflexivity. Qed.

Lemma set_entry_attempts v i c s a t m :
  set_entry "attempts" v (mkEntry i c s a t m) =
  (fun x => mkEntry i c s x t m) <$> dec_int v a.
Proof. reflexivity. Qed.

Lemma enc_dec_entry e l :
  entry_ok e -> enc_entry e = Some l ->
  wf_json (JObj l) = true /\
  dec_struct entry_keys set_entry (JObj l) zero_entry = Some (norm_entry e).
Proof.
  intros [Hs Hm]. unfold utf8_str in Hs. rewrite !andb_true_iff, between_spec in Hs.
  destruct Hs as [[[[H1 H2] H3] H4] H5].
  destruct e as [i c s a t m]. cbn [E_ID E_Channel E_State E_Attempts E_TS E_Msg] in *.
  assert (Hdec : forall old, dec_int (JNum (format_int a)) old = Some a).
  { intros old. unfold dec_int. apply parse_format_int. lia. }
  unfold enc_entry. cbn [E_ID E_Channel E_State E_Attempts E_TS E_Msg].
  assert (Hhead : forall tl, wf_json (JObj tl) = true ->
    wf_json (JObj ([field "id" (str_json i); field "channel" (str_json c);
      field "state" (str_json s); field "attempts" (JNum (format_int a));
      field "ts" (str_json t)] ++ tl)) = true).
  { intros tl Htl. cbn [wf_json app forallb field] in *. rewrite Htl, !str_json_wf.
    rewrite format_int_valid. reflexivity. }
  intros He. split.
  - destruct m as [m|]; cbn [base.mbind option_bind] in He.
    + destruct (enc_message m) as [lm|] eqn:Em; [|done].
      cbn [base.mbind option_bind] in He. apply Some_inj in He as <-.
      apply Hhead. cbn [wf_json forallb field].
      destruct (enc_dec_message m lm Hm Em) as [Hwf _]. cbn [wf_json] in Hwf.
      rewrite Hwf. reflexivity.
    + apply Some_inj in He as <-. by apply Hhead.
  - unfold zero_entry, dec_struct.
    assert (Htail : exists tl, l = [field "id" (str_json i); field "channel" (str_json c);
      field "state" (str_json s); field "attempts" (JNum (format_int a));
      field "ts" (str_json t)] ++ tl /\
      forall a0, E_Msg a0 = None -> dec_members entry_keys set_entry tl a0 =
        Some (mkEntry (E_ID a0) (E_Channel a0) (E_State a0) (E_Attempts a0) (E_TS a0)
                (norm_message <$> m))).
    { destruct m as [m|]; cbn [base.mbind option_bind] in He.
      - destruct (enc_message m) as [lm|] eqn:Em; [|done].
        cbn [base.mbind option_bind] in He. apply Some_inj in He as <-.
        eexists. split; [reflexivity|]. intros [i0 c0 s0 a0 t0 m0] Hn. cbn in Hn. subst m0.
        erewrite dec_field; [|reflexivity..|rewrite set_entry_msg, (dec_msg_ptr_enc m lm) by done; reflexivity].
        reflexivity.
      - apply Some_inj in He as <-. exists []. split; [done|].
        intros [i0 c0 s0 a0 t0 m0] Hn. cbn in Hn. by subst m0. }
    destruct Htail as (tl & -> & Htl). cbn [app].
    erewrite dec_field; [|reflexivity..|set_key dec_str_json].
    erewrite dec_field; [|reflexivity..|set_key dec_str_json].
    erewrite dec_field; [|reflexivity..|set_key dec_str_json].
    erewrite dec_field; [|reflexivity..|].
    2:{ rewrite set_entry_attempts, Hdec. reflexivity. }
    erewrite dec_field; [|reflexivity..|set_key dec_str_json].
    by rewrite Htl.
Qed.

Lemma norm_entry_idem e : norm_entry (norm_entry e) = norm_entry e.
Proof.
  destruct e as [i c s a t [m|]]; unfold norm_entry; cbn; [|done].
  by rewrite norm_message_idem.
Qed.

#[export] Instance WALEntry_laws : JsonLaws WALEntry :=
  struct_laws _ _ _ _ enc_dec_entry norm_entry_idem.

(** ** The log *)

Record WAL := mkWAL {
  out : Writer;
  entries : gmap string WALEntry;
}.

Inductive wal_event :=
| Recorded (e : WALEntry)
| Compacted (l : list WALEntry).

Inductive wal_error :=
| ErrWALDir | ErrWALRecover | ErrWALOpen | ErrEntryMarshal | ErrEntryWrite
| ErrEntryNotFound (id : string)
| ErrCompact | ErrWALFlush | ErrWALSync | ErrWALClose.

(** *** Recovery *)

Definition apply_entry (m : gmap string WALEntry) (e : WALEntry) : gmap string WALEntry :=
  if decide (E_State e = WALPending) then <[E_ID e := e]> m
  else if decide (E_State e = WALComplete \/ E_State e = WALDLQ) then delete (E_ID e) m
  else m.

(** A corrupt line is skipped. *)
Definition apply_line (m : gmap string WALEntry) (line : bytes) : gmap string WALEntry :=
  match unmarshal line with None => m | Some e => apply_entry m e end.

(** The entries of a log file, and whether the scanner read all of it. *)
Definition recover_file (file : bytes) : gmap string WALEntry * bool :=
  let '(ls, ok) := scan_lines MaxMessageSize file in (foldl apply_line ∅ ls, ok).

(** [recover]: [None] is a file that does not exist. *)
Definition recover {S E} (file : option bytes) : M S E (result wal_error (gmap string WALEntry)) :=
  match file with
  | None => mret (Ok ∅)
  | Some f =>
      let* ok := io in
      if ok then
        let* rd := io in
        let '(m, fits) := recover_file f in
        mret (if rd && fits then Ok m else Err ErrWALRecover)
      else mret (Err ErrWALRecover)
  end.

Definition NewWAL {S E} (file : option bytes) : M S E (result wal_error WAL) :=
  let* dir := io in
  if dir then
    let* r := recover file in
    match r with
    | Err e => mret (Err e)
    | Ok m =>
        let* ok := io in
        mret (if ok then Ok (mkWAL (open_append (default [] file)) m) else Err ErrWALOpen)
    end
  else mret (Err ErrWALDir).

(** *** Operations *)

Definition set_out (o : Writer) (w : WAL) : WAL := mkWAL o (entries w).
Definition on_out {A} (m : M Writer wal_event A) : M WAL wal_event A := zoom out set_out id m.
Definition set_entries (f : gmap string WALEntry -> gmap string WALEntry) : M WAL wal_event unit :=
  mmodify (fun w => mkWAL (out w) (f (entries w))).

Definition appendEntry (e : WALEntry) : M WAL wal_event (result wal_error unit) :=
  match marshal e with
  | None => mret (Err ErrEntryMarshal)
  | Some data =>
      emit (Recorded e) ;;;
      let* ok := on_out (buf_write (data ++ [nl])) in
      mret (if ok then Ok tt else Err ErrEntryWrite)
  end.

(** [time.Now().UTC().Format(time.RFC3339Nano)]. *)
Definition format_ts (t : Z) : string := String.string_of_list_ascii (format_nano t).

Definition Append (msg : Message) : M WAL wal_event (result wal_error unit) :=
  let* t := now in
  let e := mkEntry (ID msg) (Channel msg) WALPending 1 (format_ts t) (Some msg) in
  let* r := appendEntry e in
  match r with
  | Err _ => mret r
  | Ok _ => set_entries (insert (ID msg) e) ;;; mret (Ok tt)
  end.

(** The bodies of Complete and MarkDLQ. *)
Definition finish (state : string) (id : string) : M WAL wal_event (result wal_error unit) :=
  let* w := mget in
  match entries w !! id with
  | None => mret (Err (ErrEntryNotFound id))
  | Some e =>
      let* t := now in
      let* r := appendEntry (mkEntry (E_ID e) (E_Channel e) state (E_Attempts e) (format_ts t) None) in
      match r with
      | Err _ => mret r
      | Ok _ => set_entries (delete id) ;;; mret (Ok tt)
      end
  end.

Definition Complete : string -> M WAL wal_event (result wal_error unit) := finish WALComplete.
Definition MarkDLQ : string -> M WAL wal_event (result wal_error unit) := finish WALDLQ.

(** [entry.Attempts++] on a Go int. *)
Definition int64 (z : Z) : Z := (z + 2 ^ 63) mod 2 ^ 64 - 2 ^ 63.

(** The entry is updated in place before it is logged. *)
Definition IncrementAttempts (id : string) : M WAL wal_event (result wal_error Z) :=
  let* w := mget in
  match entries w !! id with
  | None => mret (Err (ErrEntryNotFound id))
  | Some e =>
      let* t := now in
      let e' := mkEntry (E_ID e) (E_Channel e) (E_State e) (int64 (E_Attempts e + 1))
                  (format_ts t) (E_Msg e) in
      set_entries (insert id e') ;;;
      let* r := appendEntry e' in
      match r with
      | Err x => mret (Err x)
      | Ok _ => mret (Ok (E_Attempts e'))
      end
  end.

Definition PendingEntries `{RangeOrder} : M WAL wal_event (list WALEntry) :=
  mgets (fun w => map snd (range (entries w))).

(** The loop of Compact over the temporary file. *)
Fixpoint compact_entries (l : list WALEntry) : M Writer wal_event bool :=
  match l with
  | [] => mret true
  | e :: l' =>
      match marshal e with
      | None => mret false
      | Some data =>
          let* ok := buf_write (data ++ [nl]) in
          if ok then compact_entries l' else mret false
      end
  end.

Definition write_tmp (l : list WALEntry) : M Writer wal_event bool :=
  let* ok := compact_entries l in
  if ok then
    let* ok := flush in
    if ok then let* ok := file_sync in if ok then file_close else mret false
    else mret false
  else mret false.

Definition Compact `{RangeOrder} : M WAL wal_event (result wal_error unit) :=
  let* opened := io in
  if opened then
    let* l := PendingEntries in
    let* t := local (open_append []) (write_tmp l) in
    let '(ok, tmp) := t in
    if ok then
      let* ok := on_out flush in
      if ok then
        let* ok := on_out file_close in
        if ok then
          let* renamed := io in
          if renamed then
            emit (Compacted l) ;;;
            mmodify (set_out (mkWriter (disk tmp) [] false false)) ;;;
            let* reopened := io in
            if reopened then
              mmodify (set_out (open_append (disk tmp))) ;;; mret (Ok tt)
            else mret (Err ErrCompact)
          else mret (Err ErrCompact)
        else mret (Err ErrCompact)
      else mret (Err ErrCompact)
    else mret (Err ErrCompact)
  else mret (Err ErrCompact).

Definition Flush : M WAL wal_event (result wal_error unit) :=
  let* ok := on_out flush in
  if ok then
    let* ok := on_out file_sync in
    mret (if ok then Ok tt else Err ErrWALSync)
  else mret (Err ErrWALFlush).

Definition NeedsCompaction : M WAL wal_event bool :=
  let* w := mget in
  if wopen (out w) then
    let* ok := io in
    mret (ok && (compactionThreshold <? Z.of_nat (length (disk (out w)))))
  else mret false.

Definition Close : M WAL wal_event (result wal_error unit) :=
  let* ok := on_out flush in
  if ok then
    let* ok := on_out file_sync in
    if ok then
      let* ok := on_out file_close in
      mret (if ok then Ok tt else Err ErrWALClose)
    else mret (Err ErrWALSync)
  else mret (Err ErrWALFlush).

(** *** Sequences of operations *)

Inductive wal_op :=
| OpAppend (m : Message) | OpComplete (id : string) | OpMarkDLQ (id : string)
| OpIncrement (id : string) | OpCompact | OpFlush | OpClose.

Definition drop_result {S E A} (m : M S E A) : M S E unit := let* _ := m in mret tt.

Definition run_op `{RangeOrder} (o : wal_op) : M WAL wal_event unit :=
  match o with
  | OpAppend m => drop_result (Append m)
  | OpComplete id => drop_result (Complete id)
  | OpMarkDLQ id => drop_result (MarkDLQ id)
  | OpIncrement id => drop_result (IncrementAttempts id)
  | OpCompact => drop_result Compact
  | OpFlush => drop_result Flush
  | OpClose => drop_result Close
  end.

Definition run_ops `{RangeOrder} (l : list wal_op) : M WAL wal_event unit := mfor l run_op.

(** ** The log a trace stands for *)

Definition log_step (log : list WALEntry) (ev : wal_event) : list WALEntry :=
  match ev with Recorded e => log ++ [e] | Compacted l => l end.
Definition log_of (log0 : list WALEntry) (tr : list wal_event) : list WALEntry :=
  foldl log_step log0 tr.

(** The lines of a log. *)
Definition record_bytes (e : WALEntry) : bytes := default [] (marshal e).
Definition log_bytes (log : list WALEntry) : bytes := concat (map (fun e => line (record_bytes e)) log).

(** What replaying a log leaves pending. *)
Definition replay (log : list WALEntry) : gmap string WALEntry :=
  foldl apply_entry ∅ (map norm_entry log).

(** A record of ordinary contents whose line fits the scanner of [recover]. *)
Definition rec_ok (e : WALEntry) : Prop :=
  entry_ok e /\ Z.of_nat (length (record_bytes e)) + 1 <= MaxMessageSize.
Definition marshals (e : WALEntry) : Prop := is_Some (marshal e).

(** The same as a boolean, for closed logs. *)
Definition rec_okb (e : WALEntry) : bool :=
  utf8_str (E_ID e) && utf8_str (E_Channel e) && utf8_str (E_State e) && utf8_str (E_TS e) &&
  between (- 2 ^ 63) (E_Attempts e) (2 ^ 63 - 1) &&
  match E_Msg e with
  | Some m => utf8_str (ID m) && utf8_str (Type_ m) && utf8_str (Channel m) &&
              utf8_str (CorrelationID m) && utf8_str (ReplyTo m) && raw_ok (Payload m)
  | None => true
  end && (Z.of_nat (length (record_bytes e)) + 1 <=? MaxMessageSize) &&
  match marshal e with Some _ => true | None => false end.

Lemma rec_okb_spec log :
  forallb rec_okb log = true -> Forall rec_ok log /\ Forall marshals log.
Proof.
  intros H. rewrite <- Forall_and, Forall_forall. rewrite forallb_forall in H.
  intros e He%list_elem_of_In. specialize (H e He). unfold rec_okb in H.
  apply andb_true_iff in H as [H Hm]. apply andb_true_iff in H as [H Hl].
  apply andb_true_iff in H as [H Hmsg]. apply Z.leb_le in Hl. split; [split; [split|]|].
  - done.
  - destruct (E_Msg e); [|done]. exact Hmsg.
  - done.
  - unfold marshals. destruct (marshal e); [by eexists|done].
Qed.

(** ** Lemmas on logs *)

Lemma log_bytes_app l l' : log_bytes (l ++ l') = log_bytes l ++ log_bytes l'.
Proof. unfold log_bytes. by rewrite map_app, concat_app. Qed.

Lemma replay_snoc l e : replay (l ++ [e]) = apply_entry (replay l) (norm_entry e).
Proof. unfold replay. by rewrite map_app, foldl_app. Qed.

Lemma apply_entry_norm m e : apply_entry m (norm_entry e) =
  (if decide (E_State e = WALPending) then <[E_ID e := norm_entry e]> m
   else if decide (E_State e = WALComplete \/ E_State e = WALDLQ) then delete (E_ID e) m
   else m).
Proof. done. Qed.

(** Entries are filed under their own identifier and are pending. *)
Definition filed (id : string) (e : WALEntry) : Prop := E_ID e = id /\ E_State e = WALPending.

Lemma apply_entry_filed m e : map_Forall filed m -> map_Forall filed (apply_entry m e).
Proof.
  intros Hm. unfold apply_entry. destruct (decide _); [|destruct (decide _)].
  - by apply map_Forall_insert_2.
  - by apply map_Forall_delete.
  - done.
Qed.

Lemma replay_filed l : map_Forall filed (replay l).
Proof.
  unfold replay. generalize (map norm_entry l). intros es.
  assert (H : map_Forall filed (∅ : gmap string WALEntry)) by apply map_Forall_empty.
  revert H. generalize (∅ : gmap string WALEntry).
  induction es as [|e es IH]; intros m Hm; [done|]. cbn. apply IH, apply_entry_filed, Hm.
Qed.

Lemma filed_of_norm (m : gmap string WALEntry) : map_Forall filed (norm_entry <$> m) -> map_Forall filed m.
Proof. intros H id e He. apply (H id (norm_entry e)). by rewrite lookup_fmap, He. Qed.

(** Replaying distinct pending entries files each of them. *)
Lemma foldl_pending l m0 :
  Forall (fun e => E_State e = WALPending) l -> NoDup (map E_ID l) ->
  (forall e, e ∈ l -> foldl apply_entry m0 l !! E_ID e = Some e) /\
  (forall i, i ∉ map E_ID l -> foldl apply_entry m0 l !! i = m0 !! i).
Proof.
  revert m0. induction l as [|e l IH]; intros m0 Hp Hn.
  { split; [|done]. intros e He. by apply not_elem_of_nil in He. }
  inversion_clear Hp as [|?? He Hl]. cbn [map] in Hn. apply NoDup_cons in Hn as [Hni Hn].
  assert (Ha : apply_entry m0 e = <[E_ID e := e]> m0).
  { unfold apply_entry. by rewrite decide_True. }
  cbn [foldl]. rewrite Ha. destruct (IH (<[E_ID e := e]> m0) Hl Hn) as [H1 H2]. split.
  - intros e' [->|Hin]%elem_of_cons; [|by apply H1].
    rewrite H2 by done. by rewrite lookup_insert_eq.
  - intros i. cbn [map]. rewrite not_elem_of_cons. intros [Hne Hi].
    rewrite H2 by done. by rewrite lookup_insert_ne.
Qed.

Lemma replay_range `{RangeOrder} (m : gmap string WALEntry) :
  map_Forall filed m -> replay (map snd (range m)) = norm_entry <$> m.
Proof.
  intros Hf. unfold replay.
  assert (Hids : map E_ID (map norm_entry (map snd (range m))) = map fst (range m)).
  { rewrite !map_map. apply map_ext_in. intros [i e] Hin%list_elem_of_In. cbn.
    rewrite (range_perm m) in Hin. apply elem_of_map_to_list in Hin. by apply Hf. }
  destruct (foldl_pending (map norm_entry (map snd (range m))) ∅) as [H1 H2].
  - rewrite Forall_map, Forall_map, Forall_forall. intros [i e] Hin. cbn.
    rewrite (range_perm m) in Hin. apply elem_of_map_to_list in Hin. by apply (Hf i).
  - rewrite Hids, (range_perm m). apply NoDup_fst_map_to_list.
  - apply map_eq. intros i. rewrite lookup_fmap. destruct (m !! i) as [e|] eqn:Hi; cbn.
    + destruct (Hf _ _ Hi) as [<- _]. apply (H1 (norm_entry e)).
      rewrite map_map. apply list_elem_of_fmap. exists (E_ID e, e). split; [done|].
      rewrite (range_perm m). by apply elem_of_map_to_list.
    + rewrite H2; [done|]. rewrite Hids, (range_perm m).
      intros ([i' e] & -> & Hin)%list_elem_of_fmap. cbn in Hi.
      apply elem_of_map_to_list in Hin. congruence.
Qed.

Lemma marshals_attempts e a ts :
  marshals e -> marshals (mkEntry (E_ID e) (E_Channel e) (E_State e) a ts (E_Msg e)).
Proof.
  destruct e as [i c s a0 t m]. unfold marshals. cbn [marshal WALEntry_codec struct_codec].
  unfold enc_entry. cbn [E_ID E_Channel E_State E_Attempts E_TS E_Msg].
  destruct m as [m|]; cbn [base.mbind option_bind]; [|by eexists].
  destruct (enc_message m); cbn [base.mbind option_bind]; [|by intros []]. by eexists.
Qed.

(** ** Recovery of a damaged log *)

Lemma marshal_lines log :
  Forall rec_ok log -> Forall marshals log ->
  forall e, e ∈ log -> exists d, marshal e = Some d /\ record_bytes e = d /\
    no_ctl d = true /\ Z.of_nat (length d) + 1 <= MaxMessageSize /\ unmarshal d = Some (norm_entry e).
Proof.
  intros Hok Hm e He. rewrite Forall_forall in Hok, Hm.
  destruct (Hok e He) as [Hj Hl]. destruct (Hm e He) as [d Hd].
  unfold record_bytes in *. rewrite Hd in *. cbn [default] in *. exists d.
  split_and!; try done; [by apply (marshal_no_ctl e)|exact (marshal_unmarshal e d Hj Hd)].
Qed.

Lemma fold_lines m log ds :
  Forall2 (fun e d => unmarshal d = Some (norm_entry e)) log ds ->
  foldl apply_line m ds = foldl apply_entry m (map norm_entry log).
Proof.
  intros H. revert m. induction H as [|e d log ds Hd _ IH]; intros m; [done|].
  cbn [foldl map]. rewrite <- IH. f_equal. unfold apply_line. by rewrite Hd.
Qed.

Lemma log_bytes_nil log : log_bytes log = [] -> log = [].
Proof.
  destruct log as [|e log]; [done|]. intros E. exfalso. unfold log_bytes, line in E.
  apply (f_equal length) in E. cbn [map concat] in E. rewrite !length_app in E. cbn in E. lia.
Qed.

(** Reading whole lines and the bytes after them. *)
Lemma recover_lines log t :
  (forall e, e ∈ log -> exists d, marshal e = Some d /\ record_bytes e = d /\
    no_ctl d = true /\ Z.of_nat (length d) + 1 <= MaxMessageSize /\ unmarshal d = Some (norm_entry e)) ->
  no_ctl t = true -> Z.of_nat (length t) + 1 <= MaxMessageSize ->
  recover_file (log_bytes log ++ t) =
  (match t with [] => replay log | _ => apply_line (replay log) t end, true).
Proof.
  intros Hd Ht Hlen. unfold recover_file, scan_lines, log_bytes.
  rewrite <- (map_map record_bytes line). rewrite lines_concat.
  - rewrite fit_lines_all.
    2:{ apply Forall_app. split.
        - rewrite Forall_map, Forall_forall. intros e He. by destruct (Hd e He) as (d & _ & -> & _ & ? & _).
        - destruct t; [constructor|by constructor]. }
    f_equal. rewrite map_app, foldl_app, map_map.
    rewrite (fold_lines ∅ log).
    + fold (replay log). destruct t as [|c t]; [done|]. cbn [map foldl].
      f_equal. by apply drop_cr_id, (no_ctl_not_elem _ 13).
    + clear -Hd. induction log as [|e log IH]; cbn [map]; constructor.
      * destruct (Hd e) as (d & _ & -> & Hc & _ & Hu); [by left|].
        by rewrite drop_cr_id by (by apply (no_ctl_not_elem d 13)).
      * apply IH. intros e' He'. apply Hd. by right.
  - rewrite Forall_map, Forall_forall. intros e He.
    destruct (Hd e He) as (d & _ & -> & Hc & _). by apply (no_ctl_not_elem d 10).
  - by apply (no_ctl_not_elem t 10).
Qed.

(** From any prefix of a log's bytes recovery yields the replay of some of
    its first records: whole lines are read back, a torn line is either
    complete but for its line feed or is skipped. *)
Lemma recover_prefix log p :
  Forall rec_ok log -> Forall marshals log -> p `prefix_of` log_bytes log ->
  exists k, recover_file p = (replay (take k log), true) /\
    (p = log_bytes log -> (length log <= k)%nat).
Proof.
  intros Hok Hm Hp. pose proof (marshal_lines log Hok Hm) as Hd.
  unfold log_bytes in Hp. rewrite <- (map_map record_bytes line) in Hp.
  destruct (prefix_lines _ _ Hp) as (k & t & Hpt & Ht).
  rewrite firstn_map, map_map in Hpt. fold (log_bytes (take k log)) in Hpt. subst p.
  assert (Hin : forall e, e ∈ take k log -> e ∈ log) by (intros e; apply subseteq_take).
  assert (Hdk : forall e, e ∈ take k log -> _) by (intros e He; apply (Hd e (Hin e He))).
  assert (Hsplit : log_bytes log = log_bytes (take k log) ++ log_bytes (drop k log)).
  { by rewrite <- log_bytes_app, take_drop. }
  destruct Ht as [->|(d & Hlk & [q Hq])].
  - exists k. rewrite recover_lines by done. split; [done|].
    rewrite Hsplit. intros E%app_inv_head. symmetry in E. apply log_bytes_nil in E.
    apply (f_equal length) in E. rewrite length_drop in E. cbn in E. lia.
  - rewrite list_lookup_fmap in Hlk. destruct (log !! k) as [e|] eqn:Hk; [|done].
    injection Hlk as Hlk. destruct (Hd e) as (d' & Hmar & Hr & Hc & Hl & Hu).
    { by apply list_elem_of_lookup_2 with k. }
    rewrite Hlk in Hr. subst d'. clear Hlk. rewrite Hq in Hc, Hl, Hu, Hmar.
    rewrite length_app in Hl. unfold no_ctl in Hc. rewrite forallb_app in Hc.
    apply andb_true_iff in Hc as [Hc _]. fold (no_ctl t) in Hc.
    rewrite recover_lines by (done || lia).
    assert (Hne : log_bytes (take k log) ++ t <> log_bytes log).
    { rewrite Hsplit. intros E%app_inv_head. rewrite (drop_S _ _ _ Hk) in E.
      apply (f_equal length) in E. unfold log_bytes, line, record_bytes in E.
      cbn [map concat] in E. rewrite Hmar in E. cbn [default id] in E.
      rewrite !length_app in E. cbn in E. lia. }
    destruct t as [|c t].
    { exists k. split; [done|]. intros E. by destruct Hne. }
    destruct q as [|x q].
    + exists (S k). split; [|intros E; by destruct Hne].
      rewrite app_nil_r in Hu. unfold apply_line at 1. rewrite Hu.
      by rewrite (take_S_r _ _ _ Hk), replay_snoc.
    + exists k. split; [|intros E; by destruct Hne]. unfold apply_line at 1.
      rewrite (marshal_prefix_free e (c :: t) (x :: q)); [done| |done|done].
      rewrite Forall_forall in Hok. apply Hok. by apply list_elem_of_lookup_2 with k.
Qed.

(** ** The invariant: the file, the buffer and the map agree with the log *)

Section Invariant.
Context (w : Oracle) (log0 : list WALEntry) `{RangeOrder}.
Implicit Types r : Run WAL wal_event.

Definition cur_log r : list WALEntry := log_of log0 (run_trace r).

(** The bytes: disk and buffer hold the log, or the disk holds a prefix of it
    after an error. *)
Definition bytes_inv r : Prop :=
  Forall marshals (cur_log r) /\ holds (out (run_st r)) (log_bytes (cur_log r)).

(** The map is the replay of the log, as long as no write has failed. *)
Definition map_inv r : Prop :=
  werr (out (run_st r)) = false ->
  norm_entry <$> entries (run_st r) = replay (cur_log r) /\
  map_Forall (fun _ e => marshals e) (entries (run_st r)).

Definition wal_inv r : Prop := bytes_inv r /\ map_inv r.

Lemma cur_log_record r s tk e :
  cur_log (mkRun s tk (run_trace r ++ [Recorded e])) = cur_log r ++ [e].
Proof. unfold cur_log, log_of. cbn [run_trace]. by rewrite foldl_app. Qed.

(** Logging an entry, whatever the map looks like. *)
Lemma appendEntry_spec e r :
  bytes_inv r ->
  wp w (appendEntry e) (fun res r' =>
    bytes_inv r' /\ entries (run_st r') = entries (run_st r) /\
    match res with
    | Ok _ => marshals e /\ cur_log r' = cur_log r ++ [e] /\
              werr (out (run_st r)) = false /\ werr (out (run_st r')) = false
    | Err _ => werr (out (run_st r')) = true \/ (~ marshals e /\ r' = r)
    end) r.
Proof.
  intros [Hm Hh]. unfold appendEntry. destruct (marshal e) as [data|] eqn:Ed.
  2:{ wp_step. split; [done|]. split; [done|]. right. split; [|done].
      unfold marshals. rewrite Ed. by intros []. }
  unfold on_out. wp_step.
  eapply wp_conseq; [|by apply (buf_write_spec w _ (log_bytes (cur_log r)))].
  intros ok r' (Ht & Hh' & He & Hok). cbn [run_st run_trace] in *.
  wp_step. rewrite Ht. cbn [map]. rewrite app_nil_r.
  assert (Hlog : log_bytes (cur_log r) ++ data ++ [nl] = log_bytes (cur_log r ++ [e])).
  { rewrite log_bytes_app. f_equal. unfold log_bytes, line, record_bytes. cbn [map concat].
    by rewrite Ed, app_nil_r. }
  assert (Hme : marshals e) by (unfold marshals; rewrite Ed; by eexists).
  split; [|split; [done|]].
  - unfold bytes_inv. rewrite cur_log_record. cbn [run_st set_out out].
    rewrite <- Hlog. split; [|done]. apply Forall_app. by split; [|constructor].
  - rewrite cur_log_record. cbn [run_st set_out out]. destruct ok; cbn in He; auto.
Qed.

(** A record that, once logged, corresponds to the change of the map. *)
Lemma append_then r e f m :
  wal_inv r ->
  (map_inv r -> werr (out (run_st r)) = false -> marshals e ->
     norm_entry <$> f (entries (run_st r)) = apply_entry (replay (cur_log r)) (norm_entry e) /\
     map_Forall (fun _ e => marshals e) (f (entries (run_st r)))) ->
  (m = @id _ \/ m = f /\ (marshals e \/ werr (out (run_st r)) = true)) ->
  wp w (set_entries m ;;; appendEntry e) (fun res r' =>
    bytes_inv r' /\
    match res with
    | Ok _ => wal_inv (mkRun (mkWAL (out (run_st r')) (f (entries (run_st r)))) (run_tick r') (run_trace r'))
              /\ entries (run_st r') = m (entries (run_st r))
    | Err _ => map_inv r'
    end) r.
Proof.
  intros [Hb Hmap] Hf Hm. unfold set_entries. wp_step.
  eapply wp_conseq; [|apply appendEntry_spec; exact Hb].
  intros res r' (Hb' & Hent & Hres). cbn [run_st entries out] in *. split; [done|].
  destruct res as [[]|err].
  - destruct Hres as (Hme & Hlog & He & He'). split; [|done].
    destruct (Hf Hmap He Hme) as [H1 H2]. split; [exact Hb'|].
    intros _. cbn [run_st entries]. split; [|done]. rewrite H1.
    unfold cur_log in *. cbn [run_trace]. by rewrite Hlog, replay_snoc.
  - destruct Hres as [He'|[Hme ->]]; [unfold map_inv; congruence|].
    destruct Hm as [->|[-> [Hm|Hm]]]; [exact Hmap|done|].
    unfold map_inv. cbn [run_st out]. congruence.
Qed.

Lemma set_entries_inv f r : wp w (set_entries f)
  (fun _ r' => r' = mkRun (mkWAL (out (run_st r)) (f (entries (run_st r)))) (run_tick r) (run_trace r)) r.
Proof. done. Qed.

Lemma Append_inv msg r : wal_inv r -> wp w (Append msg) (fun _ => wal_inv) r.
Proof.
  intros Hr. unfold Append. wp_step.
  set (e := mkEntry _ _ _ _ _ _). set (r1 := mkRun _ _ _).
  pose proof (append_then r1 e (insert (ID msg) e) id Hr) as Hap.
  unfold set_entries in Hap. rewrite wp_bind, wp_mmodify in Hap.
  replace (mkRun _ _ _) with r1 in Hap by (by destruct r as [[]]).
  eapply wp_conseq; [|apply Hap; [|by left]].
  - intros res r' [Hb Hres]. destruct res as [[]|err]; wp_step; [|by split].
    destruct Hres as [Hi He]. unfold set_entries. wp_step. rewrite He. exact Hi.
  - intros Hmap He Hme. destruct (Hmap He) as [H1 H2]. split.
    + rewrite fmap_insert. rewrite H1. unfold apply_entry. by rewrite decide_True.
    + by apply map_Forall_insert_2.
Qed.

Lemma replay_lookup r id e :
  map_inv r -> werr (out (run_st r)) = false -> entries (run_st r) !! id = Some e -> filed id e.
Proof.
  intros Hm He Hl. destruct (Hm He) as [H1 _].
  apply (filed_of_norm (entries (run_st r))); [|done]. rewrite H1. apply replay_filed.
Qed.

Lemma finish_inv state id r :
  state = WALComplete \/ state = WALDLQ -> wal_inv r -> wp w (finish state id) (fun _ => wal_inv) r.
Proof.
  intros Hs Hr. unfold finish. wp_step. destruct (entries (run_st r) !! id) as [e|] eqn:Hl;
    wp_step; [|done].
  set (e' := mkEntry _ _ _ _ _ _). set (r1 := mkRun _ _ _).
  pose proof (append_then r1 e' (delete id) (@Datatypes.id _) Hr) as Hap.
  unfold set_entries in Hap. rewrite wp_bind, wp_mmodify in Hap.
  replace (mkRun _ _ _) with r1 in Hap by (by destruct r as [[]]).
  eapply wp_conseq; [|apply Hap; [|by left]].
  - intros res r' [Hb Hres]. destruct res as [[]|err]; wp_step; [|by split].
    destruct Hres as [Hi He]. unfold set_entries. wp_step. rewrite He. exact Hi.
  - intros Hmap He Hme. destruct (Hmap He) as [H1 H2].
    destruct (replay_lookup r id e (proj2 Hr) He Hl) as [Hid _]. split.
    + rewrite fmap_delete, H1. unfold apply_entry. cbn [E_State norm_entry e'].
      rewrite decide_False by (by destruct Hs as [->| ->]). rewrite decide_True by done.
      cbn [E_ID norm_entry e']. by rewrite Hid.
    + by apply map_Forall_delete.
Qed.

Lemma IncrementAttempts_inv id r : wal_inv r -> wp w (IncrementAttempts id) (fun _ => wal_inv) r.
Proof.
  intros Hr. unfold IncrementAttempts. wp_step.
  destruct (entries (run_st r) !! id) as [e|] eqn:Hl; wp_step; [|done].
  set (e' := mkEntry _ _ _ _ _ _). set (r1 := mkRun (run_st r) _ _).
  pose proof (append_then r1 e' (insert id e') (insert id e') Hr) as Hap.
  rewrite wp_bind in Hap.
  eapply wp_conseq; [|apply Hap].
  - intros [] r' H1. rewrite wp_bind. eapply wp_conseq; [|exact H1].
    intros res r2 [Hb Hres]. destruct res as [[]|err]; wp_step; [|by split].
    destruct Hres as [Hi He]. rewrite <- He in Hi. by destruct r2 as [[]].
  - intros Hmap He Hme. destruct (Hmap He) as [H1 H2].
    destruct (replay_lookup r id e (proj2 Hr) He Hl) as [Hid Hst]. split.
    + rewrite fmap_insert, H1. unfold apply_entry. cbn [E_State E_ID norm_entry e'].
      rewrite Hid, Hst. by rewrite decide_True.
    + by apply map_Forall_insert_2.
  - right. split; [done|]. destruct (werr (out (run_st r))) eqn:He; [by right|left].
    apply marshals_attempts. destruct (proj2 Hr He) as [_ H2]. by apply (H2 id).
Qed.
(** Flushing, syncing and closing keep the log; a successful flush empties
    the buffer. *)
Lemma on_flush_spec r :
  wal_inv r ->
  wp w (on_out flush) (fun ok r' =>
    wal_inv r' /\ entries (run_st r') = entries (run_st r) /\ cur_log r' = cur_log r /\
    (ok = true -> werr (out (run_st r')) = false /\ wbuf (out (run_st r')) = [])) r.
Proof.
  intros [[Hm Hh] Hmap]. unfold on_out. wp_step.
  eapply wp_conseq; [|by apply (flush_spec w (log_bytes (cur_log r)))].
  intros ok r' (Ht & Hh' & Hok). cbn [run_st run_trace] in *. rewrite Ht. cbn [map].
  assert (Hlog : cur_log (mkRun (set_out (run_st r') (run_st r)) (run_tick r')
    (run_trace r ++ [])) = cur_log r) by (unfold cur_log; cbn [run_trace]; by rewrite app_nil_r).
  unfold wal_inv, bytes_inv, map_inv. rewrite Hlog. cbn [run_st set_out out entries].
  destruct ok.
  - destruct Hok as (He & He' & Hb). split_and!; auto.
  - split_and!; auto; congruence.
Qed.

Lemma on_out_same (m : M Writer wal_event bool) r :
  (forall s : Run Writer wal_event,
     wp w m (fun _ (q : Run Writer wal_event) => run_trace q = [] /\ disk (run_st q) = disk (run_st s) /\
     wbuf (run_st q) = wbuf (run_st s) /\ werr (run_st q) = werr (run_st s))
     (mkRun (run_st s) (run_tick s) [])) ->
  wal_inv r ->
  wp w (on_out m) (fun _ r' =>
    wal_inv r' /\ entries (run_st r') = entries (run_st r) /\ cur_log r' = cur_log r /\
    disk (out (run_st r')) = disk (out (run_st r)) /\
    wbuf (out (run_st r')) = wbuf (out (run_st r)) /\
    werr (out (run_st r')) = werr (out (run_st r))) r.
Proof.
  intros Hspec [[Hm Hh] Hmap]. unfold on_out. wp_step.
  eapply wp_conseq; [|apply (Hspec (mkRun (out (run_st r)) (run_tick r) []))].
  intros ok r' (Ht & Hd & Hb & He). cbn [run_st run_trace] in *. rewrite Ht. cbn [map].
  assert (Hlog : cur_log (mkRun (set_out (run_st r') (run_st r)) (run_tick r')
    (run_trace r ++ [])) = cur_log r) by (unfold cur_log; cbn [run_trace]; by rewrite app_nil_r).
  unfold wal_inv, bytes_inv, map_inv. rewrite Hlog. cbn [run_st set_out out entries].
  rewrite He. split_and!; auto. by apply (holds_same (out (run_st r))).
Qed.

Lemma on_sync_spec r :
  wal_inv r ->
  wp w (on_out file_sync) (fun _ r' =>
    wal_inv r' /\ entries (run_st r') = entries (run_st r) /\ cur_log r' = cur_log r /\
    disk (out (run_st r')) = disk (out (run_st r)) /\
    wbuf (out (run_st r')) = wbuf (out (run_st r)) /\
    werr (out (run_st r')) = werr (out (run_st r))) r.
Proof.
  apply on_out_same. intros s. eapply wp_conseq; [|apply file_sync_spec].
  cbn. by intros _ r' [-> ->].
Qed.

Lemma on_close_spec r :
  wal_inv r ->
  wp w (on_out file_close) (fun _ r' =>
    wal_inv r' /\ entries (run_st r') = entries (run_st r) /\ cur_log r' = cur_log r /\
    disk (out (run_st r')) = disk (out (run_st r)) /\
    wbuf (out (run_st r')) = wbuf (out (run_st r)) /\
    werr (out (run_st r')) = werr (out (run_st r))) r.
Proof.
  apply on_out_same. intros s. eapply wp_conseq; [|apply file_close_spec].
  cbn. by intros _ r' (-> & -> & -> & -> & _).
Qed.

Lemma Flush_inv r :
  wal_inv r ->
  wp w Flush (fun res r' => wal_inv r' /\
    (res = Ok tt -> disk (out (run_st r')) = log_bytes (cur_log r') /\
                    werr (out (run_st r')) = false)) r.
Proof.
  intros Hr. unfold Flush. wp_step. eapply wp_conseq; [|by apply on_flush_spec].
  intros ok r1 (Hi & He & Hl & Hok). destruct ok; wp_step; [|by split].
  destruct (Hok eq_refl) as [Hw Hb].
  eapply wp_conseq; [|by apply on_sync_spec]. intros ok r2 (Hi2 & _ & Hl2 & Hd & Hb2 & Hw2).
  wp_step. split; [done|]. intros _. rewrite Hw2. split; [|done].
  destruct Hi2 as [[_ Hh] _]. unfold holds, accepted in Hh. rewrite Hw2, Hw in Hh.
  by rewrite Hb2, Hb, app_nil_r in Hh.
Qed.

Lemma Close_inv r : wal_inv r -> wp w Close (fun _ => wal_inv) r.
Proof.
  intros Hr. unfold Close. wp_step. eapply wp_conseq; [|by apply on_flush_spec].
  intros ok r1 (Hi & _). destruct ok; wp_step; [|done].
  eapply wp_conseq; [|by apply on_sync_spec]. intros ok r2 (Hi2 & _).
  destruct ok; wp_step; [|done].
  eapply wp_conseq; [|by apply on_close_spec]. intros ok r3 (Hi3 & _). by wp_step.
Qed.

(** The temporary file of a compaction. *)
Lemma compact_entries_spec l b (r : Run Writer wal_event) :
  holds (run_st r) b -> werr (run_st r) = false ->
  wp w (compact_entries l) (fun ok (q : Run Writer wal_event) => ok = true ->
    Forall marshals l /\ holds (run_st q) (b ++ log_bytes l) /\ werr (run_st q) = false) r.
Proof.
  revert b r. induction l as [|e l IH]; intros b r Hb He; cbn [compact_entries].
  - wp_step. intros _. unfold log_bytes. cbn. by rewrite app_nil_r.
  - destruct (marshal e) as [data|] eqn:Ed; wp_step; [|done].
    eapply wp_conseq; [|by apply (buf_write_spec w _ b)].
    intros ok r' (_ & Hh & He' & _). destruct ok; wp_step; [|done].
    eapply wp_conseq; [|apply (IH _ _ Hh He')]. intros ok r2 Hok E.
    destruct (Hok E) as (Hm & Hh2 & He2). split; [|split; [|done]].
    + constructor; [|done]. unfold marshals. rewrite Ed. by eexists.
    + unfold log_bytes, line, record_bytes in *. cbn [map concat]. rewrite Ed.
      cbn [default id]. by rewrite app_assoc.
Qed.

Lemma write_tmp_spec l tk :
  wp w (write_tmp l) (fun ok (q : Run Writer wal_event) => ok = true ->
    Forall marshals l /\ disk (run_st q) = log_bytes l)
    (mkRun (open_append []) tk []).
Proof.
  unfold write_tmp. wp_step.
  eapply wp_conseq; [|by apply (compact_entries_spec l [])].
  intros ok r1 Hok. destruct ok; wp_step; [|done].
  destruct (Hok eq_refl) as (Hm & Hh & He).
  eapply wp_conseq; [|by apply (flush_spec w (log_bytes l))].
  intros ok r2 (_ & Hh2 & Hok2). destruct ok; wp_step; [|done].
  destruct Hok2 as (_ & He2 & Hb2).
  assert (disk (run_st r2) = log_bytes l) as Hdisk.
  { unfold holds, accepted in Hh2. by rewrite He2, Hb2, app_nil_r in Hh2. }
  eapply wp_conseq; [|apply file_sync_spec]. intros ok r3 [_ Hs3]. destruct ok; wp_step; [|done].
  eapply wp_conseq; [|apply file_close_spec]. intros ok r4 (_ & Hd4 & _) _.
  split; [done|]. by rewrite Hd4, Hs3.
Qed.

Lemma Compact_inv r : wal_inv r -> wp w Compact (fun _ => wal_inv) r.
Proof.
  intros Hr. unfold Compact. wp_step. destruct (o_ok w (run_tick r)); wp_step; [|exact Hr].
  unfold PendingEntries. wp_step. set (l := map snd (range (entries (run_st r)))).
  eapply wp_conseq; [|apply write_tmp_spec]. cbn [run_st run_tick run_trace].
  intros ok rt Htmp. set (r1 := mkRun (run_st r) _ (run_trace r)).
  destruct ok; wp_step; [|exact Hr]. destruct (Htmp eq_refl) as [Hml Hdisk].
  eapply wp_conseq; [|by apply (on_flush_spec r1)]. intros ok r2 (Hi2 & He2 & Hl2 & Hok).
  destruct ok; wp_step; [|done]. destruct (Hok eq_refl) as [Hw2 _].
  eapply wp_conseq; [|by apply on_close_spec].
  intros ok r3 (Hi3 & He3 & Hl3 & _ & _ & Hw3).
  destruct ok; wp_step; [|done]. destruct (o_ok w (run_tick r3)); wp_step; [|exact Hi3].
  assert (Hfinal : forall o tk, disk o = log_bytes l -> wbuf o = [] -> werr o = false ->
    wal_inv (mkRun (set_out o (run_st r3)) tk (run_trace r3 ++ [Compacted l]))).
  { intros o tk Ho Hb He. assert (Hlog : cur_log (mkRun (set_out o (run_st r3)) tk
      (run_trace r3 ++ [Compacted l])) = l).
    { unfold cur_log, log_of. cbn [run_trace]. by rewrite foldl_app. }
    unfold wal_inv, bytes_inv, map_inv. rewrite Hlog. cbn [run_st set_out out entries].
    split; [split; [done|]|].
    - unfold holds, accepted. by rewrite He, Hb, app_nil_r.
    - intros _. destruct (proj2 Hi3) as [H1 H2]; [congruence|]. split; [|done].
      rewrite He3, He2 in H1 |- *. cbn [run_st r1] in *. symmetry. apply replay_range.
      apply filed_of_norm. rewrite H1. apply replay_filed. }
  destruct (o_ok w _); wp_step.
  - exact (Hfinal (open_append (disk (run_st rt))) _ Hdisk eq_refl eq_refl).
  - exact (Hfinal (mkWriter (disk (run_st rt)) [] false false) _ Hdisk eq_refl eq_refl).
Qed.

Lemma run_op_inv o r : wal_inv r -> wp w (run_op o) (fun _ => wal_inv) r.
Proof.
  intros Hr. destruct o; cbn [run_op]; unfold drop_result; wp_step;
    (eapply wp_conseq; [intros ? ? Hi; wp_step; exact Hi|]).
  - by apply Append_inv.
  - apply finish_inv; auto.
  - apply finish_inv; auto.
  - by apply IncrementAttempts_inv.
  - by apply Compact_inv.
  - eapply wp_conseq; [|by apply Flush_inv]. by intros ? ? [? _].
  - by apply Close_inv.
Qed.

Lemma run_ops_inv ops r : wal_inv r -> wp w (run_ops ops) (fun _ => wal_inv) r.
Proof.
  intros Hr. apply wp_mfor; [done|]. intros o r' _ Hr'. by apply run_op_inv.
Qed.
End Invariant.

(** A log opened on a file of whole lines. *)
Definition opened (log0 : list WALEntry) : WAL :=
  mkWAL (open_append (log_bytes log0)) (fst (recover_file (log_bytes log0))).

Lemma marshals_norm e : marshals e -> entry_ok e -> marshals (norm_entry e).
Proof.
  destruct e as [i c s a t m]. unfold marshals. cbn [marshal WALEntry_codec struct_codec].
  unfold enc_entry, norm_entry. cbn [E_ID E_Channel E_State E_Attempts E_TS E_Msg].
  destruct m as [[mi mt mc mo mr mts mp]|]; cbn [base.mbind option_bind fmap option_fmap option_map];
    [|by eexists].
  unfold enc_message, norm_message. cbn [ID Type_ Channel CorrelationID ReplyTo Timestamp Payload].
  destruct (time_json mts); cbn [base.mbind option_bind]; [|by intros []].
  destruct mp; cbn; intros H _; [by eexists|by eexists|by destruct H].
Qed.

Lemma recover_whole log0 :
  Forall rec_ok log0 -> Forall marshals log0 -> recover_file (log_bytes log0) = (replay log0, true).
Proof.
  intros Hok Hm. destruct (recover_prefix log0 (log_bytes log0)) as (k & Hk & Hle); [done..|].
  rewrite Hk. by rewrite take_ge by auto.
Qed.

Lemma opened_inv log0 :
  Forall rec_ok log0 -> Forall marshals log0 -> wal_inv log0 (mkRun (opened log0) 0 []).
Proof.
  intros Hok Hm. unfold opened. rewrite recover_whole by done. cbn [fst].
  split; [split; [done|]|].
  - unfold holds, accepted. cbn. by rewrite app_nil_r.
  - intros _. cbn [run_st out entries]. change (cur_log _ _) with log0.
    assert (Hx : forall es (m : gmap string WALEntry),
      (forall e, e ∈ es -> exists e', e = norm_entry e' /\ marshals e' /\ entry_ok e') ->
      norm_entry <$> m = m -> map_Forall (fun _ e => marshals e) m ->
      norm_entry <$> foldl apply_entry m es = foldl apply_entry m es /\
      map_Forall (fun _ e => marshals e) (foldl apply_entry m es)).
    { intros es. induction es as [|e es IH]; intros m Hes Hn HF; [done|]. cbn [foldl].
      destruct (Hes e) as (e' & -> & Hme & Hoke); [by left|].
      apply IH; [intros x Hx; apply Hes; by right| |].
      - unfold apply_entry. destruct (decide _); [|destruct (decide _)].
        + by rewrite fmap_insert, Hn, norm_entry_idem.
        + by rewrite fmap_delete, Hn.
        + done.
      - unfold apply_entry. destruct (decide _); [|destruct (decide _)].
        + apply map_Forall_insert_2; [by apply marshals_norm|done].
        + by apply map_Forall_delete.
        + done. }
    apply Hx.
    + intros e (e' & -> & Hin)%list_elem_of_fmap. rewrite Forall_forall in Hok, Hm.
      exists e'. split; [done|]. split; [by apply Hm|by apply Hok].
    + by rewrite fmap_empty.
    + apply map_Forall_empty.
Qed.

(** ** Properties *)

(** C1: Crash safety.  Whatever operations ran on a log opened on a file of
    whole records, and whichever of their I/O calls failed or were cut short,
    the bytes on disk recover to the replay of some first part of the records
    logged since (or of the compacted ones): a crash loses a suffix of the
    log, never a record in the middle, and never yields a corrupt entry. *)
Theorem wal_crash_recovery `{RangeOrder} (w : Oracle) (log0 : list WALEntry)
    (ops : list wal_op) (r : Run WAL wal_event) :
  Forall rec_ok log0 -> Forall marshals log0 ->
  snd (exec (run_ops ops) w (opened log0)) = r ->
  Forall rec_ok (log_of log0 (run_trace r)) ->
  exists k, recover_file (disk (out (run_st r))) =
            (replay (take k (log_of log0 (run_trace r))), true).
Proof.
  intros Hok Hm <- Hrec.
  pose proof (run_ops_inv w log0 ops _ (opened_inv log0 Hok Hm)) as Hi.
  unfold exec, wp in *. destruct (run_ops ops w _) as [[] r]. cbn [snd] in *.
  destruct Hi as [[Hml Hh] _]. destruct (recover_prefix _ _ Hrec Hml (holds_disk _ _ Hh)) as (k & Hk & _).
  eauto.
Qed.

(** C2: Durability.  When Flush returns nil the pending entries in memory are
    exactly what a restart on the file recovers (payloads HTML-escaped), and
    NewWAL succeeds on it if its own I/O does. *)
Theorem wal_flush_durable `{RangeOrder} (w w' : Oracle) (log0 : list WALEntry)
    (ops : list wal_op) (r : Run WAL wal_event) :
  Forall rec_ok log0 -> Forall marshals log0 ->
  exec (run_ops ops ;;; Flush) w (opened log0) = (Ok tt, r) ->
  Forall rec_ok (log_of log0 (run_trace r)) -> (forall n, o_ok w' n = true) ->
  fst (exec (NewWAL (S := unit) (E := unit) (Some (disk (out (run_st r))))) w' tt) =
  Ok (mkWAL (open_append (disk (out (run_st r)))) (norm_entry <$> entries (run_st r))).
Proof.
  intros Hok Hm He Hrec Hio.
  assert (Hi : wp w (run_ops ops ;;; Flush) (fun res r' => wal_inv log0 r' /\
    (res = Ok tt -> disk (out (run_st r')) = log_bytes (cur_log log0 r') /\
       werr (out (run_st r')) = false)) (mkRun (opened log0) 0 [])).
  { wp_step. eapply wp_conseq; [|by apply run_ops_inv, opened_inv].
    intros [] r' Hr'. by apply Flush_inv. }
  unfold exec, wp in Hi, He. rewrite He in Hi. destruct Hi as [[[Hml Hh] Hmap] Hf].
  destruct (Hf eq_refl) as [Hd Hw]. destruct (Hmap Hw) as [Hent _].
  unfold exec, NewWAL, recover, mbind, io, mret. cbn [run_tick run_st run_trace].
  rewrite !Hio. rewrite Hd, recover_whole by done. cbn [run_tick run_st run_trace andb].
  rewrite !Hio. cbn. by rewrite Hent.
Qed.

(** Property: Compaction keeps every pending entry and nothing else: after a
    successful Compact the file holds one line per pending entry, the map is
    unchanged, and a restart recovers it. *)
Theorem wal_compact_pending `{RangeOrder} (w : Oracle) (log0 : list WALEntry)
    (ops : list wal_op) (r0 r : Run WAL wal_event) (res : result wal_error unit) :
  Forall rec_ok log0 -> Forall marshals log0 ->
  snd (exec (run_ops ops) w (opened log0)) = r0 ->
  Compact w r0 = (Ok tt, r) ->
  entries (run_st r) = entries (run_st r0) /\
  disk (out (run_st r)) = log_bytes (map snd (range (entries (run_st r0)))) /\
  (Forall rec_ok (map snd (range (entries (run_st r0)))) ->
   recover_file (disk (out (run_st r))) = (norm_entry <$> entries (run_st r0), true)).
Proof.
  intros Hok Hm <-. pose proof (run_ops_inv w log0 ops _ (opened_inv log0 Hok Hm)) as Hi.
  unfold exec. unfold wp in Hi. destruct (run_ops ops w _) as [[] r0]. cbn [snd]. intros Hc.
  assert (Hcomp : wp w Compact (fun res r' => res = Ok tt ->
    entries (run_st r') = entries (run_st r0) /\
    Forall marshals (map snd (range (entries (run_st r0)))) /\
    disk (out (run_st r')) = log_bytes (map snd (range (entries (run_st r0)))) /\
    norm_entry <$> entries (run_st r0) = replay (map snd (range (entries (run_st r0))))) r0).
  { unfold Compact. wp_step. destruct (o_ok w (run_tick r0)); wp_step; [|done].
    unfold PendingEntries. wp_step. set (l := map snd (range (entries (run_st r0)))).
    eapply wp_conseq; [|apply write_tmp_spec]. cbn [run_st run_tick run_trace].
    intros ok rt Htmp. destruct ok; wp_step; [|done]. destruct (Htmp eq_refl) as [Hml Hdisk].
    eapply wp_conseq; [|by apply (on_flush_spec w log0 (mkRun (run_st r0) _ (run_trace r0)))].
    intros ok r2 (Hi2 & He2 & Hl2 & Hw2). destruct ok; wp_step; [|done].
    eapply wp_conseq; [|by apply (on_close_spec w log0)].
    intros ok r3 (Hi3 & He3 & _ & _ & _ & Hw3). destruct ok; wp_step; [|done].
    destruct (o_ok w (run_tick r3)); wp_step; [|done].
    destruct (o_ok w _); wp_step; [|done]. intros _. cbn [set_out entries out disk open_append].
    rewrite He3, He2. split_and!; try done. symmetry. apply replay_range, filed_of_norm.
    destruct (Hw2 eq_refl) as [Hw2' _]. destruct (proj2 Hi2 Hw2') as [H1 _].
    cbn [run_st] in He2. rewrite He2 in H1. rewrite H1. apply replay_filed. }
  unfold wp in Hcomp. rewrite Hc in Hcomp. destruct (Hcomp eq_refl) as (H1 & H2 & H3 & H4).
  split_and!; [done..|]. intros Hrec. rewrite H3, recover_whole by done. by rewrite H4.
Qed.

(** *** What the log does not guarantee *)

(** The entry Append writes is longer than its message. *)
Definition append_entry (m : Message) (t : Z) : WALEntry :=
  mkEntry (ID m) (Channel m) WALPending 1 (format_ts t) (Some m).

Lemma append_entry_length m t data :
  marshal m = Some data -> exists line, marshal (append_entry m t) = Some line /\
    Z.of_nat (length data) + 60 <= Z.of_nat (length line).
Proof.
  cbn [marshal Message_codec WALEntry_codec struct_codec]. unfold enc_entry, append_entry.
  cbn [E_ID E_Channel E_State E_Attempts E_TS E_Msg].
  destruct (enc_message m) as [l|]; [|done]. intros Hd%Some_inj.
  cbn [base.mbind option_bind]. eexists. split; [reflexivity|].
  subst data. cbn [app field]. set (pm := JObj l).
  cbn [print flat_map]. unfold print_str, str_json, field. cbn [print]. unfold print_str.
  repeat (rewrite length_app || rewrite length_cons).
  cbn [length bytes_of String.list_ascii_of_string]. lia.
Qed.

Lemma fit_lines_long max ls l :
  l ∈ ls -> max < Z.of_nat (length l) + 1 -> snd (fit_lines max ls) = false.
Proof.
  intros Hin Hl. induction ls as [|l' ls IH]; [by apply not_elem_of_nil in Hin|].
  cbn [fit_lines]. destruct (Z.of_nat (length l') + 1 <=? max) eqn:E; [|done].
  apply elem_of_cons in Hin as [->|Hin]; [lia|].
  specialize (IH Hin). by destruct (fit_lines max ls).
Qed.

(** Property: A message the frame reader accepts can make the log unreadable: the
    entry adds at least 60 bytes to the message, so a message of more than
    16 MiB less 60 bytes becomes a line the scanner of recover refuses, and
    NewWAL fails on the file whatever precedes or follows that line, even the
    record that completes it. *)
Theorem wal_oversize_unrecoverable (w : Oracle) (log1 log2 : list WALEntry) (m : Message)
    (t : Z) (data : bytes) :
  marshal m = Some data -> MaxMessageSize - 60 <= Z.of_nat (length data) <= MaxMessageSize ->
  entry_ok (append_entry m t) ->
  Forall (fun e => entry_ok e /\ marshals e) (log1 ++ log2) ->
  fst (exec (NewWAL (S := unit) (E := unit)
         (Some (log_bytes (log1 ++ append_entry m t :: log2)))) w tt) =
  Err (if o_ok w 0 then ErrWALRecover else ErrWALDir).
Proof.
  intros Hm Hlen Hok Hall. set (log := log1 ++ append_entry m t :: log2).
  destruct (append_entry_length m t data Hm) as (ln & Hln & Hlong).
  assert (Hlog : Forall (fun e => entry_ok e /\ marshals e) log).
  { subst log. apply Forall_app in Hall as [H1 H2]. apply Forall_app. split; [done|].
    constructor; [|done]. split; [done|]. unfold marshals. rewrite Hln. by eexists. }
  assert (Hrec : snd (recover_file (log_bytes log)) = false).
  { unfold recover_file, scan_lines, log_bytes. rewrite <- (map_map record_bytes line).
    rewrite <- (app_nil_r (concat _)), lines_concat.
    - rewrite app_nil_r. pose proof (fit_lines_long MaxMessageSize (map record_bytes log) ln) as Hf.
      destruct (fit_lines _ _) as [ls ok]. apply Hf; [|lia].
      apply list_elem_of_fmap. exists (append_entry m t). unfold record_bytes. rewrite Hln.
      split; [done|]. subst log. apply elem_of_app. right. by left.
    - rewrite Forall_map. eapply Forall_impl; [exact Hlog|]. intros e [He [d Hd]].
      unfold record_bytes. rewrite Hd. apply (no_ctl_not_elem d 10); [by apply (marshal_no_ctl e)|done].
    - apply not_elem_of_nil. }
  unfold exec, NewWAL, recover, mbind, io, mret. cbn [run_tick].
  destruct (o_ok w 0); [|done]. cbn [run_tick]. destruct (o_ok w (1 + 0)); [|done].
  cbn [run_tick]. destruct (recover_file _) as [mp ok]. cbn in Hrec. subst ok.
  by rewrite andb_false_r.
Qed.

(** ** Witnesses and counterexamples *)

Definition sample_ops : list wal_op :=
  [OpAppend (sample_message "1"); OpAppend (sample_message "2"); OpComplete "1";
   OpIncrement "2"; OpFlush].

Abbreviation sample_run ops := (snd (exec (run_ops (H := sorted_range) ops) all_ok (opened []))).

Lemma wal_crash_recovery_witness :
  exists k, recover_file (disk (out (run_st (sample_run sample_ops)))) =
            (replay (take k (log_of [] (run_trace (sample_run sample_ops)))), true).
Proof.
  apply (wal_crash_recovery (H := sorted_range) all_ok [] sample_ops).
  - constructor.
  - constructor.
  - reflexivity.
  - apply rec_okb_spec. vm_compute. reflexivity.
Defined.

Lemma wal_flush_durable_witness :
  let '(res, r) := exec (run_ops (H := sorted_range) sample_ops ;;; Flush) all_ok (opened []) in
  res = Ok tt /\
  fst (exec (NewWAL (S := unit) (E := unit) (Some (disk (out (run_st r))))) all_ok tt) =
  Ok (mkWAL (open_append (disk (out (run_st r)))) (norm_entry <$> entries (run_st r))).
Proof.
  destruct (exec _ all_ok (opened [])) as [res r] eqn:E.
  assert (Hres : res = Ok tt).
  { change res with (fst (res, r)). rewrite <- E. vm_compute. reflexivity. }
  split; [exact Hres|]. subst res.
  apply (wal_flush_durable (H := sorted_range) all_ok all_ok [] sample_ops r).
  - constructor.
  - constructor.
  - exact E.
  - apply rec_okb_spec. change r with (snd (Ok (E := wal_error) tt, r)). rewrite <- E.
    vm_compute. reflexivity.
  - reflexivity.
Defined.

Lemma wal_compact_pending_witness :
  let '(res, r) := Compact (H := sorted_range) all_ok (sample_run sample_ops) in
  res = Ok tt /\ entries (run_st r) = entries (run_st (sample_run sample_ops)) /\
  disk (out (run_st r)) =
    log_bytes (map snd (range (RangeOrder := sorted_range) (entries (run_st (sample_run sample_ops))))).
Proof.
  destruct (Compact _ _) as [res r] eqn:E.
  assert (Hres : res = Ok tt).
  { change res with (fst (res, r)). rewrite <- E. vm_compute. reflexivity. }
  subst res.
  destruct (wal_compact_pending (H := sorted_range) all_ok [] sample_ops
    (sample_run sample_ops) r (Ok tt)) as (H1 & H2 & _).
  - constructor.
  - constructor.
  - reflexivity.
  - exact E.
  - split; [reflexivity|]. split; [exact H1|exact H2].
Defined.

(** A message of [n] bytes and a little: its frame is 16 MiB or less, its
    record is longer. *)
Definition big_message (n : nat) : Message :=
  mkMessage "1" TypeMessage "" "" "" 0 (RawDoc (JStr (repeat "a"%char n))).

Lemma escape_raw_repeat n : escape_raw (repeat "a"%char n) = repeat "a"%char n.
Proof. induction n as [|n IH]; [done|]. cbn [repeat]. by rewrite escape_raw_plain, IH. Qed.

Lemma big_message_marshal n : exists data,
  marshal (big_message n) = Some data /\ length data = (75 + n)%nat.
Proof.
  eexists. split.
  - cbn [marshal Message_codec struct_codec]. unfold enc_message, big_message.
    cbn [ID Type_ Channel CorrelationID ReplyTo Timestamp Payload raw_field_omitempty escape_html].
    rewrite escape_raw_repeat. unfold time_json. change (year_ok 0) with true.
    cbn [base.mbind option_bind]. reflexivity.
  - unfold str_field_omitempty. rewrite !decide_True by done. unfold field, str_json.
    cbn [app print flat_map]. unfold print_str.
    repeat (rewrite length_app || rewrite length_cons). rewrite repeat_length.
    set (a := length (quote (bytes_of "1"))). set (b := length (quote (bytes_of TypeMessage))).
    set (c := length (format_nano 0)). vm_compute in a, b, c. subst a b c.
    cbn [length bytes_of String.list_ascii_of_string]. lia.
Qed.

Lemma wal_oversize_unrecoverable_witness :
  exists m data t, marshal m = Some data /\ Z.of_nat (length data) = MaxMessageSize /\
    forall w, fst (exec (NewWAL (S := unit) (E := unit)
      (Some (log_bytes ([] ++ append_entry m t :: [])))) w tt) =
      Err (if o_ok w 0 then ErrWALRecover else ErrWALDir).
Proof.
  assert (Hn : exists n, Z.of_nat n = MaxMessageSize - 75).
  { eexists. apply Z2Nat.id. done. }
  destruct Hn as [n Hn].
  destruct (big_message_marshal n) as (data & Hd & Hl).
  assert (Hlen : Z.of_nat (length data) = MaxMessageSize) by (rewrite Hl, Nat2Z.inj_add, Hn; reflexivity).
  exists (big_message n), data, 0. split; [exact Hd|]. split; [exact Hlen|]. intros w.
  apply (wal_oversize_unrecoverable w [] [] (big_message n) 0 data Hd).
  - rewrite Hlen. unfold MaxMessageSize. lia.
  - split; [vm_compute; reflexivity|]. unfold append_entry. cbn [E_Msg].
    unfold message_ok, big_message. cbn [ID Type_ Channel CorrelationID ReplyTo Payload raw_ok wf_json].
    rewrite self_bytes_valid; [vm_compute; reflexivity|].
    clear. induction n as [|n IH]; [done|]. cbn [repeat forallb]. by rewrite IH.
  - constructor.
Defined.

(** Append returns nil while the record is still in the buffer: after a crash
    the message is gone. *)
Example append_is_buffered :
  let '(res, r) := exec (Append (sample_message "1")) all_ok (opened []) in
  res = Ok tt /\ disk (out (run_st r)) = [] /\
  fst (recover_file (disk (out (run_st r)))) = ∅.
Proof. vm_compute. done. Qed.

(** After a crash that tore a line, the next record is glued to the torn one:
    it is flushed, and yet the following recovery does not find it. *)
Example torn_line_swallows_next :
  let torn := take 40 (log_bytes [append_entry (sample_message "1") 0]) in
  let reopened := mkWAL (open_append torn) (fst (recover_file torn)) in
  let '(res, r) := exec (Append (sample_message "2") ;;; Flush) all_ok reopened in
  res = Ok tt /\ map fst (map_to_list (entries (run_st r))) = ["2"%string] /\
  fst (recover_file (disk (out (run_st r)))) = ∅.
Proof. vm_compute. done. Qed.

(** ** What the operations return, for clients of the log *)

Lemma holds_exists s : exists b, holds s b.
Proof. unfold holds. destruct (werr s); [by exists (disk s)|by eexists]. Qed.

Lemma appendEntry_res w e (r : Run WAL wal_event) :
  wp w (appendEntry e) (fun res r' =>
    entries (run_st r') = entries (run_st r) /\
    match res with
    | Ok _ => marshals e /\ werr (out (run_st r)) = false /\ werr (out (run_st r')) = false
    | Err _ => (marshals e -> werr (out (run_st r')) = true) /\
               (werr (out (run_st r)) = true -> werr (out (run_st r')) = true)
    end) r.
Proof.
  unfold appendEntry, marshals. destruct (marshal e) as [data|] eqn:Ed; wp_step.
  2:{ split; [done|]. split; [by intros []|done]. }
  unfold on_out. wp_step. destruct (holds_exists (out (run_st r))) as [b Hb].
  eapply wp_conseq; [|by apply (buf_write_spec w _ b)].
  intros ok r' (Ht & Hh & He & Hok). wp_step. cbn [set_out entries out].
  split; [done|]. destruct ok; cbn in He; [|done].
  split; [by eexists|]. auto.
Qed.

Lemma Append_res w msg (r : Run WAL wal_event) :
  wp w (Append msg) (fun res r' =>
    match res with
    | Ok _ => werr (out (run_st r')) = false /\
              entries (run_st r') = <[ID msg := append_entry msg (o_now w (run_tick r))]>
                                      (entries (run_st r))
    | Err _ => entries (run_st r') = entries (run_st r) /\
               (marshals (append_entry msg 0) -> werr (out (run_st r')) = true)
    end) r.
Proof.
  unfold Append. wp_step. eapply wp_conseq; [|apply appendEntry_res]. cbn [run_st].
  intros res r' [He Hres]. destruct res as [[]|err]; wp_step.
  - unfold set_entries. wp_step. cbn [out entries]. rewrite He. destruct Hres as (_ & _ & Hw). done.
  - split; [done|]. intros Hm. apply (proj1 Hres).
    exact (marshals_attempts (append_entry msg 0) 1 _ Hm).
Qed.

Lemma IncrementAttempts_res w id (r : Run WAL wal_event) :
  wp w (IncrementAttempts id) (fun res r' =>
    (werr (out (run_st r)) = true -> werr (out (run_st r')) = true) /\
    match entries (run_st r) !! id with
    | None => res = Err (ErrEntryNotFound id) /\ run_st r' = run_st r
    | Some e =>
        let e' := mkEntry (E_ID e) (E_Channel e) (E_State e) (int64 (E_Attempts e + 1))
                    (format_ts (o_now w (run_tick r))) (E_Msg e) in
        entries (run_st r') = <[id := e']> (entries (run_st r)) /\
        match res with
        | Ok n => werr (out (run_st r)) = false /\ n = int64 (E_Attempts e + 1)
        | Err _ => marshals e -> werr (out (run_st r')) = true
        end
    end) r.
Proof.
  unfold IncrementAttempts. wp_step. destruct (entries (run_st r) !! id) as [e|] eqn:Hl; wp_step; [|done].
  unfold set_entries. wp_step. eapply wp_conseq; [|apply appendEntry_res]. cbn [run_st entries out].
  intros res r' [He Hres]. destruct res as [[]|err]; wp_step.
  - destruct Hres as (_ & Hw & _). split; [congruence|]. by rewrite He.
  - split; [by apply Hres|]. split; [by rewrite He|]. intros Hm. apply (proj1 Hres).
    by apply marshals_attempts.
Qed.

Lemma finish_res w state id (r : Run WAL wal_event) :
  wp w (finish state id) (fun res r' =>
    (werr (out (run_st r)) = true -> werr (out (run_st r')) = true) /\
    match res with
    | Ok _ => entries (run_st r') = delete id (entries (run_st r))
    | Err _ => entries (run_st r') = entries (run_st r) /\
               (is_Some (entries (run_st r) !! id) -> werr (out (run_st r')) = true)
    end) r.
Proof.
  unfold finish. wp_step. destruct (entries (run_st r) !! id) as [e|] eqn:Hl; wp_step.
  2:{ split; [done|]. split; [done|]. by intros []. }
  eapply wp_conseq; [|apply appendEntry_res]. cbn [run_st].
  intros res r' [He Hres]. destruct res as [[]|err]; wp_step.
  - destruct Hres as (_ & Hw & _). split; [congruence|].
    unfold set_entries. wp_step. cbn [entries]. by rewrite He.
  - split; [by apply Hres|]. split; [done|]. intros _. apply (proj1 Hres).
    unfold marshals. cbn [marshal WALEntry_codec struct_codec]. unfold enc_entry.
    cbn [E_Msg base.mbind option_bind]. by eexists.
Qed.
