(* ===== verification/DLQ.v ===== *)
(** * The dead letter queue (internal/ipcbus/dlq.go)

    The queue is one bucket of a BoltDB file.  BoltDB is not part of the
    repository: [Bucket] states the documented behaviour of a bucket (a finite
    map whose cursor visits the keys in order, whose Put refuses some keys and
    whose transactions commit as a whole or not at all), and the theorems hold
    for every implementation of it. *)

From S2P Require Import Prelude.
From S2P Require Import GoStrings.
From S2P Require Import Json.
From S2P Require Import GoTime.
From S2P Require Import Message.
From S2P Require Import Framing.
From S2P Require Import GoIO.
From S2P Require Import WAL.

(** ** bbolt *)

Class Bucket (B : Type) := {
  b_map : B -> gmap string bytes;
  b_put : string -> bytes -> B -> option B;
  b_delete : string -> B -> B;
  b_entries : B -> list (string * bytes);
}.

Class BucketLaws (B : Type) `{Bucket B} := {
  b_put_map k v b b' : b_put k v b = Some b' -> b_map b' = <[k := v]> (b_map b);
  b_delete_map k b : b_map (b_delete k b) = delete k (b_map b);
  b_entries_perm b : b_entries b ≡ₚ map_to_list (b_map b);
}.

Definition keyN {B} `{Bucket B} (b : B) : Z := Z.of_nat (length (b_entries b)).

(** ** Entries *)

Record DLQEntry := mkDLQEntry {
  D_ID : string;
  D_Channel : string;
  D_Attempts : Z;
  D_CreatedAt : string;
  D_Msg : option Message;
}.

Definition enc_dlq (e : DLQEntry) : option (list (bytes * json)) :=
  msg ← match D_Msg e with
        | None => Some JNull
        | Some m => JObj <$> enc_message m
        end;
  Some [field "id" (str_json (D_ID e)); field "channel" (str_json (D_Channel e));
        field "attempts" (JNum (format_int (D_Attempts e)));
        field "createdAt" (str_json (D_CreatedAt e)); field "msg" msg].

Definition dlq_keys : list string := ["id"; "channel"; "attempts"; "createdAt"; "msg"]%string.

Definition set_dlq (k : string) (v : json) (e : DLQEntry) : option DLQEntry :=
  let '(mkDLQEntry i c a t m) := e in
  if decide (k = "id"%string) then (fun x => mkDLQEntry x c a t m) <$> dec_str v i
  else if decide (k = "channel"%string) then (fun x => mkDLQEntry i x a t m) <$> dec_str v c
  else if decide (k = "attempts"%string) then (fun x => mkDLQEntry i c x t m) <$> dec_int v a
  else if decide (k = "createdAt"%string) then (fun x => mkDLQEntry i c a x m) <$> dec_str v t
  else (fun x => mkDLQEntry i c a t x) <$> dec_msg_ptr v m.

Definition zero_dlq : DLQEntry := mkDLQEntry "" "" 0 "" None.

Definition dlq_ok (e : DLQEntry) : Prop :=
  utf8_str (D_ID e) && utf8_str (D_Channel e) && utf8_str (D_CreatedAt e) &&
  between (- 2 ^ 63) (D_Attempts e) (2 ^ 63 - 1) = true /\
  match D_Msg e with Some m => message_ok m | None => True end.

Definition norm_dlq (e : DLQEntry) : DLQEntry :=
  mkDLQEntry (D_ID e) (D_Channel e) (D_Attempts e) (D_CreatedAt e) (norm_message <$> D_Msg e).

#[export] Instance DLQEntry_codec : JsonCodec DLQEntry :=
  struct_codec enc_dlq (fun v => dec_struct dlq_keys set_dlq v zero_dlq) dlq_ok norm_dlq.

Lemma set_dlq_msg v i c a t m :
  set_dlq "msg" v (mkDLQEntry i c a t m) = (fun x => mkDLQEntry i c a t x) <$> dec_msg_ptr v m.
Proof. reflexivity. Qed.

Lemma set_dlq_attempts v i c a t m :
  set_dlq "attempts" v (mkDLQEntry i c a t m) =
  (fun x => mkDLQEntry i c x t m) <$> dec_int v a.
Proof. reflexivity. Qed.

Lemma enc_dec_dlq e l :
  dlq_ok e -> enc_dlq e = Some l ->
  wf_json (JObj l) = true /\ dec_struct dlq_keys set_dlq (JObj l) zero_dlq = Some (norm_dlq e).
Proof.
  intros [Hs Hm] He. unfold utf8_str in Hs. rewrite !andb_true_iff, between_spec in Hs.
  destruct Hs as [[[H1 H2] H3] H4]. destruct e as [i c a t m].
  unfold enc_dlq in He. cbn [D_ID D_Channel D_Attempts D_CreatedAt D_Msg] in *.
  assert (Hmsg : exists jm, l = [field "id" (str_json i); field "channel" (str_json c);
      field "attempts" (JNum (format_int a)); field "createdAt" (str_json t); field "msg" jm] /\
      wf_json jm = true /\ dec_msg_ptr jm None = Some (norm_message <$> m)).
  { destruct m as [m|].
    - destruct (enc_message m) as [lm|] eqn:Em; [|done].
      cbn [base.mbind option_bind fmap option_fmap option_map] in He. apply Some_inj in He as <-.
      exists (JObj lm). split; [done|]. split; [by apply (enc_dec_message m)|].
      by rewrite (dec_msg_ptr_enc m).
    - apply Some_inj in He as <-. by exists JNull. }
  destruct Hmsg as (jm & -> & Hwf & Hdec). split.
  - cbn [wf_json forallb field]. rewrite !str_json_wf, Hwf.
    change (wf_json (JNum (format_int a))) with (valid_num (format_int a)).
    rewrite format_int_valid. reflexivity.
  - unfold zero_dlq, dec_struct.
    erewrite dec_field; [|reflexivity..|set_key dec_str_json].
    erewrite dec_field; [|reflexivity..|set_key dec_str_json].
    erewrite dec_field; [|reflexivity..|].
    2:{ rewrite set_dlq_attempts. unfold dec_int. rewrite parse_format_int by lia. reflexivity. }
    erewrite dec_field; [|reflexivity..|set_key dec_str_json].
    erewrite dec_field; [|reflexivity..|rewrite set_dlq_msg, Hdec; reflexivity]. reflexivity.
Qed.

Lemma norm_dlq_idem e : norm_dlq (norm_dlq e) = norm_dlq e.
Proof.
  destruct e as [i c a t [m|]]; unfold norm_dlq; cbn; [|done]. by rewrite norm_message_idem.
Qed.

#[export] Instance DLQEntry_laws : JsonLaws DLQEntry := struct_laws _ _ _ _ enc_dec_dlq norm_dlq_idem.

(** ** Operations *)

Inductive dlq_error :=
| ErrDLQOpen | ErrDLQMarshal | ErrDLQDecode (key : string) | ErrDLQTime (key : string)
| ErrDLQPut | ErrDLQTx.

Record DLQ (B : Type) := mkDLQ { db : B; maxSize : Z; ttl : Z }.
Arguments mkDLQ {B} _ _ _.
Arguments db {B} _.
Arguments maxSize {B} _.
Arguments ttl {B} _.

Section Operations.
Context {B : Type} `{Bucket B} {E : Type}.

Definition Handler A : Type := M (DLQ B) E A.

(** [NewDLQ]: opening the file and creating the buckets may each fail. *)
Definition NewDLQ {S} (file : B) (max ttl : Z) : M S E (result dlq_error (DLQ B)) :=
  let* opened := io in
  if opened then
    let* created := io in
    mret (if created then Ok (mkDLQ file max ttl) else Err ErrDLQTx)
  else mret (Err ErrDLQOpen).

(** [db.Update]: the changed bucket is committed or the old one stays. *)
Definition update {A} (f : B -> result dlq_error (A * B)) : Handler (result dlq_error A) :=
  let* begun := io in
  if begun then
    let* d := mget in
    match f (db d) with
    | Err e => mret (Err e)
    | Ok (a, b') =>
        let* committed := io in
        if committed then mput (mkDLQ b' (maxSize d) (ttl d)) ;;; mret (Ok a)
        else mret (Err ErrDLQTx)
    end
  else mret (Err ErrDLQTx).

(** [db.View]. *)
Definition view {A} (f : B -> result dlq_error A) : Handler (result dlq_error A) :=
  let* begun := io in
  if begun then
    let* d := mget in mret (f (db d))
  else mret (Err ErrDLQTx).

(** Decode the entries in cursor order; the first corrupt one is an error. *)
Fixpoint decode_all (l : list (string * bytes)) : result dlq_error (list (string * DLQEntry)) :=
  match l with
  | [] => Ok []
  | (k, v) :: l' =>
      match unmarshal v with
      | None => Err (ErrDLQDecode k)
      | Some e => let? es := decode_all l' in Ok ((k, e) :: es)
      end
  end.

(** The scan of [evictOldest]: the key of the least CreatedAt string. *)
Definition oldest_step (acc : option (string * string)) (ke : string * DLQEntry)
    : option (string * string) :=
  let '(k, e) := ke in
  match acc with
  | None => Some (k, D_CreatedAt e)
  | Some (_, t) => if string_lt (D_CreatedAt e) t then Some (k, D_CreatedAt e) else acc
  end.

Definition evictOldest (b : B) : result dlq_error B :=
  let? es := decode_all (b_entries b) in
  match foldl oldest_step None es with
  | Some (k, _) => Ok (b_delete k b)
  | None => Ok b
  end.

Definition new_dlq_entry (msg : Message) (attempts t : Z) : DLQEntry :=
  mkDLQEntry (ID msg) (Channel msg) attempts (format_ts t) (Some msg).

(** The transaction of Put. *)
Definition put_tx (max : Z) (id : string) (data : bytes) (b : B) : result dlq_error (unit * B) :=
  let? b1 := if max <=? keyN b then evictOldest b else Ok b in
  match b_put id data b1 with
  | Some b2 => Ok (tt, b2)
  | None => Err ErrDLQPut
  end.

Definition Put (msg : Message) (attempts : Z) : Handler (result dlq_error unit) :=
  let* t := now in
  let e := new_dlq_entry msg attempts t in
  match marshal e with
  | None => mret (Err ErrDLQMarshal)
  | Some data =>
      let* d := mget in
      update (put_tx (maxSize d) (D_ID e) data)
  end.

Definition Get (id : string) : Handler (result dlq_error (option DLQEntry)) :=
  view (fun b => match b_map b !! id with
                 | None => Ok None
                 | Some data => match unmarshal data with
                                | None => Err (ErrDLQDecode id)
                                | Some e => Ok (Some e)
                                end
                 end).

Definition Delete (id : string) : Handler (result dlq_error unit) :=
  update (fun b => Ok (tt, b_delete id b)).

(** [sort.Slice] by CreatedAt. *)
Fixpoint insert_sorted (e : DLQEntry) (l : list DLQEntry) : list DLQEntry :=
  match l with
  | [] => [e]
  | x :: l' => if string_lt (D_CreatedAt e) (D_CreatedAt x) then e :: l
               else x :: insert_sorted e l'
  end.
Definition sort_entries (l : list DLQEntry) : list DLQEntry := foldl (fun acc e => insert_sorted e acc) [] l.

Definition List_ : Handler (result dlq_error (list DLQEntry)) :=
  view (fun b => let? es := decode_all (b_entries b) in Ok (sort_entries (map snd es))).

Definition Size : Handler Z :=
  let* r := view (fun b => Ok (keyN b)) in
  mret (match r with Ok n => n | Err _ => 0 end).

(** One pass over the bucket decodes and parses each entry in turn. *)
Fixpoint scan_expired (cutoff : Z) (l : list (string * bytes)) : result dlq_error (list string) :=
  match l with
  | [] => Ok []
  | (k, v) :: l' =>
      match unmarshal v with
      | None => Err (ErrDLQDecode k)
      | Some e =>
          match parse_rfc3339 (bytes_of (D_CreatedAt e)) with
          | None => Err (ErrDLQTime k)
          | Some t => let? ks := scan_expired cutoff l' in Ok (if t <? cutoff then k :: ks else ks)
          end
      end
  end.

Definition delete_keys (ks : list string) (b : B) : B := foldl (fun b k => b_delete k b) b ks.

Definition PurgeExpired : Handler (result dlq_error Z) :=
  let* t := now in
  let* d := mget in
  update (fun b => let? ks := scan_expired (t - ttl d) (b_entries b) in
                   Ok (Z.of_nat (length ks), delete_keys ks b)).

Inductive dlq_op := DPut (m : Message) (attempts : Z) | DDelete (id : string) | DPurge.

Definition run_dlq_op (o : dlq_op) : Handler unit :=
  match o with
  | DPut m a => drop_result (Put m a)
  | DDelete id => drop_result (Delete id)
  | DPurge => drop_result PurgeExpired
  end.

End Operations.

(** ** Lemmas *)

Section Lemmas.
Context {B : Type} `{BucketLaws B} {E : Type}.

Lemma keyN_size (b : B) : keyN b = Z.of_nat (size (b_map b)).
Proof. unfold keyN. rewrite (b_entries_perm b). by rewrite length_map_to_list. Qed.

Lemma decode_all_Ok l es :
  decode_all l = Ok es ->
  Forall2 (fun kv ke => fst kv = fst ke /\ unmarshal (snd kv) = Some (snd ke)) l es.
Proof.
  revert es. induction l as [|[k v] l IH]; cbn [decode_all]; intros es.
  - intros [= <-]. constructor.
  - destruct (unmarshal v) as [e|] eqn:Ev; [|done].
    destruct (decode_all l) as [es'|]; [|done]. intros [= <-]. constructor; [done|auto].
Qed.

Lemma string_lt_irrefl s : string_lt s s = false.
Proof. apply bytes_lt_irrefl. Qed.

(** The key the scan selects has a least CreatedAt. *)
Definition least (es : list (string * DLQEntry)) (k t : string) : Prop :=
  (exists e, (k, e) ∈ es /\ D_CreatedAt e = t) /\
  forall ke, ke ∈ es -> string_lt (D_CreatedAt (snd ke)) t = false.

Lemma oldest_fold es0 es k t :
  least es0 k t -> exists k' t', foldl oldest_step (Some (k, t)) es = Some (k', t') /\
    least (es0 ++ es) k' t'.
Proof.
  revert es0 k t. induction es as [|[k1 e1] es IH]; intros es0 k t Hl.
  { exists k, t. by rewrite app_nil_r. }
  cbn [foldl oldest_step]. destruct Hl as [(e & He & Ht) Hle].
  replace (es0 ++ (k1, e1) :: es) with ((es0 ++ [(k1, e1)]) ++ es) by (by rewrite <- app_assoc).
  destruct (string_lt (D_CreatedAt e1) t) eqn:E1; apply IH.
  - split.
    + exists e1. split; [|done]. apply elem_of_app. right. by left.
    + intros ke [Hin|Hin]%elem_of_app.
      * apply not_true_is_false. intros E2. specialize (Hle ke Hin).
        unfold string_lt in *. by rewrite (bytes_lt_trans _ _ _ E2 E1) in Hle.
      * apply list_elem_of_singleton in Hin as ->. apply string_lt_irrefl.
  - split.
    + exists e. split; [|done]. apply elem_of_app. by left.
    + intros ke [Hin|Hin]%elem_of_app; [by apply Hle|].
      by apply list_elem_of_singleton in Hin as ->.
Qed.

Lemma oldest_least es : es <> [] ->
  exists k t, foldl oldest_step None es = Some (k, t) /\ least es k t.
Proof.
  destruct es as [|[k e] es]; [done|]. intros _. cbn [foldl oldest_step].
  apply (oldest_fold [(k, e)] es k (D_CreatedAt e)). split.
  - exists e. split; [by left|done].
  - intros ke Hin%list_elem_of_singleton. subst ke. apply string_lt_irrefl.
Qed.

(** Eviction removes one entry, with a least CreatedAt string, of a queue that
    is not empty. *)
Lemma evictOldest_spec (b b' : B) :
  evictOldest b = Ok b' ->
  (b_map b = ∅ /\ b' = b) \/
  exists es k t, decode_all (b_entries b) = Ok es /\ least es k t /\
    is_Some (b_map b !! k) /\ b_map b' = delete k (b_map b).
Proof.
  unfold evictOldest. destruct (decode_all (b_entries b)) as [es|] eqn:Ed; [|done]. cbn [rbind].
  pose proof (decode_all_Ok _ _ Ed) as HF. destruct (decide (es = [])) as [->|Hne].
  - cbn. intros [= <-]. left. split; [|done]. inversion HF as [Hb|].
    apply map_empty. intros i. destruct (b_map b !! i) as [v|] eqn:Hi; [|done].
    apply elem_of_map_to_list in Hi. rewrite <- (b_entries_perm b), <- Hb in Hi.
    by apply not_elem_of_nil in Hi.
  - destruct (oldest_least es Hne) as (k & t & -> & Hl). intros [= <-]. right.
    exists es, k, t. split; [done|]. split; [done|]. split; [|apply b_delete_map].
    destruct Hl as [(e & Hin & _) _]. apply list_elem_of_lookup in Hin as [i Hi].
    apply (Forall2_lookup_r _ _ _ _ _ HF) in Hi as ([k' v] & Hi & Hk & _). cbn in Hk. subst k'.
    apply list_elem_of_lookup_2 in Hi. rewrite (b_entries_perm b) in Hi.
    apply elem_of_map_to_list in Hi. by eexists.
Qed.

(** What a successful Put transaction does to the bucket. *)
Lemma put_tx_Ok max id data (b b' : B) :
  put_tx max id data b = Ok (tt, b') ->
  exists m, b_map b' = <[id := data]> m /\
    if max <=? keyN b
    then (b_map b = ∅ /\ m = ∅) \/
         exists es k t, decode_all (b_entries b) = Ok es /\ least es k t /\
           is_Some (b_map b !! k) /\ m = delete k (b_map b)
    else m = b_map b.
Proof.
  unfold put_tx. destruct (max <=? keyN b).
  - destruct (evictOldest b) as [b1|] eqn:Ee; [|done]. cbn [rbind].
    destruct (b_put id data b1) as [b2|] eqn:Ep; [|done]. intros [= <-].
    exists (b_map b1). split; [by apply b_put_map|].
    apply evictOldest_spec in Ee as [[Hn ->]|(es & k & t & ? & ? & ? & Hm)].
    + left. by rewrite Hn.
    + right. eauto 10.
  - cbn [rbind]. destruct (b_put id data b) as [b2|] eqn:Ep; [|done]. intros [= <-].
    exists (b_map b). split; [by apply b_put_map|done].
Qed.

Lemma size_insert_le (m : gmap string bytes) k v : (size (<[k := v]> m) <= S (size m))%nat.
Proof.
  destruct (m !! k) eqn:Hk.
  - rewrite map_size_insert_Some by (by eexists). lia.
  - by rewrite map_size_insert_None.
Qed.

Lemma size_delete_le (m : gmap string bytes) k : (size (delete k m) <= size m)%nat.
Proof. rewrite map_size_delete. destruct (m !! k); cbn; lia. Qed.

Lemma size_pos (m : gmap string bytes) k : is_Some (m !! k) -> (0 < size m)%nat.
Proof.
  intros Hk. assert (size m <> 0)%nat; [|lia]. intros Hz%map_size_empty_inv.
  rewrite Hz in Hk. by destruct Hk.
Qed.

Lemma delete_keys_size ks (b : B) : (size (b_map (delete_keys ks b)) <= size (b_map b))%nat.
Proof.
  unfold delete_keys. revert b. induction ks as [|k ks IH]; intros b; [done|]. cbn [foldl].
  etransitivity; [apply IH|]. rewrite b_delete_map.
  apply size_delete_le.
Qed.

Definition bounded (d : DLQ B) : Prop := Z.of_nat (size (b_map (db d))) <= Z.max 1 (maxSize d).

Lemma update_inv w {A} (f : B -> result dlq_error (A * B)) (r : Run (DLQ B) E) :
  bounded (run_st r) ->
  (forall a b', f (db (run_st r)) = Ok (a, b') ->
     Z.of_nat (size (b_map b')) <= Z.max 1 (maxSize (run_st r))) ->
  wp w (update f) (fun _ r' => bounded (run_st r') /\ maxSize (run_st r') = maxSize (run_st r)) r.
Proof.
  intros Hb Hf. unfold update. wp_step. destruct (o_ok w _); wp_step; [|done].
  destruct (f (db (run_st r))) as [[a b']|e] eqn:Ef; wp_step; [|done].
  destruct (o_ok w _); wp_step; [|done]. split; [|done]. by eapply Hf.
Qed.

(** Putting emits no event. *)
Lemma Put_quiet w m a (r : Run (DLQ B) E) :
  wp w (Put m a) (fun _ r' => run_trace r' = run_trace r) r.
Proof.
  unfold Put. wp_step. destruct (marshal _) as [data|]; wp_step; [|done].
  unfold update. wp_step. destruct (o_ok w _); wp_step; [|done].
  destruct (put_tx _ _ _ _) as [[[] b]|e]; wp_step; [|done].
  destruct (o_ok w _); by wp_step.
Qed.

Lemma run_dlq_op_bounded w o (r : Run (DLQ B) E) :
  bounded (run_st r) ->
  wp w (run_dlq_op o) (fun _ r' => bounded (run_st r') /\ maxSize (run_st r') = maxSize (run_st r)) r.
Proof.
  destruct r as [d0 tk0 tr0]. cbn [run_st]. intros Hb.
  destruct o as [m a|id|]; cbn [run_dlq_op]; unfold drop_result; wp_step;
    (eapply wp_conseq; [intros ? ? Hi; wp_step; exact Hi|]).
  - unfold Put. wp_step. destruct (marshal _) as [data|]; wp_step; [|done].
    eapply (update_inv w _ (mkRun _ _ _)); cbn [run_st]; [done|]. intros [] b' Ht.
    cbn [run_st db] in Ht. apply put_tx_Ok in Ht as (mp & -> & Hm).
    pose proof (size_insert_le mp (D_ID (new_dlq_entry m a (o_now w tk0))) data) as Hle.
    rewrite keyN_size in Hm. unfold bounded in Hb.
    destruct (maxSize d0 <=? _) eqn:E1.
    + destruct Hm as [[_ ->]|(es & k & t & _ & _ & Hk & ->)].
      * rewrite map_size_empty in Hle. lia.
      * rewrite map_size_delete_Some in Hle by done.
        apply size_pos in Hk. lia.
    + subst mp. lia.
  - unfold Delete. apply update_inv; [done|]. intros [] b' [= <-].
    rewrite b_delete_map. unfold bounded in Hb. cbn [run_st].
    pose proof (size_delete_le (b_map (db d0)) id). lia.
  - unfold PurgeExpired. wp_step. eapply (update_inv w _ (mkRun _ _ _)); cbn [run_st]; [done|].
    intros n b'. destruct (scan_expired _ _) as [ks|]; [|done]. intros [= <- <-].
    pose proof (delete_keys_size ks (db d0)). unfold bounded in Hb. lia.
Qed.
End Lemmas.

(** ** Properties *)

Section Properties.
Context {B : Type} `{BucketLaws B}.

(** C6: The queue is bounded: whatever is put, deleted and purged, and however
    the transactions fail, it never holds more than its configured number of
    entries (one entry, when that number is not positive). *)
Theorem dlq_bounded (w : Oracle) (d : DLQ B) (ops : list dlq_op) :
  bounded d -> bounded (run_st (snd (exec (E := unit) (mfor ops run_dlq_op) w d))).
Proof.
  intros Hb.
  assert (Hi : wp w (mfor ops run_dlq_op) (fun _ r => bounded (run_st r)) (mkRun (E := unit) d 0 [])).
  { apply wp_mfor; [done|]. intros o r _ Hr. eapply wp_conseq; [|by apply run_dlq_op_bounded].
    by intros ? ? [? _]. }
  unfold wp, exec in *. by destruct (mfor ops run_dlq_op w _).
Qed.

(** Property: A successful Put stores the message under its identifier, decodable to
    what was put, and touches nothing else, except that a full queue first
    loses one entry, one whose CreatedAt string is least. *)
Theorem dlq_put_stores (w : Oracle) (d : DLQ B) (m : Message) (a : Z) (r : Run (DLQ B) unit) :
  dlq_ok (new_dlq_entry m a (o_now w 0)) ->
  exec (Put m a) w d = (Ok tt, r) ->
  exists data mp,
    unmarshal data = Some (norm_dlq (new_dlq_entry m a (o_now w 0))) /\
    b_map (db (run_st r)) = <[ID m := data]> mp /\
    (keyN (db d) < maxSize d -> mp = b_map (db d)) /\
    (maxSize d <= keyN (db d) -> b_map (db d) <> ∅ ->
       exists es k t, decode_all (b_entries (db d)) = Ok es /\ least es k t /\
         mp = delete k (b_map (db d))).
Proof.
  intros Hok He.
  assert (Hw : wp w (Put m a) (fun res r' => res = Ok tt -> exists data mp,
    unmarshal data = Some (norm_dlq (new_dlq_entry m a (o_now w 0))) /\
    b_map (db (run_st r')) = <[ID m := data]> mp /\
    if maxSize d <=? keyN (db d)
    then (b_map (db d) = ∅ /\ mp = ∅) \/
         exists es k t, decode_all (b_entries (db d)) = Ok es /\ least es k t /\
           is_Some (b_map (db d) !! k) /\ mp = delete k (b_map (db d))
    else mp = b_map (db d)) (mkRun (E := unit) d 0 [])).
  { unfold Put. wp_step. destruct (marshal _) as [data|] eqn:Ed; wp_step; [|done].
    unfold update. wp_step. destruct (o_ok w _); wp_step; [|done].
    destruct (put_tx _ _ _ _) as [[[] b']|e] eqn:Et; wp_step; [|done].
    destruct (o_ok w _); wp_step; [|done]. intros _. cbn [db].
    apply put_tx_Ok in Et as (mp & Hmp & Hcase). exists data, mp.
    split; [exact (marshal_unmarshal _ _ Hok Ed)|]. by split. }
  unfold wp, exec in *. rewrite He in Hw. destruct (Hw eq_refl) as (data & mp & H1 & H2 & H3).
  exists data, mp. split; [done|]. split; [done|]. destruct (maxSize d <=? keyN (db d)) eqn:E1.
  - split; [lia|]. intros _ Hne. destruct H3 as [[? _]|(es & k & t & ? & ? & _ & ?)]; [done|eauto 10].
  - split; [done|lia].
Qed.

(** The entries PurgeExpired is to remove. *)
Definition is_expired (cutoff : Z) (v : bytes) : Prop :=
  match unmarshal v with
  | Some e => match parse_rfc3339 (bytes_of (D_CreatedAt e)) with
              | Some t => t < cutoff
              | None => False
              end
  | None => False
  end.

Lemma scan_expired_spec cutoff l ks :
  scan_expired cutoff l = Ok ks ->
  NoDup (map fst l) -> NoDup ks /\ forall k, k ∈ ks <-> exists v, (k, v) ∈ l /\ is_expired cutoff v.
Proof.
  revert ks. induction l as [|[k v] l IH]; cbn [scan_expired map]; intros ks.
  { intros [= <-] _. split; [constructor|]. intros k. split; [by intros ?%not_elem_of_nil|].
    by intros (v & ?%not_elem_of_nil & _). }
  destruct (unmarshal v) as [e|] eqn:Ev; [|done].
  destruct (parse_rfc3339 _) as [t|] eqn:Et; [|done].
  destruct (scan_expired cutoff l) as [ks'|]; [|done]. cbn [rbind].
  intros Hks [Hni Hn]%NoDup_cons. destruct (IH ks' eq_refl Hn) as [Hnd Hin].
  assert (Hx : is_expired cutoff v <-> t < cutoff) by (unfold is_expired; by rewrite Ev, Et).
  assert (Hk : k ∉ ks').
  { intros (v' & Hv' & _)%Hin. apply Hni, list_elem_of_fmap. by exists (k, v'). }
  destruct (t <? cutoff) eqn:Ec; injection Hks as <-.
  - split; [by constructor|]. intros k'. rewrite elem_of_cons, Hin. split.
    + intros [->|(v' & ? & ?)]; [exists v; split; [by left|apply Hx; lia]|].
      exists v'. split; [by right|done].
    + intros (v' & [[= -> ->]|?]%elem_of_cons & ?); eauto.
  - split; [done|]. intros k'. rewrite Hin. split.
    + intros (v' & ? & ?). exists v'. split; [by right|done].
    + intros (v' & [[= -> ->]|?]%elem_of_cons & Hv'); [apply Hx in Hv'; lia|eauto].
Qed.

Lemma delete_keys_map ks (b : B) k :
  b_map (delete_keys ks b) !! k = if decide (k ∈ ks) then None else b_map b !! k.
Proof.
  unfold delete_keys. revert b. induction ks as [|k' ks IH]; intros b; cbn [foldl].
  - rewrite decide_False; [done|]. apply not_elem_of_nil.
  - rewrite IH, b_delete_map. destruct (decide (k ∈ ks)).
    + rewrite decide_True; [done|]. by right.
    + destruct (decide (k = k')) as [->|].
      * rewrite decide_True by (by left). by rewrite lookup_delete_eq.
      * rewrite decide_False by (by rewrite elem_of_cons; intros [?|?]).
        by rewrite lookup_delete_ne.
Qed.

(** Property: PurgeExpired, when it succeeds, removes exactly the entries created
    before now minus the TTL, keeps every other entry as it was, and returns
    how many it removed; when it fails it removes none. *)
Theorem dlq_purge_exact (w : Oracle) (d : DLQ B) (res : result dlq_error Z)
    (r : Run (DLQ B) unit) :
  exec PurgeExpired w d = (res, r) ->
  match res with
  | Ok n =>
      (forall k v, b_map (db (run_st r)) !! k = Some v <->
         b_map (db d) !! k = Some v /\ ~ is_expired (o_now w 0 - ttl d) v) /\
      Z.of_nat (size (b_map (db (run_st r)))) + n = Z.of_nat (size (b_map (db d)))
  | Err _ => db (run_st r) = db d
  end.
Proof.
  intros He.
  assert (Hw : wp w PurgeExpired (fun res r' => match res with
    | Ok n => exists ks, scan_expired (o_now w 0 - ttl d) (b_entries (db d)) = Ok ks /\
        n = Z.of_nat (length ks) /\ db (run_st r') = delete_keys ks (db d)
    | Err _ => db (run_st r') = db d end) (mkRun (E := unit) d 0 [])).
  { unfold PurgeExpired. wp_step. unfold update. wp_step.
    destruct (o_ok w _); wp_step; [|done].
    destruct (scan_expired _ _) as [ks|e] eqn:Es; cbn [rbind]; wp_step; [|done].
    destruct (o_ok w _); wp_step; [|done]. exists ks. done. }
  unfold wp, exec in *. rewrite He in Hw. destruct res as [n|e]; [|done].
  destruct Hw as (ks & Hs & -> & ->). apply scan_expired_spec in Hs as [Hnd Hin].
  2:{ rewrite (b_entries_perm (db d)). apply NoDup_fst_map_to_list. }
  assert (Hks : forall k, k ∈ ks <-> exists v, b_map (db d) !! k = Some v /\
    is_expired (o_now w 0 - ttl d) v).
  { intros k. rewrite Hin. setoid_rewrite (b_entries_perm (db d)).
    by setoid_rewrite elem_of_map_to_list. }
  split.
  - intros k v. rewrite delete_keys_map. destruct (decide (k ∈ ks)) as [Hk|Hk].
    + split; [done|]. intros [Hv Hne]. apply Hks in Hk as (v' & Hv' & Hx). congruence.
    + split; [|by intros [? _]]. intros Hv. split; [done|]. intros Hx. apply Hk, Hks. eauto.
  - clear He. assert (Hsub : forall k, k ∈ ks -> is_Some (b_map (db d) !! k)).
    { intros k (v & Hv & _)%Hks. by eexists. }
    clear Hin Hks. revert Hnd Hsub. unfold delete_keys. generalize (db d) as b.
    induction ks as [|k ks IH]; intros b Hnd Hsub; [cbn; lia|].
    apply NoDup_cons in Hnd as [Hni Hnd]. cbn [foldl length].
    assert (Hk : is_Some (b_map b !! k)) by (apply Hsub; by left).
    specialize (IH (b_delete k b) Hnd). rewrite b_delete_map, map_size_delete_Some in IH by done.
    rewrite Nat2Z.inj_succ. rewrite <- Z.add_succ_comm.
    pose proof (size_pos _ _ Hk).
    rewrite <- Z.add_1_r, <- Z.add_assoc, (Z.add_comm 1), Z.add_assoc, IH; [lia|].
    intros k' Hk'. rewrite lookup_delete_ne by congruence. apply Hsub. by right.
Qed.
End Properties.

(** ** Witnesses *)

(** A bucket as BoltDB implements it: it refuses the empty key. *)
#[export] Instance map_bucket : Bucket (gmap string bytes) := {|
  b_map b := b;
  b_put k v b := if decide (k = ""%string) then None else Some (<[k := v]> b);
  b_delete k b := delete k b;
  b_entries b := map_to_list b;
|}.

#[export] Instance map_bucket_laws : BucketLaws (gmap string bytes).
Proof.
  split; cbn; [|done|done]. intros k v b b'. case_decide; [done|]. by intros [= <-].
Qed.

Lemma dlq_bounded_witness :
  let d := mkDLQ (∅ : gmap string bytes) 2 1000 in
  bounded d /\
  bounded (run_st (snd (exec (E := unit) (mfor [DPut (sample_message "1") 5;
    DPut (sample_message "2") 5; DPut (sample_message "3") 5] run_dlq_op) all_ok d))).
Proof.
  cbn zeta. assert (Hb : bounded (mkDLQ (∅ : gmap string bytes) 2 1000)).
  { unfold bounded. by vm_compute. }
  split; [exact Hb|]. by apply (dlq_bounded (B := gmap string bytes)).
Defined.

Lemma dlq_put_stores_witness :
  let d := mkDLQ (∅ : gmap string bytes) 2 1000 in
  exists data mp, b_map (db (run_st (snd (exec (E := unit) (Put (sample_message "1") 5) all_ok d)))) =
    <["1"%string := data]> mp /\
    unmarshal data = Some (norm_dlq (new_dlq_entry (sample_message "1") 5 (o_now all_ok 0))).
Proof.
  cbn zeta. destruct (exec (E := unit) (Put (sample_message "1") 5) all_ok _) as [res r] eqn:E.
  assert (res = Ok tt) as ->.
  { change res with (fst (res, r)). rewrite <- E. vm_compute. reflexivity. }
  destruct (dlq_put_stores (B := gmap string bytes) all_ok (mkDLQ ∅ 2 1000)
    (sample_message "1") 5 r) as (data & mp & H1 & H2 & _).
  - split; [vm_compute; reflexivity|exact eq_refl].
  - exact E.
  - exists data, mp. split; [exact H2|exact H1].
Defined.

Lemma dlq_purge_exact_witness :
  let d := mkDLQ (∅ : gmap string bytes) 2 1000 in
  db (run_st (snd (exec (E := unit) PurgeExpired
    (mkOracle (fun _ => false) (o_uuid all_ok) (o_now all_ok) (o_len all_ok)) d))) = db d.
Proof.
  cbn zeta. destruct (exec (E := unit) PurgeExpired _ _) as [res r] eqn:E.
  pose proof (dlq_purge_exact (B := gmap string bytes) _ _ res r E) as Hp.
  assert (res = Err ErrDLQTx) as ->.
  { change res with (fst (res, r)). rewrite <- E. vm_compute. reflexivity. }
  exact Hp.
Defined.

(** The order of CreatedAt strings is not the order of the instants, because
    RFC3339Nano drops trailing zeros: of two entries created 20 ms apart,
    the queue evicts (and List shows first) the newer. *)
Example evicts_newer :
  let put m t := snd (exec (E := unit) (Put m 5)
    (mkOracle (fun _ => true) (o_uuid all_ok) (fun _ => t) (o_len all_ok))
    (mkDLQ (∅ : gmap string bytes) 10 1000)) in
  let older := 1700000000100000000 in
  let newer := 1700000000120000000 in
  evictOldest (b_map (db (run_st (put (sample_message "old") older))) ∪
               b_map (db (run_st (put (sample_message "new") newer)))) =
  Ok (b_map (db (run_st (put (sample_message "old") older)))).
Proof. vm_compute. reflexivity. Qed.
