(* ===== verification/Router.v ===== *)
(** * The router (internal/ipcbus/router.go)

    The router keeps the registered sidecars, one ring buffer per channel, the
    write-ahead log and the dead letter queue.  [HandleInbound] and the other
    handlers are translated call by call; each runs to completion before the
    next one.  The events are what the rest of the system observes: frames
    sent to a sidecar, messages handed to the bridge, records logged. *)

From S2P Require Import Prelude.
From S2P Require Import GoStrings.
From S2P Require Import GoFloat.
From S2P Require Import Json.
From S2P Require Import Message.
From S2P Require Import Framing.
From S2P Require Import RingBuffer.
From S2P Require Import GoIO.
From S2P Require Import WAL.
From S2P Require Import DLQ.

Definition defaultBufferSize : Z := 1024.
Definition defaultHighWatermark : float64 := f0_8.
Definition defaultLowWatermark : float64 := f0_3.
Definition maxRetryAttempts : Z := 5.

(** A connection is known by its identity; the wire is the trace. *)
Record SidecarConn := mkSC {
  sc_Channel : string;
  sc_Mode : string;
  sc_conn : nat;
}.

Inductive router_event :=
| Sent (conn : nat) (m : Message) (ok : bool)
| Bridged (m : Message) (ok : bool)
| Logged (e : wal_event)
| Closed (conn : nat).

Section Router.
Context {B : Type} `{Bucket B} `{RangeOrder}.

Record RouterConfig := mkRouterConfig {
  cfg_Bridge : bool;
  cfg_WAL : option WAL;
  cfg_DLQ : option (DLQ B);
  cfg_BufferSize : Z;
  cfg_HighWatermark : float64;
  cfg_LowWatermark : float64;
}.

Record Router := mkRouter {
  sidecars : gmap string SidecarConn;
  bridge : bool;
  wal : option WAL;
  dlq : option (DLQ B);
  buffers : gmap string (RingBuffer Message);
  bufferSize : Z;
  highWatermark : float64;
  lowWatermark : float64;
}.

Definition NewRouter (cfg : RouterConfig) : Router :=
  let bs := if cfg_BufferSize cfg <=? 0 then defaultBufferSize else cfg_BufferSize cfg in
  let hw := if fle (cfg_HighWatermark cfg) f0 || fgt (cfg_HighWatermark cfg) f1_0
            then defaultHighWatermark else cfg_HighWatermark cfg in
  let lw := if fle (cfg_LowWatermark cfg) f0 || fge (cfg_LowWatermark cfg) hw
            then defaultLowWatermark else cfg_LowWatermark cfg in
  mkRouter ∅ (cfg_Bridge cfg) (cfg_WAL cfg) (cfg_DLQ cfg) ∅ bs hw lw.

Definition RM A : Type := M Router router_event A.

(** ** Access to the parts *)

Definition set_sidecars f : RM unit := mmodify (fun r =>
  mkRouter (f (sidecars r)) (bridge r) (wal r) (dlq r) (buffers r) (bufferSize r)
    (highWatermark r) (lowWatermark r)).
Definition set_buffers f : RM unit := mmodify (fun r =>
  mkRouter (sidecars r) (bridge r) (wal r) (dlq r) (f (buffers r)) (bufferSize r)
    (highWatermark r) (lowWatermark r)).
Definition put_wal (w : WAL) (r : Router) : Router :=
  mkRouter (sidecars r) (bridge r) (Some w) (dlq r) (buffers r) (bufferSize r)
    (highWatermark r) (lowWatermark r).
Definition put_dlq (d : DLQ B) (r : Router) : Router :=
  mkRouter (sidecars r) (bridge r) (wal r) (Some d) (buffers r) (bufferSize r)
    (highWatermark r) (lowWatermark r).

(** Calls on the log and on the queue; [w] and [d] are their present states. *)
Definition on_wal {A} (w : WAL) (m : M WAL wal_event A) : RM A :=
  zoom (fun r => default w (wal r)) put_wal Logged m.
Definition on_dlq {A} (d : DLQ B) (m : M (DLQ B) router_event A) : RM A :=
  zoom (fun r => default d (dlq r)) put_dlq id m.

(** [SidecarConn.Send]: a frame on the connection. *)
Definition Send (sc : SidecarConn) (m : Message) : RM bool :=
  let* ok := io in emit (Sent (sc_conn sc) m ok) ;;; mret ok.

(** [bridge.Send]. *)
Definition bridge_Send (m : Message) : RM bool :=
  let* ok := io in emit (Bridged m ok) ;;; mret ok.

(** ** Registration *)

Definition Register (sc : SidecarConn) : RM unit :=
  set_sidecars (insert (sc_Channel sc) sc) ;;;
  let* r := mget in
  match buffers r !! sc_Channel sc with
  | Some _ => mret tt
  | None => set_buffers (insert (sc_Channel sc)
              (NewRingBuffer (bufferSize r) (highWatermark r) (lowWatermark r)))
  end.

Definition Unregister (sc : SidecarConn) : RM unit := set_sidecars (delete (sc_Channel sc)).

Definition ConnectedCount : RM nat := mgets (fun r => base.size (sidecars r)).

(** ** Inbound messages *)

Definition handleControl (from : SidecarConn) (msg : Message) : RM unit :=
  if decide (Type_ msg = TypeHeartbeat) then
    let* ack := NewAck (ID msg) in
    let* _ := Send from ack in mret tt
  else mret tt.

(** [scheduleRetry]. *)
Definition scheduleRetry (msg : Message) : RM unit :=
  let* r := mget in
  match wal r with
  | None => mret tt
  | Some w =>
      let* res := on_wal w (IncrementAttempts (ID msg)) in
      match res with
      | Err _ => mret tt
      | Ok attempts =>
          if maxRetryAttempts <=? attempts then
            let* _ := on_wal w (MarkDLQ (ID msg)) in
            match dlq r with
            | None => mret tt
            | Some d => let* _ := on_dlq d (Put msg attempts) in mret tt
            end
          else mret tt
      end
  end.

(** The write-ahead append of HandleInbound. *)
Definition log_append (msg : Message) : RM unit :=
  let* r := mget in
  match wal r with
  | None => mret tt
  | Some w => let* _ := on_wal w (Append msg) in mret tt
  end.

Definition log_complete (id : string) : RM unit :=
  let* r := mget in
  match wal r with
  | None => mret tt
  | Some w => let* _ := on_wal w (Complete id) in mret tt
  end.

(** Push to the buffer of the channel and tell the sender to slow down. *)
Definition push_buffer (from : SidecarConn) (msg : Message) : RM unit :=
  let* r := mget in
  match buffers r !! sc_Channel from with
  | None => mret tt
  | Some rb =>
      let '(_, stateChanged, rb') := Push msg rb in
      set_buffers (insert (sc_Channel from) rb') ;;;
      if stateChanged : bool then
        let* slowDown := NewMessage TypeSlowDown (sc_Channel from) RawEmpty in
        let* _ := Send from slowDown in mret tt
      else mret tt
  end.

(** Pop the buffer and tell the sender to resume. *)
Definition pop_buffer (from : SidecarConn) : RM unit :=
  let* r := mget in
  match buffers r !! sc_Channel from with
  | None => mret tt
  | Some rb =>
      let '(_, stateChanged, rb') := Pop rb in
      set_buffers (insert (sc_Channel from) rb') ;;;
      if stateChanged : bool then
        let* resume := NewMessage TypeResume (sc_Channel from) RawEmpty in
        let* _ := Send from resume in mret tt
      else mret tt
  end.

Definition HandleInbound (from : SidecarConn) (msg : Message) : RM unit :=
  if IsControl msg then handleControl from msg
  else
    log_append msg ;;;
    push_buffer from msg ;;;
    let* r := mget in
    let* ok := if bridge r then bridge_Send msg else mret true in
    if ok then log_complete (ID msg) ;;; pop_buffer from
    else scheduleRetry msg.

(** ** Outbound messages *)

Definition HandleOutbound (msg : Message) : RM unit :=
  let* r := mget in
  match sidecars r !! Channel msg with
  | None => mret tt
  | Some sc => let* _ := Send sc msg in mret tt
  end.

(** [StartOutboundLoop] over the messages the bridge delivers before its
    channel is closed or the context is cancelled. *)
Definition StartOutboundLoop (received : list Message) : RM unit :=
  let* r := mget in
  if bridge r then
    let* ok := io in
    if ok then mfor received HandleOutbound else mret tt
  else mret tt.

(** ** Replay and shutdown *)

Definition replay_entry (e : WALEntry) : RM unit :=
  match E_Msg e with
  | None => mret tt
  | Some m =>
      let* r := mget in
      let* ok := if bridge r then bridge_Send m else mret true in
      if ok then log_complete (E_ID e) else mret tt
  end.

Definition ReplayWAL : RM unit :=
  let* r := mget in
  match wal r with
  | None => mret tt
  | Some w =>
      let* l := on_wal w PendingEntries in
      mfor l replay_entry
  end.

Definition SendShutdown : RM unit :=
  let* r := mget in
  mfor (range (sidecars r)) (fun '(channel, sc) =>
    let* msg := NewMessage TypeShutdown channel RawEmpty in
    let* _ := Send sc msg in mret tt).

End Router.
Arguments Router : clear implicits.
Arguments RouterConfig : clear implicits.

Definition not_bridged (e : router_event) : Prop :=
  match e with Bridged _ _ => False | _ => True end.

(** ** Sequences of handlers *)

Inductive router_op :=
| RRegister (sc : SidecarConn)
| RUnregister (sc : SidecarConn)
| RInbound (from : SidecarConn) (msg : Message)
| ROutbound (msg : Message)
| RReplay
| RShutdown.

Section Specs.
Context {B : Type} `{Bucket B} `{RangeOrder} (w : Oracle).
Implicit Types r : Run (Router B) router_event.

Definition run_router_op (o : router_op) : RM unit :=
  match o with
  | RRegister sc => Register sc
  | RUnregister sc => Unregister sc
  | RInbound from msg => HandleInbound from msg
  | ROutbound msg => HandleOutbound msg
  | RReplay => ReplayWAL
  | RShutdown => SendShutdown
  end.

(** What a step may add to the trace and must leave of the state: the frame
    of the small handlers. *)
Definition same_but_wal (s s' : Router B) : Prop :=
  sidecars s' = sidecars s /\ bridge s' = bridge s /\ dlq s' = dlq s /\ buffers s' = buffers s /\
  bufferSize s' = bufferSize s /\ highWatermark s' = highWatermark s /\
  lowWatermark s' = lowWatermark s /\ (wal s = None -> wal s' = None).

Definition extends (P : router_event -> Prop) (tr tr' : list router_event) : Prop :=
  exists l, tr' = tr ++ l /\ Forall P l.

Lemma extends_refl P tr : extends P tr tr.
Proof. exists []. by rewrite app_nil_r. Qed.

Lemma extends_trans P tr1 tr2 tr3 : extends P tr1 tr2 -> extends P tr2 tr3 -> extends P tr1 tr3.
Proof.
  intros (l1 & -> & H1) (l2 & -> & H2). exists (l1 ++ l2). rewrite <- app_assoc.
  split; [done|]. by apply Forall_app.
Qed.

Lemma extends_weaken (P Q : router_event -> Prop) tr tr' :
  (forall e, P e -> Q e) -> extends P tr tr' -> extends Q tr tr'.
Proof. intros HPQ (l & -> & Hl). exists l. split; [done|]. by eapply Forall_impl. Qed.

Definition logs (e : router_event) : Prop := match e with Logged _ => True | _ => False end.
Definition quiet (tr tr' : list router_event) : Prop := extends not_bridged tr tr'.

Lemma logs_quiet tr tr' : extends logs tr tr' -> quiet tr tr'.
Proof. apply extends_weaken. by intros []. Qed.

Lemma on_wal_frame {A} (wl : WAL) (m : M WAL wal_event A) (P : A -> Run WAL wal_event -> Prop) r :
  wal (run_st r) = Some wl ->
  wp w m P (mkRun wl (run_tick r) []) ->
  wp w (on_wal wl m) (fun a r' => same_but_wal (run_st r) (run_st r') /\
    extends logs (run_trace r) (run_trace r') /\
    exists q, P a q /\ wal (run_st r') = Some (run_st q)) r.
Proof.
  intros Hw Hm. unfold on_wal. wp_step. rewrite Hw. cbn [default].
  eapply wp_conseq; [|exact Hm]. intros a q Hq. cbn [run_st run_trace].
  split; [|split].
  - unfold same_but_wal, put_wal. cbn. rewrite Hw. done.
  - exists (map Logged (run_trace q)). split; [done|]. by apply Forall_map, Forall_true.
  - exists q. done.
Qed.

Lemma wp_True {S E A} (m : M S E A) (r : Run S E) : wp w m (fun _ _ => True) r.
Proof. unfold wp. by destruct (m w r). Qed.

Lemma log_append_spec msg r :
  wp w (log_append msg) (fun _ r' => same_but_wal (run_st r) (run_st r') /\
    extends logs (run_trace r) (run_trace r') /\
    forall wl, wal (run_st r) = Some wl -> exists wl', wal (run_st r') = Some wl' /\
      (entries wl' = <[ID msg := append_entry msg (o_now w (run_tick r))]> (entries wl) \/
       entries wl' = entries wl /\ (marshals (append_entry msg 0) -> werr (out wl') = true))) r.
Proof.
  unfold log_append. wp_step. destruct (wal (run_st r)) as [wl|] eqn:Hw; wp_step.
  - eapply wp_conseq; [|eapply on_wal_frame; [done|apply Append_res]].
    intros res r' (Hs & Hx & q & Hq & Hwq). wp_step. split; [done|]. split; [done|].
    intros wl0 [= <-]. exists (run_st q). split; [done|].
    destruct res; [left|right]; by destruct Hq.
  - split; [done|]. split; [apply extends_refl|done].
Qed.

Lemma log_complete_spec id r :
  wp w (log_complete id) (fun _ r' => same_but_wal (run_st r) (run_st r') /\
    extends logs (run_trace r) (run_trace r') /\
    forall wl, wal (run_st r) = Some wl -> exists wl', wal (run_st r') = Some wl' /\
      (werr (out wl) = true -> werr (out wl') = true) /\
      (entries wl' = delete id (entries wl) \/
       entries wl' = entries wl /\ (is_Some (entries wl !! id) -> werr (out wl') = true))) r.
Proof.
  unfold log_complete. wp_step. destruct (wal (run_st r)) as [wl|] eqn:Hw; wp_step.
  - eapply wp_conseq; [|eapply on_wal_frame; [done|apply finish_res]].
    intros res r' (Hs & Hx & q & Hq & Hwq). wp_step. split; [done|]. split; [done|].
    intros wl0 [= <-]. exists (run_st q). destruct Hq as [Hst Hq].
    split; [done|]. split; [done|]. destruct res; auto.
  - split; [done|]. split; [apply extends_refl|done].
Qed.

(** Pushing and popping change one buffer and send at most one notification,
    to the sender. *)
Definition same_but_buffers (s s' : Router B) : Prop :=
  sidecars s' = sidecars s /\ bridge s' = bridge s /\ wal s' = wal s /\ dlq s' = dlq s /\
  bufferSize s' = bufferSize s /\ highWatermark s' = highWatermark s /\
  lowWatermark s' = lowWatermark s.

Definition notifies (conn : nat) (ty ch : string) (e : router_event) : Prop :=
  match e with Sent c m _ => c = conn /\ Type_ m = ty /\ Channel m = ch | _ => False end.

Lemma notifies_quiet conn ty ch tr l :
  Forall (notifies conn ty ch) l -> quiet tr (tr ++ l).
Proof. intros Hl. exists l. split; [done|]. eapply Forall_impl; [exact Hl|]. by intros []. Qed.

Lemma push_buffer_spec from msg r :
  wp w (push_buffer from msg) (fun _ r' => same_but_buffers (run_st r) (run_st r') /\
    quiet (run_trace r) (run_trace r') /\
    match buffers (run_st r) !! sc_Channel from with
    | None => run_st r' = run_st r /\ run_trace r' = run_trace r
    | Some rb =>
        buffers (run_st r') = <[sc_Channel from := snd (rb_step rb (OpPush msg))]> (buffers (run_st r)) /\
        exists l, run_trace r' = run_trace r ++ l /\
          Forall (notifies (sc_conn from) TypeSlowDown (sc_Channel from)) l /\
          length l = match notified (fst (rb_step rb (OpPush msg))) with None => 0 | _ => 1 end%nat
    end) r.
Proof.
  unfold push_buffer. wp_step. destruct (buffers (run_st r) !! _) as [rb|]; wp_step; [|split; [done|]; split; [apply extends_refl|done]].
  cbn [rb_step]. destruct (Push msg rb) as [[ok ch] rb'] eqn:Ep. cbn [fst snd].
  unfold set_buffers. destruct ch; wp_step.
  - unfold NewMessage, Send. wp_step. split; [done|].
    split; [eexists; by repeat constructor|]. split; [done|].
    eexists. split; [reflexivity|]. split; [by repeat constructor|done].
  - split; [done|]. split; [apply extends_refl|]. split; [done|].
    exists []. by rewrite app_nil_r.
Qed.

Lemma pop_buffer_spec from r :
  wp w (pop_buffer from) (fun _ r' => same_but_buffers (run_st r) (run_st r') /\
    quiet (run_trace r) (run_trace r') /\
    match buffers (run_st r) !! sc_Channel from with
    | None => run_st r' = run_st r /\ run_trace r' = run_trace r
    | Some rb =>
        buffers (run_st r') = <[sc_Channel from := snd (rb_step rb (OpPop))]> (buffers (run_st r)) /\
        exists l, run_trace r' = run_trace r ++ l /\
          Forall (notifies (sc_conn from) TypeResume (sc_Channel from)) l /\
          length l = match notified (fst (rb_step rb OpPop)) with None => 0 | _ => 1 end%nat
    end) r.
Proof.
  unfold pop_buffer. wp_step. destruct (buffers (run_st r) !! _) as [rb|]; wp_step; [|split; [done|]; split; [apply extends_refl|done]].
  cbn [rb_step]. destruct (Pop rb) as [[m ch] rb'] eqn:Ep. cbn [fst snd].
  unfold set_buffers. destruct ch; wp_step.
  - unfold NewMessage, Send. wp_step. split; [done|].
    split; [eexists; by repeat constructor|]. split; [done|].
    eexists. split; [reflexivity|]. split; [by repeat constructor|done].
  - split; [done|]. split; [apply extends_refl|]. split; [done|].
    exists []. by rewrite app_nil_r.
Qed.

(** A retry counts from the entry Append has just written, so it never
    reaches the limit, and the dead letter queue stays as it is. *)
Lemma scheduleRetry_spec msg r :
  (forall wl e, wal (run_st r) = Some wl -> werr (out wl) = false ->
     entries wl !! ID msg = Some e -> int64 (E_Attempts e + 1) < maxRetryAttempts) ->
  wp w (scheduleRetry msg) (fun _ r' => same_but_wal (run_st r) (run_st r') /\
    extends logs (run_trace r) (run_trace r') /\
    forall wl, wal (run_st r) = Some wl -> exists wl', wal (run_st r') = Some wl' /\
      (werr (out wl) = true -> werr (out wl') = true) /\
      (forall id, id <> ID msg -> entries wl' !! id = entries wl !! id) /\
      (forall e, entries wl !! ID msg = Some e -> exists e', entries wl' !! ID msg = Some e' /\
         E_Msg e' = E_Msg e /\ E_State e' = E_State e)) r.
Proof.
  intros Hlim. unfold scheduleRetry. wp_step.
  destruct (wal (run_st r)) as [wl|] eqn:Hw; wp_step.
  2:{ split; [done|]. split; [apply extends_refl|done]. }
  eapply wp_conseq; [|eapply on_wal_frame; [done|apply IncrementAttempts_res]].
  intros res r' (Hs & Hx & q & [Hst Hq] & Hwq). cbn [run_st] in *.
  assert (Hwl : forall wl0, Some wl = Some wl0 -> exists wl', wal (run_st r') = Some wl' /\
      (werr (out wl0) = true -> werr (out wl') = true) /\
      (forall id, id <> ID msg -> entries wl' !! id = entries wl0 !! id) /\
      (forall e, entries wl0 !! ID msg = Some e -> exists e', entries wl' !! ID msg = Some e' /\
         E_Msg e' = E_Msg e /\ E_State e' = E_State e)).
  { intros wl0 [= <-]. exists (run_st q). split; [done|]. split; [done|].
    destruct (entries wl !! ID msg) as [e|] eqn:Hl; [|by destruct Hq as [_ ->]; split; [|congruence]].
    destruct Hq as [-> _]. split.
    - intros id Hid. by rewrite lookup_insert_ne.
    - intros e0 [= <-]. eexists. by rewrite lookup_insert_eq. }
  destruct res as [n|err]; wp_step; [|done].
  assert (Hn : n < maxRetryAttempts).
  { destruct (entries wl !! ID msg) as [e|] eqn:Hl; [|by destruct Hq].
    destruct Hq as (_ & Hwe & ->). exact (Hlim wl e eq_refl Hwe Hl). }
  destruct (maxRetryAttempts <=? n) eqn:E; [lia|]. by wp_step.
Qed.

Lemma Send_spec sc m r :
  wp w (Send sc m) (fun _ r' => run_st r' = run_st r /\
    run_trace r' = run_trace r ++ [Sent (sc_conn sc) m (o_ok w (run_tick r))]) r.
Proof. unfold Send. by wp_step. Qed.

Lemma handleControl_spec from msg r :
  wp w (handleControl from msg) (fun _ r' => run_st r' = run_st r /\
    if decide (Type_ msg = TypeHeartbeat)
    then exists ack ok, run_trace r' = run_trace r ++ [Sent (sc_conn from) ack ok] /\
           Type_ ack = TypeAck /\ CorrelationID ack = ID msg
    else run_trace r' = run_trace r) r.
Proof.
  unfold handleControl. destruct (decide _); [|by wp_step].
  unfold NewAck, Send. wp_step. split; [done|]. eauto.
Qed.

Lemma bridge_step_spec (m : Message) (s : Router B) r :
  wp w (if bridge s then bridge_Send m else mret true) (fun ok r' =>
    run_st r' = run_st r /\
    if bridge s then run_trace r' = run_trace r ++ [Bridged m ok]
    else ok = true /\ run_trace r' = run_trace r) r.
Proof. destruct (bridge s); [|by wp_step]. unfold bridge_Send. by wp_step. Qed.

(** The dead letter queue across one handler. *)
Lemma HandleInbound_dlq from msg r :
  marshals (append_entry msg 0) ->
  wp w (HandleInbound from msg) (fun _ r' => dlq (run_st r') = dlq (run_st r)) r.
Proof.
  intros Hm. unfold HandleInbound. destruct (IsControl msg).
  { eapply wp_conseq; [|apply handleControl_spec]. by intros ? ? [-> _]. }
  wp_step. eapply wp_conseq; [|apply log_append_spec].
  intros [] r1 ((_ & _ & Hd1 & _ & _ & _ & _ & Hn1) & _ & Hw1).
  wp_step. eapply wp_conseq; [|apply push_buffer_spec].
  intros [] r2 ((_ & _ & Hw2 & Hd2 & _) & _ & _). wp_step.
  eapply wp_conseq; [|apply bridge_step_spec]. intros ok r3 [Hs3 _]. destruct ok; wp_step.
  - eapply wp_conseq; [|apply log_complete_spec]. intros [] r4 ((_ & _ & Hd4 & _) & _). wp_step.
    eapply wp_conseq; [|apply pop_buffer_spec]. intros [] r5 ((_ & _ & _ & Hd5 & _) & _ & _). congruence.
  - eapply wp_conseq; [|apply scheduleRetry_spec].
    + intros [] r4 ((_ & _ & Hd4 & _) & _). congruence.
    + intros wl e Hwl He Hl. rewrite Hs3, Hw2 in Hwl.
      destruct (wal (run_st r)) as [wl0|] eqn:Hw0; [|rewrite Hn1 in Hwl; done].
      destruct (Hw1 wl0 eq_refl) as (wl' & Hwl' & [Hent|[_ Hbad]]).
      * rewrite Hwl in Hwl'. injection Hwl' as <-. rewrite Hent, lookup_insert_eq in Hl.
        injection Hl as <-. done.
      * rewrite Hwl in Hwl'. injection Hwl' as <-. rewrite Hbad in He; done.
Qed.

Lemma replay_entry_spec e r :
  wp w (replay_entry e) (fun _ r' => same_but_wal (run_st r) (run_st r')) r.
Proof.
  unfold replay_entry. destruct (E_Msg e) as [m|]; wp_step; [|by unfold same_but_wal].
  eapply wp_conseq; [|apply bridge_step_spec]. intros ok r1 [Hs1 _].
  destruct ok; wp_step; [|by rewrite Hs1; unfold same_but_wal].
  eapply wp_conseq; [|apply log_complete_spec]. intros [] r2 [Hs2 _]. by rewrite Hs1 in Hs2.
Qed.

Lemma same_but_wal_trans s1 s2 s3 : same_but_wal s1 s2 -> same_but_wal s2 s3 -> same_but_wal s1 s3.
Proof.
  intros (H1 & H2 & H3 & H4 & H5 & H6 & H7 & H8) (K1 & K2 & K3 & K4 & K5 & K6 & K7 & K8).
  unfold same_but_wal. split_and!; try congruence. auto.
Qed.

Lemma ReplayWAL_spec r :
  wp w ReplayWAL (fun _ r' => same_but_wal (run_st r) (run_st r')) r.
Proof.
  unfold ReplayWAL. wp_step. destruct (wal (run_st r)) as [wl|] eqn:Hw; wp_step.
  2:{ by unfold same_but_wal. }
  eapply wp_conseq; [|eapply on_wal_frame; [done|apply wp_True]].
  intros l r1 (Hs1 & _). wp_step.
  apply (wp_mfor _ _ _ (fun r' => same_but_wal (run_st r) (run_st r'))); [done|].
  intros e r2 _ Hs2. eapply wp_conseq; [|apply replay_entry_spec].
  intros [] r3 Hs3. by eapply same_but_wal_trans.
Qed.

Lemma SendShutdown_spec r :
  wp w SendShutdown (fun _ r' => run_st r' = run_st r) r.
Proof.
  unfold SendShutdown. wp_step.
  apply (wp_mfor _ _ _ (fun r' => run_st r' = run_st r)); [done|].
  intros [ch sc] r1 _ Hr1. unfold NewMessage, Send. by wp_step.
Qed.

Lemma run_router_op_dlq o r :
  match o with RInbound _ msg => marshals (append_entry msg 0) | _ => True end ->
  wp w (run_router_op o) (fun _ r' => dlq (run_st r') = dlq (run_st r)) r.
Proof.
  destruct o as [sc|sc|from msg|msg| |]; cbn [run_router_op]; intros Hm.
  - unfold Register, set_sidecars, set_buffers. wp_step.
    destruct (_ !! _); by wp_step.
  - unfold Unregister, set_sidecars. by wp_step.
  - by apply HandleInbound_dlq.
  - unfold HandleOutbound. wp_step. destruct (_ !! _); wp_step; [|done].
    eapply wp_conseq; [|apply Send_spec]. intros ? r1 [Hx _]. wp_step. by rewrite Hx.
  - eapply wp_conseq; [|apply ReplayWAL_spec]. by intros ? ? (_ & _ & ? & _).
  - eapply wp_conseq; [|apply SendShutdown_spec]. intros ? ? Hx. cbn in Hx |- *. by rewrite Hx.
Qed.
(** A message is off the log, or pending in it. *)
Definition off_log (m : Message) (wl : WAL) : Prop := entries wl !! ID m = None.
Definition pending_in (m : Message) (wl : WAL) : Prop :=
  exists e, entries wl !! ID m = Some e /\ E_Msg e = Some m /\ E_State e = WALPending.
Definition others_kept (m : Message) (wl wl' : WAL) : Prop :=
  forall id, id <> ID m -> entries wl' !! id = entries wl !! id.

(** What holds of a log that no write has failed on. *)
Definition healthy (P : WAL -> Prop) (s : Router B) : Prop :=
  forall wl, wal s = Some wl -> werr (out wl) = false -> P wl.

(** The log has the message it was asked to append, or it has failed. *)
Definition appended (m : Message) (wl0 wl : WAL) : Prop :=
  (exists t, entries wl = <[ID m := append_entry m t]> (entries wl0)) \/
  entries wl = entries wl0 /\ werr (out wl) = true.

Lemma taken_off_log from m wl0 wl r :
  wal (run_st r) = Some wl -> appended m wl0 wl ->
  wp w (log_complete (ID m) ;;; pop_buffer from) (fun _ r' => quiet (run_trace r) (run_trace r') /\
    healthy (fun wl' => off_log m wl' /\ others_kept m wl0 wl') (run_st r')) r.
Proof.
  intros Hwl Hent. wp_step. eapply wp_conseq; [|apply log_complete_spec]. intros [] r1 (_ & Hx1 & Hw1).
  destruct (Hw1 wl Hwl) as (wl1 & Hwl1 & Hst1 & Hent1). wp_step.
  eapply wp_conseq; [|apply pop_buffer_spec]. intros [] r2 ((_ & _ & Hw2 & _) & Hp2 & _).
  split; [eapply extends_trans; [by apply logs_quiet|done]|]. intros wl2 Hwl2 Hh.
  assert (wl2 = wl1) as -> by congruence.
  destruct Hent as [[t Hent]|[_ Hbad]]; [|by rewrite Hst1 in Hh].
  destruct Hent1 as [Hent1|[_ Hbad]]; [|rewrite Hbad in Hh; [done|by rewrite Hent, lookup_insert_eq; eexists]].
  unfold off_log, others_kept. rewrite Hent1, Hent. split; [by rewrite lookup_delete_eq|].
  intros id Hid. by rewrite lookup_delete_ne, lookup_insert_ne.
Qed.

Lemma kept_in_log m wl0 wl r :
  wal (run_st r) = Some wl -> appended m wl0 wl ->
  wp w (scheduleRetry m) (fun _ r' => quiet (run_trace r) (run_trace r') /\
    healthy (fun wl' => pending_in m wl' /\ others_kept m wl0 wl') (run_st r')) r.
Proof.
  intros Hwl Hent. eapply wp_conseq; [|apply scheduleRetry_spec].
  - intros [] r1 (_ & Hx1 & Hw1). split; [by apply logs_quiet|]. intros wl2 Hwl2 Hh.
    destruct (Hw1 wl Hwl) as (wl1 & Hwl1 & Hst1 & Hoth & Hent1). assert (wl2 = wl1) as -> by congruence.
    destruct Hent as [[t Hent]|[_ Hbad]]; [|by rewrite Hst1 in Hh]. rewrite Hent in Hent1, Hoth. split.
    + destruct (Hent1 (append_entry m t)) as (e' & He' & Hm' & Hs'); [by rewrite lookup_insert_eq|].
      exists e'. by rewrite He', Hm', Hs'.
    + intros id Hid. by rewrite Hoth, lookup_insert_ne.
  - intros wl1 e Hwl1 He Hl. assert (wl1 = wl) as -> by congruence.
    destruct Hent as [[t Hent]|[_ Hbad]]; [|congruence]. rewrite Hent, lookup_insert_eq in Hl. by injection Hl as <-.
Qed.

Lemma inbound_outcome from m wl r :
  IsControl m = false -> bridge (run_st r) = true -> wal (run_st r) = Some wl -> marshals (append_entry m 0) ->
  wp w (HandleInbound from m) (fun _ r' => exists ok l1 l2, run_trace r' = run_trace r ++ l1 ++ Bridged m ok :: l2 /\
    Forall not_bridged (l1 ++ l2) /\
    healthy (fun wl' => (if ok : bool then off_log m wl' else pending_in m wl') /\ others_kept m wl wl') (run_st r')) r.
Proof.
  intros Hc Hb Hwl Hm. unfold HandleInbound. rewrite Hc. rewrite wp_bind.
  eapply wp_conseq; [|apply log_append_spec]. intros [] r1 ((_ & Hb1 & _) & Hx1 & Hw1).
  destruct (Hw1 wl Hwl) as (wl1 & Hwl1 & Hent1). rewrite wp_bind.
  eapply wp_conseq; [|apply push_buffer_spec]. intros [] r2 ((_ & Hb2 & Hw2 & _) & Hp2 & _).
  assert (Hq2 : quiet (run_trace r) (run_trace r2)) by (eapply extends_trans; [by apply logs_quiet|done]).
  destruct Hq2 as (l1 & Hl1 & Hq1). rewrite wp_bind, wp_mget, wp_bind.
  assert (Hb2' : bridge (run_st r2) = true) by congruence.
  eapply wp_conseq; [|apply bridge_step_spec]. rewrite Hb2'. intros ok r3 [Hs3 Ht3].
  assert (Hwl3 : wal (run_st r3) = Some wl1) by congruence.
  assert (Happ : appended m wl wl1).
  { destruct Hent1 as [Hent1|[Hent1 Hbad]]; [left; by eexists|right; auto]. }
  assert (Hfin : forall tr, quiet (run_trace r3) tr -> exists l2,
    tr = run_trace r ++ l1 ++ Bridged m ok :: l2 /\ Forall not_bridged (l1 ++ l2)).
  { intros tr (l2 & -> & Hq). exists l2. rewrite Ht3, Hl1, <- !app_assoc. split; [done|]. by apply Forall_app. }
  destruct ok; (eapply wp_conseq; [|first [by eapply taken_off_log|by eapply kept_in_log]]);
    intros [] r4 [Hq Hlog]; destruct (Hfin _ Hq) as (l2 & Ht & Hall); eexists _, l1, l2; by split_and!.
Qed.
End Specs.

(** ** Properties *)

(** C37: The dead letter queue is never reached.  Append writes one attempt and
    the only increment that follows it writes two, below the limit of five, so
    no sequence of handlers, however often the bridge refuses a message, ever
    puts one in the queue: it stays pending until a restart replays it. *)
Theorem dead_letter_unreachable {B} `{Bucket B} `{RangeOrder} (w : Oracle) (s : Router B)
    (ops : list router_op) :
  Forall (fun o => match o with RInbound _ msg => marshals (append_entry msg 0) | _ => True end) ops ->
  dlq (run_st (snd (exec (mfor ops run_router_op) w s))) = dlq s.
Proof.
  intros Hm.
  assert (Hi : wp w (mfor ops run_router_op) (fun _ r => dlq (run_st r) = dlq s) (mkRun s 0 [])).
  { apply wp_mfor; [done|]. intros o r Ho Hr. rewrite Forall_forall in Hm.
    eapply wp_conseq; [|apply run_router_op_dlq, Hm, Ho]. cbn. intros [] r' ->. done. }
  unfold wp, exec in *. by destruct (mfor _ _ w _) as [[] r'].
Qed.

(** C3: What HandleInbound does with a data message on a healthy log: it is
    handed to the bridge exactly once; if the bridge takes it, the log has no
    pending entry for it, otherwise the log keeps the message pending for the
    next replay; no other pending entry changes. *)
Theorem inbound_at_least_once {B} `{Bucket B} `{RangeOrder} (w : Oracle) (s : Router B)
    (from : SidecarConn) (msg : Message) (wl wl' : WAL) (r : Run (Router B) router_event) :
  IsControl msg = false -> bridge s = true -> wal s = Some wl ->
  snd (exec (HandleInbound from msg) w s) = r -> wal (run_st r) = Some wl' ->
  werr (out wl') = false -> marshals (append_entry msg 0) ->
  exists ok l1 l2, run_trace r = l1 ++ Bridged msg ok :: l2 /\
    Forall (fun e => match e with Bridged _ _ => False | _ => True end) (l1 ++ l2) /\
    (if ok : bool then entries wl' !! ID msg = None
     else exists e, entries wl' !! ID msg = Some e /\ E_Msg e = Some msg /\ E_State e = WALPending) /\
    forall id, id <> ID msg -> entries wl' !! id = entries wl !! id.
Proof.
  intros Hc Hb Hwl <- Hwl' Hhealthy Hm.
  pose proof (inbound_outcome w from msg wl (mkRun s 0 []) Hc Hb Hwl Hm) as Hi. unfold wp, exec in *.
  destruct (HandleInbound from msg w _) as [[] r]. cbn [snd run_trace app] in *.
  destruct Hi as (ok & l1 & l2 & Ht & Hq & Hlog). destruct (Hlog wl' Hwl' Hhealthy) as [Hmsg Hoth].
  exists ok, l1, l2. split_and!; [done|done| |done]. by destruct ok.
Qed.

(** ** Backpressure end to end *)

(** A buffer of the default configuration between two handlers, and after the
    push of HandleInbound: once slowed down it stays almost full, because
    every handler pops at most what it has pushed. *)
Definition default_buffer (rb : RingBuffer Message) : Prop :=
  RingBuffer.size rb = 1024%nat /\ highMark rb = f0_8 /\ lowMark rb = f0_3 /\ (count rb <= 1024)%nat.
Definition slow_above (n : nat) (rb : RingBuffer Message) : Prop :=
  default_buffer rb /\
  match state rb with StateNormal => (count rb < 820)%nat | StateSlowDown => (n <= count rb)%nat end.

Lemma slow_above_weaken n n' rb : (n' <= n)%nat -> slow_above n rb -> slow_above n' rb.
Proof. intros Hn [Hd Hs]. split; [done|]. destruct (state rb); lia. Qed.

Lemma push_slow_above rb m : slow_above 819 rb -> slow_above 820 (snd (rb_step rb (OpPush m))).
Proof.
  intros [(Hs & Hh & Hl & Hc) Hst]. pose proof (rb_step_fields rb (OpPush m)) as Hf. cbv zeta in Hf.
  set (rb' := snd (rb_step rb (OpPush m))) in *. clearbody rb'.
  destruct Hf as (Es & Eh & El & [[Hfull ->]|(Hne & Ec & Est)]).
  { split; [done|]. destruct (state rb); lia. }
  split; [split_and!; try congruence; lia|].
  destruct (default_marks (count rb') ltac:(lia)) as [H1 _].
  rewrite Hs, Hh, H1 in Est. rewrite Est. destruct (state rb); decide_state; [|lia].
  case_if.
  - apply Nat.leb_le. done.
  - apply Nat.leb_gt. done.
Qed.

Lemma pop_slow_above rb :
  slow_above 820 rb ->
  slow_above 819 (snd (rb_step rb OpPop)) /\ notified (fst (rb_step rb OpPop)) = None.
Proof.
  intros [(Hs & Hh & Hl & Hc) Hst]. pose proof (rb_step_fields rb OpPop) as Hf. cbv zeta in Hf.
  pose proof (rb_step_notified rb OpPop) as Hn.
  destruct (rb_step rb OpPop) as [o rb']. cbn [fst snd] in *.
  assert (Hsame : state rb' = state rb /\ slow_above 819 rb').
  { destruct Hf as (Es & Eh & El & [[Hz ->]|(Hne & Ec & Est)]).
    { split; [done|]. split; [done|]. destruct (state rb); lia. }
    destruct (default_marks (count rb') ltac:(lia)) as [_ H1].
    rewrite Hs, Hl, H1 in Est. unfold slow_above, default_buffer.
    rewrite Est. destruct (state rb); revert Est; decide_state; intros Est.
    - split; [done|]. split; [split_and!; try congruence; lia|lia].
    - destruct (count rb' <=? 307)%nat eqn:E; [apply Nat.leb_le in E; lia|].
      split; [done|]. split; [split_and!; try congruence; lia|lia]. }
  destruct Hsame as [Hsame Hsl]. split; [done|].
  destruct (notified o) as [t|]; [|done]. destruct Hn as [Hn1 Hn2]. congruence.
Qed.

Definition no_resume (e : router_event) : Prop :=
  match e with Sent _ m _ => Type_ m <> TypeResume | _ => True end.

Section Resume.
Context {B : Type} `{Bucket B} `{RangeOrder} (w : Oracle).
Implicit Types r : Run (Router B) router_event.

Definition resume_inv (n : nat) (ch : option string) r : Prop :=
  bufferSize (run_st r) = 1024 /\ highWatermark (run_st r) = f0_8 /\
  lowWatermark (run_st r) = f0_3 /\ Forall no_resume (run_trace r) /\
  map_Forall (fun c rb => slow_above (if decide (Some c = ch) then n else 819%nat) rb)
    (buffers (run_st r)).

Lemma resume_inv_wal n ch r r' :
  same_but_wal (run_st r) (run_st r') -> extends logs (run_trace r) (run_trace r') ->
  resume_inv n ch r -> resume_inv n ch r'.
Proof.
  intros (_ & _ & _ & Hb & Hs & Hh & Hl & _) (l & Ht & Hlog) (I1 & I2 & I3 & I4 & I5).
  unfold resume_inv. rewrite Hs, Hh, Hl, Hb, Ht. split_and!; try done.
  apply Forall_app. split; [done|]. eapply Forall_impl; [exact Hlog|]. by intros [].
Qed.

Lemma resume_inv_quiet n ch r r' (l : list router_event) :
  run_st r' = run_st r -> run_trace r' = run_trace r ++ l -> Forall no_resume l ->
  resume_inv n ch r -> resume_inv n ch r'.
Proof.
  intros Hs Ht Hl (I1 & I2 & I3 & I4 & I5). unfold resume_inv. rewrite Hs, Ht.
  split_and!; try done. by apply Forall_app.
Qed.

Lemma notifies_no_resume conn ty ch l :
  ty <> TypeResume -> Forall (notifies conn ty ch) l -> Forall no_resume l.
Proof.
  intros Hty Hl. eapply Forall_impl; [exact Hl|]. intros [c m ok|m ok|e|c]; cbn; try done.
  by intros (_ & -> & _).
Qed.

Lemma resume_inv_weaken ch r : resume_inv 820 ch r -> resume_inv 819 None r.
Proof.
  intros (I1 & I2 & I3 & I4 & I5). split_and!; try done.
  intros c rb Hc. specialize (I5 c rb Hc). cbn beta in I5.
  rewrite (decide_False (P := Some c = None)) by done.
  destruct (decide (Some c = ch)); [|done]. by apply (slow_above_weaken 820); [lia|].
Qed.

(** A retry sends nothing to any sidecar and leaves the buffers alone. *)
Lemma scheduleRetry_frame msg r :
  wp w (scheduleRetry msg) (fun _ r' =>
    buffers (run_st r') = buffers (run_st r) /\ bufferSize (run_st r') = bufferSize (run_st r) /\
    highWatermark (run_st r') = highWatermark (run_st r) /\
    lowWatermark (run_st r') = lowWatermark (run_st r) /\
    extends no_resume (run_trace r) (run_trace r')) r.
Proof.
  assert (Hx : forall tr tr', extends logs tr tr' -> extends no_resume tr tr').
  { intros tr tr'. apply extends_weaken. by intros []. }
  unfold scheduleRetry. wp_step. destruct (wal (run_st r)) as [wl|] eqn:Hw; wp_step.
  2:{ split_and!; try done. apply extends_refl. }
  eapply wp_conseq; [|eapply on_wal_frame; [done|apply wp_True]].
  intros res r1 ((_ & _ & _ & Hb1 & Hs1 & Hh1 & Hl1 & _) & Hx1 & q & _ & Hw1). destruct res as [n|e]; wp_step.
  2:{ split_and!; auto. }
  destruct (maxRetryAttempts <=? n); wp_step; [|by split_and!; auto].
  unfold on_wal at 1. wp_step. eapply wp_conseq; [|apply wp_True].
  intros res q2 _. wp_step.
  assert (Hx2 : extends no_resume (run_trace r) (run_trace r1 ++ map Logged (run_trace q2))).
  { eapply extends_trans; [by apply Hx|]. exists (map Logged (run_trace q2)). split; [done|].
    by apply Forall_map, Forall_true. }
  destruct (dlq (run_st r)) as [d|]; wp_step; [|by split_and!].
  unfold on_dlq. wp_step. eapply wp_conseq; [|apply Put_quiet]. cbn [run_trace].
  intros res2 q3 Hq3. wp_step. rewrite Hq3. cbn [map]. rewrite app_nil_r. by split_and!.
Qed.

Lemma HandleInbound_resume from msg r :
  resume_inv 819 None r -> wp w (HandleInbound from msg) (fun _ => resume_inv 819 None) r.
Proof.
  intros Hi. unfold HandleInbound. destruct (IsControl msg).
  { eapply wp_conseq; [|apply handleControl_spec]. intros _ r1 [Hs Ht].
    destruct (decide _).
    - destruct Ht as (ack & ok & Ht & Hty & _). eapply resume_inv_quiet; [done|exact Ht| |done].
      repeat constructor. cbn. by rewrite Hty.
    - eapply (resume_inv_quiet _ _ _ _ []); [done|by rewrite app_nil_r|constructor|done]. }
  wp_step. eapply wp_conseq; [|apply log_append_spec]. intros [] r1 (Hs1 & Hx1 & _).
  pose proof (resume_inv_wal _ _ _ _ Hs1 Hx1 Hi) as Hi1. wp_step.
  eapply wp_conseq; [|apply push_buffer_spec].
  intros [] r2 ((_ & _ & _ & _ & Hb2 & Hh2 & Hl2) & _ & Hp2).
  assert (Hi2 : resume_inv 820 (Some (sc_Channel from)) r2).
  { destruct Hi1 as (I1 & I2 & I3 & I4 & I5). unfold resume_inv. rewrite Hb2, Hh2, Hl2.
    destruct (buffers (run_st r1) !! sc_Channel from) as [rb|] eqn:Hrb.
    - destruct Hp2 as (-> & l & -> & Hl & _). split_and!; try done.
      + apply Forall_app. split; [done|]. by eapply notifies_no_resume; [|exact Hl].
      + intros c rb' [[<- <-]|[Hne Hc]]%lookup_insert_Some.
        * rewrite decide_True by done. apply push_slow_above. by apply (I5 _ rb Hrb).
        * rewrite decide_False by congruence. by apply (I5 c).
    - destruct Hp2 as [-> ->]. split_and!; try done. intros c rb' Hc.
      rewrite decide_False by congruence. by apply (I5 c). }
  wp_step. eapply wp_conseq; [|apply bridge_step_spec]. intros ok r3 [Hs3 Ht3].
  assert (Hi3 : resume_inv 820 (Some (sc_Channel from)) r3).
  { destruct (bridge (run_st r2)).
    - eapply resume_inv_quiet; [done|exact Ht3| |done]. by repeat constructor.
    - destruct Ht3 as [_ Ht3]. eapply (resume_inv_quiet _ _ _ _ []); [done|by rewrite app_nil_r|constructor|done]. }
  destruct ok; wp_step.
  - eapply wp_conseq; [|apply log_complete_spec]. intros [] r4 (Hs4 & Hx4 & _).
    pose proof (resume_inv_wal _ _ _ _ Hs4 Hx4 Hi3) as (I1 & I2 & I3 & I4 & I5). wp_step.
    eapply wp_conseq; [|apply pop_buffer_spec].
    intros [] r5 ((_ & _ & _ & _ & Hb5 & Hh5 & Hl5) & _ & Hp5).
    unfold resume_inv. rewrite Hb5, Hh5, Hl5.
    destruct (buffers (run_st r4) !! sc_Channel from) as [rb|] eqn:Hrb.
    + destruct Hp5 as (-> & l & -> & Hl & Hlen).
      pose proof (I5 _ rb Hrb) as Hrb5. cbn in Hrb5. rewrite decide_True in Hrb5 by done.
      destruct (pop_slow_above rb Hrb5) as [Hpop Hnot]. rewrite Hnot in Hlen.
      destruct l; [|done]. split_and!; try done; [by rewrite app_nil_r|].
      intros c rb' [[<- <-]|[Hne Hc]]%lookup_insert_Some; [done|].
      specialize (I5 c rb' Hc). cbn in I5. by rewrite decide_False in I5 by congruence.
    + destruct Hp5 as [-> ->]. split_and!; try done. intros c rb' Hc. specialize (I5 c rb' Hc).
      cbn in I5. by rewrite decide_False in I5 by congruence.
  - eapply wp_conseq; [|apply scheduleRetry_frame].
    intros [] r4 (Hb4 & Hs4 & Hh4 & Hl4 & l & Ht4 & Hl). apply (resume_inv_weaken (Some (sc_Channel from))).
    destruct Hi3 as (I1 & I2 & I3 & I4 & I5). unfold resume_inv.
    rewrite Hb4, Hs4, Hh4, Hl4, Ht4. split_and!; try done. by apply Forall_app.
Qed.

Lemma run_router_op_resume o r :
  match o with ROutbound m => Type_ m <> TypeResume | _ => True end ->
  resume_inv 819 None r -> wp w (run_router_op o) (fun _ => resume_inv 819 None) r.
Proof.
  intros Ho Hi. destruct o as [sc|sc|from msg|msg| |]; cbn [run_router_op].
  - destruct Hi as (I1 & I2 & I3 & I4 & I5).
    unfold Register, set_sidecars, set_buffers. wp_step. cbn [buffers bufferSize highWatermark lowWatermark].
    destruct (buffers (run_st r) !! sc_Channel sc); wp_step; [done|].
    split_and!; try done. cbn [run_st buffers]. apply map_Forall_insert_2; [|done].
    rewrite decide_False by done. rewrite I1, I2, I3. split; [split_and!; reflexivity || (cbn; lia)|].
    cbn. lia.
  - unfold Unregister, set_sidecars. by wp_step.
  - by apply HandleInbound_resume.
  - unfold HandleOutbound. wp_step. destruct (sidecars (run_st r) !! Channel msg) as [sc|]; wp_step; [|done].
    eapply wp_conseq; [|apply Send_spec]. intros ? r1 [Hs Ht]. wp_step.
    eapply resume_inv_quiet; [done|exact Ht| |done]. by repeat constructor.
  - unfold ReplayWAL. wp_step. destruct (wal (run_st r)) as [wl|] eqn:Hw; wp_step; [|done].
    eapply wp_conseq; [|eapply on_wal_frame; [done|apply wp_True]].
    intros l r1 (Hs1 & Hx1 & _). pose proof (resume_inv_wal _ _ _ _ Hs1 Hx1 Hi) as Hi1. wp_step.
    apply wp_mfor; [done|]. intros e r2 _ Hi2. unfold replay_entry.
    destruct (E_Msg e) as [m|]; wp_step; [|done].
    eapply wp_conseq; [|apply bridge_step_spec]. intros ok r3 [Hs3 Ht3].
    assert (Hi3 : resume_inv 819 None r3).
    { destruct (bridge (run_st r2)).
      - eapply resume_inv_quiet; [done|exact Ht3| |done]. by repeat constructor.
      - destruct Ht3 as [_ Ht3]. eapply (resume_inv_quiet _ _ _ _ []); [done|by rewrite app_nil_r|constructor|done]. }
    destruct ok; wp_step; [|done].
    eapply wp_conseq; [|apply log_complete_spec]. intros [] r4 (Hs4 & Hx4 & _).
    by eapply resume_inv_wal.
  - unfold SendShutdown. wp_step. apply wp_mfor; [done|]. intros [ch sc] r1 _ Hi1.
    unfold NewMessage, Send. wp_step. eapply (resume_inv_quiet 819 None r1); [reflexivity|reflexivity| |exact Hi1].
    by repeat constructor.
Qed.
End Resume.

(** Property: With the default configuration a sidecar that has been told to slow
    down is never told to resume: each handler pops at most the message it
    pushed, so the fill level of a slowed-down buffer never falls below 819 of
    1024 messages, while resume needs 307.  (The SDK client blocks in Send
    until it hears resume.) *)
Theorem resume_never_sent {B} `{Bucket B} `{RangeOrder} (w : Oracle) (cfg : RouterConfig B)
    (ops : list router_op) :
  cfg_BufferSize cfg <= 0 -> fle (cfg_HighWatermark cfg) f0 = true ->
  fle (cfg_LowWatermark cfg) f0 = true ->
  Forall (fun o => match o with ROutbound m => Type_ m <> TypeResume | _ => True end) ops ->
  Forall no_resume (run_trace (snd (exec (mfor ops run_router_op) w (NewRouter cfg)))).
Proof.
  intros Hs Hh Hl Hops.
  assert (Hinit : resume_inv 819 None (mkRun (NewRouter cfg) 0 [])).
  { unfold resume_inv, NewRouter. cbn [run_st bufferSize highWatermark lowWatermark buffers].
    apply Z.leb_le in Hs. rewrite Hs, Hh, Hl. cbn [orb]. by split_and!. }
  assert (Hi : wp w (mfor ops run_router_op) (fun _ => resume_inv 819 None) (mkRun (NewRouter cfg) 0 [])).
  { apply wp_mfor; [done|]. intros o r Ho Hr. rewrite Forall_forall in Hops.
    by apply run_router_op_resume; [apply Hops|]. }
  unfold wp, exec in *. destruct (mfor _ _ w _) as [[] r]. by destruct Hi as (_ & _ & _ & ? & _).
Qed.

(** ** Witnesses *)

Definition sc1 : SidecarConn := mkSC "slack" "register" 1.
Definition sc2 : SidecarConn := mkSC "slack" "register" 2.

Definition sample_router (bridged : bool) : Router (gmap string bytes) :=
  NewRouter (mkRouterConfig bridged (Some (opened [])) (Some (mkDLQ ∅ 10 1000)) 0 f0 f0).

(** A bridge that refuses everything; the disk works. *)
Definition bridge_down : Oracle :=
  mkOracle (fun n => false) (fun n => "u"%string) (fun n => 1700000000000000000) (fun _ => 0%nat).

Lemma dead_letter_unreachable_witness :
  dlq (run_st (snd (exec (mfor [RRegister sc1; RInbound sc1 (sample_message "1");
    RInbound sc1 (sample_message "2"); RReplay] (run_router_op (H0 := sorted_range)))
    bridge_down (sample_router true)))) = dlq (sample_router true).
Proof.
  apply (dead_letter_unreachable (H0 := sorted_range)).
  repeat constructor; (eexists; vm_compute; reflexivity).
Defined.

Lemma inbound_at_least_once_witness :
  let r := snd (exec (HandleInbound sc1 (sample_message "1")) bridge_down (sample_router true)) in
  exists wl' ok l1 l2, wal (run_st r) = Some wl' /\
    run_trace r = l1 ++ Bridged (sample_message "1") ok :: l2 /\ ok = false /\
    exists e, entries wl' !! "1"%string = Some e /\ E_Msg e = Some (sample_message "1").
Proof.
  cbn zeta. set (r := snd _).
  assert (Hw : exists wl', wal (run_st r) = Some wl' /\ werr (out wl') = false).
  { subst r. eexists. split; vm_compute; reflexivity. }
  destruct Hw as (wl' & Hwl' & He).
  destruct (inbound_at_least_once (H0 := sorted_range) bridge_down (sample_router true) sc1 (sample_message "1")
    (opened []) wl' r) as (ok & l1 & l2 & Ht & Hq & Hres & _).
  - vm_compute. reflexivity.
  - reflexivity.
  - reflexivity.
  - reflexivity.
  - exact Hwl'.
  - exact He.
  - eexists. vm_compute. reflexivity.
  - exists wl', ok, l1, l2. split; [exact Hwl'|]. split; [exact Ht|].
    assert (ok = false) as ->.
    { destruct ok; [|reflexivity]. exfalso.
      assert (Hin : Bridged (sample_message "1") true ∈ run_trace r).
      { rewrite Ht. apply elem_of_app. right. by left. }
      clear -Hin. subst r. vm_compute in Hin.
      repeat (apply elem_of_cons in Hin as [Hin|Hin]; [discriminate Hin|]).
      by apply not_elem_of_nil in Hin. }
    split; [reflexivity|]. destruct Hres as (e & Hl & Hm & _). exists e. by split.
Defined.

Lemma resume_never_sent_witness :
  Forall no_resume (run_trace (snd (exec (mfor [RRegister sc1; RInbound sc1 (sample_message "1")]
    (run_router_op (H0 := sorted_range))) all_ok (sample_router true)))).
Proof.
  apply (resume_never_sent (H0 := sorted_range)).
  - done.
  - reflexivity.
  - reflexivity.
  - repeat constructor.
Defined.

(** A connection that ends after a newer one registered for its channel
    removes the newer one: messages for the channel then find no sidecar. *)
Example unregister_drops_newer :
  let r := snd (exec (E := router_event) (Register sc1 ;;; Register sc2 ;;; Unregister sc1)
                 all_ok (sample_router true)) in
  sidecars (run_st r) = ∅ /\
  run_trace (snd (HandleOutbound (sample_message "1") all_ok r)) = [].
Proof. vm_compute. done. Qed.
