(* ===== verification/Bridges.v ===== *)
(** * The bridges to the claw runtimes (internal/ipcbus/bridge*.go)

    Four transports behind one interface: framed messages over TCP or a Unix
    socket, WebSocket text messages, and Server-Sent Events with HTTP POST.
    A reader goroutine is a function from what the peer sends and from the
    choices of its selects to the messages it delivers to the router. *)

From S2P Require Import Prelude.
From S2P Require Import GoStrings.
From S2P Require Import Json.
From S2P Require Import Message.
From S2P Require Import Framing.
From S2P Require Import GoIO.

(** ** bridge.go *)

Inductive Bridge :=
| WebSocketBridge (url : string)
| UDSBridge (path : string)
| SSEBridge (baseURL : string)
| TCPBridge (addr : string).

Definition RuntimeOpenClaw : string := "openclaw".
Definition RuntimeNanoClaw : string := "nanoclaw".
Definition RuntimeZeroClaw : string := "zeroclaw".
Definition RuntimePicoClaw : string := "picoclaw".

Record BridgeConfig := mkBridgeConfig { GatewayPort : Z; SocketPath : string }.

Definition sprint_int (n : Z) : string := String.string_of_list_ascii (format_int n).

(** [None] is the error for an unsupported runtime type. *)
Definition NewBridge (rt : string) (cfg : BridgeConfig) : option Bridge :=
  if decide (rt = RuntimeOpenClaw) then
    Some (WebSocketBridge ("ws://localhost:" +:+ sprint_int (GatewayPort cfg)))
  else if decide (rt = RuntimeNanoClaw) then Some (UDSBridge (SocketPath cfg))
  else if decide (rt = RuntimeZeroClaw) then
    Some (SSEBridge ("http://localhost:" +:+ sprint_int (GatewayPort cfg)))
  else if decide (rt = RuntimePicoClaw) then
    Some (TCPBridge ("localhost:" +:+ sprint_int (GatewayPort cfg)))
  else None.

Inductive bridge_error :=
| ErrDial | ErrNotConnected | ErrSend (e : frame_error) | ErrMarshalMessage | ErrRequest
| ErrPost | ErrStatus (code : Z) | ErrClose.

Inductive bridge_event := BWrote (conn : nat) (data : bytes) | BConnClosed (conn : nat).

(** A goroutine that dereferences a nil connection takes the process down. *)
Inductive outcome (A : Type) := Finished (a : A) | Panic.
Arguments Finished {A} a.
Arguments Panic {A}.

(** The choices of the selects around [ch <- msg], in order: [true] if the
    message was taken, [false] if the context was cancelled or the bridge
    closed.  When the list ends the reader has been stopped. *)
Abbreviation choices := (list bool).

(** ** bridge_stream.go, bridge_tcp.go, bridge_uds.go *)

Record streamBridge := mkStream { s_conn : option nat; s_closed : bool }.

Definition newStreamBridge : streamBridge := mkStream None false.

Section Stream.
Abbreviation SM := (M streamBridge bridge_event).

(** [Connect] of both: dial, and keep the connection ([cn] is its identity). *)
Definition Connect (cn : nat) : SM (result bridge_error unit) :=
  let* ok := io in
  if ok then mmodify (fun b => mkStream (Some cn) (s_closed b)) ;;; mret (Ok tt)
  else mret (Err ErrDial).

Definition stream_Send (msg : Message) : SM (result bridge_error unit) :=
  let* b := mget in
  match s_conn b with
  | None => mret (Err ErrNotConnected)
  | Some cn =>
      match WriteMessage wire_write msg [] with
      | (_, Err e) => mret (Err (ErrSend e))
      | (data, Ok _) =>
          let* ok := io in
          if ok then emit (BWrote cn data) ;;; mret (Ok tt)
          else (let* n := partial in emit (BWrote cn (take n data))) ;;;
               mret (Err (ErrSend ErrWrite))
      end
  end.

(** The loop of the reader goroutine on the incoming bytes [s]. *)
Fixpoint stream_read (sel : choices) (s : bytes) : list Message :=
  match ReadMessage s with
  | (Err _, _) => []
  | (Ok m, s') =>
      match sel with
      | true :: sel' => m :: stream_read sel' s'
      | _ => []
      end
  end.

Definition stream_Receive (b : streamBridge) (sel : choices) (s : bytes)
    : outcome (list Message) :=
  match s_conn b with
  | None => Panic
  | Some _ => Finished (stream_read sel s)
  end.

Definition stream_Close : SM (result bridge_error unit) :=
  let* b := mget in
  if s_closed b then mret (Ok tt)
  else
    mput (mkStream (s_conn b) true) ;;;
    match s_conn b with
    | None => mret (Ok tt)
    | Some cn =>
        emit (BConnClosed cn) ;;;
        let* ok := io in mret (if ok then Ok tt else Err ErrClose)
    end.

(** What main does: Connect, whose failure is only logged, then the outbound
    loop's Receive. *)
Definition connect_and_receive (cn : nat) (sel : choices) (s : bytes)
    : SM (outcome (list Message)) :=
  let* _ := Connect cn in
  let* b := mget in
  mret (stream_Receive b sel s).
End Stream.

(** ** bridge_ws.go

    A WebSocket message is one JSON document; [frames] is what Read returns
    until its first error.  [ws_Send] and [ws_Receive] are about a connected
    bridge; on the nil connection that a failed dial leaves, the library
    dereferences it ([Server.replay_unconnected]). *)

Definition ws_Send (cn : nat) (msg : Message) : M unit bridge_event (result bridge_error unit) :=
  match marshal msg with
  | None => mret (Err ErrMarshalMessage)
  | Some data =>
      let* ok := io in
      if ok then emit (BWrote cn data) ;;; mret (Ok tt) else mret (Err (ErrSend ErrWrite))
  end.

Fixpoint ws_Receive (sel : choices) (frames : list bytes) : list Message :=
  match frames with
  | [] => []
  | data :: frames' =>
      match unmarshal data with
      | None => ws_Receive sel frames'
      | Some m => match sel with true :: sel' => m :: ws_Receive sel' frames' | _ => [] end
      end
  end.

(** ** bridge_sse.go *)

Definition maxSSELine : Z := 1024 * 1024.

(** [Send]: a POST, whose outcome is a transport failure or a status code. *)
Definition sse_Send (msg : Message) (response : option Z) : result bridge_error unit :=
  match marshal msg with
  | None => Err ErrMarshalMessage
  | Some _ =>
      match response with
      | None => Err ErrPost
      | Some status => if 300 <=? status then Err (ErrStatus status) else Ok tt
      end
  end.

Definition join_lines (l : list bytes) : bytes :=
  match l with
  | [] => []
  | d :: l' => d ++ flat_map (fun x => nl :: x) l'
  end.

(** The value of a data line. *)
Definition data_value (l : bytes) : option bytes :=
  if has_prefix (bytes_of "data:") l then
    match cut_prefix (bytes_of "data: ") l with
    | Some v => Some v
    | None => cut_prefix (bytes_of "data:") l
    end
  else None.

(** The scan loop over the lines; the flag tells that a select stopped it. *)
Fixpoint sse_lines (data_lines : list bytes) (sel : choices) (ls : list bytes)
    : list Message * bool * choices :=
  match ls with
  | [] => ([], false, sel)
  | l :: ls' =>
      match data_value l with
      | Some v => sse_lines (data_lines ++ [v]) sel ls'
      | None =>
          match l, data_lines with
          | [], _ :: _ =>
              match unmarshal (join_lines data_lines) with
              | None => sse_lines [] sel ls'
              | Some m =>
                  match sel with
                  | true :: sel' =>
                      let '(ms, stopped, sel2) := sse_lines [] sel' ls' in (m :: ms, stopped, sel2)
                  | _ => ([], true, [])
                  end
              end
          | _, _ => sse_lines data_lines sel ls'
          end
      end
  end.

(** One connection to /events: [None] if the request fails, otherwise the
    bytes of the body and whether reading it ended with an error rather than
    with the end of the stream.  The result says whether an error is returned. *)
Definition readSSEStream (sel : choices) (conn : option (bytes * bool))
    : list Message * bool * choices :=
  match conn with
  | None => ([], true, sel)
  | Some (body, read_failed) =>
      let '(ls, fit) := scan_lines maxSSELine body in
      let '(ms, stopped, sel') := sse_lines [] sel ls in
      (ms, negb stopped && (read_failed || negb fit), sel')
  end.

Definition second : Z := 1000000000.

Definition next_backoff (b : Z) : Z :=
  let b' := b * 2 in if 30 * second <? b' then 30 * second else b'.

(** The reconnection loop over what the successive connections give, until
    the list ends (the context is cancelled or the bridge closed): the
    messages delivered, the waits, and whether the goroutine returned while
    connections were still to come. *)
Fixpoint readSSELoop (backoff : Z) (sel : choices) (conns : list (option (bytes * bool)))
    : list Message * list Z * bool :=
  match conns with
  | [] => ([], [], false)
  | conn :: conns' =>
      let '(ms, failed, sel') := readSSEStream sel conn in
      if failed : bool then
        let '(ms', waits, ended) := readSSELoop (next_backoff backoff) sel' conns' in
        (ms ++ ms', backoff :: waits, ended)
      else (ms, [], true)
  end.

Definition sse_Receive (sel : choices) (conns : list (option (bytes * bool))) :=
  readSSELoop second sel conns.

(** [Close]: idempotent; the flags are [closed] and whether there is a reader
    to cancel. *)
Record sseState := mkSSE { sse_cancel : bool; sse_closed : bool; sse_cancelled : bool }.
Definition sse_Close (b : sseState) : sseState :=
  if sse_closed b then b else mkSSE (sse_cancel b) true (sse_cancelled b || sse_cancel b).

(** ** What a server sends: events and comments *)

Inductive sse_item := SEvent (m : Message) | SComment (c : bytes).

Definition item_lines (i : sse_item) : list bytes :=
  match i with
  | SEvent m => [bytes_of "data: " ++ default [] (marshal m); []]
  | SComment c => [c]
  end.

Definition sse_body (l : list sse_item) : bytes := concat (map line (flat_map item_lines l)).

Definition item_ok (i : sse_item) : Prop :=
  match i with
  | SEvent m => json_ok m /\ exists d, marshal m = Some d /\ Z.of_nat (length d) + 7 <= maxSSELine
  | SComment c => no_ctl c = true /\ data_value c = None /\ Z.of_nat (length c) + 1 <= maxSSELine
  end.

Definition item_message (i : sse_item) : list Message :=
  match i with SEvent m => [norm_message m] | SComment _ => [] end.

Lemma item_lines_ok i l :
  item_ok i -> l ∈ item_lines i -> no_ctl l = true /\ Z.of_nat (length l) + 1 <= maxSSELine.
Proof.
  destruct i as [m|c]; cbn [item_ok item_lines]; intros Hi Hl.
  - destruct Hi as (Hok & d & Hd & Hlen). rewrite Hd in Hl. cbn [default from_option id] in Hl.
    apply elem_of_cons in Hl as [->|Hl].
    + rewrite no_ctl_app, (marshal_no_ctl m d) by done. rewrite length_app. cbn [length bytes_of].
      split; [done|]. change (length (bytes_of "data: ")) with 6%nat. lia.
    + apply list_elem_of_singleton in Hl as ->. done.
  - apply list_elem_of_singleton in Hl as ->. by destruct Hi as (? & _ & ?).
Qed.

Lemma scan_sse_body l :
  Forall item_ok l -> scan_lines maxSSELine (sse_body l) = (flat_map item_lines l, true).
Proof.
  intros Hok. unfold scan_lines, sse_body.
  assert (Hl : forall x, x ∈ flat_map item_lines l ->
    no_ctl x = true /\ Z.of_nat (length x) + 1 <= maxSSELine).
  { intros x Hx. apply list_elem_of_In, in_flat_map in Hx as (i & Hi & Hx).
    rewrite Forall_forall in Hok. apply list_elem_of_In in Hi, Hx. exact (item_lines_ok i x (Hok i Hi) Hx). }
  rewrite <- (app_nil_r (concat _)), lines_concat.
  - rewrite app_nil_r, fit_lines_all.
    + f_equal. rewrite <- (map_id (flat_map _ _)) at 2. apply map_ext_in. intros x Hx.
      apply list_elem_of_In in Hx. apply drop_cr_id, (no_ctl_not_elem x 13); [by apply Hl|lia].
    + apply Forall_forall. intros x Hx. by apply Hl.
  - apply Forall_forall. intros x Hx. apply (no_ctl_not_elem x 10); [by apply Hl|lia].
  - by apply not_elem_of_nil.
Qed.

(** A blank line with no data, and a comment, change nothing; an event gives
    its message. *)
Lemma sse_lines_items l sel :
  Forall item_ok l -> (length (flat_map item_message l) <= length sel)%nat ->
  Forall (eq true) sel ->
  sse_lines [] sel (flat_map item_lines l) =
  (flat_map item_message l, false, drop (length (flat_map item_message l)) sel).
Proof.
  intros Hok. revert sel. induction Hok as [|i l Hi Hok IH]; intros sel Hlen Hsel; [done|].
  destruct i as [m|c]; cbn [flat_map item_lines item_message app] in *.
  - destruct Hi as (Hj & d & Hd & _). rewrite Hd. cbn [default from_option id].
    cbn [sse_lines]. unfold data_value, has_prefix.
    assert (Hp : cut_prefix (bytes_of "data:") (bytes_of "data: " ++ d) = Some (" "%char :: d))
      by exact (cut_prefix_app (bytes_of "data:") (" "%char :: d)).
    rewrite Hp, bool_decide_true by by eexists. rewrite cut_prefix_app. cbn [app sse_lines].
    change (cut_prefix (bytes_of "data:") []) with (@None bytes).
    rewrite bool_decide_false by by intros []. cbn [join_lines flat_map]. rewrite app_nil_r.
    rewrite (marshal_unmarshal m d Hj Hd). cbn [length] in Hlen.
    destruct sel as [|b sel]; [cbn in Hlen; lia|]. inversion_clear Hsel as [|?? <- Hs].
    rewrite IH by (done || (cbn [length] in Hlen; lia)). done.
  - destruct Hi as (_ & Hv & _). cbn [sse_lines]. rewrite Hv.
    destruct c; by apply IH.
Qed.

Lemma next_backoff_min b : 0 < b <= 30 * second -> next_backoff b = Z.min (b * 2) (30 * second).
Proof. intros Hb. unfold next_backoff. case_if; lia. Qed.

Lemma stream_read_prefix (l : list Message) ds p q sel :
  Forall json_ok l -> Forall2 frame_of l ds ->
  concat (map (fun d => PutUint32 (Z.of_nat (length d)) ++ d) ds) = p ++ q ->
  exists k, stream_read sel p = take k (map norm_message l) /\
    (q = [] -> Forall (eq true) sel -> (length l <= length sel)%nat -> k = length l).
Proof.
  intros Hok HF. revert p q sel. induction HF as [|a d l ds Hd HF IH]; intros p q sel Hpq.
  - cbn in Hpq. symmetry in Hpq. apply app_nil in Hpq as [-> ->]. exists 0%nat. by destruct sel.
  - inversion_clear Hok as [|?? Ha Hl]. cbn [map concat] in Hpq.
    set (f := PutUint32 (Z.of_nat (length d)) ++ d) in *.
    destruct (decide (length f <= length p)%nat) as [Hle|Hlt].
    + assert (exists p', p = f ++ p') as [p' ->].
      { exists (drop (length f) p). rewrite <- (take_drop (length f) p) at 1. f_equal.
        apply (f_equal (take (length f))) in Hpq.
        rewrite take_app_length, take_app_le in Hpq by done. done. }
      rewrite <- app_assoc in Hpq. apply app_inv_head in Hpq.
      assert (Hr : ReadMessage (f ++ p') = (Ok (norm_message a), p')).
      { subst f. rewrite <- app_assoc. exact (read_frame_frame a d p' Ha Hd). }
      destruct sel as [|[] sel]; cbn [stream_read]; rewrite Hr.
      * exists 0%nat. split; [done|]. cbn. lia.
      * destruct (IH Hl p' q sel Hpq) as (k & -> & Hk). exists (S k). split; [done|].
        intros Hq Hs Hlen. inversion_clear Hs. cbn in *. f_equal. apply Hk; [done..|lia].
      * exists 0%nat. split; [done|]. intros _ Hs. by inversion Hs.
    + exists 0%nat. split.
      * assert (Hcut : exists q', p ++ q' = f /\ q' <> []).
        { exists (drop (length p) f). split.
          - rewrite <- (take_drop (length p) f) at 2. f_equal.
            apply (f_equal (take (length p))) in Hpq.
            rewrite take_app_length, take_app_le in Hpq by lia. done.
          - intros E. apply (f_equal length) in E. rewrite length_drop in E. cbn [length] in E. lia. }
        destruct Hcut as (q' & Hf & Hq'). destruct (read_frame_cut a d p q' Hd Hf Hq') as (e & He & _).
        unfold stream_read, ReadMessage. destruct sel; destruct (read_frame p) as [res s'];
          cbn [fst] in He; by rewrite He.
      * intros -> _ _. rewrite app_nil_r in Hpq. apply (f_equal length) in Hpq.
        rewrite length_app in Hpq. lia.
Qed.

(** ** Properties *)

(** Property: A stream bridge delivers what the runtime sent, in order: whatever cut
    short the connection and whichever select stopped the reader, the
    messages delivered are the first ones written; with the whole stream read
    and every message taken, all of them. *)
Theorem stream_bridge_delivers (l : list Message) (stream p q : bytes) (sel : choices) (b : streamBridge)
    (cn : nat) :
  Forall json_ok l -> write_all l [] = (stream, Ok tt) -> stream = p ++ q -> s_conn b = Some cn ->
  exists k, stream_Receive b sel p = Finished (take k (map norm_message l)) /\
    (q = [] -> Forall (eq true) sel -> (length l <= length sel)%nat -> k = length l).
Proof.
  intros Hok Hw -> Hc. apply write_all_app in Hw as (ds & Hds & Hs). cbn [app] in Hs.
  destruct (stream_read_prefix l ds p q sel Hok Hds (eq_sym Hs)) as (k & Hk & Hall).
  exists k. unfold stream_Receive. by rewrite Hc, Hk.
Qed.

(** Property: A runtime that is not up yet crashes the bus.  main logs the failure of
    Connect and goes on; Send then fails with an error, but the reader that
    Receive starts dereferences the connection that is not there. *)
Theorem receive_without_connection_panics (w : Oracle) (cn : nat) (sel : choices) (s : bytes)
    (m : Message) :
  fst (exec (connect_and_receive cn sel s) w newStreamBridge) =
    (if o_ok w 0 then Finished (stream_read sel s) else Panic) /\
  fst (exec (stream_Send m) w newStreamBridge) = Err ErrNotConnected.
Proof.
  split; [|done]. unfold exec, connect_and_receive, Connect, mbind, io, mget. cbn.
  by destruct (o_ok w 0).
Qed.

(** C30: Server-Sent Events round trip.  A body of events, each the JSON of a
    message on one data line, with comments between them, is read as those
    messages in order, without an error. *)
Theorem sse_stream_roundtrip (l : list sse_item) (sel : choices) :
  Forall item_ok l -> (length (flat_map item_message l) <= length sel)%nat ->
  Forall (eq true) sel ->
  readSSEStream sel (Some (sse_body l, false)) =
  (flat_map item_message l, false, drop (length (flat_map item_message l)) sel).
Proof.
  intros Hok Hlen Hsel. unfold readSSEStream. by rewrite scan_sse_body, sse_lines_items.
Qed.

(** Property: The waits between reconnections double from one second and are capped
    at thirty. *)
Theorem sse_backoff_capped (sel : choices) (conns : list (option (bytes * bool))) (i : nat) (t : Z) :
  snd (fst (sse_Receive sel conns)) !! i = Some t ->
  t = Z.min (second * 2 ^ Z.of_nat i) (30 * second).
Proof.
  assert (Hgen : forall b, 0 < b <= 30 * second -> forall i t,
    snd (fst (readSSELoop b sel conns)) !! i = Some t -> t = Z.min (b * 2 ^ Z.of_nat i) (30 * second)).
  2:{ apply (Hgen second). done. }
  revert sel. induction conns as [|c conns IH]; intros sel b Hb j u; [done|].
  cbn [readSSELoop]. destruct (readSSEStream sel c) as [[ms []] sel']; [|done].
  assert (Hn : 0 < next_backoff b <= 30 * second) by (rewrite next_backoff_min; [unfold second|done]; lia).
  specialize (IH sel' (next_backoff b) Hn).
  destruct (readSSELoop _ sel' conns) as [[ms' waits] ended]. cbn [fst snd] in *.
  destruct j as [|j]; cbn [lookup list_lookup].
  - intros [= <-]. change (2 ^ Z.of_nat 0) with 1. lia.
  - intros Hj. apply IH in Hj. rewrite Hj, next_backoff_min by done.
    rewrite Nat2Z.inj_succ, Z.pow_succ_r by lia.
    pose proof (Z.pow_pos_nonneg 2 (Z.of_nat j) ltac:(lia) ltac:(lia)). nia.
Qed.

(** Property: A server that ends the stream cleanly is not reconnected: readSSELoop
    returns as if it had been told to stop, and whatever later connections
    would give is never read. *)
Theorem sse_clean_end_is_final (l : list sse_item) (sel : choices) (conns : list (option (bytes * bool))) :
  Forall item_ok l -> (length (flat_map item_message l) <= length sel)%nat ->
  Forall (eq true) sel ->
  sse_Receive sel (Some (sse_body l, false) :: conns) = (flat_map item_message l, [], true).
Proof.
  intros Hok Hlen Hsel. unfold sse_Receive. cbn [readSSELoop].
  unfold readSSEStream. by rewrite scan_sse_body, sse_lines_items.
Qed.

(** ** Witnesses *)

Definition sample_items : list sse_item :=
  [SEvent (sample_message "1"); SComment (bytes_of ": ping"); SEvent (sample_message "2")].

Definition event_okb (m : Message) : bool :=
  match marshal m with Some d => Z.of_nat (length d) + 7 <=? maxSSELine | None => false end.

Lemma event_ok m : json_ok m -> event_okb m = true -> item_ok (SEvent m).
Proof.
  unfold event_okb, item_ok. intros H1 H2. split; [done|].
  destruct (marshal m) as [d|]; [|done]. exists d. split; [done|]. by apply Z.leb_le.
Qed.

Lemma sample_items_ok : Forall item_ok sample_items.
Proof.
  unfold sample_items. constructor; [apply event_ok; [reflexivity|vm_compute; reflexivity]|].
  constructor; [|constructor; [apply event_ok; [reflexivity|vm_compute; reflexivity]|constructor]].
  split; [vm_compute; reflexivity|]. split; [vm_compute; reflexivity|].
  apply Z.leb_le. vm_compute. reflexivity.
Qed.

Lemma stream_bridge_delivers_witness :
  let stream := fst (write_all [sample_message "1"; sample_message "2"] []) in
  exists k, stream_Receive (mkStream (Some 3%nat) false) [true; true; true] stream =
    Finished (take k (map norm_message [sample_message "1"; sample_message "2"])) /\ k = 2%nat.
Proof.
  intros stream.
  destruct (stream_bridge_delivers [sample_message "1"; sample_message "2"] stream stream []
    [true; true; true] (mkStream (Some 3%nat) false) 3) as (k & Hk & Hall).
  - repeat constructor.
  - vm_compute. reflexivity.
  - by rewrite app_nil_r.
  - reflexivity.
  - exists k. split; [exact Hk|]. apply Hall; [reflexivity|repeat constructor|cbn; lia].
Defined.

Lemma sse_stream_roundtrip_witness :
  readSSEStream [true; true; true] (Some (sse_body sample_items, false)) =
  (map norm_message [sample_message "1"; sample_message "2"], false, [true]).
Proof.
  apply (sse_stream_roundtrip sample_items [true; true; true] sample_items_ok);
    [cbn; lia|repeat constructor].
Defined.

Lemma sse_backoff_capped_witness :
  snd (fst (sse_Receive [] (repeat None 7))) !! 6%nat = Some (30 * second) /\
  30 * second = Z.min (second * 2 ^ Z.of_nat 6) (30 * second).
Proof.
  split; [vm_compute; reflexivity|].
  apply (sse_backoff_capped [] (repeat None 7)). vm_compute. reflexivity.
Defined.

Lemma sse_clean_end_is_final_witness :
  sse_Receive [true; true] [Some (sse_body sample_items, false); Some (sse_body sample_items, false)] =
  (map norm_message [sample_message "1"; sample_message "2"], [], true).
Proof.
  apply (sse_clean_end_is_final sample_items [true; true] _ sample_items_ok);
    [cbn; lia|repeat constructor].
Defined.
