(* ===== verification/Server.v ===== *)
(** * The server, the shutdown sequence and the bus's main program
    (internal/ipcbus/server.go, shutdown.go, cmd/ipcbus/main.go)

    A connection is the bytes its sidecar sends until it closes; [handleConn]
    reads frames from them and drives the router.  The accept loop runs one
    such handler per connection. *)

From S2P Require Import Prelude.
From S2P Require Import GoStrings.
From S2P Require Import GoFloat.
From S2P Require Import Json.
From S2P Require Import Message.
From S2P Require Import Framing.
From S2P Require Import RingBuffer.
From S2P Require Import GoIO.
From S2P Require Import WAL.
From S2P Require Import DLQ.
From S2P Require Import Router.
From S2P Require Import Bridges.

Section Server.
Context {B : Type} `{Bucket B} `{RangeOrder}.
Abbreviation RM := (M (Router B) router_event).

(** The read loop; the fuel is the number of iterations before the context is
    cancelled. *)
Fixpoint read_loop (fuel : nat) (sc : SidecarConn) (s : bytes) : RM unit :=
  match fuel with
  | O => mret tt
  | S k =>
      match ReadMessage s with
      | (Err _, _) => mret tt
      | (Ok m, s') => HandleInbound sc m ;;; read_loop k sc s'
      end
  end.

Definition close_conn (cn : nat) : RM unit := emit (Closed cn).

(** [handleConn] on connection [cn], whose incoming bytes are [s]. *)
Definition handleConn (fuel : nat) (cn : nat) (s : bytes) : RM unit :=
  match ReadMessage s with
  | (Err _, _) => close_conn cn
  | (Ok msg, s') =>
      if negb (bool_decide (Type_ msg = TypeRegister)) then close_conn cn
      else
        let sc := mkSC (Channel msg) (Type_ msg) cn in
        Register sc ;;;
        let* ack := NewAck (ID msg) in
        let* ok := Send sc ack in
        (if ok : bool then read_loop fuel sc s' else mret tt) ;;;
        Unregister sc ;;;
        close_conn cn
  end.

(** [Start]: remove the stale socket, listen, make the socket accessible. *)
Inductive start_error := ErrRemoveSocket | ErrListen | ErrChmod.

(** What accepting yields: a connection, an error to be logged, or an error
    after the context was cancelled. *)
Inductive accepted := AConn (fuel : nat) (bytes_in : bytes) | AError | AStopped.

Fixpoint accept_loop (next : nat) (l : list accepted) : RM unit :=
  match l with
  | [] | AStopped :: _ => mret tt
  | AError :: l' => accept_loop next l'
  | AConn fuel s :: l' => handleConn fuel next s ;;; accept_loop (S next) l'
  end.

Definition Start (stale : bool) (l : list accepted) : RM (result start_error unit) :=
  let* removed := if stale then io else mret true in
  if removed then
    let* listening := io in
    if listening then
      let* chmod := io in
      if chmod then accept_loop 1 l ;;; mret (Ok tt) else mret (Err ErrChmod)
    else mret (Err ErrListen)
  else mret (Err ErrRemoveSocket).

(** ** shutdown.go *)

(** What a drain sees next: the context ends, the timer fires, or a tick after
    some handlers have run. *)
Inductive drain_event := DCancelled | DTimeout | DTick (before : list router_op).

Fixpoint drain (l : list drain_event) : RM unit :=
  match l with
  | [] | DCancelled :: _ | DTimeout :: _ => mret tt
  | DTick ops :: l' =>
      mfor ops run_router_op ;;;
      let* n := ConnectedCount in
      if (n =? 0)%nat then mret tt else drain l'
  end.

(** The flush of the log; its error is only logged.  The handlers that end
    with it return whether it succeeded. *)
Definition flush_wal : RM bool :=
  let* r := mget in
  match wal r with
  | None => mret true
  | Some w => let* res := on_wal w Flush in mret (is_ok res)
  end.

(** [bridge.Close()]; its error is only logged. *)
Definition close_bridge : RM unit :=
  let* r := mget in
  if bridge r then let* _ := io in mret tt else mret tt.

Definition Execute (l : list drain_event) : RM bool :=
  SendShutdown ;;; drain l ;;; (let* flushed := flush_wal in close_bridge ;;; mret flushed).

(** ** cmd/ipcbus/main.go *)

(** [shutdown]: the same without the polling; [ops] run during the 5 s. *)
Definition shutdown (ops : list router_op) : RM bool :=
  SendShutdown ;;; mfor ops run_router_op ;;;
  (let* flushed := flush_wal in let* _ := io in mret flushed).

(** A tick of the compaction and of the purge ticker. *)
Definition compaction_tick : RM unit :=
  let* r := mget in
  match wal r with
  | None => mret tt
  | Some w =>
      let* need := on_wal w NeedsCompaction in
      if need then
        let* r := mget in
        let* _ := on_wal (default w (wal r)) Compact in mret tt
      else mret tt
  end.

Definition purge_tick : RM unit :=
  let* r := mget in
  match dlq r with
  | None => mret tt
  | Some d => let* _ := on_dlq d PurgeExpired in mret tt
  end.

Definition envOr (getenv : string -> string) (key fallback : string) : string :=
  if decide (getenv key = ""%string) then fallback else getenv key.

Definition envOrInt (getenv : string -> string) (key : string) (fallback : Z) : Z :=
  if decide (getenv key = ""%string) then fallback
  else match parse_int 64 (bytes_of (getenv key)) with Some n => n | None => fallback end.

(** The flags of the bus; their defaults are taken from the environment. *)
Record serve_flags := mkServeFlags {
  sf_socketPath : string;
  sf_walDir : string;
  sf_runtime : string;
  sf_gatewayPort : Z;
  sf_runtimeSocket : string;
  sf_bufferSize : Z;
  sf_highWatermark : float64;
  sf_lowWatermark : float64;
}.

Definition default_serve_flags (getenv : string -> string) : serve_flags :=
  mkServeFlags (envOr getenv "IPC_SOCKET_PATH" "/var/run/claw/bus.sock")
    (envOr getenv "WAL_DIR" "/var/run/claw/wal") (envOr getenv "CLAW_RUNTIME" "openclaw") (envOrInt getenv "CLAW_GATEWAY_PORT" 18900)
    (envOr getenv "CLAW_RUNTIME_SOCKET" "/var/run/claw/runtime.sock") (envOrInt getenv "BUFFER_SIZE" 1024)
    f0_8 f0_3.

(** The set-up of [runServe] up to the server: log, queue, bridge, router,
    outbound loop, replay. *)
Inductive serve_error := ErrInitWAL (e : wal_error) | ErrInitDLQ (e : dlq_error) | ErrBridge.

(** Where the set-up ends: at the server, or in a panic.  The router is what
    the process has in memory then. *)
Inductive served := Serving (r : Router B) | Panicked (r : Router B).

(** All bridges but that over HTTP keep the connection that [Connect] made. *)
Definition needs_connection (b : Bridge) : bool :=
  match b with SSEBridge _ => false | _ => true end.

(** A handler of the router run by the main program. *)
Definition on_router {A} (r : Router B) (m : RM A) : M unit router_event (A * Router B) :=
  fun w s => let '(a, q) := m w (mkRun r (run_tick s) (run_trace s)) in
             ((a, run_st q), mkRun (run_st s) (run_tick q) (run_trace q)).

(** An entry that the unconnected bridge refuses. *)
Definition refuse_entry (e : WALEntry) : RM unit :=
  match E_Msg e with Some m => emit (Bridged m false) | None => mret tt end.

(** A bridge that could not be connected is only logged.  The goroutine that
    [Receive] starts then reads from a nil connection, which takes the process
    down at some point of the replay: after [n] entries, all of them refused,
    or at the first message if [Send] itself uses the nil connection, as that
    of a WebSocket does.  Were it later, all that comes until then would be
    refused in the same way. *)
Definition replay_unconnected (b : Bridge) : RM unit :=
  match b with
  | WebSocketBridge _ => mret tt
  | _ =>
      let* r := mget in
      match wal r with
      | None => mret tt
      | Some w =>
          let* l := on_wal w PendingEntries in
          let* n := partial in
          mfor (take n l) refuse_entry
      end
  end.

(** [early] is what the runtime sends before the server accepts a sidecar. *)
Definition runServe (f : serve_flags) (wal_file : option bytes) (db_file : B) (early : list Message) :
    M unit router_event (result serve_error served) :=
  let* w := NewWAL wal_file in
  match w with
  | Err e => mret (Err (ErrInitWAL e))
  | Ok w =>
      let* d := NewDLQ db_file 10000 (24 * 3600 * 1000000000) in
      match d with
      | Err e => mret (Err (ErrInitDLQ e))
      | Ok d =>
          match NewBridge (sf_runtime f) (mkBridgeConfig (sf_gatewayPort f) (sf_runtimeSocket f)) with
          | None => mret (Err ErrBridge)
          | Some b =>
            let r := NewRouter (mkRouterConfig true (Some w) (Some d)
                       (sf_bufferSize f) (sf_highWatermark f) (sf_lowWatermark f)) in
            let* connected := io in
            if needs_connection b && negb connected then
              let* p := on_router r (replay_unconnected b) in mret (Ok (Panicked (snd p)))
            else
              let* p := on_router r (StartOutboundLoop early ;;; ReplayWAL) in
              mret (Ok (Serving (snd p)))
          end
      end
  end.

(** [runShutdown] dials the bus, registers, waits for the acknowledgement
    ([reply] is what the bus sends) and sends one shutdown message.  The state
    is what has been written to the connection. *)
Inductive shutdown_error :=
| ErrDialBus | ErrSendRegister | ErrReadAck (e : frame_error) | ErrNotAck (ty : string) | ErrSendShutdown.

Definition write_conn (m : Message) : M bytes router_event bool :=
  match write_all [m] [] with
  | (data, Ok _) =>
      let* ok := io in
      if ok then mmodify (fun s => s ++ data) ;;; mret true
      else (let* n := partial in mmodify (fun s => s ++ take n data)) ;;; mret false
  | (_, Err _) => mret false
  end.

Definition runShutdown (reply : bytes) : M bytes router_event (result shutdown_error unit) :=
  let* dialed := io in
  if dialed then
    let* regMsg := NewMessage TypeRegister "__shutdown__"
                     (RawDoc (JObj [field "role" (str_json "shutdown")])) in
    let* ok := write_conn regMsg in
    if ok then
      match ReadMessage reply with
      | (Err e, _) => mret (Err (ErrReadAck e))
      | (Ok ack, _) =>
          if negb (bool_decide (Type_ ack = TypeAck)) then mret (Err (ErrNotAck (Type_ ack)))
          else
            let* shutdownMsg := NewMessage TypeShutdown "__shutdown__" RawEmpty in
            let* ok := write_conn shutdownMsg in
            if ok then mret (Ok tt) else mret (Err ErrSendShutdown)
      end
    else mret (Err ErrSendRegister)
  else mret (Err ErrDialBus).

(** What the running bus does: handlers and the two tickers. *)
Inductive bus_op := BRouter (o : router_op) | BCompaction | BPurge.

Definition run_bus_op (o : bus_op) : RM unit :=
  match o with
  | BRouter o => run_router_op o
  | BCompaction => compaction_tick
  | BPurge => purge_tick
  end.

End Server.
Arguments served : clear implicits.

(** ** The log of a running bus

    The invariant of the log (WAL.v) holds of the router's log and of the log
    records in the router's trace. *)

Section Durable.
Context {B : Type} `{Bucket B} `{RangeOrder} (w : Oracle) (log0 : list WALEntry).
Implicit Types r : Run (Router B) router_event.

Definition wal_events (tr : list router_event) : list wal_event :=
  omap (fun e => match e with Logged x => Some x | _ => None end) tr.

Definition bus_inv r : Prop :=
  exists wl, wal (run_st r) = Some wl /\ wal_inv log0 (mkRun wl 0 (wal_events (run_trace r))).

Lemma wal_events_app t1 t2 : wal_events (t1 ++ t2) = wal_events t1 ++ wal_events t2.
Proof. apply omap_app. Qed.

Lemma wal_events_logged tr : wal_events (map Logged tr) = tr.
Proof. induction tr as [|e tr IH]; [done|]. cbn. by f_equal. Qed.

Lemma wal_inv_shift log tr wl tk tk' tr' :
  wal_inv (log_of log tr) (mkRun wl tk tr') <-> wal_inv log (mkRun wl tk' (tr ++ tr')).
Proof.
  unfold wal_inv, bytes_inv, map_inv, cur_log. cbn [run_st run_trace].
  unfold log_of. by rewrite foldl_app.
Qed.

(** Any operation of the log that keeps its invariant keeps the bus's. *)
Lemma on_wal_bus {A} (wl : WAL) (m : M WAL wal_event A) r :
  (forall log q, wal_inv log q -> wp w m (fun _ => wal_inv log) q) ->
  bus_inv r -> wp w (on_wal wl m) (fun _ => bus_inv) r.
Proof.
  intros Hm (wl0 & Hw & Hi). unfold on_wal. wp_step. rewrite Hw. cbn [default].
  rewrite <- (app_nil_r (wal_events _)) in Hi.
  apply (wal_inv_shift _ _ _ (run_tick r)) in Hi.
  eapply wp_conseq; [|exact (Hm _ _ Hi)]. intros a [s tk tr] Hq. cbn [run_st run_trace run_tick].
  exists s. split; [done|]. cbn [run_trace].
  rewrite wal_events_app, wal_events_logged. by apply (wal_inv_shift _ _ _ tk 0) in Hq.
Qed.

(** A step that does not touch the log. *)
Definition still r r' : Prop :=
  wal (run_st r') = wal (run_st r) /\ wal_events (run_trace r') = wal_events (run_trace r).

Lemma still_bus r r' : still r r' -> bus_inv r -> bus_inv r'.
Proof. intros [Hw1 Hw2] (wl & Hw & Hi). exists wl. split; [by rewrite Hw1|by rewrite Hw2]. Qed.

Lemma on_dlq_still {A} (d : DLQ B) (m : M (DLQ B) router_event A) r :
  (forall q, wp w m (fun _ q' => run_trace q' = run_trace q) q) ->
  wp w (on_dlq d m) (fun _ r' => still r r') r.
Proof.
  intros Hm. unfold on_dlq. wp_step. eapply wp_conseq; [|apply Hm].
  cbn [run_trace]. intros a q ->. split; [done|]. cbn [run_trace map]. by rewrite app_nil_r.
Qed.

Lemma Send_still sc m r : wp w (Send sc m) (fun _ r' => still r r') r.
Proof.
  eapply wp_conseq; [|apply Send_spec]. intros ok r' [Hs Ht]. unfold still.
  rewrite Hs, Ht, wal_events_app. cbn. by rewrite app_nil_r.
Qed.

Lemma bridge_step_still m (s : Router B) r :
  wp w (if bridge s then bridge_Send m else mret true) (fun _ r' => still r r') r.
Proof.
  eapply wp_conseq; [|apply bridge_step_spec]. intros ok r' [Hs Ht]. unfold still.
  rewrite Hs. split; [done|]. destruct (bridge s); [|by destruct Ht as [_ ->]].
  rewrite Ht, wal_events_app. cbn. by rewrite app_nil_r.
Qed.

Lemma PurgeExpired_quiet (q : Run (DLQ B) router_event) :
  wp w PurgeExpired (fun _ q' => run_trace q' = run_trace q) q.
Proof.
  unfold PurgeExpired, update. wp_step. destruct (o_ok w _); wp_step; [|done].
  case_match; wp_step; [|done]. case_match; wp_step. by case_match; wp_step.
Qed.
End Durable.


Section DurableOps.
Context {B : Type} `{Bucket B} `{RangeOrder} (w : Oracle) (log0 : list WALEntry).
Abbreviation keeps m := (preserves w (bus_inv (B := B) log0) m).

Lemma still_keeps {A} (m : M (Router B) router_event A) :
  (forall r, wp w m (fun _ r' => still r r') r) -> keeps m.
Proof. intros Hm r Hr. eapply wp_conseq; [|apply Hm]. intros a r' Hs. exact (still_bus _ _ _ Hs Hr). Qed.

Lemma io_keeps : keeps io.
Proof. by apply still_keeps. Qed.
Lemma now_keeps : keeps now.
Proof. by apply still_keeps. Qed.
Lemma uuid_keeps : keeps new_uuid.
Proof. by apply still_keeps. Qed.
Lemma Send_keeps sc m : keeps (Send sc m).
Proof. apply still_keeps. intros r. apply Send_still. Qed.
Lemma set_buffers_keeps f : keeps (set_buffers f).
Proof. by apply still_keeps. Qed.
Lemma set_sidecars_keeps f : keeps (set_sidecars f).
Proof. by apply still_keeps. Qed.
Lemma bridge_Send_keeps m : keeps (bridge_Send m).
Proof.
  apply still_keeps. intros r. unfold bridge_Send, still. wp_step.
  rewrite wal_events_app. cbn. by rewrite app_nil_r.
Qed.
Lemma Put_keeps d m a : keeps (on_dlq d (Put m a)).
Proof. apply still_keeps. intros r. apply on_dlq_still. intros q. apply Put_quiet. Qed.
Lemma Purge_keeps d : keeps (on_dlq d PurgeExpired).
Proof. apply still_keeps. intros r. apply on_dlq_still. intros q. apply PurgeExpired_quiet. Qed.

Lemma Append_keeps wl m : keeps (on_wal wl (Append m)).
Proof. intros r. apply on_wal_bus. intros; by apply Append_inv. Qed.
Lemma Complete_keeps wl id : keeps (on_wal wl (Complete id)).
Proof. intros r. apply on_wal_bus. intros; apply finish_inv; auto. Qed.
Lemma MarkDLQ_keeps wl id : keeps (on_wal wl (MarkDLQ id)).
Proof. intros r. apply on_wal_bus. intros; apply finish_inv; auto. Qed.
Lemma Increment_keeps wl id : keeps (on_wal wl (IncrementAttempts id)).
Proof. intros r. apply on_wal_bus. intros; by apply IncrementAttempts_inv. Qed.
Lemma Pending_keeps wl : keeps (on_wal wl PendingEntries).
Proof. intros r. by apply on_wal_bus. Qed.
Lemma Compact_keeps wl : keeps (on_wal wl Compact).
Proof. intros r. apply on_wal_bus. intros; by apply Compact_inv. Qed.
Lemma Needs_keeps wl : keeps (on_wal wl NeedsCompaction).
Proof.
  intros r. apply on_wal_bus. intros log q Hq. unfold NeedsCompaction. wp_step.
  by case_match; wp_step.
Qed.
End DurableOps.

#[export] Hint Resolve io_keeps now_keeps uuid_keeps Send_keeps set_buffers_keeps
  set_sidecars_keeps bridge_Send_keeps Put_keeps Purge_keeps Append_keeps Complete_keeps
  MarkDLQ_keeps Increment_keeps Pending_keeps Compact_keeps Needs_keeps : preserves.

(** Every handler of the bus and both tickers keep the invariant. *)
Lemma run_bus_op_keeps {B} `{Bucket B} `{RangeOrder} w log0 o :
  preserves w (bus_inv (B := B) log0) (run_bus_op o).
Proof.
  destruct o as [[sc|sc|from msg|msg| |]| |]; cbn [run_bus_op run_router_op].
  - unfold Register. preserve.
  - unfold Unregister. preserve.
  - unfold HandleInbound, handleControl, NewAck, log_append, push_buffer, NewMessage,
      log_complete, pop_buffer, scheduleRetry. preserve.
  - unfold HandleOutbound. preserve.
  - unfold ReplayWAL, replay_entry, log_complete. preserve.
  - unfold SendShutdown, NewMessage. preserve.
  - unfold compaction_tick. preserve.
  - unfold purge_tick. preserve.
Qed.

(** After a successful flush the file is the log. *)
Section Flushed.
Context {B : Type} `{Bucket B} `{RangeOrder} (w : Oracle) (log0 : list WALEntry).
Implicit Types r : Run (Router B) router_event.

Definition flushed r : Prop :=
  exists wl, wal (run_st r) = Some wl /\
    disk (out wl) = log_bytes (log_of log0 (wal_events (run_trace r))) /\
    werr (out wl) = false /\ wal_inv log0 (mkRun wl 0 (wal_events (run_trace r))).

Lemma flush_wal_flushed r :
  bus_inv log0 r -> wp w flush_wal (fun ok r' => ok = true -> flushed r') r.
Proof.
  intros (wl & Hw & Hi). unfold flush_wal, on_wal. wp_step. rewrite Hw. wp_step.
  rewrite Hw. cbn [default]. rewrite <- (app_nil_r (wal_events _)) in Hi.
  apply (wal_inv_shift _ _ _ (run_tick r)) in Hi.
  eapply wp_conseq; [|apply (Flush_inv _ _ _ Hi)].
  intros res [s tk tr] [Hq Hf]. wp_step. intros Hok. destruct res as [[]|]; [|done].
  destruct (Hf eq_refl) as [Hd He]. exists s. cbn [run_st run_trace] in *.
  rewrite wal_events_app, wal_events_logged. unfold log_of. rewrite foldl_app.
  split; [done|]. split; [exact Hd|]. split; [done|].
  by apply (wal_inv_shift _ _ _ tk 0) in Hq.
Qed.

Lemma shutdown_flushed during r :
  bus_inv log0 r -> wp w (shutdown during) (fun ok r' => ok = true -> flushed r') r.
Proof.
  intros Hr. unfold shutdown. wp_step.
  eapply wp_conseq; [|apply (run_bus_op_keeps w log0 (BRouter RShutdown)); exact Hr].
  intros [] r1 Hr1. wp_step.
  eapply wp_conseq; [|apply (preserves_mfor w (bus_inv log0) during run_router_op);
    [intros o _; apply (run_bus_op_keeps w log0 (BRouter o))|exact Hr1]].
  intros [] r2 Hr2. wp_step.
  eapply wp_conseq; [|by apply flush_wal_flushed]. intros ok r3 Hr3. by wp_step.
Qed.

Lemma drain_keeps l : preserves w (bus_inv (B := B) log0) (drain l).
Proof.
  induction l as [|[| |ops] l IH]; cbn [drain]; [by preserve..|].
  apply preserves_bind; [|intros _].
  - apply preserves_mfor. intros o _. apply (run_bus_op_keeps w log0 (BRouter o)).
  - unfold ConnectedCount. preserve.
Qed.

Lemma Execute_flushed l r :
  bus_inv log0 r -> wp w (Execute l) (fun ok r' => ok = true -> flushed r') r.
Proof.
  intros Hr. unfold Execute. wp_step.
  eapply wp_conseq; [|apply (run_bus_op_keeps w log0 (BRouter RShutdown)); exact Hr].
  intros [] r1 Hr1. wp_step.
  eapply wp_conseq; [|by apply drain_keeps].
  intros [] r2 Hr2. wp_step.
  eapply wp_conseq; [|by apply flush_wal_flushed]. intros ok r3 Hr3. wp_step.
  unfold close_bridge. wp_step. by destruct (bridge (run_st r3)); wp_step.
Qed.
End Flushed.

(** ** What the shutdown command writes *)

Lemma write_frame_from (a : Message) s :
  write_frame wire_write a s =
  let '(d, res) := write_frame wire_write a [] in (s ++ d, res).
Proof.
  unfold write_frame. destruct (marshal a); [|by rewrite app_nil_r].
  destruct (_ <? _); [by rewrite app_nil_r|]. done.
Qed.

Lemma write_conn_spec w m (q : Run bytes router_event) :
  wp w (write_conn m) (fun ok q' => ok = true -> exists data,
    write_frame wire_write m [] = (data, Ok tt) /\ run_st q' = run_st q ++ data) q.
Proof.
  unfold write_conn. cbn [write_all].
  destruct (write_frame wire_write m []) as [data [[]|e]]; wp_step; [|done].
  destruct (o_ok w _); wp_step; [|done]. eauto.
Qed.

Lemma runShutdown_writes w reply (c : Run bytes router_event) :
  (forall n, utf8_str (o_uuid w n) = true) ->
  exec (runShutdown reply) w [] = (Ok tt, c) ->
  exists reg sd, Forall json_ok [reg; sd] /\ Type_ reg = TypeRegister /\ Type_ sd = TypeShutdown /\
    Channel reg = "__shutdown__"%string /\ write_all [reg; sd] [] = (run_st c, Ok tt).
Proof.
  intros Hu Hc.
  assert (Hjson : forall n ty t p, utf8_str ty = true -> raw_ok p = true ->
    json_ok (mkMessage (o_uuid w n) ty "__shutdown__" "" "" t p)).
  { intros n ty t p Hty Hp. change (message_ok (mkMessage (o_uuid w n) ty "__shutdown__" "" "" t p)).
    unfold message_ok. cbn [ID Type_ Channel CorrelationID ReplyTo Payload]. by rewrite Hu, Hty, Hp. }
  assert (Hp : wp w (runShutdown reply) (fun res c => res = Ok tt -> exists reg sd,
    Forall json_ok [reg; sd] /\ Type_ reg = TypeRegister /\ Type_ sd = TypeShutdown /\
    Channel reg = "__shutdown__"%string /\ write_all [reg; sd] [] = (run_st c, Ok tt)) (mkRun [] 0 [])).
  { unfold runShutdown, NewMessage. wp_step. destruct (o_ok w _); wp_step; [|done].
    eapply wp_conseq; [|apply write_conn_spec]. intros ok q Hq. destruct ok; wp_step; [|done].
    destruct (ReadMessage reply) as [[ack|e] ?]; wp_step; [|done].
    destruct (negb _); wp_step; [done|].
    eapply wp_conseq; [|apply write_conn_spec]. intros ok q2 Hq2. destruct ok; wp_step; [|done].
    intros _. destruct (Hq eq_refl) as (d1 & Hw1 & Hs1), (Hq2 eq_refl) as (d2 & Hw2 & Hs2).
    cbn [run_st app] in *. rewrite Hs1 in Hs2. eexists _, _.
    split; [|split; [|split; [|split; [|cbn [write_all];
      rewrite Hw1, write_frame_from, Hw2, Hs2; reflexivity]]]]; [|done..].
    repeat constructor; by apply Hjson. }
  unfold wp, exec in *. rewrite Hc in Hp. by apply Hp.
Qed.

(** ** Properties *)

Section Properties.
Context {B : Type} `{Bucket B} `{RangeOrder}.

(** The read loop on messages instead of bytes. *)
Lemma read_loop_frames fuel sc (l : list Message) ds :
  Forall json_ok l -> Forall2 frame_of l ds -> (length l < fuel)%nat ->
  forall w (r : Run (Router B) router_event),
    read_loop fuel sc (concat (map (fun d => PutUint32 (Z.of_nat (length d)) ++ d) ds)) w r =
    mfor (map norm_message l) (HandleInbound sc) w r.
Proof.
  intros Hok HF. revert fuel.
  induction HF as [|a d l ds Hd HF IH]; intros [|k] Hk w r; cbn in Hk; try lia; [done|].
  inversion_clear Hok as [|?? Ha Hl]. cbn [read_loop map concat mfor]. rewrite <- app_assoc.
  unfold ReadMessage. rewrite (read_frame_frame a d) by done.
  unfold mbind. destruct (HandleInbound sc (json_norm a) w r) as [[] r'] eqn:E.
  change (json_norm a) with (norm_message a) in E. rewrite E.
  apply IH; [done|lia].
Qed.

(** On the bytes of a registration and some messages, handleConn handles the
    messages in order. *)
Lemma handleConn_messages (w : Oracle) (s : Router B) (cn fuel : nat) (reg : Message)
    (l : list Message) (stream : bytes) :
  Forall json_ok (reg :: l) -> Type_ reg = TypeRegister -> (length l < fuel)%nat ->
  write_all (reg :: l) [] = (stream, Ok tt) ->
  let sc := mkSC (Channel reg) TypeRegister cn in
  exec (handleConn fuel cn stream) w s =
  exec (Register sc ;;;
        let* ack := NewAck (ID reg) in
        let* ok := Send sc ack in
        (if ok : bool then mfor (map norm_message l) (HandleInbound sc) else mret tt) ;;;
        Unregister sc ;;; close_conn cn) w s.
Proof.
  intros Hok Hreg Hfuel Hw sc. apply write_all_app in Hw as (ds & Hds & ->).
  inversion_clear Hok as [|?? Ha Hl]. inversion Hds as [|a d l' ds' Hd HF]; subst. clear Hds.
  unfold exec, handleConn. cbn [map concat app]. rewrite <- app_assoc.
  unfold ReadMessage at 1. rewrite (read_frame_frame reg d) by done.
  change (Type_ (json_norm reg)) with (Type_ reg). rewrite Hreg.
  rewrite bool_decide_true by done. cbn [negb].
  change (Channel (json_norm reg)) with (Channel reg).
  change (ID (json_norm reg)) with (ID reg). fold sc.
  unfold mbind. destruct (Register sc w _) as [[] r1].
  destruct (NewAck (ID reg) w r1) as [ack r2]. destruct (Send sc ack w r2) as [[] r3]; [|done].
  by rewrite (read_loop_frames fuel sc l ds' Hl HF Hfuel).
Qed.

(** Property: A connection is the handling of its messages in order.  On the bytes
    of a registration followed by other messages, handleConn registers the
    connection for the channel of the registration, acknowledges it, hands
    each message to the router in the order sent, and unregisters. *)
Theorem handleConn_in_order (w : Oracle) (s : Router B) (cn : nat) (reg : Message)
    (l : list Message) (stream : bytes) :
  Forall json_ok (reg :: l) -> Type_ reg = TypeRegister ->
  write_all (reg :: l) [] = (stream, Ok tt) ->
  let sc := mkSC (Channel reg) TypeRegister cn in
  exec (handleConn (S (length l)) cn stream) w s =
  exec (Register sc ;;;
        let* ack := NewAck (ID reg) in
        let* ok := Send sc ack in
        (if ok : bool then mfor (map norm_message l) (HandleInbound sc) else mret tt) ;;;
        Unregister sc ;;; close_conn cn) w s.
Proof. intros Hok Hreg Hw. apply handleConn_messages; [done|done|lia|done]. Qed.

(** Property: Without a registration nothing happens: if the first frame cannot be
    read or is not a register message, the connection is closed and the
    router is left as it was. *)
Theorem unregistered_conn_ignored (w : Oracle) (s : Router B) (fuel cn : nat) (stream : bytes) :
  (forall m rest, ReadMessage stream = (Ok m, rest) -> Type_ m <> TypeRegister) ->
  exec (handleConn fuel cn stream) w s = (tt, mkRun s 0 [Closed cn]).
Proof.
  intros Hm. unfold exec, handleConn, close_conn.
  destruct (ReadMessage stream) as [[m|e] rest]; [|done].
  rewrite bool_decide_false by (by eapply Hm). done.
Qed.

(** Property: Shutting the bus down makes the pending messages durable.  Whatever
    handlers and compactions ran on the opened log, and whatever their I/O
    did, if the flush that ends the shutdown succeeds then the pending entries
    in memory are what a restart recovers from the file. *)
Theorem bus_shutdown_durable (w : Oracle) (log0 : list WALEntry) (s : Router B)
    (ops : list bus_op) (finish : M (Router B) router_event bool) (r : Run (Router B) router_event) :
  Forall rec_ok log0 -> Forall marshals log0 -> wal s = Some (opened log0) ->
  (exists during, finish = shutdown during) \/ (exists events, finish = Execute events) ->
  exec (mfor ops run_bus_op ;;; finish) w s = (true, r) ->
  Forall rec_ok (log_of log0 (wal_events (run_trace r))) ->
  exists wl, wal (run_st r) = Some wl /\
             recover_file (disk (out wl)) = (norm_entry <$> entries wl, true).
Proof.
  intros Hok Hm Hw Hfin He Hrec.
  assert (Hp : wp w (mfor ops run_bus_op ;;; finish) (fun ok r => ok = true -> flushed log0 r)
    (mkRun s 0 [])).
  { wp_step. eapply wp_conseq;
      [|apply (preserves_mfor w (bus_inv log0)); [intros o _; apply run_bus_op_keeps|]].
    - intros [] r1 Hr1. destruct Hfin as [[l ->]|[l ->]];
        [by apply shutdown_flushed|by apply Execute_flushed].
    - exists (opened log0). split; [done|]. by apply opened_inv. }
  unfold exec, wp in *. rewrite He in Hp. destruct (Hp eq_refl) as (wl & Hwl & Hd & Hwe & Hi).
  exists wl. split; [done|]. destruct Hi as [[Hml _] Hmap]. unfold cur_log in *.
  destruct (Hmap Hwe) as [Hn _]. cbn [run_st run_trace] in *. rewrite Hd, Hn.
  by apply recover_whole.
Qed.

(** Property: `ipcbus shutdown` does not shut the bus down.  The bytes it writes when
    it reports success, read by the bus, get an acknowledgement and nothing
    else: the message is a control message the router ignores, and no handler
    of the bus is left changed but for the registration of the channel
    __shutdown__ coming and going. *)
Theorem shutdown_command_ignored (w w' : Oracle) (s : Router B) (cn : nat) (reply : bytes)
    (c : Run bytes router_event) :
  (forall n, utf8_str (o_uuid w' n) = true) ->
  exec (runShutdown reply) w' [] = (Ok tt, c) ->
  let r := snd (exec (handleConn 2 cn (run_st c)) w s) in
  sidecars (run_st r) = delete "__shutdown__" (sidecars s) /\
  wal (run_st r) = wal s /\ dlq (run_st r) = dlq s /\ bridge (run_st r) = bridge s /\
  exists ack ok, run_trace r = [Sent cn ack ok; Closed cn].
Proof.
  intros Hu Hc. destruct (runShutdown_writes w' reply c Hu Hc) as (reg & sd & Hok & Hr & Hs & Hch & Hw).
  cbn zeta. rewrite (handleConn_messages w s cn 2 reg [sd] (run_st c)) by (done || (cbn; lia)).
  assert (Hctl : forall m, Type_ m = TypeShutdown -> HandleInbound (B := B) (mkSC (Channel reg) TypeRegister cn) m = mret tt).
  { intros m Hm. unfold HandleInbound, IsControl, handleControl. by rewrite Hm. }
  set (sc := mkSC _ _ _) in *.
  assert (Hp : wp w (Register sc ;;; (let* ack := NewAck (ID reg) in let* ok := Send sc ack in
        (if ok : bool then mfor (map norm_message [sd]) (HandleInbound sc) else mret tt) ;;;
        Unregister sc ;;; close_conn cn)) (fun _ r =>
     sidecars (run_st r) = delete "__shutdown__" (sidecars s) /\
     wal (run_st r) = wal s /\ dlq (run_st r) = dlq s /\ bridge (run_st r) = bridge s /\
     exists ack ok, run_trace r = [Sent cn ack ok; Closed cn]) (mkRun s 0 [])).
  { unfold Register, set_sidecars, set_buffers. wp_step. cbn [sc_Channel sc buffers].
    destruct (buffers s !! Channel reg); wp_step; unfold NewAck, Send, Unregister, set_sidecars, close_conn;
      cbn [map mfor]; rewrite Hctl by done; wp_step;
      (destruct (o_ok w _); wp_step; cbn [sidecars wal dlq bridge sc_Channel sc app sc_conn];
       rewrite Hch; (split; [by rewrite delete_insert_eq|]; do 3 (split; [reflexivity|]); eexists _, _; reflexivity)). }
  unfold wp, exec in *. by destruct (mbind _ _ w _) as [[] r].
Qed.
End Properties.

(** ** Witnesses *)

Definition reg_message : Message := mkMessage "r" TypeRegister "slack" "" "" 1700000000000000000 RawEmpty.
Definition ack_message : Message := mkMessage "a" TypeAck "" "r" "" 1700000000000000000 RawEmpty.

Lemma handleConn_in_order_witness :
  let stream := fst (write_all [reg_message; sample_message "1"] []) in
  let sc := mkSC "slack" TypeRegister 1 in
  exec (handleConn 2 1 stream) all_ok (sample_router true) =
  exec (Register sc ;;;
        let* ack := NewAck "r" in
        let* ok := Send sc ack in
        (if ok : bool then mfor (map norm_message [sample_message "1"])
                             (HandleInbound sc) else mret tt) ;;;
        Unregister sc ;;; close_conn 1) all_ok (sample_router true).
Proof.
  apply (handleConn_in_order all_ok (sample_router true) 1 reg_message
    [sample_message "1"] (fst (write_all [reg_message; sample_message "1"] []))).
  - repeat constructor.
  - reflexivity.
  - vm_compute. reflexivity.
Defined.

Lemma unregistered_conn_ignored_witness :
  let stream := fst (write_all [sample_message "1"] []) in
  exec (handleConn 5 1 stream) all_ok (sample_router true) =
  (tt, mkRun (sample_router true) 0 [Closed 1]).
Proof.
  apply (unregistered_conn_ignored all_ok (sample_router true)).
  intros m rest Hr Ht.
  assert (Hx : match fst (ReadMessage (fst (write_all [sample_message "1"] []))) with
               | Ok m => bool_decide (Type_ m = TypeRegister) | _ => true end = false)
    by (vm_compute; reflexivity).
  rewrite Hr in Hx. cbn [fst] in Hx. by rewrite bool_decide_true in Hx.
Defined.

Lemma bus_shutdown_durable_witness :
  let ops := [BRouter (RRegister sc1); BRouter (RInbound sc1 (sample_message "1")); BCompaction; BPurge] in
  let '(ok, r) := exec (mfor ops (run_bus_op (H0 := sorted_range)) ;;; shutdown (H0 := sorted_range) [RUnregister sc1])
                    all_ok (sample_router true) in
  ok = true /\ exists wl, wal (run_st r) = Some wl /\
             recover_file (disk (out wl)) = (norm_entry <$> entries wl, true).
Proof.
  intros ops. destruct (exec _ all_ok (sample_router true)) as [ok r] eqn:E.
  assert (Hok : ok = true).
  { change ok with (fst (ok, r)). rewrite <- E. vm_compute. reflexivity. }
  split; [exact Hok|]. subst ok.
  apply (bus_shutdown_durable (H0 := sorted_range) all_ok [] (sample_router true) ops
    (shutdown (H0 := sorted_range) [RUnregister sc1]) r).
  - constructor.
  - constructor.
  - reflexivity.
  - left. eexists. reflexivity.
  - exact E.
  - apply rec_okb_spec. change r with (snd (true, r)). rewrite <- E. vm_compute. reflexivity.
Defined.

Lemma shutdown_command_ignored_witness :
  let reply := fst (write_all [ack_message] []) in
  let c := snd (exec (runShutdown reply) all_ok []) in
  let r := snd (exec (handleConn 2 7 (run_st c)) all_ok (sample_router true)) in
  sidecars (run_st r) = delete "__shutdown__" (sidecars (sample_router true)) /\
  wal (run_st r) = wal (sample_router true) /\ dlq (run_st r) = dlq (sample_router true) /\
  bridge (run_st r) = true /\ exists ack ok, run_trace r = [Sent 7 ack ok; Closed 7].
Proof.
  apply (shutdown_command_ignored all_ok all_ok (sample_router true) 7
    (fst (write_all [ack_message] []))).
  - reflexivity.
  - vm_compute. reflexivity.
Defined.
