(* ===== verification/Restart.v ===== *)
(** * A restart of the bus (cmd/ipcbus runServe, Router.ReplayWAL)

    The bus that starts on the log of an earlier run offers every pending
    message to the bridge, or goes down because it has no connection and
    leaves the log as it was. *)

From S2P Require Import Prelude.
From S2P Require Import GoStrings.
From S2P Require Import Json.
From S2P Require Import Message.
From S2P Require Import Framing.
From S2P Require Import RingBuffer.
From S2P Require Import GoIO.
From S2P Require Import GoFloat.
From S2P Require Import WAL.
From S2P Require Import DLQ.
From S2P Require Import Bridges.
From S2P Require Import Router.
From S2P Require Import Server.

(** The messages offered to the bridge, and whether it took them. *)
Definition bridged (tr : list router_event) : list (Message * bool) :=
  omap (fun e => match e with Bridged m ok => Some (m, ok) | _ => None end) tr.

Lemma bridge_calls_app t1 t2 : bridged (t1 ++ t2) = bridged t1 ++ bridged t2.
Proof. unfold bridged. apply omap_app. Qed.

Lemma bridged_logs tr tr' : extends logs tr tr' -> bridged tr' = bridged tr.
Proof.
  intros (l & -> & Hl). rewrite bridge_calls_app. induction Hl as [|e l He _ IH]; [by rewrite app_nil_r|].
  by destruct e.
Qed.

(** What a replay offers, given which messages the bridge takes. *)
Definition offered (taken : string -> bool) (l : list (string * WALEntry)) : list (Message * bool) :=
  omap (fun p => (fun m => (m, taken p.1)) <$> E_Msg p.2) l.

Definition delivered (taken : string -> bool) (id : string) (e : WALEntry) : bool :=
  match E_Msg e with Some _ => taken id | None => false end.

(** Every entry is stored under its own identifier. *)
Definition keyed (m : gmap string WALEntry) : Prop := map_Forall (fun id e => E_ID e = id) m.

Lemma keyed_apply_line m line : keyed m -> keyed (apply_line m line).
Proof.
  intros Hm. unfold apply_line, apply_entry. destruct (unmarshal line) as [e|]; [|done].
  repeat case_decide; [by apply map_Forall_insert_2|by apply map_Forall_delete|done].
Qed.

Lemma recovered_keyed file : keyed (fst (recover_file file)).
Proof.
  unfold recover_file. destruct (scan_lines _ file) as [ls ok]. cbn [fst].
  assert (Hx : forall m, keyed m -> keyed (foldl apply_line m ls)).
  { induction ls as [|l ls IH]; intros m Hm; [done|]. by apply IH, keyed_apply_line. }
  apply Hx, map_Forall_empty.
Qed.

Section Replay.
Context {B : Type} `{Bucket B} `{RangeOrder} (w : Oracle).
Implicit Types r : Run (Router B) router_event.

(** What one entry of the replay does. *)
Lemma replay_one id e wl r :
  wal (run_st r) = Some wl -> bridge (run_st r) = true -> entries wl !! id = Some e -> E_ID e = id ->
  wp w (replay_entry e) (fun _ r' => exists ok wl',
    bridge (run_st r') = true /\ wal (run_st r') = Some wl' /\
    bridged (run_trace r') = bridged (run_trace r) ++ offered (fun _ => ok) [(id, e)] /\
    (werr (out wl) = true -> werr (out wl') = true) /\
    (forall id', id' <> id -> entries wl' !! id' = entries wl !! id') /\
    (werr (out wl') = false -> entries wl' !! id = if delivered (fun _ => ok) id e then None else Some e)) r.
Proof.
  intros Hw Hb He Hid. unfold replay_entry, delivered, offered. cbn [omap list_omap fst snd].
  destruct (E_Msg e) as [m|]; cbn [fmap option_fmap option_map]; wp_step.
  2:{ exists false, wl. by rewrite app_nil_r. }
  rewrite Hb. unfold bridge_Send. wp_step. rewrite Hid. destruct (o_ok w (run_tick r)); wp_step.
  - eapply wp_conseq; [|apply log_complete_spec]. cbn [run_st run_trace].
    intros [] r1 ((_ & Hb1 & _) & Hx & Hl). destruct (Hl wl Hw) as (wl' & Hw' & Hst & Hent).
    exists true, wl'. split_and!; [congruence|done| |done| |].
    + rewrite (bridged_logs _ _ Hx), bridge_calls_app. reflexivity.
    + intros id' Hne. destruct Hent as [E|[E _]]; rewrite E; [by apply lookup_delete_ne|done].
    + intros Hh. destruct Hent as [E|[_ E]]; [rewrite E; apply lookup_delete_eq|].
      rewrite E in Hh; [discriminate Hh|by eexists].
  - exists false, wl. cbn [run_st run_trace]. rewrite bridge_calls_app. by split_and!.
Qed.

Lemma offered_ext f g l : (forall id, id ∈ l.*1 -> f id = g id) -> offered f l = offered g l.
Proof.
  unfold offered. induction l as [|[id e] l IH]; intros Hfg; [done|]. cbn [omap list_omap fst snd].
  rewrite (Hfg id) by (by left). rewrite IH by (intros; apply Hfg; by right). done.
Qed.

Lemma offered_cons f id e l : offered f ((id, e) :: l) = offered f [(id, e)] ++ offered f l.
Proof. unfold offered. cbn [omap list_omap fst snd]. by destruct (E_Msg e). Qed.

(** The replay of a list of stored entries. *)
Lemma replay_all l wl r :
  wal (run_st r) = Some wl -> bridge (run_st r) = true -> NoDup l.*1 -> Forall (fun p => E_ID p.2 = p.1) l ->
  Forall (fun p => entries wl !! p.1 = Some p.2) l ->
  wp w (mfor l.*2 replay_entry) (fun _ r' => exists taken wl',
    wal (run_st r') = Some wl' /\
    bridged (run_trace r') = bridged (run_trace r) ++ offered taken l /\
    (werr (out wl) = true -> werr (out wl') = true) /\
    (forall id, id ∉ l.*1 -> entries wl' !! id = entries wl !! id) /\
    (werr (out wl') = false -> forall id e, (id, e) ∈ l ->
       entries wl' !! id = if delivered taken id e then None else Some e)) r.
Proof.
  revert wl r. induction l as [|[id e] l IH]; intros wl r Hw Hb Hnd Hid Hin.
  - cbn. wp_step. exists (fun _ => true), wl. rewrite app_nil_r. split_and!; try done.
    intros _ id e He. by apply not_elem_of_nil in He.
  - cbn [fmap list_fmap fst snd mfor] in *. apply NoDup_cons in Hnd as [Hni Hnd].
    apply Forall_cons in Hid as [Hid Hids]. apply Forall_cons in Hin as [Hin Hins]. rewrite wp_bind.
    eapply wp_conseq; [|by apply (replay_one id e wl)].
    intros [] r1 (ok & wl1 & Hb1 & Hw1 & Ht1 & Hst1 & Hoth1 & Hent1).
    assert (Hne : forall p, p ∈ l -> p.1 <> id).
    { intros p Hp <-. by apply Hni, list_elem_of_fmap_2. }
    eapply wp_conseq; [|apply (IH wl1 r1); try done].
    2:{ apply Forall_forall. intros p Hp. rewrite Hoth1 by auto. by apply (proj1 (Forall_forall _ _) Hins). }
    intros [] r2 (taken & wl2 & Hw2 & Ht2 & Hst2 & Hoth2 & Hent2).
    exists (fun i => if decide (i = id) then ok else taken i), wl2. split_and!; [done| |auto| |].
    + rewrite Ht2, Ht1, <- app_assoc, (offered_cons _ id e l). f_equal.
      f_equal; apply offered_ext; intros i Hi.
      * apply list_elem_of_singleton in Hi as ->. cbn [fst]. by rewrite decide_True.
      * apply list_elem_of_fmap in Hi as (p & -> & Hp). by rewrite decide_False by auto.
    + intros i Hi. apply not_elem_of_cons in Hi as [Hi1 Hi2]. by rewrite Hoth2, Hoth1.
    + intros Hh i f Hf. assert (Hh1 : werr (out wl1) = false) by (destruct (werr (out wl1)); [|done]; by rewrite Hst2 in Hh).
      apply elem_of_cons in Hf as [[= -> ->]|Hf].
      * rewrite (Hoth2 id Hni), (Hent1 Hh1). unfold delivered. by rewrite decide_True.
      * rewrite (Hent2 Hh i f Hf). unfold delivered. by rewrite decide_False by (apply (Hne (i, f) Hf)).
Qed.

(** The replay offers every pending entry that has a message once, in one
    order, and leaves pending exactly what the bridge refuses. *)
Lemma ReplayWAL_offers wl r :
  wal (run_st r) = Some wl -> bridge (run_st r) = true -> keyed (entries wl) ->
  wp w ReplayWAL (fun _ r' => exists taken wl', wal (run_st r') = Some wl' /\
    bridged (run_trace r') = bridged (run_trace r) ++ offered taken (range (entries wl)) /\
    (werr (out wl') = false ->
     entries wl' = filter (fun p => delivered taken p.1 p.2 = false) (entries wl))) r.
Proof.
  intros Hw Hb Hk. unfold ReplayWAL. wp_step. rewrite Hw. wp_step.
  unfold on_wal, PendingEntries. wp_step. rewrite Hw. cbn [default map]. wp_step.
  pose proof (range_perm (entries wl)) as Hp.
  assert (Hin : forall i e, (i, e) ∈ range (entries wl) <-> entries wl !! i = Some e).
  { intros i e. rewrite Hp. apply elem_of_map_to_list. }
  eapply wp_conseq; [|apply (replay_all (range (entries wl)) wl)]; cbn [run_st run_trace]; try done.
  - intros [] r' (taken & wl' & Hw' & Ht & _ & Hoth & Hent). exists taken, wl'. split_and!; [done| |].
    { by rewrite Ht, app_nil_r. }
    intros Hh. apply map_eq. intros i. destruct (entries wl !! i) as [e|] eqn:Ei.
    + rewrite (Hent Hh i e) by (by apply Hin). destruct (delivered taken i e) eqn:Ed.
      * symmetry. apply map_lookup_filter_None. right. intros e' Ee'. cbn. congruence.
      * symmetry. by apply map_lookup_filter_Some.
    + rewrite Hoth, Ei.
      * symmetry. apply map_lookup_filter_None. by left.
      * intros Hi. apply list_elem_of_fmap in Hi as ([j e] & Hj & Hje). cbn in Hj. subst j.
        apply Hin in Hje. congruence.
  - rewrite Hp. apply NoDup_fst_map_to_list.
  - apply Forall_forall. intros [i e] Hi. apply Hin in Hi. by apply (Hk i e).
  - apply Forall_forall. intros [i e] Hi. by apply Hin in Hi.
Qed.
End Replay.

(** ** The start of the bus *)

Section Start.
Context {B : Type} `{Bucket B} `{RangeOrder}.

Lemma NewWAL_ok {S E} (w : Oracle) file (r : Run S E) :
  wp w (NewWAL (Some file)) (fun res r' => run_trace r' = run_trace r /\
    forall wl, res = Ok wl -> snd (recover_file file) = true /\
      wl = mkWAL (open_append file) (fst (recover_file file))) r.
Proof.
  unfold NewWAL, recover. wp_step. destruct (o_ok w _); wp_step; [|done].
  destruct (o_ok w _); wp_step; [|done]. destruct (recover_file file) as [m fits]. cbn [fst snd].
  destruct (o_ok w _); cbn [andb]; wp_step; [|done]. destruct fits; wp_step; [|done].
  destruct (o_ok w _); wp_step; [|done]. split; [done|]. by intros wl [= <-].
Qed.

Lemma wp_on_router {A} w (s : Router B) (m : M (Router B) router_event A) Q (r : Run unit router_event) :
  wp w (on_router s m) Q r =
  wp w m (fun a q => Q (a, run_st q) (mkRun (run_st r) (run_tick q) (run_trace q))) (mkRun s (run_tick r) (run_trace r)).
Proof. unfold wp, on_router. by destruct (m w _). Qed.

(** No sidecar is registered yet: what the runtime sends is dropped. *)
Lemma early_dropped w l (r : Run (Router B) router_event) :
  sidecars (run_st r) = ∅ ->
  wp w (StartOutboundLoop l) (fun _ r' => run_st r' = run_st r /\ run_trace r' = run_trace r) r.
Proof.
  intros Hs. unfold StartOutboundLoop. wp_step. destruct (bridge (run_st r)); wp_step; [|done].
  destruct (o_ok w _); wp_step; [|done].
  apply (wp_mfor _ _ _ (fun r' => run_st r' = run_st r /\ run_trace r' = run_trace r)); [done|].
  intros m r1 _ [Hst Ht]. unfold HandleOutbound. wp_step. rewrite Hst, Hs, lookup_empty. by wp_step.
Qed.

(** Without a connection nothing is taken and nothing changes. *)
Definition all_refused (tr : list router_event) : Prop := Forall (fun p => p.2 = false) (bridged tr).

Lemma replay_unconnected_spec w b wl (r : Run (Router B) router_event) :
  wal (run_st r) = Some wl -> run_trace r = [] ->
  wp w (replay_unconnected b) (fun _ r' => wal (run_st r') = Some wl /\ all_refused (run_trace r')) r.
Proof.
  intros Hw Ht.
  assert (Hloop : forall l (r0 : Run (Router B) router_event), wal (run_st r0) = Some wl -> all_refused (run_trace r0) ->
    wp w (mfor l refuse_entry)
      (fun _ r' => wal (run_st r') = Some wl /\ all_refused (run_trace r')) r0).
  { intros l r0 H1 H2. apply (wp_mfor _ _ _ (fun r' => wal (run_st r') = Some wl /\ all_refused (run_trace r'))); [done|].
    intros e r1 _ [H3 H4]. unfold refuse_entry. destruct (E_Msg e); wp_step; [|done]. split; [done|].
    unfold all_refused. rewrite bridge_calls_app. apply Forall_app. split; [exact H4|by constructor]. }
  assert (Hnil : all_refused (run_trace r)) by (rewrite Ht; constructor).
  destruct b; unfold replay_unconnected; wp_step; try done; rewrite Hw; wp_step;
    unfold on_wal, PendingEntries; wp_step; rewrite Hw; cbn [default map]; wp_step;
    (apply Hloop; [done|cbn [run_trace]; by rewrite app_nil_r]).
Qed.

(** Whatever the log holds: a bus that starts on it offers the messages of all
    the entries it recovers, once each, and keeps pending exactly those that
    the bridge refuses; one that panics has left the log as it was. *)
Definition restarted (f : serve_flags) (file : bytes) (res : served B) (tr : list router_event) : Prop :=
  match res with
  | Serving rt =>
      exists taken wl', wal rt = Some wl' /\
        bridged tr = offered taken (range (fst (recover_file file))) /\
        (werr (out wl') = false ->
         entries wl' = filter (fun p => delivered taken p.1 p.2 = false) (fst (recover_file file)))
  | Panicked rt =>
      (exists b, NewBridge (sf_runtime f) (mkBridgeConfig (sf_gatewayPort f) (sf_runtimeSocket f)) = Some b /\
         needs_connection b = true) /\
      (exists wl', wal rt = Some wl' /\ disk (out wl') = file) /\ all_refused tr
  end.

Lemma runServe_offers (w : Oracle) (f : serve_flags) (file : bytes) (db : B) (early : list Message) :
  wp w (runServe f (Some file) db early) (fun res r => forall rt, res = Ok rt ->
    snd (recover_file file) = true /\ restarted f file rt (run_trace r)) (mkRun tt 0 []).
Proof.
  unfold runServe. rewrite wp_bind. eapply wp_conseq; [|apply NewWAL_ok].
  intros res r1 [Ht1 Hres]. cbn [run_trace] in Ht1. destruct res as [wl|e]; wp_step; [|done].
  destruct (Hres wl eq_refl) as [Hfits ->]. clear Hres.
  unfold NewDLQ. wp_step. destruct (o_ok w _); wp_step; [|done]. destruct (o_ok w _); wp_step; [|done].
  destruct (NewBridge _ _) as [b|] eqn:Hb; wp_step; [|done].
  destruct (needs_connection b && negb (o_ok w _)) eqn:Hneeds; wp_step;
    rewrite wp_on_router; cbn [run_tick run_trace run_st].
  - eapply wp_conseq; [|apply (replay_unconnected_spec w b (mkWAL (open_append file) (fst (recover_file file))));
      [reflexivity|exact Ht1]].
    intros [] r2 [Hw2 Href]. wp_step. intros rt [= <-]. split; [done|]. cbn [snd restarted].
    split; [|split; [eexists; split; [exact Hw2|reflexivity]|exact Href]].
    exists b. split; [exact Hb|]. by apply andb_true_iff in Hneeds as [? _].
  - rewrite wp_bind. eapply wp_conseq; [|apply early_dropped; reflexivity].
    intros [] r2 [Hst Ht2]. cbn [run_st run_trace] in Hst, Ht2.
    eapply wp_conseq; [|apply (ReplayWAL_offers w (mkWAL (open_append file) (fst (recover_file file))));
      [by rewrite Hst|by rewrite Hst|apply recovered_keyed]].
    intros [] r3 (taken & wl' & Hw' & Ht & Hent). wp_step. intros rt [= <-]. split; [done|].
    exists taken, wl'. cbn [snd]. split_and!; [done| |exact Hent]. by rewrite Ht, Ht2, Ht1.
Qed.

(** It starts if the log can be read, its calls succeed and the runtime has a
    bridge. *)
Definition serving (res : result serve_error (served B)) : bool :=
  match res with Ok (Serving _) => true | _ => false end.

Lemma runServe_starts (w : Oracle) (f : serve_flags) (file : bytes) (db : B) (early : list Message) :
  (forall n, o_ok w n = true) -> snd (recover_file file) = true ->
  is_Some (NewBridge (sf_runtime f) (mkBridgeConfig (sf_gatewayPort f) (sf_runtimeSocket f))) ->
  wp w (runServe f (Some file) db early) (fun res _ => serving res = true) (mkRun tt 0 []).
Proof.
  intros Hio Hfits [br Hbr]. unfold runServe, NewWAL, recover, NewDLQ. wp_step. rewrite !Hio. wp_step. rewrite !Hio.
  wp_step. rewrite !Hio. destruct (recover_file file) as [m fits]. cbn [snd andb] in *. subst fits. wp_step.
  rewrite !Hio. wp_step. rewrite !Hio. wp_step. rewrite !Hio, Hbr. wp_step. rewrite Hio.
  cbn [negb]. rewrite andb_false_r. wp_step. rewrite wp_on_router.
  eapply wp_conseq; [|apply (wp_true w)]. intros [] r _. by wp_step.
Qed.

(** C4: no message is lost over a restart.  Whatever handlers and compactions
    ran on the opened log, and whatever their I/O did: if the flush that ends
    the shutdown succeeds, then a bus that is started on the file and gets as
    far as serving has offered every message that was pending (its payload
    HTML-escaped) to the bridge exactly once, and keeps pending, for the
    restart after it, exactly those that the bridge refused.  It does get
    there if its own calls succeed and the runtime has a bridge.  If the
    runtime cannot be reached the start may end in a panic; then no message
    was taken, and the file is as it was for the next attempt. *)
Theorem restart_redelivers (w w' : Oracle) (log0 : list WALEntry) (s : Router B)
    (ops : list bus_op) (finish : M (Router B) router_event bool) (r : Run (Router B) router_event)
    (f : serve_flags) (db : B) (early : list Message) :
  Forall rec_ok log0 -> Forall marshals log0 -> wal s = Some (opened log0) ->
  (exists during, finish = shutdown during) \/ (exists events, finish = Execute events) ->
  exec (mfor ops run_bus_op ;;; finish) w s = (true, r) ->
  Forall rec_ok (log_of log0 (wal_events (run_trace r))) ->
  exists wl, wal (run_st r) = Some wl /\
    let '(res, r') := exec (runServe f (Some (disk (out wl))) db early) w' tt in
    ((forall n, o_ok w' n = true) ->
     is_Some (NewBridge (sf_runtime f) (mkBridgeConfig (sf_gatewayPort f) (sf_runtimeSocket f))) ->
     serving res = true) /\
    match res with
    | Ok (Serving rt) =>
        exists taken wl', wal rt = Some wl' /\
          bridged (run_trace r') = offered taken (range (norm_entry <$> entries wl)) /\
          (werr (out wl') = false ->
           entries wl' = filter (fun p => delivered taken p.1 p.2 = false) (norm_entry <$> entries wl))
    | Ok (Panicked rt) =>
        (exists wl', wal rt = Some wl' /\ disk (out wl') = disk (out wl)) /\
        Forall (fun p => p.2 = false) (bridged (run_trace r'))
    | Err _ => True
    end.
Proof.
  intros Hok Hm Hw Hfin He Hrec.
  destruct (bus_shutdown_durable w log0 s ops finish r Hok Hm Hw Hfin He Hrec) as (wl & Hwl & Hd).
  exists wl. split; [exact Hwl|].
  pose proof (runServe_offers w' f (disk (out wl)) db early) as Hp.
  pose proof (runServe_starts w' f (disk (out wl)) db early) as Hq.
  unfold exec, wp in *. rewrite Hd in Hp, Hq. destruct (runServe _ _ _ _ w' _) as [res r'].
  split; [auto|]. destruct res as [[rt|rt]|e]; [| |done]; destruct (Hp _ eq_refl) as [_ Hres].
  - cbn [restarted] in Hres. rewrite Hd in Hres. exact Hres.
  - exact (proj2 Hres).
Qed.
End Start.

(** ** A restart with a pending message *)
Module Sample.

Definition log1 : list WALEntry := [append_entry (sample_message "1") 1700000000000000000].

Definition router1 : Router (gmap string bytes) :=
  NewRouter (mkRouterConfig true (Some (opened log1)) (Some (mkDLQ ∅ 10 1000)) 0 f0 f0).

Definition empty_db : gmap string bytes := ∅.
Definition bus_flags : serve_flags := default_serve_flags (fun _ => ""%string).

Definition start_on (w : Oracle) (f : serve_flags) (file : bytes) :=
  exec (runServe (H0 := sorted_range) f (Some file) empty_db []) w tt.

Lemma restart_redelivers_witness :
  let '(ok, r) := exec (mfor [BCompaction] (run_bus_op (H0 := sorted_range)) ;;; shutdown (H0 := sorted_range) [])
                    all_ok router1 in
  ok = true /\ exists wl, wal (run_st r) = Some wl /\
  let '(res, r') := start_on all_ok bus_flags (disk (out wl)) in
  exists rt taken wl', res = Ok (Serving rt) /\ wal rt = Some wl' /\
    bridged (run_trace r') = offered taken (range (RangeOrder := sorted_range) (norm_entry <$> entries wl)) /\
    (werr (out wl') = false ->
     entries wl' = filter (fun p => delivered taken p.1 p.2 = false) (norm_entry <$> entries wl)).
Proof.
  destruct (exec _ all_ok router1) as [ok r] eqn:E.
  assert (Hok : ok = true).
  { change ok with (fst (ok, r)). rewrite <- E. vm_compute. reflexivity. }
  split; [exact Hok|]. subst ok.
  destruct (restart_redelivers (H0 := sorted_range) all_ok all_ok log1 router1 [BCompaction]
    (shutdown (H0 := sorted_range) []) r bus_flags empty_db [])
    as (wl & Hwl & Hrestart).
  - apply rec_okb_spec. vm_compute. reflexivity.
  - apply rec_okb_spec. vm_compute. reflexivity.
  - reflexivity.
  - left. eexists. reflexivity.
  - exact E.
  - apply rec_okb_spec. change r with (snd (true, r)). rewrite <- E. vm_compute. reflexivity.
  - exists wl. split; [exact Hwl|]. fold (start_on all_ok bus_flags (disk (out wl))) in Hrestart.
    destruct (start_on all_ok bus_flags (disk (out wl))) as [res r']. destruct Hrestart as [Hstart Hres].
    specialize (Hstart (fun _ => eq_refl) ltac:(eexists; vm_compute; reflexivity)).
    destruct res as [[rt|rt]|e]; [|discriminate Hstart..].
    destruct Hres as (taken & wl' & Hreplayed). exists rt, taken, wl'. exact (conj eq_refl Hreplayed).
Defined.

(** The message of the log is offered and taken. *)
Example offered_again :
  bridged (run_trace (snd (start_on all_ok bus_flags (log_bytes log1)))) =
  [(norm_message (sample_message "1"), true)].
Proof. vm_compute. reflexivity. Qed.

(** The runtime is not up yet.  Over a WebSocket the bus goes down at once;
    over a Unix socket it may have tried the message first; over HTTP it
    serves. *)
Definition unreachable : Oracle :=
  mkOracle (fun n => (n <? 6)%nat) (o_uuid all_ok) (o_now all_ok) (fun _ => 1%nat).

Definition flags_for (rt : string) : serve_flags :=
  default_serve_flags (fun k => if decide (k = "CLAW_RUNTIME"%string) then rt else ""%string).

Definition start_outcome (rt : string) : bool * list bool :=
  let '(res, r) := start_on unreachable (flags_for rt) (log_bytes log1) in
  (serving res, map snd (bridged (run_trace r))).

Example unreachable_runtime :
  start_outcome "openclaw" = (false, []) /\ start_outcome "nanoclaw" = (false, [false]) /\
  start_outcome "zeroclaw" = (true, [false]).
Proof. vm_compute. done. Qed.
End Sample.
