(* ===== verification/Client.v ===== *)
(** * The channel client (sdk/channel: client.go, buffer.go, options.go)

    The client of a channel sidecar.  Its goroutines (callers of Send, the
    read loop, the heartbeat loop and the reconnect loop) share the fields of
    [Client] under mutexes; each operation below is what one goroutine does
    between two points where it waits, and the theorems quantify over their
    order.  A Go channel that is only ever closed is its identity and a set of
    the closed ones; closing one twice, or sending on the closed inbound
    channel, panics. *)

From S2P Require Import Prelude.
From S2P Require Import GoStrings.
From S2P Require Import Json.
From S2P Require Import Message.
From S2P Require Import Framing.
From S2P Require Import RingBuffer.

(** ** buffer.go *)

Record buffer := mkBuffer { items : list Sdk.message; cap : Z }.

Definition newBuffer (capacity : Z) : buffer :=
  mkBuffer [] (if capacity <=? 0 then 256 else capacity).

Definition push (m : Sdk.message) (b : buffer) : bool * buffer :=
  if cap b <=? Z.of_nat (length (items b)) then (false, b)
  else (true, mkBuffer (items b ++ [m]) (cap b)).

Definition pop (b : buffer) : option Sdk.message * buffer :=
  match items b with
  | [] => (None, b)
  | m :: l => (Some m, mkBuffer l (cap b))
  end.

Definition len (b : buffer) : Z := Z.of_nat (length (items b)).

Definition drainAll (b : buffer) : list Sdk.message * buffer := (items b, mkBuffer [] (cap b)).

(** ** options.go *)

Definition second : Z := 1000000000.
Definition maxReconnectInterval : Z := 60 * second.

Record clientConfig := mkConfig {
  socketPath : string;
  channelName : string;
  channelMode : string;
  bufferSize : Z;
  reconnectInterval : Z;
  heartbeatInterval : Z;
}.

(** [os.Getenv] is a function of the environment. *)
Definition defaultConfig (getenv : string -> string) : clientConfig :=
  let path := getenv "IPC_SOCKET_PATH"%string in
  mkConfig (if decide (path = ""%string) then "/var/run/claw/bus.sock" else path)
    (getenv "CHANNEL_NAME"%string) (getenv "CHANNEL_MODE"%string) 256 (2 * second) (30 * second).

Definition Option := clientConfig -> clientConfig.
Definition WithSocketPath (p : string) : Option := fun c =>
  mkConfig p (channelName c) (channelMode c) (bufferSize c) (reconnectInterval c) (heartbeatInterval c).
Definition WithChannelName (n : string) : Option := fun c =>
  mkConfig (socketPath c) n (channelMode c) (bufferSize c) (reconnectInterval c) (heartbeatInterval c).
Definition WithChannelMode (m : string) : Option := fun c =>
  mkConfig (socketPath c) (channelName c) m (bufferSize c) (reconnectInterval c) (heartbeatInterval c).
Definition WithBufferSize (n : Z) : Option := fun c =>
  mkConfig (socketPath c) (channelName c) (channelMode c) n (reconnectInterval c) (heartbeatInterval c).
Definition WithReconnectInterval (d : Z) : Option := fun c =>
  mkConfig (socketPath c) (channelName c) (channelMode c) (bufferSize c) d (heartbeatInterval c).
Definition WithHeartbeatInterval (d : Z) : Option := fun c =>
  mkConfig (socketPath c) (channelName c) (channelMode c) (bufferSize c) (reconnectInterval c) d.

(** ** client.go *)

Record InboundMessage := mkInbound {
  in_ID : string;
  in_Channel : string;
  in_Payload : raw_message;
}.

Record Client := mkClient {
  cfg : clientConfig;
  conn : option nat;
  connected : bool;
  reconnecting : bool;
  cbuf : buffer;
  throttled : bool;
  throttleCh : nat;
  closedChs : gset nat;
  inbound : list InboundMessage;
  inboundClosed : bool;
  done : bool;
  panicked : bool;
  nextId : nat;
}.

Inductive client_event :=
| Wrote (conn : nat) (m : Sdk.message) (ok : bool)
| ConnClosed (conn : nat)
| SpawnReconnect
| SpawnReadLoop.

Inductive client_error :=
| ErrNoChannelName | ErrDial | ErrRegister | ErrAck | ErrBadAck | ErrContext
| ErrClosed | ErrBufferFull.

Definition CM A : Type := M Client client_event A.

(** *** Field updates *)

Definition set_conn (cn : option nat) (ok : bool) : CM unit := mmodify (fun c =>
  mkClient (cfg c) cn ok (reconnecting c) (cbuf c) (throttled c) (throttleCh c) (closedChs c)
    (inbound c) (inboundClosed c) (done c) (panicked c) (nextId c)).
Definition set_reconnecting (b : bool) : CM unit := mmodify (fun c =>
  mkClient (cfg c) (conn c) (connected c) b (cbuf c) (throttled c) (throttleCh c) (closedChs c)
    (inbound c) (inboundClosed c) (done c) (panicked c) (nextId c)).
Definition set_cbuf (b : buffer) : CM unit := mmodify (fun c =>
  mkClient (cfg c) (conn c) (connected c) (reconnecting c) b (throttled c) (throttleCh c)
    (closedChs c) (inbound c) (inboundClosed c) (done c) (panicked c) (nextId c)).
Definition set_throttle (t : bool) (ch : nat) (cl : gset nat) : CM unit := mmodify (fun c =>
  mkClient (cfg c) (conn c) (connected c) (reconnecting c) (cbuf c) t ch cl
    (inbound c) (inboundClosed c) (done c) (panicked c) (nextId c)).
Definition set_inbound (l : list InboundMessage) : CM unit := mmodify (fun c =>
  mkClient (cfg c) (conn c) (connected c) (reconnecting c) (cbuf c) (throttled c) (throttleCh c)
    (closedChs c) l (inboundClosed c) (done c) (panicked c) (nextId c)).
Definition set_closed : CM unit := mmodify (fun c =>
  mkClient (cfg c) (conn c) (connected c) (reconnecting c) (cbuf c) (throttled c) (throttleCh c)
    (closedChs c) (inbound c) true true (panicked c) (nextId c)).
Definition panic : CM unit := mmodify (fun c =>
  mkClient (cfg c) (conn c) (connected c) (reconnecting c) (cbuf c) (throttled c) (throttleCh c)
    (closedChs c) (inbound c) (inboundClosed c) (done c) true (nextId c)).
(** A fresh connection or channel identity. *)
Definition fresh_id : CM nat :=
  let* c := mget in
  mput (mkClient (cfg c) (conn c) (connected c) (reconnecting c) (cbuf c) (throttled c)
    (throttleCh c) (closedChs c) (inbound c) (inboundClosed c) (done c) (panicked c)
    (S (nextId c))) ;;;
  mret (nextId c).

Definition push_back (m : Sdk.message) : CM bool :=
  let* c := mget in
  let '(ok, b) := push m (cbuf c) in set_cbuf b ;;; mret ok.

(** What [writeMessage] can put into a frame: it encodes, within the size. *)
Definition sendable (m : Sdk.message) : bool :=
  match marshal m with
  | Some data => Z.of_nat (length data) <=? MaxMessageSize
  | None => false
  end.

Definition write_conn (cn : nat) (m : Sdk.message) : CM bool :=
  let* ok := io in
  let ok := ok && sendable m in
  emit (Wrote cn m ok) ;;; mret ok.

(** *** Connecting *)

(** The client [Connect] builds before it dials. *)
Definition newClient (cf : clientConfig) : Client :=
  mkClient cf None false false (newBuffer (bufferSize cf)) false 0 ∅ [] false false false 1.

Fixpoint replay_msgs (msgs : list Sdk.message) : CM unit :=
  match msgs with
  | [] => mret tt
  | m :: rest =>
      let* c := mget in
      match conn c with
      | None => let* _ := push_back m in mret tt
      | Some cn =>
          let* ok := write_conn cn m in
          if ok then replay_msgs rest else let* _ := push_back m in mret tt
      end
  end.

Definition replayBuffer : CM unit :=
  let* c := mget in
  let '(msgs, b) := drainAll (cbuf c) in
  set_cbuf b ;;; replay_msgs msgs.

Definition close_conn (cn : nat) : CM unit := emit (ConnClosed cn).

(** [dial]; [answer id] is what the bus sends back to a registration with
    that identifier, if anything arrives in time. *)
Definition dial (answer : string -> option Sdk.message) : CM (result client_error unit) :=
  let* ok := io in
  if ok then
    let* cn := fresh_id in
    let* c := mget in
    let* reg := Sdk.newMessage Sdk.typeRegister (channelName (cfg c)) RawEmpty in
    let* ok := write_conn cn reg in
    if ok then
      match answer (Sdk.id_ reg) with
      | None => close_conn cn ;;; mret (Err ErrAck)
      | Some ack =>
          if negb (bool_decide (Sdk.typ ack = Sdk.typeAck)) ||
             negb (bool_decide (Sdk.correlationID ack = Sdk.id_ reg))
          then close_conn cn ;;; mret (Err ErrBadAck)
          else set_conn (Some cn) true ;;; replayBuffer ;;; mret (Ok tt)
      end
    else close_conn cn ;;; mret (Err ErrRegister)
  else mret (Err ErrDial).

(** [connectWithRetry] over the attempts made before the context ends: the
    error of the context, or the intervals waited before a dial succeeded. *)
Definition next_interval (i : Z) : Z := Z.min (i * 2) maxReconnectInterval.

Fixpoint connect_loop (interval : Z) (answers : list (string -> option Sdk.message))
    : CM (result client_error (list Z)) :=
  match answers with
  | [] => mret (Err ErrContext)
  | a :: rest =>
      let* r := dial a in
      match r with
      | Ok _ => mret (Ok [])
      | Err _ =>
          let* r := connect_loop (next_interval interval) rest in
          mret (match r with Ok waits => Ok (interval :: waits) | Err e => Err e end)
      end
  end.

Definition connectWithRetry (answers : list (string -> option Sdk.message))
    : CM (result client_error (list Z)) :=
  let* c := mget in connect_loop (reconnectInterval (cfg c)) answers.

Definition Connect (getenv : string -> string) (opts : list Option)
    (answers : list (string -> option Sdk.message)) : M unit client_event (result client_error Client) :=
  let cf := foldl (fun c o => o c) (defaultConfig getenv) opts in
  if decide (channelName cf = ""%string) then mret (Err ErrNoChannelName)
  else
    let* p := local (newClient cf) (connectWithRetry answers) in
    match p with
    | (Ok _, c) => mret (Ok c)
    | (Err e, _) => mret (Err e)
    end.

(** *** Losing and restoring the connection *)

Definition markDisconnected : CM unit :=
  let* c := mget in
  match conn c with
  | Some cn => close_conn cn ;;; set_conn None false
  | None => set_conn None false
  end.

Definition tryReconnect : CM unit :=
  let* c := mget in
  if reconnecting c then mret tt
  else set_reconnecting true ;;; emit SpawnReconnect.

(** One round of [reconnectLoop] after its wait: [true] when the loop ends. *)
Definition reconnect_round (answer : string -> option Sdk.message) : CM bool :=
  let* c := mget in
  if done c then set_reconnecting false ;;; mret true
  else
    let* r := dial answer in
    match r with
    | Ok _ => emit SpawnReadLoop ;;; set_reconnecting false ;;; mret true
    | Err _ => mret false
    end.

(** *** Send *)

(** The first half of Send: the channel to wait on, when throttled. *)
Definition send_begin : CM (option nat) :=
  let* c := mget in mret (if throttled c then Some (throttleCh c) else None).

(** A waiting Send is released when its channel is closed. *)
Definition send_released (ch : nat) (c : Client) : bool := bool_decide (ch ∈ closedChs c).

(** The second half, once not throttled or released. *)
Definition send_rest (payload : raw_message) : CM (result client_error unit) :=
  let* c := mget in
  let* msg := Sdk.newMessage Sdk.typeMessage (channelName (cfg c)) payload in
  let* c := mget in
  match (if connected c then conn c else None) with
  | None =>
      let* ok := push_back msg in
      mret (if ok then Ok tt else Err ErrBufferFull)
  | Some cn =>
      let* ok := write_conn cn msg in
      if ok then mret (Ok tt)
      else markDisconnected ;;; (let* _ := push_back msg in tryReconnect ;;; mret (Ok tt))
  end.

(** [Send]: a throttled sender waits until it is released, its context ends or
    the client is closed. *)
Definition Send (payload : raw_message) : CM (result client_error unit) :=
  let* waiting := send_begin in
  match waiting with
  | None => send_rest payload
  | Some _ =>
      let* released := io in
      if released then send_rest payload
      else
        let* c := mget in
        let* closed := io in
        mret (Err (if done c && closed then ErrClosed else ErrContext))
  end.

Definition BufferedCount : CM Z := mgets (fun c => len (cbuf c)).

(** [Close], once. *)
Definition Close : CM unit :=
  let* c := mget in
  if done c then mret tt
  else
    set_closed ;;;
    match conn c with Some cn => close_conn cn | None => mret tt end.

(** *** The read loop *)

Definition inbound_cap : nat := 64.

(** [handleMessage].  In the select on a data message the send to a closed
    channel and the receive from [done] are both ready after Close, and the
    runtime picks either. *)
Definition handleMessage (m : Sdk.message) : CM unit :=
  let* c := mget in
  if decide (Sdk.typ m = Sdk.typeSlowDown) then
    let* ch := fresh_id in
    set_throttle true ch (closedChs c)
  else if decide (Sdk.typ m = Sdk.typeResume) then
    set_throttle false (throttleCh c) (closedChs c) ;;;
    if decide (throttleCh c ∈ closedChs c) then panic
    else set_throttle false (throttleCh c) ({[throttleCh c]} ∪ closedChs c)
  else if decide (Sdk.typ m = Sdk.typeShutdown) then Close
  else if decide (Sdk.typ m = Sdk.typeMessage) then
    let i := mkInbound (Sdk.id_ m) (Sdk.channel_ m) (Sdk.payload_ m) in
    if inboundClosed c then
      let* pick_send := io in
      if pick_send || negb (done c) then panic else mret tt
    else if decide (length (inbound c) < inbound_cap)%nat then
      let* pick_send := io in
      if pick_send || negb (done c) then set_inbound (inbound c ++ [i]) else mret tt
    else mret tt
  else mret tt.

(** One iteration of [readLoop] with the outcome of the read: [true] when the
    loop returns. *)
Definition read_round (incoming : result frame_error Sdk.message) : CM bool :=
  let* c := mget in
  if done c then mret true
  else
    match conn c with
    | None => mret false
    | Some _ =>
        match incoming with
        | Ok m => handleMessage m ;;; mret false
        | Err _ => markDisconnected ;;; tryReconnect ;;; mret true
        end
    end.

(** A tick of [heartbeatLoop]: [true] when the loop returns. *)
Definition heartbeat_round : CM bool :=
  let* c := mget in
  if done c then mret true
  else
    match (if connected c then conn c else None) with
    | None => mret false
    | Some cn =>
        let* hb := Sdk.newMessage Sdk.typeHeartbeat (channelName (cfg c)) RawEmpty in
        let* ok := write_conn cn hb in
        (if ok then mret tt else markDisconnected ;;; tryReconnect) ;;;
        mret false
    end.

(** ** Throttling *)

(** The backpressure notification a message carries. *)
Definition note (m : Sdk.message) : option BackpressureState :=
  if decide (Sdk.typ m = Sdk.typeSlowDown) then Some StateSlowDown
  else if decide (Sdk.typ m = Sdk.typeResume) then Some StateNormal
  else None.

(** The client after the notifications so far, the last of which was [st]. *)
Definition throttle_inv (st : BackpressureState) (c : Client) : Prop :=
  panicked c = false /\ inboundClosed c = false /\ throttled c = bool_decide (st = StateSlowDown) /\
  (throttleCh c < nextId c)%nat /\ (forall ch, ch ∈ closedChs c -> (ch < nextId c)%nat) /\
  (st = StateSlowDown -> throttleCh c ∉ closedChs c).

Lemma handleMessage_throttle w st m (r : Run Client client_event) :
  Sdk.typ m <> Sdk.typeShutdown -> throttle_inv st (run_st r) ->
  (note m = Some StateNormal -> st = StateSlowDown) ->
  wp w (handleMessage m) (fun _ r' => throttle_inv (default st (note m)) (run_st r') /\
    (forall ch, ch ∈ closedChs (run_st r) -> ch ∈ closedChs (run_st r')) /\
    (note m = Some StateNormal -> throttleCh (run_st r) ∈ closedChs (run_st r'))) r.
Proof.
  intros Hsh (Hp & Hic & Ht & Hn & Hcl & Hop) Hst. unfold handleMessage, note in *. wp_step.
  destruct (decide (Sdk.typ m = Sdk.typeSlowDown)).
  { unfold fresh_id, set_throttle. wp_step. unfold throttle_inv. cbn.
    split_and!; try done; try lia.
    - intros ch Hch. specialize (Hcl ch Hch). lia.
    - intros _ Hch. specialize (Hcl _ Hch). lia. }
  destruct (decide (Sdk.typ m = Sdk.typeResume)).
  { specialize (Hst eq_refl). subst st. unfold set_throttle. wp_step.
    rewrite decide_False by auto. wp_step. unfold throttle_inv. cbn [default].
    cbn [panicked inboundClosed throttled throttleCh nextId closedChs].
    split_and!; try done.
    - intros ch [->%elem_of_singleton|Hch]%elem_of_union; [done|auto].
    - intros ch Hch. set_solver.
    - intros _. set_solver. }
  rewrite decide_False by done. cbn [default].
  assert (Hkeep : throttle_inv st (run_st r) /\
    (forall ch, ch ∈ closedChs (run_st r) -> ch ∈ closedChs (run_st r)) /\
    (None = Some StateNormal -> throttleCh (run_st r) ∈ closedChs (run_st r))) by done.
  destruct (decide (Sdk.typ m = Sdk.typeMessage)); [|by wp_step].
  rewrite Hic. destruct (decide _); [|by wp_step]. wp_step.
  destruct (_ || _); [|by wp_step]. unfold set_inbound. by wp_step.
Qed.

Lemma handle_all_throttle w msgs st (r : Run Client client_event) :
  Forall (fun m => Sdk.typ m <> Sdk.typeShutdown) msgs -> throttle_inv st (run_st r) ->
  alternates st (omap note msgs) ->
  wp w (mfor msgs handleMessage) (fun _ r' =>
    throttle_inv (default st (last (omap note msgs))) (run_st r')) r.
Proof.
  revert st r. induction msgs as [|m msgs IH]; intros st r Hsh Hi Ha; cbn [mfor]; [by wp_step|].
  inversion_clear Hsh as [|?? Hm Hms]. wp_step.
  eapply wp_conseq; [|apply (handleMessage_throttle w st m); [done|done|]].
  - intros [] r1 [Hi1 _]. cbn [omap list_omap] in *.
    destruct (note m) as [t|]; cbn [default] in Hi1.
    + destruct Ha as [_ Ha]. eapply wp_conseq; [|by apply (IH t)].
      intros [] r2 Hi2. cbn beta in Hi2 |- *. rewrite last_cons. change (list_omap _ _ note msgs) with (omap note msgs).
      by destruct (last (omap note msgs)).
    + by apply IH.
  - intros Hn. cbn [omap list_omap] in Ha. rewrite Hn in Ha. destruct Ha as [Ha _].
    by destruct st.
Qed.

(** Property: The throttle follows the bus.  As long as the notifications a client
    receives alternate, as those of one ring buffer do, the client never
    panics, is throttled exactly when the last notification was slow_down, and
    a Send that waits while throttled is released by the next resume.  Other
    messages may arrive in between, in any order. *)
Theorem throttle_follows_backpressure (w : Oracle) (cf : clientConfig) (msgs : list Sdk.message)
    (c : Client) :
  Forall (fun m => Sdk.typ m <> Sdk.typeShutdown) msgs ->
  alternates StateNormal (omap note msgs) ->
  run_st (snd (exec (mfor msgs handleMessage) w (newClient cf))) = c ->
  panicked c = false /\
  throttled c = bool_decide (last (omap note msgs) = Some StateSlowDown) /\
  forall (w' : Oracle) (resume : Sdk.message), throttled c = true ->
    note resume = Some StateNormal ->
    send_released (throttleCh c) (run_st (snd (exec (handleMessage resume) w' c))) = true.
Proof.
  intros Hsh Ha <-.
  assert (Hi : wp w (mfor msgs handleMessage) (fun _ r' =>
    throttle_inv (default StateNormal (last (omap note msgs))) (run_st r'))
    (mkRun (newClient cf) 0 [])).
  { apply handle_all_throttle; [done| |done]. unfold throttle_inv, newClient. cbn.
    split_and!; try done; set_solver. }
  unfold wp, exec in *. destruct (mfor msgs handleMessage w _) as [[] r]. cbn [snd] in *.
  pose proof Hi as (Hp & _ & Ht & _). split; [done|]. split.
  { rewrite Ht. destruct (last (omap note msgs)) as [[]|]; done. }
  intros w' resume Hthr Hres.
  pose proof (handleMessage_throttle w' (default StateNormal (last (omap note msgs))) resume (mkRun (run_st r) 0 [])) as Hh.
  unfold wp in Hh. cbn [run_st] in Hh.
  destruct (handleMessage resume w' (mkRun (run_st r) 0 [])) as [[] r'].
  destruct (Hh) as (_ & _ & Hrel); [|exact Hi| |].
  - intros E. unfold note in Hres. rewrite E in Hres. done.
  - intros _. rewrite Ht in Hthr. by apply bool_decide_eq_true in Hthr.
  - apply bool_decide_eq_true. by apply Hrel.
Qed.

(** ** Replaying the bus-down buffer *)

Lemma replay_msgs_spec w cn pre post (r : Run Client client_event) :
  conn (run_st r) = Some cn ->
  (forall i m, pre !! i = Some m -> o_ok w (run_tick r + i) && sendable m = true) ->
  match post with [] => True | m :: _ => o_ok w (run_tick r + length pre) && sendable m = false end ->
  wp w (replay_msgs (pre ++ post)) (fun _ r' =>
    run_trace r' = run_trace r ++ map (fun m => Wrote cn m true) pre ++
      match post with [] => [] | m :: _ => [Wrote cn m false] end /\
    cbuf (run_st r') = match post with [] => cbuf (run_st r) | m :: _ => snd (push m (cbuf (run_st r))) end) r.
Proof.
  revert r. induction pre as [|m pre IH]; intros r Hc Hok Hpost; cbn [app].
  - destruct post as [|m post]; cbn [replay_msgs]; wp_step; [by rewrite app_nil_r|].
    rewrite Hc. unfold write_conn. wp_step. cbn [length] in Hpost.
    rewrite Nat.add_0_r in Hpost. rewrite Hpost. unfold push_back, set_cbuf. wp_step.
    destruct (push m (cbuf (run_st r))) as [ok b] eqn:Ep. by wp_step.
  - cbn [replay_msgs]. wp_step. rewrite Hc. unfold write_conn. wp_step.
    pose proof (Hok 0%nat m eq_refl) as H0. rewrite Nat.add_0_r in H0. rewrite H0.
    eapply wp_conseq; [|apply IH; cbn [run_st run_tick]].
    + cbn [run_st run_trace]. intros [] r' [-> ->]. cbn [map]. by rewrite <- app_assoc.
    + done.
    + intros i x Hi. replace (1 + run_tick r + i)%nat with (run_tick r + S i)%nat by lia.
      by apply Hok.
    + destruct post as [|x post]; [done|]. cbn [length] in Hpost.
      by replace (1 + run_tick r + length pre)%nat with (run_tick r + S (length pre))%nat by lia.
Qed.

(** Property: Replaying after a reconnection sends the buffered messages in order.
    If all writes succeed the buffer is empty afterwards; if one fails, since
    the connection does or since it does not fit into a frame, the messages
    before it have been sent, the failed one is kept, and the messages after
    it are dropped. *)
Theorem replay_outcome (w : Oracle) (c : Client) (cn : nat) (pre post : list Sdk.message) :
  conn c = Some cn -> items (cbuf c) = pre ++ post -> 0 < cap (cbuf c) ->
  (forall i m, pre !! i = Some m -> o_ok w i && sendable m = true) ->
  match post with [] => True | m :: _ => o_ok w (length pre) && sendable m = false end ->
  let r := snd (exec replayBuffer w c) in
  run_trace r = map (fun m => Wrote cn m true) pre ++
                match post with [] => [] | m :: _ => [Wrote cn m false] end /\
  items (cbuf (run_st r)) = match post with [] => [] | m :: _ => [m] end.
Proof.
  intros Hc Hit Hcap Hok Hpost.
  assert (Hi : wp w replayBuffer (fun _ r => run_trace r = map (fun m => Wrote cn m true) pre ++
                match post with [] => [] | m :: _ => [Wrote cn m false] end /\
    items (cbuf (run_st r)) = match post with [] => [] | m :: _ => [m] end) (mkRun c 0 [])).
  { unfold replayBuffer, drainAll, set_cbuf. wp_step. rewrite Hit.
    eapply wp_conseq; [|by apply (replay_msgs_spec w cn)]. cbn [run_st run_trace cbuf].
    intros [] r [-> ->]. split; [done|]. destruct post as [|m post]; [done|].
    unfold push. cbn [items cap length]. change (Z.of_nat 0) with 0.
    by rewrite (proj2 (Z.leb_gt _ _) Hcap). }
  unfold wp, exec in *. by destruct (replayBuffer w _).
Qed.

(** ** Sending *)

(** Property: What became of a message when Send returns: nil means that it was
    written to the connection, or waits in the buffer, or that the write
    failed while the buffer was full, and then it is lost without an error;
    an error means that the client was not connected and its buffer full. *)
Theorem send_outcome (w : Oracle) (c : Client) (p : raw_message)
    (res : result client_error unit) (r : Run Client client_event) :
  exec (send_rest p) w c = (res, r) ->
  let msg := Sdk.mkMsg (o_uuid w 0) Sdk.typeMessage (channelName (cfg c)) "" "" (o_now w 1) p in
  match res with
  | Ok _ =>
      (exists cn, run_trace r = [Wrote cn msg true] /\ run_st r = c) \/
      (items (cbuf (run_st r)) = items (cbuf c) ++ [msg]) \/
      (exists cn, Wrote cn msg false ∈ run_trace r /\ cap (cbuf c) <= len (cbuf c) /\
         items (cbuf (run_st r)) = items (cbuf c))
  | Err e => e = ErrBufferFull /\ cap (cbuf c) <= len (cbuf c) /\
             (connected c = false \/ conn c = None) /\ run_trace r = []
  end.
Proof.
  intros He msg.
  assert (Hi : wp w (send_rest p) (fun res r => match res with
    | Ok _ =>
      (exists cn, run_trace r = [Wrote cn msg true] /\ run_st r = c) \/
      (items (cbuf (run_st r)) = items (cbuf c) ++ [msg]) \/
      (exists cn, Wrote cn msg false ∈ run_trace r /\ cap (cbuf c) <= len (cbuf c) /\
         items (cbuf (run_st r)) = items (cbuf c))
    | Err e => e = ErrBufferFull /\ cap (cbuf c) <= len (cbuf c) /\
             (connected c = false \/ conn c = None) /\ run_trace r = [] end) (mkRun c 0 [])).
  2:{ unfold wp, exec in *. by rewrite He in Hi. }
  clear He res r. unfold send_rest, Sdk.newMessage. wp_step. fold msg.
  destruct (if connected c then conn c else None) as [cn|] eqn:Ec.
  - unfold write_conn. wp_step. destruct (o_ok w _ && _); wp_step; [left; eauto|].
    unfold markDisconnected. wp_step. cbn [run_st].
    assert (conn c = Some cn) as Hcn by (by destruct (connected c)). rewrite Hcn.
    unfold close_conn, set_conn, push_back, set_cbuf, tryReconnect, set_reconnecting. wp_step.
    cbn [cbuf]. unfold push. destruct (cap (cbuf c) <=? _) eqn:E; wp_step; cbn [reconnecting].
    + destruct (reconnecting c); wp_step; right; right; exists cn; cbn [cbuf items];
        (split; [set_solver|]; split; [unfold len; lia|done]).
    + destruct (reconnecting c); wp_step; right; left; done.
  - unfold push_back, set_cbuf. wp_step. unfold push. destruct (cap (cbuf c) <=? _) eqn:E; wp_step.
    + split; [done|]. split; [unfold len; lia|]. split; [|done].
      destruct (connected c); auto.
    + right. left. done.
Qed.

(** *** Intervals between the attempts *)

(** Property: Connecting waits between attempts: first the configured interval, then
    twice as long each time, but never more than 60 seconds after the first
    wait, and it makes one attempt per wait until one succeeds. *)
Theorem connect_intervals (w : Oracle) (c : Client)
    (answers : list (string -> option Sdk.message)) (waits : list Z) (r : Run Client client_event) :
  0 <= reconnectInterval (cfg c) ->
  exec (connectWithRetry answers) w c = (Ok waits, r) ->
  (length waits < length answers)%nat /\
  forall k i, waits !! k = Some i ->
    i = match k with
        | O => reconnectInterval (cfg c)
        | _ => Z.min (reconnectInterval (cfg c) * 2 ^ Z.of_nat k) maxReconnectInterval
        end.
Proof.
  intros Hb He. unfold connectWithRetry, exec, mbind, mget in He. cbn [run_st] in He.
  revert Hb He. generalize (reconnectInterval (cfg c)) as b. generalize (mkRun (E := client_event) c 0 []) as r0.
  revert waits r. induction answers as [|a answers IH]; intros waits r r0 b Hb; cbn [connect_loop]; [done|].
  unfold mbind. destruct (dial a w r0) as [[u|e] r1].
  - intros [= <- _]. split; [cbn; lia|]. intros k i Hk. by destruct k.
  - destruct (connect_loop (next_interval b) answers w r1) as [[ws|e2] r2] eqn:El; [|done].
    intros [= <- _]. unfold next_interval in El.
    destruct (IH ws r2 r1 (Z.min (b * 2) maxReconnectInterval)) as [Hlen Hws].
    { unfold maxReconnectInterval, second. lia. }
    { exact El. }
    split; [cbn; lia|]. intros [|k] i; cbn [lookup list_lookup]; [by intros [= ->]|].
    intros Hi. specialize (Hws k i Hi). rewrite Nat2Z.inj_succ, Z.pow_succ_r by lia.
    destruct k as [|k]; [rewrite Hws; cbn; lia|]. rewrite Hws.
    rewrite Nat2Z.inj_succ, Z.pow_succ_r in * by lia.
    pose proof (Z.pow_pos_nonneg 2 (Z.of_nat k) ltac:(lia) ltac:(lia)) as Hp.
    set (p := 2 ^ Z.of_nat k) in *. unfold maxReconnectInterval, second. nia.
Qed.

(** ** Witnesses *)

Definition note_message (ty : string) : Sdk.message := Sdk.mkMsg "n" ty "slack" "" "" 0 RawEmpty.
Definition sample_config : clientConfig := mkConfig "/bus.sock" "slack" "" 2 second (30 * second).

Definition sample_notes : list Sdk.message :=
  [note_message "slow_down"; note_message "message"; note_message "resume";
   note_message "slow_down"].

Lemma throttle_follows_backpressure_witness :
  let c := run_st (snd (exec (mfor sample_notes handleMessage) all_ok (newClient sample_config))) in
  panicked c = false /\ throttled c = true /\
  send_released (throttleCh c)
    (run_st (snd (exec (handleMessage (note_message "resume")) all_ok c))) = true.
Proof.
  cbn zeta.
  destruct (throttle_follows_backpressure all_ok sample_config sample_notes
    (run_st (snd (exec (mfor sample_notes handleMessage) all_ok (newClient sample_config)))))
    as (H1 & H2 & H3).
  - unfold sample_notes. repeat constructor; discriminate.
  - vm_compute. done.
  - reflexivity.
  - split; [exact H1|]. split; [rewrite H2; vm_compute; reflexivity|].
    apply H3; [rewrite H2; vm_compute; reflexivity|reflexivity].
Defined.

(** A connected client with three buffered messages, and a connection that
    fails on its second write. *)
Definition buffered_client : Client :=
  mkClient sample_config (Some 7%nat) true false
    (mkBuffer [note_message "a"; note_message "b"; note_message "c"] 3) false 0 ∅ [] false false
    false 8.
Definition second_write_fails : Oracle :=
  mkOracle (fun n => negb (n =? 1)%nat) (o_uuid all_ok) (o_now all_ok) (o_len all_ok).

Lemma replay_outcome_witness :
  items (cbuf (run_st (snd (exec replayBuffer second_write_fails buffered_client)))) =
  [note_message "b"].
Proof.
  apply (replay_outcome second_write_fails buffered_client 7 [note_message "a"]
    [note_message "b"; note_message "c"]).
  - reflexivity.
  - reflexivity.
  - reflexivity.
  - intros [|i] m [= <-]. vm_compute. reflexivity.
  - vm_compute. reflexivity.
Defined.

Lemma send_outcome_witness :
  items (cbuf (run_st (snd (exec (send_rest RawEmpty) all_ok (newClient sample_config))))) <> [] /\
  fst (exec (send_rest RawEmpty) all_ok (newClient sample_config)) = Ok tt.
Proof.
  destruct (exec (send_rest RawEmpty) all_ok (newClient sample_config)) as [res r] eqn:E.
  pose proof (send_outcome all_ok (newClient sample_config) RawEmpty res r E) as Hs.
  assert (res = Ok tt) as ->.
  { change res with (fst (res, r)). rewrite <- E. vm_compute. reflexivity. }
  split; [|reflexivity]. cbn [snd]. destruct Hs as [(cn & Ht & _)|[Hi|(cn & _ & Hc & _)]].
  - exfalso. change (run_trace r) with (run_trace (snd (Ok (E := client_error) tt, r))) in Ht.
    rewrite <- E in Ht. vm_compute in Ht. discriminate Ht.
  - rewrite Hi. destruct (items _); discriminate.
  - exfalso. vm_compute in Hc. by apply Hc.
Defined.

Definition sample_ack (id : string) : Sdk.message :=
  Sdk.mkMsg "x" Sdk.typeAck "" id "" 0 RawEmpty.

Lemma connect_intervals_witness :
  exists waits r,
    exec (connectWithRetry [fun _ => None; fun _ => None; fun id => Some (sample_ack id)]) all_ok
      (newClient sample_config) = (Ok waits, r) /\ waits = [second; 2 * second] /\
    (length waits < 3)%nat.
Proof.
  destruct (exec _ all_ok (newClient sample_config)) as [res r] eqn:E.
  assert (res = Ok [second; 2 * second]) as ->.
  { change res with (fst (res, r)). rewrite <- E. vm_compute. reflexivity. }
  exists [second; 2 * second], r. split; [done|]. split; [done|].
  apply (connect_intervals all_ok (newClient sample_config)
    [fun _ => None; fun _ => None; fun id => Some (sample_ack id)] _ r); [|exact E].
  vm_compute. discriminate.
Defined.

(** A second resume closes a closed channel. *)
Example double_resume_panics :
  panicked (run_st (snd (exec (mfor [note_message "resume"; note_message "resume"] handleMessage)
    all_ok (newClient sample_config)))) = true.
Proof. vm_compute. reflexivity. Qed.

(** After Close a data message may be sent on the closed inbound channel. *)
Example message_after_close_panics :
  panicked (run_st (snd (exec (Close ;;; handleMessage (note_message "message"))
    all_ok (newClient sample_config)))) = true.
Proof. vm_compute. reflexivity. Qed.

(** A message is lost although Send returned nil. *)
Example send_loses_message :
  let '(res, r) := exec (send_rest RawEmpty) (mkOracle (fun _ => false) (o_uuid all_ok)
    (o_now all_ok) (o_len all_ok)) buffered_client in
  res = Ok tt /\ items (cbuf (run_st r)) = items (cbuf buffered_client).
Proof. vm_compute. done. Qed.

(** ** Messages that cannot be sent *)

(** The operations of the client, in any order. *)
Inductive client_op :=
| OSend (payload : raw_message)
| ORead (incoming : result frame_error Sdk.message)
| OHeartbeat
| OReconnect (answer : string -> option Sdk.message)
| OClose.

Definition run_op (o : client_op) : CM unit :=
  match o with
  | OSend p => let* _ := send_rest p in mret tt
  | ORead m => let* _ := read_round m in mret tt
  | OHeartbeat => let* _ := heartbeat_round in mret tt
  | OReconnect a => let* _ := reconnect_round a in mret tt
  | OClose => Close
  end.

Section Poison.
Context (w : Oracle) (m : Sdk.message) (Hm : sendable m = false).

Definition blocked (r : Run Client client_event) : Prop :=
  hd_error (items (cbuf (run_st r))) = Some m /\ 0 < cap (cbuf (run_st r)).

Abbreviation keeps x := (preserves w blocked x).

Lemma blocked_io : keeps io. Proof using Type. by intros r Hr. Qed.
Lemma blocked_now : keeps now. Proof using Type. by intros r Hr. Qed.
Lemma blocked_uuid : keeps new_uuid. Proof using Type. by intros r Hr. Qed.
Lemma blocked_emit e : keeps (emit e). Proof using Type. by intros r Hr. Qed.
Lemma blocked_conn cn ok : keeps (set_conn cn ok). Proof using Type. by intros r Hr. Qed.
Lemma blocked_reconnecting b : keeps (set_reconnecting b). Proof using Type. by intros r Hr. Qed.
Lemma blocked_throttle t ch cl : keeps (set_throttle t ch cl). Proof using Type. by intros r Hr. Qed.
Lemma blocked_inbound l : keeps (set_inbound l). Proof using Type. by intros r Hr. Qed.
Lemma blocked_closed : keeps set_closed. Proof using Type. by intros r Hr. Qed.
Lemma blocked_panic : keeps panic. Proof using Type. by intros r Hr. Qed.
Lemma blocked_fresh : keeps fresh_id. Proof using Type. by intros r Hr. Qed.
#[local] Hint Resolve blocked_io blocked_now blocked_uuid blocked_emit blocked_conn blocked_reconnecting
  blocked_throttle blocked_inbound blocked_closed blocked_panic blocked_fresh : preserves.

Lemma blocked_push x : keeps (push_back x).
Proof using Type.
  intros r [Hh Hc]. unfold push_back, push, set_cbuf. wp_step.
  destruct (cap (cbuf (run_st r)) <=? _); wp_step; [done|]. split; [|done].
  cbn [run_st cbuf items]. by destruct (items (cbuf (run_st r))).
Qed.

Lemma blocked_write cn x : keeps (write_conn cn x).
Proof using Type. unfold write_conn. preserve. Qed.
#[local] Hint Resolve blocked_push blocked_write : preserves.

(** A replay fails at once and puts the message back. *)
Lemma blocked_replay r :
  blocked r -> conn (run_st r) <> None -> wp w replayBuffer (fun _ => blocked) r.
Proof using Hm.
  intros [Hh Hc] Hcn. unfold replayBuffer, drainAll, set_cbuf. wp_step.
  destruct (items (cbuf (run_st r))) as [|x l]; [done|]. injection Hh as ->.
  cbn [replay_msgs]. wp_step. destruct (conn (run_st r)) as [cn|]; [|done].
  cbn [conn]. unfold write_conn. wp_step. rewrite Hm, andb_false_r.
  unfold push_back, push, set_cbuf. wp_step. cbn [cbuf items cap length]. change (Z.of_nat 0) with 0.
  rewrite (proj2 (Z.leb_gt _ _) Hc). by wp_step.
Qed.

Lemma blocked_dial answer : keeps (dial answer).
Proof using Hm.
  unfold dial, Sdk.newMessage, close_conn. apply preserves_bind; [preserve|]. intros []; [|preserve].
  apply preserves_bind; [preserve|]. intros cn. apply preserves_bind; [preserve|]. intros c.
  apply preserves_bind; [preserve|]. intros reg. apply preserves_bind; [preserve|]. intros []; [|preserve].
  destruct (answer _) as [ack|]; [|preserve]. destruct (_ || _); [preserve|].
  intros r Hr. unfold set_conn. wp_step. eapply wp_conseq; [|by apply blocked_replay].
  intros [] r' Hr'. by wp_step.
Qed.
#[local] Hint Resolve blocked_dial : preserves.

Lemma blocked_mark : keeps markDisconnected.
Proof using Type. unfold markDisconnected, close_conn. preserve. Qed.
Lemma blocked_try : keeps tryReconnect.
Proof using Type. unfold tryReconnect. preserve. Qed.
Lemma blocked_Close : keeps Close.
Proof using Type. unfold Close, close_conn. preserve. Qed.
#[local] Hint Resolve blocked_mark blocked_try blocked_Close : preserves.

Lemma blocked_handle x : keeps (handleMessage x).
Proof using Type. unfold handleMessage. preserve. Qed.
#[local] Hint Resolve blocked_handle : preserves.

Lemma blocked_op o : keeps (run_op o).
Proof using Hm.
  destruct o as [p|inc| |a|]; cbn [run_op];
    unfold send_rest, read_round, heartbeat_round, reconnect_round, Sdk.newMessage; preserve.
Qed.
End Poison.

(** Property: a message that does not fit into a frame, because its payload is
    no JSON or it is too large, blocks the client for good.  Sending it on a
    connected client with an empty buffer succeeds, disconnects the client
    and buffers it; whatever the client does afterwards, it stays at the head
    of the buffer, so the buffer is never empty again (and by
    [replay_outcome] every reconnection drops what was buffered behind it). *)
Theorem unsendable_blocks (w : Oracle) (c : Client) (cn : nat) (p : raw_message)
    (ops : list client_op) :
  connected c = true -> conn c = Some cn -> items (cbuf c) = [] -> 0 < cap (cbuf c) ->
  let m := Sdk.mkMsg (o_uuid w 0) Sdk.typeMessage (channelName (cfg c)) "" "" (o_now w 1) p in
  sendable m = false ->
  let '(res, r) := exec (let* res := send_rest p in mfor ops run_op ;;; mret res) w c in
  res = Ok tt /\ hd_error (items (cbuf (run_st r))) = Some m /\ 0 < len (cbuf (run_st r)).
Proof.
  intros Hcon Hcn Hit Hcap m Hm.
  assert (Hsend : wp w (let* res := send_rest p in mfor ops run_op ;;; mret res)
    (fun res r => res = Ok tt /\ blocked m r) (mkRun c 0 [])).
  { unfold send_rest at 1, Sdk.newMessage. wp_step. change (1 + 0)%nat with 1%nat. fold m.
    rewrite Hcon, Hcn. unfold write_conn at 1. wp_step. fold m. rewrite Hm, andb_false_r.
    unfold markDisconnected, close_conn, set_conn, push_back, set_cbuf, tryReconnect, set_reconnecting.
    wp_step. cbn [run_st conn]. rewrite Hcn. wp_step. cbn [run_st cbuf reconnecting]. unfold push.
    rewrite Hit. change (Z.of_nat (length [])) with 0. rewrite (proj2 (Z.leb_gt _ _) Hcap). wp_step.
    cbn [run_st reconnecting].
    assert (Hfin : forall r, blocked m r -> wp w (mfor ops run_op ;;; mret (Ok (E := client_error) tt))
      (fun res r => res = Ok tt /\ blocked m r) r).
    { intros r Hr. rewrite wp_bind. eapply wp_conseq; [|apply (wp_mfor w ops run_op (blocked m))].
      - intros [] r' Hb. by wp_step.
      - done.
      - intros o r' _ Hb. by apply blocked_op. }
    destruct (reconnecting c); wp_step; rewrite <- wp_bind; apply Hfin; by split. }
  unfold exec, wp in *. destruct (mbind _ _ w _) as [res r].
  destruct Hsend as (-> & Hh & _). split; [done|]. split; [done|].
  unfold len. destruct (items (cbuf (run_st r))); [done|]. cbn [length]. lia.
Qed.
