(* ===== verification/Api.v ===== *)
(** * The API types (api/v1alpha1: common_types.go, claw_types.go,
    clawopsescalation_types.go)

    The custom resources as the operator sees them.  A Go string-valued enum
    is a [string] with its constants; a pointer or a slice or map that may be
    nil is an [option] where nil and empty differ for the code.  Of the
    Kubernetes types the sources use (object metadata, pods, resource
    requirements) the fields that the code reads or writes are declared.
    Quantities belong to the Kubernetes library: the class [QuantityLib] is
    what the code relies on. *)

From S2P Require Import Prelude.

(** [resource.Quantity] with its zero value, [ParseQuantity] and [Cmp]. *)
Class QuantityLib := {
  Quantity : Type;
  zeroQuantity : Quantity;
  ParseQuantity : string -> option Quantity;
  Cmp : Quantity -> Quantity -> comparison;
  Quantity_eq_dec :: EqDecision Quantity;
}.

(** ** Enums *)

Definition RuntimeOpenClaw : string := "openclaw".
Definition RuntimeHermesClaw : string := "hermesclaw".
Definition RuntimeHermesRS : string := "hermesrs".
Definition RuntimeK8sOps : string := "k8sops".
Definition RuntimeCustom : string := "custom".

Definition SeverityCritical : string := "Critical".
Definition SeverityHigh : string := "High".
Definition SeverityMedium : string := "Medium".
Definition SeverityLow : string := "Low".

Definition SeverityRank (s : string) : Z :=
  if decide (s = SeverityCritical) then 4
  else if decide (s = SeverityHigh) then 3
  else if decide (s = SeverityMedium) then 2
  else if decide (s = SeverityLow) then 1
  else 0.

Definition TriggerOOMKilled : string := "OOMKilled".
Definition TriggerCrashLoop : string := "CrashLoop".
Definition TriggerHighCPU : string := "HighCPU".
Definition TriggerEvicted : string := "Evicted".

Definition ReclaimRetain : string := "Retain".
Definition ReclaimArchive : string := "Archive".
Definition ReclaimDelete : string := "Delete".

Definition ChannelModeInbound : string := "inbound".
Definition ChannelModeOutbound : string := "outbound".
Definition ChannelModeBidirectional : string := "bidirectional".

(** ** Object metadata *)

Record OwnerReference := mkOwnerRef {
  or_Kind : string;
  or_Name : string;
  or_UID : string;
  or_Controller : option bool;
}.

Record ObjectMeta := mkMeta {
  Name : string;
  GenerateName : string;
  Namespace : string;
  UID : string;
  ObjGeneration : Z;
  Labels : gmap string string;
  Annotations : option (gmap string string);
  OwnerReferences : list OwnerReference;
  Finalizers : list string;
  CreationTimestamp : Z;
  DeletionTimestamp : option Z;
}.

(** Reading a key of a possibly nil map. *)
Definition annotation (m : ObjectMeta) (k : string) : option string :=
  Annotations m ≫= (.!! k).

Definition set_annotations (a : option (gmap string string)) (m : ObjectMeta) : ObjectMeta :=
  mkMeta (Name m) (GenerateName m) (Namespace m) (UID m) (ObjGeneration m) (Labels m) a
    (OwnerReferences m) (Finalizers m) (CreationTimestamp m) (DeletionTimestamp m).

(** [delete(m, k)], which nil allows. *)
Definition del_annotation (k : string) (m : ObjectMeta) : ObjectMeta :=
  set_annotations (delete k <$> Annotations m) m.

(** [if m == nil { m = make(...) }; m[k] = v]. *)
Definition put_annotation (k v : string) (m : ObjectMeta) : ObjectMeta :=
  set_annotations (Some (<[k := v]> (default ∅ (Annotations m)))) m.

Lemma annotation_del k k' m :
  annotation (del_annotation k m) k' = if decide (k = k') then None else annotation m k'.
Proof.
  unfold annotation, del_annotation, set_annotations. cbn [Annotations].
  destruct (Annotations m) as [a|]; cbn; [|by destruct (decide _)].
  destruct (decide (k = k')) as [->|Hne]; [by apply lookup_delete_eq|by apply lookup_delete_ne].
Qed.

Lemma annotation_put k v k' m :
  annotation (put_annotation k v m) k' = if decide (k = k') then Some v else annotation m k'.
Proof.
  unfold annotation, put_annotation, set_annotations. cbn [Annotations base.mbind option_bind].
  destruct (decide (k = k')) as [->|Hne]; [by apply lookup_insert_eq|].
  rewrite lookup_insert_ne by done. by destruct (Annotations m).
Qed.

(** ** Credentials, channels, persistence *)

Record ExternalSecretRef := mkExternalSecretRef {
  Provider : string;
  Store : string;
  Path : string;
  RefreshInterval : string;
}.

Record SecretKeySelector := mkSecretKey { sk_Name : string; sk_Key : string }.

Record KeyMapping := mkKeyMapping { km_Name : string; SecretKeyRef : SecretKeySelector }.

Record CredentialSpec := mkCredentials {
  SecretRef : option string;
  ExternalSecret : option ExternalSecretRef;
  Keys : list KeyMapping;
}.

Record ChannelRef := mkChannelRef { cr_Name : string; cr_Mode : string }.

Record SnapshotSpec := mkSnapshot {
  sn_Enabled : bool;
  sn_Schedule : string;
  Retain : Z;
  VolumeSnapshotClass : string;
}.

Record VolumeSpec := mkVolume {
  v_Enabled : bool;
  StorageClass : string;
  v_Size : string;
  MaxSize : string;
  v_MountPath : string;
  Snapshot : option SnapshotSpec;
}.

Record ArchiveDestination := mkDestination {
  ad_Type : string;
  Bucket : string;
  Prefix : string;
  ad_SecretRef : string;
}.

Record ArchiveTrigger := mkTrigger { at_Schedule : string; Inotify : bool }.

Record ArchiveLifecycle := mkLifecycle {
  LocalRetention : string;
  ArchiveRetention : string;
  Compress : bool;
}.

Record ArchiveSpec := mkArchive {
  ar_Enabled : bool;
  Destination : ArchiveDestination;
  ar_Trigger : ArchiveTrigger;
  Lifecycle : option ArchiveLifecycle;
}.

Record OutputVolumeSpec := mkOutput { ov_VolumeSpec : VolumeSpec; Archive : option ArchiveSpec }.

Record SharedVolumeRef := mkShared {
  sv_Name : string;
  ClaimName : string;
  sv_MountPath : string;
  ReadOnly : bool;
}.

Record CacheSpec := mkCache {
  ca_Enabled : bool;
  Medium : string;
  ca_Size : string;
  ca_MountPath : string;
}.

Record PersistenceSpec := mkPersistence {
  ReclaimPolicy : string;
  Session : option VolumeSpec;
  Output : option OutputVolumeSpec;
  Workspace : option VolumeSpec;
  Shared : list SharedVolumeRef;
  Cache : option CacheSpec;
}.

(** ** The other parts of a Claw *)

Record ObservabilitySpec := mkObservability { Metrics : bool; Logs : bool; Tracing : bool }.

Record NetworkPolicySpec := mkNetworkPolicy {
  np_Enabled : bool;
  AllowedEgressCIDRs : list string;
  AllowedIngressNamespaces : list string;
}.

Record SecuritySpec := mkSecurity { NetworkPolicy : option NetworkPolicySpec }.

Record BasicAuthSpec := mkBasicAuth { ba_Enabled : bool; ba_SecretName : string }.

Record IngressSpec := mkIngress {
  in_Enabled : bool;
  Host : string;
  ClassName : string;
  TLS : option string;
  BasicAuth : option BasicAuthSpec;
  in_Annotations : option (gmap string string);
}.

Record PDBSpec := mkPDB { pdb_Enabled : bool; MinAvailable : Z }.

Record AvailabilitySpec := mkAvailability { PDB : option PDBSpec }.

Record SelfConfigureSpec := mkSelfConfigure { sc_Enabled : bool; AllowedActions : list string }.

Record ServiceAccountRef := mkServiceAccount {
  sa_Name : string;
  sa_Annotations : option (gmap string string);
}.

Record AutoUpdateSpec := mkAutoUpdate {
  au_Enabled : bool;
  VersionConstraint : string;
  au_Schedule : string;
  HealthTimeout : string;
  MaxRollbacks : Z;
}.

Definition VersionHistoryHealthy : string := "Healthy".
Definition VersionHistoryRolledBack : string := "RolledBack".

Record VersionHistoryEntry := mkHistory {
  vh_Version : string;
  AppliedAt : Z;
  vh_Status : string;
}.

Record AutoUpdateStatus := mkAutoUpdateStatus {
  CurrentVersion : string;
  AvailableVersion : string;
  LastCheck : option Z;
  LastUpdate : option Z;
  RollbackCount : Z;
  FailedVersions : list string;
  CircuitOpen : bool;
  VersionHistory : list VersionHistoryEntry;
}.

Definition ClawPhasePending : string := "Pending".
Definition ClawPhaseProvisioning : string := "Provisioning".
Definition ClawPhaseRunning : string := "Running".
Definition ClawPhaseDegraded : string := "Degraded".
Definition ClawPhaseUpdating : string := "Updating".
Definition ClawPhaseFailed : string := "Failed".
Definition ClawPhaseTerminating : string := "Terminating".

Record Condition := mkCondition {
  co_Type : string;
  co_Status : string;
  co_Reason : string;
  co_Message : string;
  co_ObservedGeneration : Z;
}.

Record ClawStatus := mkClawStatus {
  Phase : string;
  ObservedGeneration : Z;
  Conditions : list Condition;
  AutoUpdate_ : option AutoUpdateStatus;
}.

Section Claw.
Context `{QuantityLib}.

(** [corev1.ResourceList] is a map from the resource name. *)
Abbreviation ResourceList := (gmap string Quantity).
Definition ResourceMemory : string := "memory".
Definition ResourceCPU : string := "cpu".

Record ResourceRequirements := mkResources {
  Limits : option ResourceList;
  Requests : option ResourceList;
}.

Record ClawSpec := mkClawSpec {
  Runtime : string;
  Config : option bytes;
  Credentials : option CredentialSpec;
  Channels : list ChannelRef;
  Persistence : option PersistenceSpec;
  Observability : option ObservabilitySpec;
  Security : option SecuritySpec;
  Ingress : option IngressSpec;
  Availability : option AvailabilitySpec;
  ServiceAccount : option ServiceAccountRef;
  SelfConfigure : option SelfConfigureSpec;
  AutoUpdate : option AutoUpdateSpec;
  Replicas : option Z;
  Resources : option ResourceRequirements;
}.

Record Claw := mkClaw { Meta : ObjectMeta; Spec : ClawSpec; Status : ClawStatus }.

Definition set_meta (f : ObjectMeta -> ObjectMeta) (c : Claw) : Claw :=
  mkClaw (f (Meta c)) (Spec c) (Status c).
Definition set_spec (f : ClawSpec -> ClawSpec) (c : Claw) : Claw :=
  mkClaw (Meta c) (f (Spec c)) (Status c).
Definition set_status (f : ClawStatus -> ClawStatus) (c : Claw) : Claw :=
  mkClaw (Meta c) (Spec c) (f (Status c)).

Definition with_replicas (n : option Z) (s : ClawSpec) : ClawSpec :=
  mkClawSpec (Runtime s) (Config s) (Credentials s) (Channels s) (Persistence s) (Observability s)
    (Security s) (Ingress s) (Availability s) (ServiceAccount s) (SelfConfigure s) (AutoUpdate s)
    n (Resources s).
Definition with_resources (r : option ResourceRequirements) (s : ClawSpec) : ClawSpec :=
  mkClawSpec (Runtime s) (Config s) (Credentials s) (Channels s) (Persistence s) (Observability s)
    (Security s) (Ingress s) (Availability s) (ServiceAccount s) (SelfConfigure s) (AutoUpdate s)
    (Replicas s) r.
End Claw.

(** ** Escalations *)

Definition EscalationPhasePending : string := "Pending".
Definition EscalationPhaseAutoExecuted : string := "AutoExecuted".
Definition EscalationPhaseAnalyzing : string := "Analyzing".
Definition EscalationPhaseProposed : string := "Proposed".
Definition EscalationPhaseAwaitingApproval : string := "AwaitingApproval".
Definition EscalationPhaseApproved : string := "Approved".
Definition EscalationPhaseExecuted : string := "Executed".
Definition EscalationPhaseRejected : string := "Rejected".
Definition EscalationPhaseFailed : string := "Failed".

Definition IsTerminalPhase (p : string) : bool :=
  bool_decide (p ∈ [EscalationPhaseAutoExecuted; EscalationPhaseExecuted;
                    EscalationPhaseRejected; EscalationPhaseFailed]).

Record TriggerInfo := mkTriggerInfo {
  tr_Type : string;
  tr_Message : string;
  FirstSeen : option Z;
  tr_Count : Z;
}.

Record ClawOpsEscalationSpec := mkEscSpec {
  ClawRef : string;
  Trigger : TriggerInfo;
  es_Severity : string;
  TTLSecondsAfterFinished : option Z;
}.

Record ClawOpsEscalationStatus := mkEscStatus {
  es_Phase : string;
  MatchedRule : string;
  Analysis : string;
  ProposedAction : string;
  ExecutedAction : string;
  ExecutedAt : option Z;
  es_Result : string;
  SignetReceipt : string;
  ApprovedBy : string;
  ApprovedAt : option Z;
  RejectionReason : string;
}.

Record ClawOpsEscalation := mkEsc {
  es_Meta : ObjectMeta;
  es_Spec : ClawOpsEscalationSpec;
  es_Status : ClawOpsEscalationStatus;
}.

Definition with_es_status (s : ClawOpsEscalationStatus) (e : ClawOpsEscalation) : ClawOpsEscalation :=
  mkEsc (es_Meta e) (es_Spec e) s.

Definition empty_es_status : ClawOpsEscalationStatus := 
  mkEscStatus "" "" "" "" "" None "" "" "" None "".

(** ** Pods *)

Record ContainerStatus := mkContainerStatus {
  cs_Name : string;
  RestartCount : Z;
  (** [LastTerminationState.Terminated] and [State.Waiting], with the reason. *)
  LastTerminated : option string;
  Waiting : option string;
}.

Record Pod := mkPod {
  pod_Meta : ObjectMeta;
  pod_Phase : string;
  pod_Reason : string;
  pod_Message : string;
  ContainerStatuses : list ContainerStatus;
}.
