(* ===== verification/Escalations.v ===== *)
(** * The escalations of the cluster, and who decides on them
    (cmd/kubectl-claw/main.go)

    Escalations are written by three programs: the ops controller, the
    companion and the person at the command line.  The API server gives every
    write a new resource version and refuses a write that is not based on the
    stored one.  [interfere] lets the others act before every request:
    [others n] is what they have done to the state by the n-th effect. *)

From S2P Require Import Prelude.
From S2P Require Import GoStrings.
From S2P Require Import Api.

(** ** The store *)

Record Versioned := mkVersioned { v_Version : nat; v_Object : ClawOpsEscalation }.

Definition key : Type := string * string.
Definition key_of (e : ClawOpsEscalation) : key := (Namespace (es_Meta e), Name (es_Meta e)).

(** [Cancelled]: the program's context is done. *)
Record World := mkWorld {
  store : gmap key Versioned;
  NextVersion : nat;
  Cancelled : bool;
}.

(** What the API server promises of everybody's writes: each object that is
    not as it was carries a version that was not given out before.  A context
    stays done. *)
Definition well_formed (s : World) : Prop :=
  map_Forall (fun k v => v_Version v < NextVersion s /\ key_of (v_Object v) = k)%nat (store s).

Definition evolves (s s' : World) : Prop :=
  (NextVersion s <= NextVersion s')%nat /\
  (Cancelled s = true -> Cancelled s' = true) /\
  well_formed s' /\
  forall k v, store s' !! k = Some v -> (v_Version v < NextVersion s)%nat -> store s !! k = Some v.

Definition well_behaved (others : nat -> World -> World) : Prop :=
  forall n s, well_formed s -> evolves s (others n s).

Inductive escalation_event :=
| EvStatus (old new : ClawOpsEscalation)
| EvAsked (prompt : string)
| EvWaited (d : Z)
| EvPosted (url : string) (body : bytes).

Abbreviation EM := (M World escalation_event).

(** ** Requests *)

Section Requests.
Context (others : nat -> World -> World).

Definition interfere : EM unit := fun w r =>
  (tt, mkRun (others (run_tick r) (run_st r)) (S (run_tick r)) (run_trace r)).

(** A request with a context that is done fails. *)
Definition request : EM bool :=
  interfere ;;;
  let* ok := io in
  let* s := mget in
  mret (ok && negb (Cancelled s)).

Definition Get_escalation (k : key) : EM (option Versioned) :=
  let* ok := request in
  let* s := mget in
  mret (if ok then store s !! k else None).

(** [Status().Update]: refused unless the version is the stored one; the
    answer is decoded into the caller's object. *)
Definition Status_Update (v : Versioned) : EM (option Versioned) :=
  let* ok := request in
  let* s := mget in
  let k := key_of (v_Object v) in
  match (if ok then store s !! k else None) with
  | None => mret None
  | Some cur =>
      if decide (v_Version cur = v_Version v) then
        let new := with_es_status (es_Status (v_Object v)) (v_Object cur) in
        let v' := mkVersioned (NextVersion s) new in
        mput (mkWorld (<[k := v']> (store s)) (S (NextVersion s)) (Cancelled s)) ;;;
        emit (EvStatus (v_Object cur) new) ;;; mret (Some v')
      else mret None
  end.

(** ** kubectl claw *)

Definition set_status (f : ClawOpsEscalationStatus -> ClawOpsEscalationStatus) (v : Versioned)
    : Versioned :=
  mkVersioned (v_Version v) (with_es_status (f (es_Status (v_Object v))) (v_Object v)).

Definition approved_status (by_ : string) (t : Z) (st : ClawOpsEscalationStatus)
    : ClawOpsEscalationStatus :=
  mkEscStatus EscalationPhaseApproved (MatchedRule st) (Analysis st) (ProposedAction st)
    (ExecutedAction st) (ExecutedAt st) (es_Result st) (SignetReceipt st) by_ (Some t)
    (RejectionReason st).

Definition rejected_status (reason : string) (st : ClawOpsEscalationStatus)
    : ClawOpsEscalationStatus :=
  mkEscStatus EscalationPhaseRejected (MatchedRule st) (Analysis st) (ProposedAction st)
    (ExecutedAction st) (ExecutedAt st) (es_Result st) (SignetReceipt st) (ApprovedBy st)
    (ApprovedAt st) reason.

(** [currentUser]. *)
Definition currentUser (env : string -> string) : string :=
  if decide (env "USER"%string = ""%string) then "unknown" else env "USER"%string.

(** What is left of [runApprove] after the flags are parsed and the client is
    made: the exit code. *)
Definition runApprove (env : string -> string) (ns name by_ : string) : EM Z :=
  let by_ := if decide (by_ = ""%string) then currentUser env else by_ in
  let* got := Get_escalation (ns, name) in
  match got with
  | None => mret 1
  | Some v =>
      let st := es_Status (v_Object v) in
      if negb (bool_decide (es_Phase st = EscalationPhaseAwaitingApproval)) then mret 1
      else if decide (ProposedAction st = ""%string) then mret 1
      else
        let* t := now in
        let* res := Status_Update (set_status (approved_status by_ t) v) in
        mret (match res with Some _ => 0 | None => 1 end)
  end.

Definition runReject (ns name reason : string) : EM Z :=
  let reason := if decide (reason = ""%string) then "rejected via kubectl-claw"%string else reason in
  let* got := Get_escalation (ns, name) in
  match got with
  | None => mret 1
  | Some v =>
      if IsTerminalPhase (es_Phase (es_Status (v_Object v))) then mret 1
      else
        let* res := Status_Update (set_status (rejected_status reason) v) in
        mret (match res with Some _ => 0 | None => 1 end)
  end.
End Requests.

(** ** Versions

    A copy that was read stays true to its version: if the stored object has
    the version of the copy, it is the copy. *)

Lemma evolves_refl s : well_formed s -> evolves s s.
Proof. intros H. by split_and!. Qed.

Lemma evolves_trans s1 s2 s3 : evolves s1 s2 -> evolves s2 s3 -> evolves s1 s3.
Proof.
  intros (A1 & A2 & A3 & A4) (B1 & B2 & B3 & B4). split; [lia|]. split; [auto|]. split; [done|].
  intros k v Hv Hlt. apply A4; [|done]. apply B4; [done|]. lia.
Qed.

Definition true_copy (v : Versioned) (s : World) : Prop :=
  (v_Version v < NextVersion s)%nat /\
  forall cur, store s !! key_of (v_Object v) = Some cur -> v_Version cur = v_Version v -> cur = v.

Lemma true_copy_evolves v s s' : evolves s s' -> true_copy v s -> true_copy v s'.
Proof.
  intros (A1 & _ & _ & A4) [Hlt Hv]. split; [lia|]. intros cur Hcur Heq.
  apply Hv; [|done]. apply A4; [done|]. lia.
Qed.

Lemma true_copy_stored k v s : well_formed s -> store s !! k = Some v -> true_copy v s.
Proof.
  intros Hwf Hv. destruct (Hwf k v Hv) as [Hlt Hk]. split; [done|]. rewrite Hk. congruence.
Qed.

(** ** A logic for programs among others

    [guarantees P m Q]: from a well-formed state the program [m] lets the
    state evolve, every status it writes is a transition of [move], and [Q]
    holds at the end. *)

Section Logic.
Context (w : Oracle) (others : nat -> World -> World) (Hothers : well_behaved others).
Context (move : ClawOpsEscalation -> ClawOpsEscalation -> Prop).
Implicit Types r : Run World escalation_event.

Definition moves (tr : list escalation_event) : Prop :=
  Forall (fun e => match e with EvStatus old new => move old new | _ => True end) tr.

Lemma moves_nil : moves [].
Proof. constructor. Qed.
#[local] Hint Resolve moves_nil : core.

Definition progress r r' : Prop :=
  evolves (run_st r) (run_st r') /\ exists l, run_trace r' = run_trace r ++ l /\ moves l.

Lemma progress_refl r : well_formed (run_st r) -> progress r r.
Proof. intros H. split; [by apply evolves_refl|]. exists []. by rewrite app_nil_r. Qed.

Lemma progress_trans r1 r2 r3 : progress r1 r2 -> progress r2 r3 -> progress r1 r3.
Proof.
  intros (A & l1 & L1 & M1) (B & l2 & L2 & M2). split; [by eapply evolves_trans|].
  exists (l1 ++ l2). rewrite L2, L1, app_assoc. split; [done|]. by apply Forall_app.
Qed.

Definition guarantees {A} (m : EM A) (Q : A -> World -> Prop) : Prop :=
  forall r, well_formed (run_st r) ->
    wp w m (fun a r' => progress r r' /\ Q a (run_st r')) r.

(** Facts that survive what others do. *)
Definition stable (P : World -> Prop) : Prop := forall s s', evolves s s' -> P s -> P s'.

Lemma guarantees_ret {A} (a : A) (Q : A -> World -> Prop) :
  (forall s, well_formed s -> Q a s) -> guarantees (mret a) Q.
Proof. intros HQ r Hr. wp_step. split; [by apply progress_refl|auto]. Qed.

Lemma guarantees_conseq {A} (m : EM A) (P Q : A -> World -> Prop) :
  guarantees m P -> (forall a s, well_formed s -> P a s -> Q a s) -> guarantees m Q.
Proof.
  intros Hm HPQ r Hr. eapply wp_conseq; [|by apply Hm]. cbn. intros a r' [Hp HP].
  split; [done|]. apply HPQ; [apply Hp|done].
Qed.

(** A program that starts from a fact about the state. *)
Definition from {A} (P : World -> Prop) (m : EM A) (Q : A -> World -> Prop) : Prop :=
  forall r, well_formed (run_st r) -> P (run_st r) ->
    wp w m (fun a r' => progress r r' /\ Q a (run_st r')) r.

Lemma from_guarantees {A} P (m : EM A) Q : guarantees m Q -> from P m Q.
Proof. intros Hm r Hr _. by apply Hm. Qed.

Lemma from_bind {A B} (P : World -> Prop) (m : EM A) (k : A -> EM B) P' Q :
  from P m P' -> (forall a, from (P' a) (k a) Q) -> from P (mbind m k) Q.
Proof.
  intros Hm Hk r Hr HP. rewrite wp_bind. eapply wp_conseq; [|by apply Hm].
  cbn. intros a r' [Hp HP']. eapply wp_conseq; [|apply Hk; [apply Hp|done]].
  cbn. intros b r'' [Hp' HQ]. split; [by eapply progress_trans|done].
Qed.

Lemma from_frame {A} (P : World -> Prop) (m : EM A) Q :
  stable P -> guarantees m Q -> from P m (fun a s => P s /\ Q a s).
Proof.
  intros HP Hm r Hr Hr'. eapply wp_conseq; [|by apply Hm]. cbn. intros a r' [Hp HQ].
  split; [done|]. split; [|done]. eapply HP; [apply Hp|done].
Qed.

Lemma from_ret {A} (P : World -> Prop) (a : A) (Q : A -> World -> Prop) :
  (forall s, well_formed s -> P s -> Q a s) -> from P (mret a) Q.
Proof. intros HQ r Hr HP. wp_step. split; [by apply progress_refl|auto]. Qed.

Lemma from_conseq {A} (P P' : World -> Prop) (m : EM A) (Q Q' : A -> World -> Prop) :
  from P m Q -> (forall s, well_formed s -> P' s -> P s) ->
  (forall a s, well_formed s -> Q a s -> Q' a s) -> from P' m Q'.
Proof.
  intros Hm HP HQ r Hr Hr'. eapply wp_conseq; [|by apply Hm; [|apply HP]]. cbn. intros a r' [Hp HQ'].
  split; [done|]. apply HQ; [apply Hp|done].
Qed.

Lemma stable_true_copy v : stable (true_copy v).
Proof. intros s s'. apply true_copy_evolves. Qed.

Lemma guarantees_interfere : guarantees (interfere others) (fun _ _ => True).
Proof.
  intros r Hr. unfold wp, interfere. split; [|done]. split; [by apply Hothers|].
  exists []. by rewrite app_nil_r.
Qed.

Lemma guarantees_pure {A} (m : EM A) :
  (forall r, wp w m (fun _ r' => run_st r' = run_st r /\
     exists l, run_trace r' = run_trace r ++ l /\ moves l) r) ->
  guarantees m (fun _ _ => True).
Proof.
  intros Hm r Hr. eapply wp_conseq; [|apply Hm]. cbn. intros a r' [Hs Hl]. split; [|done].
  split; [|done]. rewrite Hs. by apply evolves_refl.
Qed.

Lemma guarantees_io : guarantees io (fun _ _ => True).
Proof. apply guarantees_pure. intros r. wp_step. split; [done|]. exists []. by rewrite app_nil_r. Qed.

Lemma guarantees_now : guarantees now (fun _ _ => True).
Proof. apply guarantees_pure. intros r. wp_step. split; [done|]. exists []. by rewrite app_nil_r. Qed.

Lemma guarantees_emit e :
  match e with EvStatus _ _ => False | _ => True end -> guarantees (emit e) (fun _ _ => True).
Proof.
  intros He. apply guarantees_pure. intros r. wp_step. split; [done|]. exists [e]. split; [done|].
  constructor; [|constructor]. by destruct e.
Qed.

Lemma guarantees_bind {A B} (m : EM A) (k : A -> EM B) P Q :
  guarantees m P -> (forall a, from (P a) (k a) Q) -> guarantees (mbind m k) Q.
Proof.
  intros Hm Hk r Hr. apply (from_bind (fun _ => True) m k P); [by apply from_guarantees|done..].
Qed.

Lemma guarantees_then {A B} (m : EM A) (k : A -> EM B) Q :
  guarantees m (fun _ _ => True) -> (forall a, guarantees (k a) Q) -> guarantees (mbind m k) Q.
Proof.
  intros Hm Hk. eapply guarantees_bind; [exact Hm|]. intros a. apply from_guarantees, Hk.
Qed.

(** A request that is let through finds the context alive. *)
Lemma guarantees_request :
  guarantees (request others) (fun ok s => ok = true -> Cancelled s = false).
Proof.
  intros r Hr. unfold request. rewrite wp_bind. eapply wp_conseq; [|by apply guarantees_interfere].
  cbn. intros [] r1 [H1 _]. wp_step. split.
  - eapply progress_trans; [exact H1|]. split; [apply evolves_refl, H1|].
    exists []. cbn. by rewrite app_nil_r.
  - cbn. intros [_ Hc]%andb_true_iff. by apply negb_true_iff.
Qed.

(** The copy a read returns is a true one. *)
Lemma guarantees_get k :
  guarantees (Get_escalation others k)
    (fun res s => match res with Some v => true_copy v s /\ key_of (v_Object v) = k | None => True end).
Proof.
  unfold Get_escalation. eapply guarantees_bind; [apply guarantees_request|].
  intros ok r Hr _. wp_step. split; [by apply progress_refl|].
  destruct ok; [|done]. destruct (store (run_st r) !! k) as [v|] eqn:E; [|done].
  split; [by eapply true_copy_stored|]. by apply Hr in E as [_ ?].
Qed.

(** An update based on a true copy [base] replaces exactly that object; what
    is returned is a true copy of the result, and the context was alive. *)
Lemma from_update base f :
  move (v_Object base) (v_Object (set_status f base)) ->
  from (true_copy base) (Status_Update others (set_status f base))
    (fun res s => match res with
                  | Some v => true_copy v s /\ v_Object v = v_Object (set_status f base)
                  | None => True
                  end).
Proof.
  intros Hmove. unfold Status_Update.
  eapply from_bind; [apply from_frame; [apply stable_true_copy|apply guarantees_request]|].
  intros ok r Hr [[Hlt Hv] Hok]. wp_step. set (k := key_of _).
  assert (Hk : k = key_of (v_Object base)) by done.
  assert (Hend : forall a, wp w (mret a) (fun (res : option Versioned) r' => progress r r' /\
    match res with Some v => true_copy v (run_st r') /\ v_Object v = v_Object (set_status f base)
                 | None => True end) r <-> match a with Some v => true_copy v (run_st r) /\
      v_Object v = v_Object (set_status f base) | None => True end).
  { intros a. rewrite wp_ret. split; [by intros [_ ?]|]. intros Ha. split; [by apply progress_refl|done]. }
  destruct (if ok then store (run_st r) !! k else None) as [cur|] eqn:E; [|by apply Hend].
  destruct ok; [|done].
  destruct (decide (v_Version cur = v_Version (set_status f base))) as [Heq|]; [|by apply Hend].
  assert (cur = base) as -> by by apply Hv. wp_step. unfold set_status at 1 2 3.
  cbn [v_Object with_es_status es_Status es_Meta es_Spec]. set (s' := mkWorld _ _ _).
  assert (Hwf : well_formed s').
  { intros k' v'. unfold s'. cbn [store NextVersion]. destruct (decide (k = k')) as [<-|Hne].
    - rewrite lookup_insert_eq. intros [= <-]. cbn [v_Version v_Object]. split; [lia|done].
    - rewrite lookup_insert_ne by done. intros Hv'. apply Hr in Hv' as [? ?]. split; [lia|done]. }
  split.
  - split.
    + split; [cbn; lia|]. split; [done|]. split; [exact Hwf|]. intros k' v' Hl Hlt'.
      cbn [run_st s' store] in Hl. destruct (decide (k = k')) as [<-|Hne].
      * rewrite lookup_insert_eq in Hl. injection Hl as <-. cbn in Hlt'. lia.
      * by rewrite lookup_insert_ne in Hl.
    + eexists. split; [reflexivity|]. constructor; [exact Hmove|constructor].
  - split; [|done]. eapply (true_copy_stored k); [exact Hwf|]. unfold s'. cbn [run_st store].
    by rewrite lookup_insert_eq.
Qed.
End Logic.

(** ** The person at the command line *)

Lemma wp_interfere w others Q (r : Run World escalation_event) :
  wp w (interfere others) Q r =
  Q tt (mkRun (others (run_tick r) (run_st r)) (S (run_tick r)) (run_trace r)).
Proof. done. Qed.
#[export] Hint Rewrite wp_interfere : wp.

(** What an approval and a rejection may change. *)
Definition approval (ns name by_ : string) (old new : ClawOpsEscalation) : Prop :=
  key_of old = (ns, name) /\ es_Phase (es_Status old) = EscalationPhaseAwaitingApproval /\
  ProposedAction (es_Status old) <> ""%string /\
  exists t, new = with_es_status (approved_status by_ t (es_Status old)) old.

Definition rejection (ns name reason : string) (old new : ClawOpsEscalation) : Prop :=
  key_of old = (ns, name) /\ IsTerminalPhase (es_Phase (es_Status old)) = false /\
  new = with_es_status (rejected_status reason (es_Status old)) old.

(** The exit code tells whether the one write was made. *)
Definition decided (P : ClawOpsEscalation -> ClawOpsEscalation -> Prop) (code : Z)
    (r : Run World escalation_event) : Prop :=
  (code = 0 /\ exists old new, run_trace r = [EvStatus old new] /\ P old new) \/
  (code = 1 /\ run_trace r = []).

Section Decisions.
Context (w : Oracle) (others : nat -> World -> World) (Hothers : well_behaved others).
Implicit Types r : Run World escalation_event.

Lemma read_then_update (P : ClawOpsEscalation -> ClawOpsEscalation -> Prop) ns name f v r :
  well_formed (run_st r) -> store (run_st r) !! (ns, name) = Some v ->
  P (v_Object v) (v_Object (set_status f v)) -> run_trace r = [] ->
  wp w (let* res := Status_Update others (set_status f v) in
        mret (match res with Some _ => 0 | None => 1 end)) (decided P) r.
Proof using Hothers.
  intros Hwf Hv Hd Htr. unfold Status_Update, request. wp_step.
  destruct (Hothers (run_tick r) _ Hwf) as (_ & _ & _ & Hold).
  set (s1 := others _ _) in *. destruct (Hwf _ _ Hv) as [Hlt Hk].
  match goal with |- context [match ?x with Some _ => _ | None => _ end] =>
    destruct x as [cur|] eqn:E; [|wp_step; by right] end.
  case_decide as Heq; wp_step; [|by right].
  assert (cur = v) as ->.
  { unfold set_status in Heq, E. cbn [v_Version v_Object with_es_status] in Heq, E.
    unfold key_of in E. cbn [es_Meta with_es_status] in E. fold (key_of (v_Object v)) in E.
    destruct (o_ok w _ && _); [|done]. apply Hold in E; [|lia]. rewrite Hk in E. pose proof (eq_trans (eq_sym E) Hv) as Hvv. by injection Hvv. }
  left. split; [done|]. exists (v_Object v), (v_Object (set_status f v)). rewrite Htr. by split.
Qed.

Lemma read_escalation k (Q : option Versioned -> Run World escalation_event -> Prop) r :
  well_formed (run_st r) -> run_trace r = [] ->
  (forall res r', well_formed (run_st r') -> run_trace r' = [] ->
     match res with Some v => store (run_st r') !! k = Some v | None => True end -> Q res r') ->
  wp w (Get_escalation others k) Q r.
Proof using Hothers.
  intros Hr Htr HQ. unfold Get_escalation, request. wp_step. apply HQ; [by apply Hothers|done|].
  cbn [run_st]. destruct (_ && _); [|done]. by destruct (store _ !! k) eqn:?.
Qed.

Lemma approve_decides env ns name by_ r :
  well_formed (run_st r) -> run_trace r = [] ->
  wp w (runApprove others env ns name by_)
    (decided (approval ns name (if decide (by_ = ""%string) then currentUser env else by_))) r.
Proof using Hothers.
  intros Hr Htr. unfold runApprove. rewrite wp_bind. apply read_escalation; [done..|].
  intros [v|] r' Hr' Htr' Hv; [|wp_step; by right].
  destruct (negb _) eqn:Eph; [wp_step; by right|]. apply negb_false_iff, bool_decide_eq_true in Eph.
  case_decide as Hact; [wp_step; by right|]. rewrite wp_bind, wp_now.
  apply (read_then_update _ ns name); [done..| |done]. destruct (Hr' _ _ Hv) as [_ Hk].
  split_and!; [done..|]. by eexists.
Qed.

Lemma reject_decides ns name reason r :
  well_formed (run_st r) -> run_trace r = [] ->
  wp w (runReject others ns name reason)
    (decided (rejection ns name (if decide (reason = ""%string) then "rejected via kubectl-claw"%string else reason))) r.
Proof using Hothers.
  intros Hr Htr. unfold runReject. rewrite wp_bind. apply read_escalation; [done..|].
  intros [v|] r' Hr' Htr' Hv; [|wp_step; by right].
  destruct (IsTerminalPhase _) eqn:Eph; [wp_step; by right|].
  apply (read_then_update _ ns name); [done..| |done]. destruct (Hr' _ _ Hv) as [_ Hk]. by split_and!.
Qed.
End Decisions.

(** Property: kubectl claw approve and kubectl claw reject make one write or
    none, whatever others do to the cluster meanwhile, and the exit code says
    which.  The write replaces exactly the object that was read: an approval
    only an escalation that awaits approval with an action, and keeps that
    action; a rejection only one that is not finished. *)
Theorem cli_decides (w : Oracle) (others : nat -> World -> World) (env : string -> string)
    (ns name by_ reason : string) (s : World) :
  well_behaved others -> well_formed s -> by_ <> ""%string -> reason <> ""%string ->
  let ra := exec (runApprove others env ns name by_) w s in
  let rr := exec (runReject others ns name reason) w s in
  decided (approval ns name by_) (fst ra) (snd ra) /\ decided (rejection ns name reason) (fst rr) (snd rr).
Proof.
  intros Hothers Hwf Hby Hre ra rr.
  pose proof (approve_decides w others Hothers env ns name by_ (mkRun s 0 []) Hwf eq_refl) as Ha.
  pose proof (reject_decides w others Hothers ns name reason (mkRun s 0 []) Hwf eq_refl) as Hr.
  rewrite decide_False in Ha by done. rewrite decide_False in Hr by done.
  unfold ra, rr, exec, wp in *. destruct (runApprove _ _ _ _ _ _ _), (runReject _ _ _ _ _ _). by split.
Qed.

(** ** Samples *)

Module Sample.

Definition waiting (action : string) : ClawOpsEscalation :=
  mkEsc (mkMeta "e1" "" "default" "u1" 1 ∅ None [] [] 0 None)
    (mkEscSpec "agent" (mkTriggerInfo "OOMKilled" "" None 3) "high" None)
    (mkEscStatus EscalationPhaseAwaitingApproval "" "" action "" None "" "" "" None "").

Definition cluster (action : string) : World :=
  mkWorld {[ ("default", "e1")%string := mkVersioned 1 (waiting action) ]} 2 false.

Definition alone (n : nat) (s : World) : World := s.

Lemma alone_well_behaved : well_behaved alone.
Proof. intros n s Hwf. by apply evolves_refl. Qed.

Lemma cluster_well_formed action : well_formed (cluster action).
Proof.
  intros k v. unfold cluster. cbn [store NextVersion]. intros Hk.
  apply lookup_singleton_Some in Hk as [<- <-]. cbn. split; [lia|done].
Qed.

Lemma cli_decides_witness :
  let ra := exec (runApprove alone (fun _ => ""%string) "default" "e1" "sre") all_ok (cluster "restart") in
  let rr := exec (runReject alone "default" "e1" "done already") all_ok (cluster "restart") in
  decided (approval "default" "e1" "sre") (fst ra) (snd ra) /\
  decided (rejection "default" "e1" "done already") (fst rr) (snd rr).
Proof.
  apply (cli_decides all_ok alone (fun _ => ""%string) "default" "e1" "sre" "done already" (cluster "restart")).
  - exact alone_well_behaved.
  - apply cluster_well_formed.
  - discriminate.
  - discriminate.
Defined.

Example exit_codes :
  fst (exec (runApprove alone (fun _ => "sre"%string) "default" "e1" "") all_ok (cluster "restart")) = 0 /\
  fst (exec (runApprove alone (fun _ => "sre"%string) "default" "e1" "") all_ok (cluster "")) = 1 /\
  fst (exec (runReject alone "default" "e1" "") all_ok (cluster "")) = 0.
Proof. vm_compute. done. Qed.

End Sample.
