(* ===== verification/Kubectl.v ===== *)
(** * The command line of kubectl claw (cmd/kubectl-claw/main.go)

    From the arguments of the program to its exit code and to what it writes.
    The flag package of Go is modelled as far as the program uses it: flags
    with a string value, with one dash or two, with the value joined by an
    equals sign or in the next argument.  Parsing ends at the first argument
    that is no flag. *)

From S2P Require Import Prelude.
From S2P Require Import GoStrings.
From S2P Require Import Api.
From S2P Require Import Escalations.

(** ** [flag.FlagSet] *)

Inductive flag_error := ErrBadFlag (arg : string) | ErrHelp | ErrNotDefined (name : string) | ErrNeedsArgument (name : string).

(** What an argument is to the parser: the end of the flags, the terminator
    "--", or a flag without its dashes. *)
Inductive flag_arg := NoFlag | Terminator | FlagBody (body : bytes).

Definition classify (arg : string) : flag_arg :=
  match bytes_of arg with
  | d :: c :: b =>
      if ascii_eqb d "-" then
        if ascii_eqb c "-" then match b with [] => Terminator | _ => FlagBody b end
        else FlagBody (c :: b)
      else NoFlag
  | _ => NoFlag
  end.

(** The name of a flag and its value, if it is joined. *)
Definition split_flag (body : bytes) : option (string * option string) :=
  match body with
  | [] => None
  | c :: _ =>
      if ascii_eqb c "-" || ascii_eqb c "=" then None
      else Some (match cut_byte "=" body with
                 | Some (name, value) => (str_of name, Some (str_of value))
                 | None => (str_of body, None)
                 end)
  end.

(** [Parse] with a set of string flags: [set name value] is the new state of
    the variables, or nothing if there is no such flag. *)
Section Parse.
Context {V : Type} (set : string -> string -> V -> option V).

Fixpoint Parse (args : list string) (vars : V) : result flag_error (V * list string) :=
  match args with
  | [] => Ok (vars, [])
  | arg :: args' =>
      match classify arg with
      | NoFlag => Ok (vars, args)
      | Terminator => Ok (vars, args')
      | FlagBody body =>
          match split_flag body with
          | None => Err (ErrBadFlag arg)
          | Some (name, joined) =>
              match set name "" vars with
              | None =>
                  if decide (name = "help"%string \/ name = "h"%string) then Err ErrHelp
                  else Err (ErrNotDefined name)
              | Some _ =>
                  match joined, args' with
                  | Some v, _ => Parse args' (default vars (set name v vars))
                  | None, v :: args'' => Parse args'' (default vars (set name v vars))
                  | None, [] => Err (ErrNeedsArgument name)
                  end
              end
          end
      end
  end.
End Parse.

(** ** The program *)

Inductive usage_error := ErrFlags (e : flag_error) | ErrMissingName.

(** The variables of [commonFlags]: the namespace, under two names, and the
    extra flag. *)
Definition set_common (extraName name value : string) (vars : string * string) : option (string * string) :=
  if decide (name = "n"%string \/ name = "namespace"%string) then Some (value, vars.2)
  else if decide (name = extraName) then Some (vars.1, value)
  else None.

Definition commonFlags (args : list string) (extraName : string) : result usage_error (string * string * string) :=
  match Parse (set_common extraName) args ("default"%string, ""%string) with
  | Err e => Err (ErrFlags e)
  | Ok (_, []) => Err ErrMissingName
  | Ok ((namespace, extra), name :: _) => Ok (name, namespace, extra)
  end.

Section Program.
Context (others : nat -> World -> World) (env : string -> string).

(** The kubeconfig, the scheme and the client. *)
Definition newClient : EM bool :=
  let* cfg := io in
  if cfg then
    let* registered := io in
    if registered then io else mret false
  else mret false.

Definition approve_args (args : list string) : EM Z :=
  match commonFlags args "by" with
  | Err _ => mret 2
  | Ok (name, ns, by_) =>
      let* ok := newClient in
      if ok then runApprove others env ns name by_ else mret 1
  end.

Definition reject_args (args : list string) : EM Z :=
  match commonFlags args "reason" with
  | Err _ => mret 2
  | Ok (name, ns, reason) =>
      let* ok := newClient in
      if ok then runReject others ns name reason else mret 1
  end.

(** [main] without the program's own name: the exit code. *)
Definition kubectl_main (args : list string) : EM Z :=
  match args with
  | [] => mret 2
  | cmd :: args =>
      if decide (cmd = "approve"%string) then approve_args args
      else if decide (cmd = "reject"%string) then reject_args args
      else if decide (cmd ∈ ["-h"; "--help"; "help"]%string) then mret 0
      else mret 2
  end.
End Program.

(** ** The arguments a user writes *)

(** One option: with one dash or two, its value joined or in an argument of
    its own. *)
Record option_arg := mkOption { op_Name : string; op_Value : string; op_Double : bool; op_Joined : bool }.

Definition args_of_option (o : option_arg) : list string :=
  let flag := ((if op_Double o then "--" else "-") +:+ op_Name o)%string in
  if op_Joined o then [(flag +:+ "=" +:+ op_Value o)%string] else [flag; op_Value o].

Definition args_of (opts : list option_arg) : list string := flat_map args_of_option opts.

Definition is_name (arg : string) : bool := match classify arg with NoFlag => true | _ => false end.

(** The last value given to a flag. *)
Definition last_value (names : list string) (opts : list option_arg) (dflt : string) : string :=
  foldl (fun v o => if decide (op_Name o ∈ names) then op_Value o else v) dflt opts.

Definition known (extraName : string) (o : option_arg) : Prop := op_Name o ∈ ["n"; "namespace"; extraName]%string.

(** The extra flag of the two commands. *)
Definition extra_flag (extraName : string) : Prop := extraName ∈ ["by"; "reason"]%string.

(** A flag's name: not empty, no leading dash, no equals sign. *)
Definition flag_word (name : string) : Prop :=
  ("="%char ∉ bytes_of name) /\ match bytes_of name with c :: _ => ascii_eqb c "-" = false | [] => False end.

Lemma literal_words : Forall flag_word ["n"; "namespace"; "by"; "reason"]%string.
Proof. repeat constructor; apply (bool_decide_unpack _); vm_compute; exact I. Qed.

Lemma known_word extraName o : extra_flag extraName -> known extraName o -> flag_word (op_Name o).
Proof.
  unfold extra_flag, known. rewrite !list_elem_of_In. intros He Hk.
  apply (proj1 (Forall_forall _ _) literal_words), list_elem_of_In. cbn in *. intuition congruence.
Qed.

Lemma split_word name joined :
  flag_word name ->
  split_flag (bytes_of name ++ match joined with Some v => "="%char :: bytes_of v | None => [] end) = Some (name, joined).
Proof.
  intros [Hno Hc]. unfold split_flag. destruct (bytes_of name) as [|c b] eqn:E; [done|]. cbn [app].
  rewrite Hc. destruct (ascii_eqb c "=") eqn:He.
  { apply ascii_eqb_true in He as ->. exfalso. apply Hno. by left. }
  cbn [orb]. rewrite app_comm_cons, <- E in *. destruct joined as [v|].
  - by rewrite cut_byte_app, !str_of_bytes_of.
  - rewrite app_nil_r, (proj2 (cut_byte_None _ _) Hno). by rewrite str_of_bytes_of.
Qed.

Lemma classify_word (double : bool) name arg tail :
  flag_word name -> bytes_of arg = bytes_of (if double then "--" else "-")%string ++ bytes_of name ++ tail ->
  classify arg = FlagBody (bytes_of name ++ tail).
Proof.
  intros [_ Hc] Harg. unfold classify. rewrite Harg.
  destruct (bytes_of name) as [|c b]; [done|]. by destruct double; cbn; rewrite ?Hc.
Qed.

Section Options.
Context (extraName : string) (Hextra : extra_flag extraName).

(** Every option is taken in, in its turn. *)
Lemma Parse_option o rest vars :
  known extraName o ->
  Parse (set_common extraName) (args_of_option o ++ rest) vars =
  Parse (set_common extraName) rest (default vars (set_common extraName (op_Name o) (op_Value o) vars)).
Proof using Hextra.
  intros Hk. pose proof (known_word _ _ Hextra Hk) as Hw.
  assert (Hset : is_Some (set_common extraName (op_Name o) "" vars)).
  { unfold set_common. unfold known in Hk. rewrite list_elem_of_In in Hk. cbn in Hk.
    repeat case_decide; [by eexists..|]. intuition congruence. }
  destruct Hset as [vars' Hset]. destruct o as [name value double joined]. cbn [op_Name op_Value] in *.
  unfold args_of_option. cbn [op_Joined op_Double op_Name op_Value]. destruct joined; cbn [app Parse].
  - rewrite (classify_word double name _ ("="%char :: bytes_of value)) by (done || by rewrite !bytes_of_app, <- !app_assoc).
    pose proof (split_word name (Some value) Hw) as Hs. cbn iota in Hs. by rewrite Hs, Hset.
  - rewrite (classify_word double name _ []) by (done || by rewrite !bytes_of_app, app_nil_r).
    pose proof (split_word name None Hw) as Hs. cbn iota in Hs. by rewrite Hs, Hset.
Qed.

Lemma set_known o vars :
  known extraName o ->
  default vars (set_common extraName (op_Name o) (op_Value o) vars) =
  (last_value ["n"; "namespace"]%string [o] vars.1, last_value [extraName] [o] vars.2).
Proof using Hextra.
  destruct vars as [ns extra]. unfold known, set_common, last_value, extra_flag in *. cbn [foldl fst snd].
  rewrite !list_elem_of_In in *. cbn in *. intros Hk.
  repeat case_decide; rewrite ?list_elem_of_In in *; cbn in *; try done; exfalso; intuition congruence.
Qed.

Lemma Parse_options opts name rest vars :
  Forall (known extraName) opts -> is_name name = true ->
  Parse (set_common extraName) (args_of opts ++ name :: rest) vars =
  Ok ((last_value ["n"; "namespace"]%string opts vars.1, last_value [extraName] opts vars.2), name :: rest).
Proof using Hextra.
  intros Hk Hn. revert vars. induction Hk as [|o opts Ho _ IH]; intros vars.
  - cbn [args_of flat_map app Parse]. unfold is_name in Hn. destruct (classify name); [|done..]. by destruct vars.
  - unfold args_of in *. cbn [flat_map]. by rewrite <- app_assoc, Parse_option, IH, set_known.
Qed.

Lemma commonFlags_options opts name rest :
  Forall (known extraName) opts -> is_name name = true ->
  commonFlags (args_of opts ++ name :: rest) extraName =
  Ok (name, last_value ["n"; "namespace"]%string opts "default", last_value [extraName] opts "").
Proof using Hextra. intros Hk Hn. unfold commonFlags. by rewrite Parse_options. Qed.
End Options.

(** ** What a call of the program does *)

Section Calls.
Context (w : Oracle) (others : nat -> World -> World) (env : string -> string) (s : World).
Context (Hothers : well_behaved others) (Hwf : well_formed s).

Lemma with_client P (m : EM Z) :
  (forall r, run_st r = s -> run_trace r = [] -> wp w m (decided P) r) ->
  wp w (let* ok := newClient in if ok then m else mret 1) (decided P) (mkRun s 0 []).
Proof.
  intros Hm. unfold newClient. wp_step. destruct (o_ok w _); wp_step; [|by right].
  destruct (o_ok w _); wp_step; [|by right]. destruct (o_ok w _); [|wp_step; by right]. by apply Hm.
Qed.

Lemma approve_call opts name rest :
  Forall (known "by") opts -> is_name name = true ->
  let by_ := last_value ["by"%string] opts "" in
  wp w (kubectl_main others env ("approve"%string :: args_of opts ++ name :: rest))
    (decided (approval (last_value ["n"; "namespace"]%string opts "default") name
                (if decide (by_ = ""%string) then currentUser env else by_))) (mkRun s 0 []).
Proof using Hothers Hwf.
  intros Hk Hn by_. unfold kubectl_main. rewrite decide_True by done. unfold approve_args.
  rewrite (commonFlags_options "by") by (done || by left).
  apply with_client. intros r Hs Ht. apply approve_decides; [done|by rewrite Hs|done].
Qed.

Lemma reject_call opts name rest :
  Forall (known "reason") opts -> is_name name = true ->
  let reason := last_value ["reason"%string] opts "" in
  wp w (kubectl_main others env ("reject"%string :: args_of opts ++ name :: rest))
    (decided (rejection (last_value ["n"; "namespace"]%string opts "default") name
                (if decide (reason = ""%string) then "rejected via kubectl-claw"%string else reason))) (mkRun s 0 []).
Proof using Hothers Hwf.
  intros Hk Hn reason. unfold kubectl_main. rewrite decide_False by done. rewrite decide_True by done. unfold reject_args.
  rewrite (commonFlags_options "reason") by (done || by right; left).
  apply with_client. intros r Hs Ht. apply reject_decides; [done|by rewrite Hs|done].
Qed.
End Calls.

(** C21: what kubectl claw does, from its arguments to its one write.  With
    the options before the name of the escalation, in either style and any
    number, the namespace and the approver or reason are the last ones given,
    with their defaults; whatever follows the name is not read.  Then, whatever
    others do to the cluster meanwhile, the program makes one write and exits
    with 0, or none and exits with 1: an approval only of an escalation that
    awaits approval with an action, which stays as it is; a rejection only of
    one that is not finished; both of exactly the object that was read. *)
Theorem kubectl_decides (w : Oracle) (others : nat -> World -> World) (env : string -> string) (s : World)
    (opts : list option_arg) (name : string) (rest : list string) :
  well_behaved others -> well_formed s -> is_name name = true ->
  let ns := last_value ["n"; "namespace"]%string opts "default" in
  let call cmd := exec (kubectl_main others env (cmd :: args_of opts ++ name :: rest)) w s in
  (Forall (known "by") opts ->
     let by_ := last_value ["by"%string] opts "" in
     decided (approval ns name (if decide (by_ = ""%string) then currentUser env else by_))
       (fst (call "approve"%string)) (snd (call "approve"%string))) /\
  (Forall (known "reason") opts ->
     let reason := last_value ["reason"%string] opts "" in
     decided (rejection ns name (if decide (reason = ""%string) then "rejected via kubectl-claw"%string else reason))
       (fst (call "reject"%string)) (snd (call "reject"%string))).
Proof.
  intros Hothers Hwf Hn ns call. split; intros Hk.
  - pose proof (approve_call w others env s Hothers Hwf opts name rest Hk Hn) as Hc.
    unfold call, exec, wp in *. by destruct (kubectl_main _ _ _ _ _).
  - pose proof (reject_call w others env s Hothers Hwf opts name rest Hk Hn) as Hc.
    unfold call, exec, wp in *. by destruct (kubectl_main _ _ _ _ _).
Qed.

(** Property: the calls that the usage text shows do not do what they say.
    [kubectl claw approve NAME -n NS --by WHO] decides on the escalation of
    that name in the namespace "default", in the name of the user. *)
Theorem documented_options_ignored (w : Oracle) (others : nat -> World -> World) (env : string -> string) (s : World)
    (name ns who : string) :
  well_behaved others -> well_formed s -> is_name name = true ->
  let call := exec (kubectl_main others env ["approve"; name; "-n"; ns; "--by"; who]%string) w s in
  decided (approval "default" name (currentUser env)) (fst call) (snd call).
Proof.
  intros Hothers Hwf Hn call.
  pose proof (approve_call w others env s Hothers Hwf [] name ["-n"; ns; "--by"; who]%string (Forall_nil_2 _) Hn) as Hc.
  unfold call, exec, wp in *. by destruct (kubectl_main _ _ _ _ _).
Qed.

(** Anything else writes nothing. *)
Theorem usage_writes_nothing (w : Oracle) (others : nat -> World -> World) (env : string -> string) (s : World)
    (args : list string) :
  match args with
  | [] => True
  | cmd :: args' =>
      match cmd with
      | "approve"%string => is_ok (commonFlags args' "by") = false
      | "reject"%string => is_ok (commonFlags args' "reason") = false
      | _ => True
      end
  end ->
  exists code, (code = 0 \/ code = 2) /\ exec (kubectl_main others env args) w s = (code, mkRun s 0 []).
Proof.
  intros H. unfold exec, kubectl_main, approve_args, reject_args.
  destruct args as [|cmd args']; [exists 2; auto|].
  case_decide as E1; [subst cmd; destruct (commonFlags args' "by"); [discriminate H|exists 2; auto]|].
  case_decide as E2; [subst cmd; destruct (commonFlags args' "reason"); [discriminate H|exists 2; auto]|].
  case_decide; [exists 0|exists 2]; auto.
Qed.

(** ** Calls *)
Module Sample.
Import Escalations.Sample.

Definition by_sre : list option_arg := [mkOption "namespace" "default" true true; mkOption "by" "sre" true false].

Lemma kubectl_decides_witness :
  let call cmd opts := exec (kubectl_main alone (fun _ => ""%string) (cmd :: args_of opts ++ ["e1"; "-n"; "other"]%string))
                         all_ok (cluster "restart") in
  decided (approval "default" "e1" "sre") (fst (call "approve"%string by_sre)) (snd (call "approve"%string by_sre)) /\
  decided (rejection "default" "e1" "rejected via kubectl-claw")
    (fst (call "reject"%string [])) (snd (call "reject"%string [])).
Proof.
  pose proof (kubectl_decides all_ok alone (fun _ => ""%string) (cluster "restart") by_sre "e1" ["-n"; "other"]%string
    alone_well_behaved (cluster_well_formed _) eq_refl) as [Ha _].
  pose proof (kubectl_decides all_ok alone (fun _ => ""%string) (cluster "restart") [] "e1" ["-n"; "other"]%string
    alone_well_behaved (cluster_well_formed _) eq_refl) as [_ Hr].
  split; [apply Ha|apply Hr].
  - repeat constructor; apply list_elem_of_In; cbn; tauto.
  - constructor.
Defined.

Example argv : args_of by_sre = ["--namespace=default"; "--by"; "sre"]%string.
Proof. reflexivity. Qed.

Example cli_exit_codes :
  fst (exec (kubectl_main alone (fun _ => ""%string) ["approve"; "--by=sre"; "e1"]%string) all_ok (cluster "restart")) = 0 /\
  fst (exec (kubectl_main alone (fun _ => ""%string) ["approve"; "-n"; "other"; "e1"]%string) all_ok (cluster "restart")) = 1 /\
  fst (exec (kubectl_main alone (fun _ => ""%string) ["approve"; "--as"; "e1"]%string) all_ok (cluster "restart")) = 2 /\
  fst (exec (kubectl_main alone (fun _ => ""%string) ["approve"; "-by"]%string) all_ok (cluster "restart")) = 2.
Proof. vm_compute. done. Qed.
End Sample.
