(* ===== verification/Samples.v ===== *)
(** * Sample data

    Concrete instances of the libraries' interfaces and a small Claw, on which
    the other files evaluate their definitions. *)

From S2P Require Import Prelude.
From S2P Require Import GoStrings.
From S2P Require Import GoTime.
From S2P Require Import Api.

(** Quantities are plain integers. *)
Definition int_quantities : QuantityLib := {|
  Quantity := Z;
  zeroQuantity := 0;
  ParseQuantity s := parse_int 64 (bytes_of s);
  Cmp := Z.compare;
  Quantity_eq_dec := Z.eq_dec;
|}.

(** Quantities with a suffix: the digits before it, in thousandths. *)
Definition suffix_value (s : bytes) : option Z :=
  snd <$> find_first (fun p => bool_decide (p.1 = s))
    [([], 1000); (bytes_of "m", 1); (bytes_of "Mi", 1024 * 1024 * 1000);
     (bytes_of "Gi", 1024 * 1024 * 1024 * 1000)].

Definition suffix_quantities : QuantityLib := {|
  Quantity := Z;
  zeroQuantity := 0;
  ParseQuantity s :=
    let '(d, r) := span_digits (bytes_of s) in
    n ← parse_int 64 d; u ← suffix_value r; Some (n * u);
  Cmp := Z.compare;
  Quantity_eq_dec := Z.eq_dec;
|}.

Definition sample_meta (annotations : list (string * string)) : ObjectMeta :=
  mkMeta "agent" "" "default" "u1" 1 ∅ (Some (list_to_map annotations)) [] [] 0 None.

Definition sample_spec : ClawSpec (H := int_quantities) :=
  mkClawSpec (H := int_quantities) RuntimeOpenClaw None None [] None None None None None None None
    None None None.

Definition sample_claw (annotations : list (string * string)) : Claw (H := int_quantities) :=
  mkClaw (sample_meta annotations) sample_spec (mkClawStatus "" 0 [] None).

(** Every request succeeds and the clock reads [t]. *)
Definition at_time (t : Z) : Oracle :=
  mkOracle (fun _ => true) (fun _ => "id"%string) (fun _ => t) (fun _ => 0%nat).
