(* ===== verification/Rules.v ===== *)
(** * The rule engine (internal/rules/engine.go, builtin.go,
    internal/controller/clawops_signals.go)

    Signals are extracted from pod statuses; the engine picks the first rule
    that matches each signal and the most severe such signal, with a cooldown
    per claw and rule.  The engine works under its mutex; the readings of the
    clock during one evaluation are one value. *)

From S2P Require Import Prelude.
From S2P Require Import GoStrings.
From S2P Require Import Api.

Record Signal := mkSignal {
  sig_Type : string;
  sig_Severity : string;
  sig_Count : Z;
  sig_Message : string;
  Source : string;
}.

Definition ActionPatchResource : string := "PatchResource".
Definition ActionRestartPod : string := "RestartPod".
Definition ActionScaleReplicas : string := "ScaleReplicas".

Record ActionSpec := mkAction { act_Type : string; act_Params : gmap string string }.

Record MatchCriteria := mkMatch {
  SignalType : string;
  MinSeverity : string;
  MinCount : Z;
}.

Record Rule := mkRule {
  rule_ID : string;
  rule_Match : MatchCriteria;
  rule_Action : ActionSpec;
  Cooldown : Z;
}.

Record Engine := mkEngine {
  rules : list Rule;
  cooldowns : gmap string (gmap string Z);
}.

Definition NewEngine (rs : list Rule) : Engine := mkEngine rs ∅.

Definition SetRules (rs : list Rule) (e : Engine) : Engine := mkEngine rs (cooldowns e).

(** The last execution of a rule for a claw. *)
Definition last_exec (e : Engine) (clawName ruleID : string) : option Z :=
  cooldowns e !! clawName ≫= (.!! ruleID).

Definition ruleMatches (e : Engine) (t : Z) (clawName : string) (rule : Rule) (sig : Signal) : bool :=
  if negb (bool_decide (SignalType (rule_Match rule) = sig_Type sig)) then false
  else if SeverityRank (sig_Severity sig) <? SeverityRank (MinSeverity (rule_Match rule)) then false
  else if sig_Count sig <? MinCount (rule_Match rule) then false
  else if 0 <? Cooldown rule then
    match last_exec e clawName (rule_ID rule) with
    | Some last => negb (t - last <? Cooldown rule)
    | None => true
    end
  else true.

Definition Match (e : Engine) (t : Z) (clawName : string) (sig : Signal) : option Rule :=
  find_first (fun rule => ruleMatches e t clawName rule sig) (rules e).

(** The loop over the signals; the accumulator is the best signal, its rule
    and its rank. *)
Definition match_step (e : Engine) (t : Z) (clawName : string)
    (best : option (Signal * Rule) * Z) (sig : Signal) : option (Signal * Rule) * Z :=
  match find_first (fun rule => ruleMatches e t clawName rule sig) (rules e) with
  | None => best
  | Some rule =>
      let rank := SeverityRank (sig_Severity sig) in
      if snd best <? rank then (Some (sig, rule), rank) else best
  end.

Definition MatchHighestPriority (e : Engine) (t : Z) (clawName : string) (signals : list Signal)
    : option (Signal * Rule) :=
  let '(best, rank) := foldl (match_step e t clawName) (None, -1) signals in
  if 0 <=? rank then best else None.

Definition RecordExecution (t : Z) (clawName ruleID : string) (e : Engine) : Engine :=
  mkEngine (rules e)
    (<[clawName := <[ruleID := t]> (default ∅ (cooldowns e !! clawName))]> (cooldowns e)).

(** ** builtin.go *)

Definition minute : Z := 60 * 1000000000.

Definition DefaultRules : list Rule :=
  [ mkRule "oom-bump-memory" (mkMatch TriggerOOMKilled SeverityHigh 2)
      (mkAction ActionPatchResource
         (list_to_map [("field", "memory-limit"); ("strategy", "multiply-1.5"); ("max", "4Gi")]%string))
      (30 * minute);
    mkRule "crashloop-restart-pod" (mkMatch TriggerCrashLoop SeverityHigh 5)
      (mkAction ActionRestartPod (list_to_map [("strategy", "delete-oldest")]%string))
      (10 * minute);
    mkRule "high-cpu-bump-request" (mkMatch TriggerHighCPU SeverityMedium 1)
      (mkAction ActionPatchResource
         (list_to_map [("field", "cpu-request"); ("strategy", "multiply-1.5"); ("max", "4")]%string))
      (30 * minute) ].

(** ** clawops_signals.go *)

Definition sprint_int (n : Z) : string := String.string_of_list_ascii (format_int n).

Definition container_signals (cs : ContainerStatus) : list Signal :=
  if bool_decide (LastTerminated cs = Some "OOMKilled"%string) then
    [mkSignal TriggerOOMKilled SeverityHigh (RestartCount cs)
       ("Container " +:+ cs_Name cs +:+ " OOMKilled (exit 137), restarts: " +:+
        sprint_int (RestartCount cs)) "pod-status"]
  else if bool_decide (Waiting cs = Some "CrashLoopBackOff"%string) then
    [mkSignal TriggerCrashLoop SeverityHigh (RestartCount cs)
       ("Container " +:+ cs_Name cs +:+ " in CrashLoopBackOff, restarts: " +:+
        sprint_int (RestartCount cs)) "pod-status"]
  else [].

Definition ExtractPodSignals (pod : Pod) : list Signal :=
  if bool_decide (pod_Phase pod = "Failed"%string) && bool_decide (pod_Reason pod = "Evicted"%string) then
    [mkSignal TriggerEvicted SeverityHigh 1
       ("Pod " +:+ Name (pod_Meta pod) +:+ " evicted: " +:+ pod_Message pod) "pod-status"]
  else flat_map container_signals (ContainerStatuses pod).

(** ** The choice of the engine *)

(** A signal has a rule that matches it. *)
Definition matched (e : Engine) (t : Z) (clawName : string) (sig : Signal) : bool :=
  existsb (fun rule => ruleMatches e t clawName rule sig) (rules e).

Lemma SeverityRank_range s : 0 <= SeverityRank s <= 4.
Proof. unfold SeverityRank. repeat case_decide; lia. Qed.

Lemma Match_matched e t c sig :
  matched e t c sig = bool_decide (is_Some (Match e t c sig)).
Proof.
  unfold matched, Match. destruct (find_first _ _) as [r|] eqn:E.
  - rewrite bool_decide_true by by eexists. apply existsb_exists.
    apply find_first_Some in E as (l1 & l2 & -> & Hr & _). exists r. split; [|done].
    apply in_or_app. right. by left.
  - rewrite bool_decide_false by by intros []. apply find_first_None in E.
    rewrite Forall_forall in E. apply not_true_is_false. intros (r & Hin & Hr)%existsb_exists.
    apply list_elem_of_In in Hin. by rewrite E in Hr.
Qed.

(** The invariant of the loop: the best so far is the first among the most
    severe of the matched signals seen. *)
Definition best_of (e : Engine) (t : Z) (c : string) (seen : list Signal)
    (best : option (Signal * Rule) * Z) : Prop :=
  match fst best with
  | None => snd best = -1 /\ Forall (fun s => Match e t c s = None) seen
  | Some (sig, rule) =>
      snd best = SeverityRank (sig_Severity sig) /\ Match e t c sig = Some rule /\
      exists l1 l2, seen = l1 ++ sig :: l2 /\
        Forall (fun s => is_Some (Match e t c s) ->
                 SeverityRank (sig_Severity s) < SeverityRank (sig_Severity sig)) l1 /\
        Forall (fun s => is_Some (Match e t c s) ->
                 SeverityRank (sig_Severity s) <= SeverityRank (sig_Severity sig)) l2
  end.

Lemma match_step_best e t c seen best sig :
  best_of e t c seen best -> best_of e t c (seen ++ [sig]) (match_step e t c best sig).
Proof.
  destruct best as [b rank]. unfold best_of, match_step. fold (Match e t c sig). cbn [fst snd].
  destruct (Match e t c sig) as [rule|] eqn:Em.
  - pose proof (SeverityRank_range (sig_Severity sig)).
    destruct b as [[s0 r0]|].
    + intros (-> & Hm & l1 & l2 & -> & Hl1 & Hl2).
      destruct (_ <? _) eqn:E; cbn [fst snd].
      * apply Z.ltb_lt in E. split; [done|]. split; [done|].
        exists (l1 ++ s0 :: l2), []. split; [by rewrite <- app_assoc|]. split; [|done].
        apply Forall_app. split; [|constructor; [done|]].
        -- eapply Forall_impl; [exact Hl1|]. cbn. intros s Hs Hi. specialize (Hs Hi). lia.
        -- eapply Forall_impl; [exact Hl2|]. cbn. intros s Hs Hi. specialize (Hs Hi). lia.
      * apply Z.ltb_ge in E. split; [done|]. split; [done|].
        exists l1, (l2 ++ [sig]). rewrite <- app_assoc. split; [done|]. split; [done|].
        apply Forall_app. split; [done|]. constructor; [|done]. done.
    + intros [-> Hall]. rewrite (proj2 (Z.ltb_lt _ _)) by lia. cbn [fst snd].
      split; [done|]. split; [done|]. exists seen, []. split; [done|]. split; [|done].
      eapply Forall_impl; [exact Hall|]. cbn. by intros s -> [].
  - destruct b as [[s0 r0]|]; cbn [fst snd].
    + intros (-> & Hm & l1 & l2 & -> & Hl1 & Hl2). split; [done|]. split; [done|].
      exists l1, (l2 ++ [sig]). rewrite <- app_assoc. split; [done|]. split; [done|].
      apply Forall_app. split; [done|]. constructor; [|done]. rewrite Em. by intros [].
    + intros [-> Hall]. split; [done|]. apply Forall_app. split; [done|]. by constructor.
Qed.

Lemma match_fold_best e t c l : best_of e t c l (foldl (match_step e t c) (None, -1) l).
Proof.
  induction l as [|s l IH] using rev_ind; [by split|].
  rewrite foldl_app. cbn [foldl]. by apply match_step_best.
Qed.

(** ** Properties *)

(** Property: The engine picks the most severe signal that some rule matches, the
    first of them in the order of the signals, with the first rule that
    matches it; it picks nothing exactly when no rule matches any signal. *)
Theorem match_highest_priority (e : Engine) (t : Z) (c : string) (signals : list Signal) :
  match MatchHighestPriority e t c signals with
  | None => Forall (fun s => Match e t c s = None) signals
  | Some (sig, rule) =>
      Match e t c sig = Some rule /\
      exists l1 l2, signals = l1 ++ sig :: l2 /\
        Forall (fun s => is_Some (Match e t c s) ->
                 SeverityRank (sig_Severity s) < SeverityRank (sig_Severity sig)) l1 /\
        Forall (fun s => is_Some (Match e t c s) ->
                 SeverityRank (sig_Severity s) <= SeverityRank (sig_Severity sig)) l2
  end.
Proof.
  pose proof (match_fold_best e t c signals) as H. unfold MatchHighestPriority.
  destruct (foldl _ _ signals) as [[[sig rule]|] rank]; unfold best_of in H; cbn [fst snd] in H.
  - destruct H as (-> & Hm & Hex). pose proof (SeverityRank_range (sig_Severity sig)).
    rewrite (proj2 (Z.leb_le _ _)) by lia. by split.
  - destruct H as [-> Hall]. done.
Qed.

(** Property: Cooldown.  After a rule has been executed for a claw it does not match
    any signal of that claw until its cooldown has passed; from then on it
    matches as if it had never been executed, and for every other claw or rule
    the execution makes no difference. *)
Theorem cooldown_respected (e : Engine) (t t' : Z) (c : string) (rule : Rule) (sig : Signal) :
  0 < Cooldown rule ->
  ruleMatches (RecordExecution t c (rule_ID rule) e) t' c rule sig =
    (if t' - t <? Cooldown rule then false
     else ruleMatches (NewEngine (rules e)) t' c rule sig) /\
  forall c' rule' sig', c' <> c \/ rule_ID rule' <> rule_ID rule ->
    ruleMatches (RecordExecution t c (rule_ID rule) e) t' c' rule' sig' =
    ruleMatches e t' c' rule' sig'.
Proof.
  intros Hc. apply Z.ltb_lt in Hc. split.
  - unfold ruleMatches. rewrite Hc.
    change (last_exec (NewEngine (rules e)) c (rule_ID rule)) with (@None Z).
    assert (last_exec (RecordExecution t c (rule_ID rule) e) c (rule_ID rule) = Some t) as ->.
    { unfold last_exec, RecordExecution. cbn [cooldowns].
      rewrite lookup_insert_eq. cbn [base.mbind option_bind]. by rewrite lookup_insert_eq. }
    by repeat case_if.
  - intros c' rule' sig' Hne. unfold ruleMatches.
    assert (last_exec (RecordExecution t c (rule_ID rule) e) c' (rule_ID rule') =
            last_exec e c' (rule_ID rule')) as ->; [|done].
    unfold last_exec, RecordExecution. cbn [cooldowns].
    destruct (decide (c' = c)) as [->|Hc']; [|by rewrite lookup_insert_ne].
    destruct Hne as [Hne|Hne]; [done|]. rewrite lookup_insert_eq. cbn [base.mbind option_bind].
    rewrite lookup_insert_ne by done. by destruct (cooldowns e !! c).
Qed.

Lemma cooldown_respected_witness :
  let rule := mkRule "r" (mkMatch TriggerOOMKilled SeverityHigh 2) (mkAction ActionRestartPod ∅) 100 in
  let sig := mkSignal TriggerOOMKilled SeverityHigh 3 "" "" in
  0 < Cooldown rule /\
  ruleMatches (RecordExecution 1000 "c" "r" (NewEngine [rule])) 1050 "c" rule sig = false.
Proof.
  intros rule sig. split; [done|].
  destruct (cooldown_respected (NewEngine [rule]) 1000 1050 "c" rule sig) as [H _].
  - reflexivity.
  - exact H.
Defined.
