(* ===== verification/OpsIntent.v ===== *)
(** * Ops intents (internal/controller/clawops_intent.go,
    claw_ops_intent_consumer.go)

    An ops intent is a JSON annotation on a Claw that asks the claw reconciler
    for one action.  The reconciler works on its own copy of the Claw and
    commits every change by one merge patch; the API server keeps the stored
    Claw, which others may have changed since the copy was read. *)

From stdpp Require Import sorting.
From S2P Require Import Prelude.
From S2P Require Import GoStrings.
From S2P Require Import GoTime.
From S2P Require Import Json.
From S2P Require Import Message.
From S2P Require Import Api.
From S2P Require Import Samples.

Definition AnnotationOpsIntent : string := "claw.prismer.ai/ops-intent".
Definition AnnotationOpsIntentGen : string := "claw.prismer.ai/ops-intent-gen".
Definition AnnotationRestartedAt : string := "claw.prismer.ai/restartedAt".

(** ** The intent and its JSON form *)

Record OpsIntent := mkIntent {
  Action : string;
  Params : option (gmap string string);
  Generation : Z;
  in_Source : string;
  EscalationRef : string;
}.

(** [json.Marshal] writes the keys of a map in increasing order. *)
Definition key_le (a b : string * string) : Prop := string_lt (b.1) (a.1) = false.
#[export] Instance key_le_dec a b : Decision (key_le a b).
Proof. unfold key_le. apply _. Defined.

Definition sorted_members (m : gmap string string) : list (string * string) :=
  merge_sort key_le (map_to_list m).

Definition enc_member (kv : string * string) : bytes * json :=
  (quote (bytes_of (kv.1)), str_json (kv.2)).

Definition enc_params (p : option (gmap string string)) : json :=
  match p with None => JNull | Some m => JObj (map enc_member (sorted_members m)) end.

(** Decoding an object into a map of strings: each value starts empty. *)
Fixpoint dec_map (l : list (bytes * json)) (m : gmap string string) : option (gmap string string) :=
  match l with
  | [] => Some m
  | (k, v) :: l' =>
      k ← unquote k; v ← dec_str v "";
      dec_map l' (<[String.string_of_list_ascii k := v]> m)
  end.

Definition dec_params (v : json) (old : option (gmap string string))
    : option (option (gmap string string)) :=
  match v with
  | JNull => Some None
  | JObj l => Some <$> dec_map l (default ∅ old)
  | _ => None
  end.

Definition enc_intent (i : OpsIntent) : option (list (bytes * json)) :=
  Some ([field "action" (str_json (Action i)); field "params" (enc_params (Params i));
         field "generation" (JNum (format_int (Generation i)));
         field "source" (str_json (in_Source i))] ++
        str_field_omitempty "escalationRef" (EscalationRef i)).

Definition intent_keys : list string :=
  ["action"; "params"; "generation"; "source"; "escalationRef"]%string.

Definition set_intent (k : string) (v : json) (i : OpsIntent) : option OpsIntent :=
  let '(mkIntent a p g s e) := i in
  if decide (k = "action"%string) then (fun x => mkIntent x p g s e) <$> dec_str v a
  else if decide (k = "params"%string) then (fun x => mkIntent a x g s e) <$> dec_params v p
  else if decide (k = "generation"%string) then (fun x => mkIntent a p x s e) <$> dec_int v g
  else if decide (k = "source"%string) then (fun x => mkIntent a p g x e) <$> dec_str v s
  else (fun x => mkIntent a p g s x) <$> dec_str v e.

Definition zero_intent : OpsIntent := mkIntent "" None 0 "" "".

Definition int64_ok (n : Z) : bool := between (- 2 ^ 63) n (2 ^ 63 - 1).

Definition intent_ok (i : OpsIntent) : Prop :=
  utf8_str (Action i) && utf8_str (in_Source i) && utf8_str (EscalationRef i) &&
  int64_ok (Generation i) = true /\
  match Params i with
  | Some m => map_Forall (fun k v => utf8_str k = true /\ utf8_str v = true) m
  | None => True
  end.

#[export] Instance OpsIntent_codec : JsonCodec OpsIntent :=
  struct_codec enc_intent (fun v => dec_struct intent_keys set_intent v zero_intent) intent_ok id.

(** ** clawops_intent.go *)

Definition allowedIntentActions : list string :=
  ["bump-memory"; "bump-cpu"; "restart-pod"; "rollout-restart"; "scale-replicas"]%string.

Inductive intent_error :=
| ErrMalformedIntent | ErrEmptyAction | ErrUnknownAction (a : string)
| ErrMissingParam (p : string) | ErrQuantity (s : string) | ErrReplicas (s : string)
| ErrReplicasRange (n : Z) | ErrUnhandledAction (a : string).

Definition ValidateIntent (raw : string) : result intent_error OpsIntent :=
  match unmarshal (bytes_of raw) with
  | None => Err ErrMalformedIntent
  | Some intent =>
      if decide (Action intent = ""%string) then Err ErrEmptyAction
      else if negb (bool_decide (Action intent ∈ allowedIntentActions))
      then Err (ErrUnknownAction (Action intent))
      else Ok intent
  end.

(** ** claw_ops_intent_consumer.go: parsing and validation *)

Definition maxReplicasLimit : Z := 10.

Definition currentIntentGen (m : ObjectMeta) : Z :=
  match annotation m AnnotationOpsIntentGen with
  | None => 0
  | Some genStr => default 0 (parse_int 64 (bytes_of genStr))
  end.

Definition parseOpsIntent (m : ObjectMeta) : result intent_error (option OpsIntent) :=
  match annotation m AnnotationOpsIntent with
  | None => Ok None
  | Some raw =>
      if decide (raw = ""%string) then Ok None
      else
        let? intent := ValidateIntent raw in
        let lastGen :=
          match annotation m AnnotationOpsIntentGen with
          | Some genStr => default 0 (parse_int 64 (bytes_of genStr))
          | None => 0
          end in
        if Generation intent <=? lastGen then Ok None else Ok (Some intent)
  end.

Definition clearOpsIntentAnnotations (processedGen : Z) (m : ObjectMeta) : ObjectMeta :=
  let m := del_annotation AnnotationOpsIntent m in
  if currentIntentGen m <? processedGen
  then put_annotation AnnotationOpsIntentGen
         (String.string_of_list_ascii (format_int processedGen)) m
  else m.

Section Consumer.
Context `{QuantityLib}.

(** Fields that the action does not use keep their zero values. *)
Record IntentPatch := mkPatch {
  ip_Action : string;
  MemoryLimit : Quantity;
  CPULimit : Quantity;
  ip_Replicas : Z;
}.

Definition param (i : OpsIntent) (k : string) : option string :=
  match Params i ≫= (.!! k) with
  | Some v => if decide (v = ""%string) then None else Some v
  | None => None
  end.

Definition buildIntentPatch (intent : OpsIntent) : result intent_error IntentPatch :=
  let a := Action intent in
  if decide (a = "bump-memory"%string) then
    match param intent "target" with
    | None => Err (ErrMissingParam "target")
    | Some target =>
        match ParseQuantity target with
        | None => Err (ErrQuantity target)
        | Some q => Ok (mkPatch a q zeroQuantity 0)
        end
    end
  else if decide (a = "bump-cpu"%string) then
    match param intent "target" with
    | None => Err (ErrMissingParam "target")
    | Some target =>
        match ParseQuantity target with
        | None => Err (ErrQuantity target)
        | Some q => Ok (mkPatch a zeroQuantity q 0)
        end
    end
  else if decide (a = "restart-pod"%string) then Ok (mkPatch a zeroQuantity zeroQuantity 0)
  else if decide (a = "rollout-restart"%string) then Ok (mkPatch a zeroQuantity zeroQuantity 0)
  else if decide (a = "scale-replicas"%string) then
    match param intent "replicas" with
    | None => Err (ErrMissingParam "replicas")
    | Some repStr =>
        match parse_int 32 (bytes_of repStr) with
        | None => Err (ErrReplicas repStr)
        | Some n =>
            if (n <? 1) || (maxReplicasLimit <? n) then Err (ErrReplicasRange n)
            else Ok (mkPatch a zeroQuantity zeroQuantity n)
        end
    end
  else Err (ErrUnhandledAction a).

(** ** The API server's merge patch

    [client.MergeFrom(base)] sends the difference between [base] and the
    object; the server applies it to what is stored.  The handlers change
    annotations, replicas and resources. *)

Definition merge_map {V} `{EqDecision V} (base new stored : gmap string V) : gmap string V :=
  merge (fun bn s => match bn with
                     | None => s
                     | Some (b, n) => if decide (b = n) then s else n
                     end)
    (merge (fun (b n : option V) => match b, n with None, None => None | _, _ => Some (b, n) end) base new)
    stored.

Definition merge_field {V} `{EqDecision V} (base new stored : V) : V :=
  if decide (base = new) then stored else new.

#[export] Instance ResourceRequirements_eq_dec : EqDecision ResourceRequirements.
Proof. solve_decision. Defined.

(** Empty maps are omitted from the JSON. *)
Definition omit_empty {V} (m : gmap string V) : option (gmap string V) :=
  if decide (map_to_list m = []) then None else Some m.

Definition merge_opt_map {V} `{EqDecision V} (base new stored : option (gmap string V))
    : option (gmap string V) :=
  omit_empty (merge_map (default ∅ base) (default ∅ new) (default ∅ stored)).

Definition no_resources : ResourceRequirements := mkResources None None.

Definition merge_resources (base new stored : option ResourceRequirements)
    : option ResourceRequirements :=
  if decide (base = new) then stored
  else match new with
       | None => None
       | Some _ =>
           let b := default no_resources base in
           let n := default no_resources new in
           let s := default no_resources stored in
           Some (mkResources (merge_opt_map (Limits b) (Limits n) (Limits s))
                             (merge_opt_map (Requests b) (Requests n) (Requests s)))
       end.

Definition apply_patch (base new stored : Claw) : Claw :=
  mkClaw
    (set_annotations
       (merge_opt_map (Annotations (Meta base)) (Annotations (Meta new)) (Annotations (Meta stored)))
       (Meta stored))
    (with_replicas (merge_field (Replicas (Spec base)) (Replicas (Spec new)) (Replicas (Spec stored)))
       (with_resources
          (merge_resources (Resources (Spec base)) (Resources (Spec new)) (Resources (Spec stored)))
          (Spec stored)))
    (Status stored).

(** ** The consumer *)

Record Cluster := mkCluster { claw : Claw; stored : Claw; pods : list Pod }.

Inductive ops_event :=
| EvPatched
| EvPodDeleted (name : string)
| EvRecorded (reason : string) (intent : option OpsIntent).

Definition EventOpsIntentExecuted : string := "OpsIntentExecuted".
Definition EventOpsIntentRejected : string := "OpsIntentRejected".
Definition EventOpsIntentFailed : string := "OpsIntentFailed".

Inductive consume_error := ErrPatch | ErrListPods | ErrDeletePod | ErrUnhandledPatch.

Abbreviation CM := (M Cluster ops_event).

Definition put_claw (c : Claw) : CM unit := mmodify (fun s => mkCluster c (stored s) (pods s)).

(** [r.Patch(ctx, claw, patchBase)]; the answer of the server replaces the
    copy. *)
Definition Patch (base : Claw) : CM bool :=
  let* ok := io in
  if ok then
    (let* s := mget in
     let c := apply_patch base (claw s) (stored s) in
     mput (mkCluster c c (pods s))) ;;;
    emit EvPatched ;;; mret true
  else mret false.

(** The pods of a claw, by namespace and labels. *)
Definition claw_pods (c : Claw) (l : list Pod) : list Pod :=
  filter (fun p => Namespace (pod_Meta p) = Namespace (Meta c) /\
    Labels (pod_Meta p) !! "app.kubernetes.io/name"%string = Some "claw"%string /\
    Labels (pod_Meta p) !! "app.kubernetes.io/instance"%string = Some (Name (Meta c))) l.

Fixpoint oldest_pod (oldest : Pod) (l : list Pod) : Pod :=
  match l with
  | [] => oldest
  | p :: l' =>
      oldest_pod (if CreationTimestamp (pod_Meta p) <? CreationTimestamp (pod_Meta oldest)
                  then p else oldest) l'
  end.

Definition applyRestartPod : CM (result consume_error unit) :=
  let* listed := io in
  if listed then
    let* s := mget in
    match claw_pods (claw s) (pods s) with
    | [] => mret (Ok tt)
    | p :: l =>
        let oldest := oldest_pod p l in
        let* deleted := io in
        if deleted then
          mput (mkCluster (claw s) (stored s)
            (filter (fun q => Name (pod_Meta q) <> Name (pod_Meta oldest)) (pods s))) ;;;
          emit (EvPodDeleted (Name (pod_Meta oldest))) ;;; mret (Ok tt)
        else mret (Err ErrDeletePod)
    end
  else mret (Err ErrListPods).

(** [mutateRuntimeResources] with the two mutations: set the limit, and the
    request if there is none or it exceeds the limit. *)
Definition mutateRuntimeResources (f : ResourceRequirements -> ResourceRequirements) (c : Claw) : Claw :=
  set_spec (fun s => with_resources (Some (f (default no_resources (Resources s)))) s) c.

Definition set_limit (res : string) (q : Quantity) (r : ResourceRequirements) : ResourceRequirements :=
  let requests := default ∅ (Requests r) in
  mkResources (Some (<[res := q]> (default ∅ (Limits r))))
    (Some (match requests !! res with
           | Some req => match Cmp q req with Lt => <[res := q]> requests | _ => requests end
           | None => <[res := q]> requests
           end)).

Definition applyIntentPatch (patch : IntentPatch) : CM (result consume_error unit) :=
  let* s := mget in
  let c := claw s in
  if decide (ip_Action patch = "bump-memory"%string) then
    put_claw (mutateRuntimeResources (set_limit ResourceMemory (MemoryLimit patch)) c) ;;;
    mret (Ok tt)
  else if decide (ip_Action patch = "bump-cpu"%string) then
    put_claw (mutateRuntimeResources (set_limit ResourceCPU (CPULimit patch)) c) ;;;
    mret (Ok tt)
  else if decide (ip_Action patch = "scale-replicas"%string) then
    put_claw (set_spec (with_replicas (Some (ip_Replicas patch))) c) ;;; mret (Ok tt)
  else if decide (ip_Action patch = "rollout-restart"%string) then
    let* t := now in
    put_claw (set_meta (put_annotation AnnotationRestartedAt
      (String.string_of_list_ascii (format_nano (t - t mod 1000000000)))) c) ;;;
    mret (Ok tt)
  else if decide (ip_Action patch = "restart-pod"%string) then applyRestartPod
  else mret (Err ErrUnhandledPatch).

(** Clear the intent, commit, record the event. *)
Definition commit (base : Claw) (processedGen : Z) (reason : string) (intent : option OpsIntent)
    : CM (result consume_error unit) :=
  let* s := mget in
  put_claw (set_meta (clearOpsIntentAnnotations processedGen) (claw s)) ;;;
  let* ok := Patch base in
  if ok then emit (EvRecorded reason intent) ;;; mret (Ok tt) else mret (Err ErrPatch).

Definition consumeAndExecuteOpsIntent : CM (result consume_error unit) :=
  let* s := mget in
  let base := claw s in
  match parseOpsIntent (Meta base) with
  | Err _ => commit base (currentIntentGen (Meta base)) EventOpsIntentRejected None
  | Ok None => mret (Ok tt)
  | Ok (Some intent) =>
      match buildIntentPatch intent with
      | Err _ => commit base (Generation intent) EventOpsIntentRejected (Some intent)
      | Ok ipatch =>
          let* applied := applyIntentPatch ipatch in
          match applied with
          | Err _ => commit base (Generation intent) EventOpsIntentFailed (Some intent)
          | Ok _ => commit base (Generation intent) EventOpsIntentExecuted (Some intent)
          end
      end
  end.

(** ** The overrides of a container's resources *)

Definition merge_list (dst src : option (gmap string Quantity)) : option (gmap string Quantity) :=
  match src with
  | Some m => if decide (map_to_list m = []) then dst else Some (m ∪ default ∅ dst)
  | None => dst
  end.

Definition mergeResourceRequirements (dst src : ResourceRequirements) : ResourceRequirements :=
  mkResources (merge_list (Limits dst) (Limits src)) (merge_list (Requests dst) (Requests src)).

End Consumer.

(** ** The JSON form reads back *)

Lemma dec_map_members l m :
  Forall (fun kv => utf8_str (kv.1) = true /\ utf8_str (kv.2) = true) l ->
  dec_map (map enc_member l) m = Some (foldl (fun m kv => <[kv.1 := kv.2]> m) m l).
Proof.
  intros Hl. revert m. induction Hl as [|[k v] l [Hk Hv] _ IH]; intros m; [done|].
  cbn [map enc_member dec_map fst snd]. rewrite unquote_quote by done.
  cbn [base.mbind option_bind]. rewrite dec_str_json by done. cbn [base.mbind option_bind foldl fst snd].
  rewrite String.string_of_list_ascii_of_string. apply IH.
Qed.

Lemma foldl_insert_list_to_map (l : list (string * string)) :
  foldl (fun m kv => <[kv.1 := kv.2]> m) ∅ l = list_to_map (reverse l) :> gmap string string.
Proof.
  induction l as [|[k v] l IH] using rev_ind; [done|].
  rewrite foldl_app, reverse_app. cbn [foldl reverse rev_append app fst snd]. by rewrite IH.
Qed.

Lemma sorted_members_perm m : sorted_members m ≡ₚ map_to_list m.
Proof. apply merge_sort_Permutation. Qed.

Lemma dec_enc_params p old :
  match p with
  | Some m => map_Forall (fun k v => utf8_str k = true /\ utf8_str v = true) m
  | None => True
  end -> default ∅ old = ∅ -> dec_params (enc_params p) old = Some p.
Proof.
  destruct p as [m|]; cbn [enc_params dec_params]; intros Hm Hold; [|done].
  rewrite Hold, dec_map_members.
  - rewrite foldl_insert_list_to_map. cbn [fmap option_fmap option_map]. do 2 f_equal.
    rewrite <- (list_to_map_to_list m) at 2. apply list_to_map_proper.
    + rewrite fmap_reverse, reverse_Permutation, sorted_members_perm. apply NoDup_fst_map_to_list.
    + by rewrite reverse_Permutation, sorted_members_perm.
  - apply Forall_forall. intros [k v] Hin. rewrite sorted_members_perm in Hin.
    apply elem_of_map_to_list in Hin. by apply (Hm k v).
Qed.

Lemma enc_params_wf p : wf_json (enc_params p) = true.
Proof.
  destruct p as [m|]; [|done]. cbn [enc_params wf_json]. apply forallb_forall.
  intros x (kv & <- & _)%in_map_iff. unfold enc_member. by rewrite quote_valid, str_json_wf.
Qed.

Lemma set_intent_params v a p g s e :
  set_intent "params" v (mkIntent a p g s e) = (fun x => mkIntent a x g s e) <$> dec_params v p.
Proof. reflexivity. Qed.

Lemma set_intent_generation v a p g s e :
  set_intent "generation" v (mkIntent a p g s e) = (fun x => mkIntent a p x s e) <$> dec_int v g.
Proof. reflexivity. Qed.

Lemma enc_dec_intent i l :
  intent_ok i -> enc_intent i = Some l ->
  wf_json (JObj l) = true /\ dec_struct intent_keys set_intent (JObj l) zero_intent = Some i.
Proof.
  intros [Hs Hp]. unfold utf8_str, int64_ok in Hs. rewrite !andb_true_iff, between_spec in Hs.
  destruct Hs as [[[H1 H2] H3] H4]. destruct i as [a p g s e].
  cbn [Action Params Generation in_Source EscalationRef] in *. unfold enc_intent.
  cbn [Action Params Generation in_Source EscalationRef]. intros <-%Some_inj. split.
  - cbn [wf_json app forallb field]. rewrite str_omitempty_wf by done.
    rewrite !str_json_wf, enc_params_wf, format_int_valid. reflexivity.
  - unfold dec_struct, zero_intent. cbn [app].
    erewrite dec_field; [|reflexivity..|set_key dec_str_json].
    erewrite dec_field; [|reflexivity..|].
    2:{ rewrite set_intent_params, dec_enc_params by done. reflexivity. }
    erewrite dec_field; [|reflexivity..|].
    2:{ rewrite set_intent_generation. unfold dec_int. rewrite parse_format_int by lia. reflexivity. }
    erewrite dec_field; [|reflexivity..|set_key dec_str_json].
    rewrite <- (app_nil_r (str_field_omitempty _ _)).
    erewrite dec_omitempty; [|reflexivity..| |set_key dec_str_json]; [reflexivity|by intros ->].
Qed.

#[export] Instance OpsIntent_laws : JsonLaws OpsIntent := struct_laws _ _ _ _ enc_dec_intent (fun _ => eq_refl).

(** A parsed intent has a 64-bit generation. *)
Lemma dec_members_inv {A} names (set : string -> json -> A -> option A) (P : A -> Prop) l a a' :
  (forall k v a a', P a -> set k v a = Some a' -> P a') ->
  P a -> dec_members names set l a = Some a' -> P a'.
Proof.
  intros Hset. revert a. induction l as [|[k v] l IH]; intros a Ha; cbn [dec_members]; [congruence|].
  destruct (unquote k) as [k'|]; [|done]. destruct (find_key names k') as [n|]; [|by apply IH].
  destruct (set n v a) as [b|] eqn:E; [|done]. cbn [base.mbind option_bind]. by apply IH, (Hset n v a).
Qed.

Lemma set_intent_generation_ok k v i i' :
  int64_ok (Generation i) = true -> set_intent k v i = Some i' -> int64_ok (Generation i') = true.
Proof.
  destruct i as [a p g s e]. cbn [Generation]. intros Hg. unfold set_intent.
  repeat case_decide; intros (x & Hx & ->)%fmap_Some; try exact Hg. cbn [Generation].
  unfold dec_int in Hx. destruct v; try done; [by injection Hx as <-|].
  unfold int64_ok. apply between_spec. by eapply (parse_int_range 64).
Qed.

Lemma ValidateIntent_generation raw intent :
  ValidateIntent raw = Ok intent -> int64_ok (Generation intent) = true.
Proof.
  unfold ValidateIntent. destruct (unmarshal (bytes_of raw)) as [i|] eqn:E; [|done].
  case_decide; [done|]. case_if; [done|]. intros [= <-].
  unfold unmarshal, OpsIntent_codec, struct_codec in E. destruct (parse _) as [v|]; [|done].
  cbn [base.mbind option_bind] in E. destruct v as [| | | | |l]; try done.
  - by injection E as <-.
  - unfold dec_struct in E.
    by apply (dec_members_inv intent_keys set_intent (fun i => int64_ok (Generation i) = true) l zero_intent);
      [intros ????; apply set_intent_generation_ok| |].
Qed.

(** ** Merge patches *)

Lemma lookup_merge_map {V} `{EqDecision V} (base new st : gmap string V) k :
  merge_map base new st !! k = if decide (base !! k = new !! k) then st !! k else new !! k.
Proof.
  unfold merge_map. rewrite !lookup_merge. unfold diag_None.
  destruct (base !! k) as [b|], (new !! k) as [n|]; cbn [diag_None];
    destruct (st !! k); cbn; repeat case_decide; simplify_eq; done.
Qed.

Lemma omit_empty_lookup {V} (m : gmap string V) k : omit_empty m ≫= (.!! k) = m !! k.
Proof.
  unfold omit_empty. case_decide as E; [|done].
  apply map_to_list_empty_iff in E. subst m. by rewrite lookup_empty.
Qed.

Lemma default_lookup {V} (m : option (gmap string V)) k : default ∅ m !! k = m ≫= (.!! k).
Proof. destruct m; [done|]. cbn. apply lookup_empty. Qed.

(** A key of the annotations after a patch: what the handler wrote if it
    changed it, what is stored otherwise. *)
Lemma annotation_patch `{QuantityLib} base new st k :
  annotation (Meta (apply_patch base new st)) k =
  if decide (annotation (Meta base) k = annotation (Meta new) k)
  then annotation (Meta st) k else annotation (Meta new) k.
Proof.
  unfold apply_patch, annotation, set_annotations, merge_opt_map. cbn [Meta Annotations].
  by rewrite omit_empty_lookup, lookup_merge_map, !default_lookup.
Qed.

(** ** Annotations *)

Lemma currentIntentGen_ext m m' :
  annotation m AnnotationOpsIntentGen = annotation m' AnnotationOpsIntentGen ->
  currentIntentGen m = currentIntentGen m'.
Proof. unfold currentIntentGen. by intros ->. Qed.

Lemma clear_intent g m : annotation (clearOpsIntentAnnotations g m) AnnotationOpsIntent = None.
Proof.
  unfold clearOpsIntentAnnotations. case_if; rewrite ?annotation_put, annotation_del.
  - rewrite decide_False by done. by rewrite decide_True.
  - by rewrite decide_True.
Qed.

Lemma clear_other g m k :
  k <> AnnotationOpsIntent -> k <> AnnotationOpsIntentGen ->
  annotation (clearOpsIntentAnnotations g m) k = annotation m k.
Proof.
  intros H1 H2. unfold clearOpsIntentAnnotations.
  case_if; rewrite ?annotation_put, annotation_del; by rewrite !decide_False by congruence.
Qed.

Lemma currentIntentGen_put g m :
  int64_ok g = true ->
  currentIntentGen (put_annotation AnnotationOpsIntentGen
    (String.string_of_list_ascii (format_int g)) m) = g.
Proof.
  intros Hg. apply between_spec in Hg. unfold currentIntentGen.
  rewrite annotation_put, decide_True by done. unfold bytes_of.
  by rewrite String.list_ascii_of_string_of_list_ascii, parse_format_int.
Qed.

Lemma clear_gen g m :
  int64_ok g = true -> currentIntentGen (clearOpsIntentAnnotations g m) = Z.max (currentIntentGen m) g.
Proof.
  intros Hg. unfold clearOpsIntentAnnotations.
  assert (Hd : currentIntentGen (del_annotation AnnotationOpsIntent m) = currentIntentGen m).
  { apply currentIntentGen_ext. by rewrite annotation_del, decide_False. }
  rewrite Hd. case_if.
  - rewrite currentIntentGen_put by done. lia.
  - rewrite Hd. lia.
Qed.

(** ** Commit *)

Section Specs.
Context `{QuantityLib} (w : Oracle).
Implicit Types r : Run Cluster ops_event.

(** A commit either fails and leaves everything stored as it was, or stores
    the patched claw and records one event. *)
Lemma commit_spec base g reason i r :
  wp w (commit base g reason i) (fun res r' =>
    pods (run_st r') = pods (run_st r) /\
    match res with
    | Ok _ =>
        let new := set_meta (clearOpsIntentAnnotations g) (claw (run_st r)) in
        claw (run_st r') = apply_patch base new (stored (run_st r)) /\
        stored (run_st r') = apply_patch base new (stored (run_st r)) /\
        run_trace r' = run_trace r ++ [EvPatched; EvRecorded reason i]
    | Err _ => stored (run_st r') = stored (run_st r) /\ run_trace r' = run_trace r
    end) r.
Proof.
  unfold commit, Patch, put_claw. wp_step. destruct (o_ok w _); wp_step; [|done].
  split; [done|]. split; [done|]. split; [done|]. by rewrite <- app_assoc.
Qed.

(** What the application of a patch changes of the copy, and nothing that is
    stored but the pods. *)
Definition applied (patch : IntentPatch) (c c' : Claw) : Prop :=
  Spec c' = (if decide (ip_Action patch = "bump-memory"%string) then
               Spec (mutateRuntimeResources (set_limit ResourceMemory (MemoryLimit patch)) c)
             else if decide (ip_Action patch = "bump-cpu"%string) then
               Spec (mutateRuntimeResources (set_limit ResourceCPU (CPULimit patch)) c)
             else if decide (ip_Action patch = "scale-replicas"%string) then
               with_replicas (Some (ip_Replicas patch)) (Spec c)
             else Spec c) /\
  forall k, k <> AnnotationRestartedAt -> annotation (Meta c') k = annotation (Meta c) k.

Definition pod_event (e : ops_event) : Prop := match e with EvPodDeleted _ => True | _ => False end.

Lemma applyRestartPod_spec r :
  wp w applyRestartPod (fun res r' =>
    stored (run_st r') = stored (run_st r) /\ claw (run_st r') = claw (run_st r) /\
    exists l, run_trace r' = run_trace r ++ l /\ Forall pod_event l) r.
Proof.
  assert (Hnil : forall tr : list ops_event, exists l, tr = tr ++ l /\ Forall pod_event l).
  { intros tr. exists []. by rewrite app_nil_r. }
  unfold applyRestartPod. wp_step. destruct (o_ok w _); wp_step; [|auto].
  destruct (claw_pods _ _) as [|p l]; wp_step; [auto|].
  destruct (o_ok w _); wp_step; [|auto].
  cbn [stored claw]. split; [done|]. split; [done|]. eexists. split; [done|]. by repeat constructor.
Qed.

Lemma applyIntentPatch_spec patch r :
  wp w (applyIntentPatch patch) (fun res r' =>
    stored (run_st r') = stored (run_st r) /\
    (exists l, run_trace r' = run_trace r ++ l /\ Forall pod_event l) /\
    applied patch (claw (run_st r)) (claw (run_st r'))) r.
Proof.
  assert (Hnil : forall tr : list ops_event, exists l, tr = tr ++ l /\ Forall pod_event l).
  { intros tr. exists []. by rewrite app_nil_r. }
  unfold applyIntentPatch, put_claw. wp_step. unfold applied.
  destruct (decide _) as [Ea|Na]; [wp_step; auto|].
  destruct (decide _) as [Eb|Nb]; [wp_step; auto|].
  destruct (decide _) as [Ec|Nc]; [wp_step; auto|].
  destruct (decide (ip_Action patch = "rollout-restart"%string)) as [Ed|Nd].
  { wp_step. split; [done|]. split; [auto|]. split; [done|]. intros k Hk.
    cbn [claw set_meta Meta]. rewrite annotation_put. by rewrite decide_False by congruence. }
  destruct (decide _) as [Ee|Ne]; [|wp_step; auto].
  eapply wp_conseq; [|apply applyRestartPod_spec].
  intros res r' (Hs & Hc & Hl). rewrite Hc. auto.
Qed.
End Specs.

Definition handled (tr : list ops_event) : list Z :=
  omap (fun e => match e with EvRecorded _ (Some i) => Some (Generation i) | _ => None end) tr.

Lemma handled_pods l : Forall pod_event l -> handled l = [].
Proof. induction 1 as [|[] l ? _ IH]; try done. Qed.

Lemma parse_Some m intent :
  parseOpsIntent m = Ok (Some intent) ->
  is_Some (annotation m AnnotationOpsIntent) /\ int64_ok (Generation intent) = true /\
  currentIntentGen m < Generation intent.
Proof.
  unfold parseOpsIntent, currentIntentGen. destruct (annotation m AnnotationOpsIntent) as [raw|]; [|done].
  case_decide; [done|]. destruct (ValidateIntent raw) as [i|e] eqn:Ev; [|done].
  cbn [rbind]. destruct (_ <=? _) eqn:E; [done|]. intros [= <-].
  apply Z.leb_gt in E. split; [by eexists|]. split; [by eapply ValidateIntent_generation|].
  by destruct (annotation m AnnotationOpsIntentGen).
Qed.

Lemma parse_Err m e : parseOpsIntent m = Err e -> is_Some (annotation m AnnotationOpsIntent).
Proof. unfold parseOpsIntent. by destruct (annotation m AnnotationOpsIntent). Qed.

Section Consume.
Context `{QuantityLib} (w : Oracle).
Implicit Types r : Run Cluster ops_event.

(** After a commit against [base] that held an intent there is none. *)
Lemma patched_intent base c g st :
  is_Some (annotation (Meta base) AnnotationOpsIntent) ->
  annotation (Meta (apply_patch base (set_meta (clearOpsIntentAnnotations g) c) st))
    AnnotationOpsIntent = None.
Proof.
  intros [raw Hraw]. rewrite annotation_patch. cbn [set_meta Meta]. rewrite clear_intent, Hraw.
  by rewrite decide_False.
Qed.

(** The generation after a commit on a fresh copy. *)
Lemma patched_gen base c g :
  int64_ok g = true -> currentIntentGen (Meta c) = currentIntentGen (Meta base) ->
  (annotation (Meta c) AnnotationOpsIntentGen = annotation (Meta base) AnnotationOpsIntentGen) ->
  currentIntentGen (Meta (apply_patch base (set_meta (clearOpsIntentAnnotations g) c) base)) =
  Z.max (currentIntentGen (Meta base)) g.
Proof.
  intros Hg Hc Ha. rewrite <- Hc, <- (clear_gen g (Meta c) Hg). apply currentIntentGen_ext.
  rewrite annotation_patch. cbn [set_meta Meta]. by case_decide as E.
Qed.

(** One run of the consumer: nothing, or one commit. *)
Lemma consume_spec r :
  wp w consumeAndExecuteOpsIntent (fun res r' =>
    match parseOpsIntent (Meta (claw (run_st r))) with
    | Ok None => res = Ok tt /\ run_st r' = run_st r /\ run_trace r' = run_trace r
    | p =>
        exists l c g reason i, Forall pod_event l /\
        (i, g) = match p with
                 | Ok (Some intent) => (Some intent, Generation intent)
                 | _ => (None, currentIntentGen (Meta (claw (run_st r))))
                 end /\
        (forall k, k <> AnnotationRestartedAt -> annotation (Meta c) k = annotation (Meta (claw (run_st r))) k) /\
        (reason = EventOpsIntentExecuted -> exists intent patch, p = Ok (Some intent) /\
           buildIntentPatch intent = Ok patch /\ applied patch (claw (run_st r)) c) /\
        match res with
        | Ok _ =>
            let new := apply_patch (claw (run_st r)) (set_meta (clearOpsIntentAnnotations g) c)
                         (stored (run_st r)) in
            claw (run_st r') = new /\ stored (run_st r') = new /\
            run_trace r' = run_trace r ++ l ++ [EvPatched; EvRecorded reason i]
        | Err _ => stored (run_st r') = stored (run_st r) /\ run_trace r' = run_trace r ++ l
        end
    end) r.
Proof.
  unfold consumeAndExecuteOpsIntent. wp_step.
  destruct (parseOpsIntent _) as [[intent|]|e] eqn:Ep; [|by wp_step|].
  - destruct (buildIntentPatch intent) as [patch|e] eqn:Eb.
    + wp_step. eapply wp_conseq; [|apply applyIntentPatch_spec].
      intros res r1 (Hs & (l & Ht & Hl) & Ha).
      destruct res as [u|e]; (eapply wp_conseq; [|apply commit_spec]); intros res r2 (_ & H2);
        exists l, (claw (run_st r1)), (Generation intent);
        [exists EventOpsIntentExecuted, (Some intent)|exists EventOpsIntentFailed, (Some intent)];
        (split; [done|]); (split; [done|]); (split; [apply Ha|]); (split; [intros ?; by eauto|]);
        (destruct res as [[]|]; rewrite Hs, Ht in H2; [by rewrite <- app_assoc in H2|done]).
    + eapply wp_conseq; [|apply commit_spec]. intros res r2 (_ & H2).
      exists [], (claw (run_st r)), (Generation intent), EventOpsIntentRejected, (Some intent).
      split; [done|]. split; [done|]. split; [done|]. split; [done|].
      destruct res as [[]|]; [done|]. by rewrite app_nil_r.
  - eapply wp_conseq; [|apply commit_spec]. intros res r2 (_ & H2).
    exists [], (claw (run_st r)), (currentIntentGen (Meta (claw (run_st r)))), EventOpsIntentRejected, None.
    split; [done|]. split; [done|]. split; [done|]. split; [done|].
    destruct res as [[]|]; [done|]. by rewrite app_nil_r.
Qed.
End Consume.

Lemma currentIntentGen_int64 m : int64_ok (currentIntentGen m) = true.
Proof.
  unfold currentIntentGen. destruct (annotation m _) as [s|]; [|done].
  destruct (parse_int 64 (bytes_of s)) as [n|] eqn:E; [|done]. cbn [default from_option id].
  apply between_spec. by apply (parse_int_range 64 _ _ E).
Qed.

(** ** Sequences of writes and reconciliations *)

Inductive intent_op :=
| OSetIntent (raw : string)
| OReconcile.

Section Sequences.
Context `{QuantityLib}.

(** Another client patches the annotation; the reconciler starts from a fresh
    copy of what is stored. *)
Definition run_intent_op (o : intent_op) : M Cluster ops_event unit :=
  match o with
  | OSetIntent raw => mmodify (fun s =>
      mkCluster (claw s) (set_meta (put_annotation AnnotationOpsIntent raw) (stored s)) (pods s))
  | OReconcile =>
      mmodify (fun s => mkCluster (stored s) (stored s) (pods s)) ;;;
      let* _ := consumeAndExecuteOpsIntent in mret tt
  end.

Context (w : Oracle) (g0 : Z).
Implicit Types r : Run Cluster ops_event.

Definition gen_inv r : Prop :=
  g0 <= currentIntentGen (Meta (stored (run_st r))) /\
  StronglySorted Z.lt (handled (run_trace r)) /\
  Forall (fun g => g0 < g <= currentIntentGen (Meta (stored (run_st r)))) (handled (run_trace r)).

Lemma sorted_snoc (l : list Z) g :
  StronglySorted Z.lt l -> Forall (fun x => x < g) l -> StronglySorted Z.lt (l ++ [g]).
Proof.
  induction 1 as [|x l Hs IH Hx]; intros Hall; cbn [app]; [by repeat constructor|].
  inversion_clear Hall. constructor; [by apply IH|]. apply Forall_app. split; [done|]. by constructor.
Qed.

Lemma run_intent_op_inv o : preserves w gen_inv (run_intent_op o).
Proof.
  intros r (Hg & Hs & Hf). destruct o as [raw|]; cbn [run_intent_op]; wp_step.
  { unfold gen_inv. cbn [run_st stored run_trace set_meta Meta].
    rewrite (currentIntentGen_ext (put_annotation _ _ _) (Meta (stored (run_st r)))); [done|].
    by rewrite annotation_put, decide_False. }
  eapply wp_conseq; [|apply consume_spec]. cbn [run_st claw stored run_trace]. intros res r' Hr.
  wp_step. set (m := Meta (stored (run_st r))) in *.
  destruct (parseOpsIntent m) as [[intent|]|e] eqn:Ep.
  2:{ destruct Hr as (_ & Hst & Ht). unfold gen_inv. rewrite Hst, Ht. by split_and!. }
  - apply parse_Some in Ep as (_ & Hi & Hlt).
    destruct Hr as (l & c & g & reason & i & Hl & [= -> ->] & Hc & _ & Hres).
    destruct res as [u|e].
    + destruct Hres as (_ & Hst & Ht). unfold gen_inv. rewrite Hst, Ht.
      rewrite patched_gen; [|done|by apply currentIntentGen_ext, Hc|by apply Hc].
      fold m. rewrite Z.max_r by lia. unfold handled. rewrite !omap_app.
      fold (handled l) (handled (run_trace r)). rewrite (handled_pods l) by done. cbn [app omap].
      split; [lia|]. split.
      * apply sorted_snoc; [done|]. eapply Forall_impl; [exact Hf|]. cbn. lia.
      * apply Forall_app. split; [|by constructor; [lia|]].
        eapply Forall_impl; [exact Hf|]. cbn. lia.
    + destruct Hres as (Hst & Ht). unfold gen_inv. rewrite Hst, Ht. unfold handled.
      rewrite omap_app. fold (handled l) (handled (run_trace r)).
      rewrite (handled_pods l), app_nil_r by done. by split_and!.
  - destruct Hr as (l & c & g & reason & i & Hl & [= -> ->] & Hc & _ & Hres).
    destruct res as [u|err].
    + destruct Hres as (_ & Hst & Ht). unfold gen_inv. rewrite Hst, Ht.
      rewrite patched_gen;
        [|apply currentIntentGen_int64|by apply currentIntentGen_ext, Hc|by apply Hc].
      fold m. rewrite Z.max_id. unfold handled. rewrite !omap_app.
      fold (handled l) (handled (run_trace r)). rewrite (handled_pods l) by done. cbn [app omap].
      rewrite app_nil_r. by split_and!.
    + destruct Hres as (Hst & Ht). unfold gen_inv. rewrite Hst, Ht. unfold handled.
      rewrite omap_app. fold (handled l) (handled (run_trace r)).
      rewrite (handled_pods l), app_nil_r by done. by split_and!.
Qed.
End Sequences.

(** ** The resources a patch stores *)

Lemma merge_map_fresh {V} `{EqDecision V} (b n : gmap string V) : merge_map b n b = n.
Proof. apply map_eq. intros k. rewrite lookup_merge_map. by case_decide. Qed.

Lemma omit_empty_insert {V} (m : gmap string V) k v : omit_empty (<[k := v]> m) = Some (<[k := v]> m).
Proof.
  unfold omit_empty. rewrite decide_False; [done|].
  intros E%map_to_list_empty_iff. by apply insert_non_empty in E.
Qed.

Lemma merge_resources_fresh `{QuantityLib} old res q :
  merge_resources old (Some (set_limit res q (default no_resources old))) old =
  Some (set_limit res q (default no_resources old)).
Proof.
  unfold merge_resources. case_decide as E; [done|]. cbn [default from_option id].
  set (o := default no_resources old). unfold set_limit, merge_opt_map. cbn [Limits Requests default from_option id].
  rewrite !merge_map_fresh, omit_empty_insert. do 2 f_equal.
  destruct (default ∅ (Requests o) !! res) as [req|] eqn:Hr.
  - assert (Hne : omit_empty (default ∅ (Requests o)) = Some (default ∅ (Requests o))).
    { rewrite <- (insert_id (default ∅ (Requests o)) res req Hr) at 1.
      by rewrite omit_empty_insert, insert_id. }
    destruct (Cmp q req); [done|apply omit_empty_insert|done].
  - apply omit_empty_insert.
Qed.

(** The spec that executing an intent must give. *)
Definition intent_spec `{QuantityLib} (patch : IntentPatch) (s : ClawSpec) : ClawSpec :=
  if decide (ip_Action patch = "bump-memory"%string) then
    with_resources (Some (set_limit ResourceMemory (MemoryLimit patch) (default no_resources (Resources s)))) s
  else if decide (ip_Action patch = "bump-cpu"%string) then
    with_resources (Some (set_limit ResourceCPU (CPULimit patch) (default no_resources (Resources s)))) s
  else if decide (ip_Action patch = "scale-replicas"%string) then with_replicas (Some (ip_Replicas patch)) s
  else s.

Lemma apply_patch_spec `{QuantityLib} base patch c g :
  applied patch base c ->
  Spec (apply_patch base (set_meta (clearOpsIntentAnnotations g) c) base) = intent_spec patch (Spec base).
Proof.
  intros [Hs _]. unfold apply_patch. cbn [Spec set_meta]. rewrite Hs.
  assert (Hself : forall (x : option Z), merge_field x x x = x) by (intros x; unfold merge_field; destruct (decide (x = x)); done).
  assert (Hself2 : forall x, merge_resources x x x = x) by (intros x; unfold merge_resources; destruct (decide (x = x)); done).
  unfold intent_spec, mutateRuntimeResources. cbn [Spec set_spec].
  repeat case_decide; cbn [with_resources with_replicas Replicas Resources];
    rewrite ?Hself, ?Hself2, ?merge_resources_fresh; try done.
  - unfold merge_field. destruct (Spec base); cbn. by case_decide; simplify_eq.
  - by destruct (Spec base).
Qed.

Lemma scale_in_range `{QuantityLib} intent patch :
  buildIntentPatch intent = Ok patch ->
  ip_Action patch = "scale-replicas"%string -> 1 <= ip_Replicas patch <= 10.
Proof.
  unfold buildIntentPatch. cbv zeta. set (a := Action intent).
  assert (Hok : forall p q r n, Ok (E := intent_error) (mkPatch p q r n) = Ok patch ->
    ip_Action patch = p /\ ip_Replicas patch = n) by (intros p q r n [= <-]; done).
  destruct (decide _) as [->|_].
  { destruct (param _ _); [|done]. destruct (ParseQuantity _); [|done]. by intros [-> _]%Hok. }
  destruct (decide _) as [->|_].
  { destruct (param _ _); [|done]. destruct (ParseQuantity _); [|done]. by intros [-> _]%Hok. }
  destruct (decide _) as [->|_]; [by intros [-> _]%Hok|].
  destruct (decide _) as [->|_]; [by intros [-> _]%Hok|].
  destruct (decide _) as [_|_]; [|done].
  destruct (param _ _); [|done]. destruct (parse_int _ _) as [n|]; [|done].
  destruct (_ || _) eqn:E; [done|]. intros [_ ->]%Hok _. split_bools. unfold maxReplicasLimit in *. lia.
Qed.

(** ** Properties *)

(** Property: An intent is handled once.  When the consumer has returned nil, running
    it again on what it left, whatever the I/O does then, changes nothing and
    records nothing: neither an executed nor a rejected intent is retried. *)
Theorem intent_handled_once `{QuantityLib} (w w' : Oracle) (s : Cluster) (r : Run Cluster ops_event) :
  exec consumeAndExecuteOpsIntent w s = (Ok tt, r) ->
  exec consumeAndExecuteOpsIntent w' (run_st r) = (Ok tt, mkRun (run_st r) 0 []).
Proof.
  intros He. pose proof (consume_spec w (mkRun s 0 [])) as Hc. unfold wp, exec in *. rewrite He in Hc.
  cbn [run_st run_trace app] in Hc.
  assert (Hp : parseOpsIntent (Meta (claw (run_st r))) = Ok None).
  { destruct (parseOpsIntent (Meta (claw s))) as [[intent|]|e] eqn:Ep.
    - destruct Hc as (l & c & g & reason & i & _ & _ & _ & _ & Hcl & _). rewrite Hcl.
      unfold parseOpsIntent. rewrite patched_intent; [done|]. exact (proj1 (parse_Some _ _ Ep)).
    - destruct Hc as (_ & -> & _). exact Ep.
    - destruct Hc as (l & c & g & reason & i & _ & _ & _ & _ & Hcl & _). rewrite Hcl.
      unfold parseOpsIntent. rewrite patched_intent; [done|]. exact (parse_Err _ _ Ep). }
  unfold consumeAndExecuteOpsIntent, mbind, mget. cbn [run_st]. by rewrite Hp.
Qed.

(** C32: Replay protection.  Whatever intents are written to the annotation and
    however the reconciliations between them go, the generations of the
    intents handled are above the counter the claw started with and strictly
    increase: no generation is handled twice, and none after a later one. *)
Theorem intent_generations_increase `{QuantityLib} (w : Oracle) (s : Cluster) (ops : list intent_op)
    (r : Run Cluster ops_event) :
  snd (exec (mfor ops run_intent_op) w s) = r ->
  StronglySorted Z.lt (handled (run_trace r)) /\
  Forall (fun g => currentIntentGen (Meta (stored s)) < g <= currentIntentGen (Meta (stored (run_st r))))
    (handled (run_trace r)).
Proof.
  intros <-.
  assert (Hi : wp w (mfor ops run_intent_op) (fun _ => gen_inv (currentIntentGen (Meta (stored s))))
    (mkRun s 0 [])).
  { apply preserves_mfor; [intros o _; apply run_intent_op_inv|]. split; [done|]. by repeat constructor. }
  unfold wp, exec in *. destruct (mfor ops _ w _) as [[] r]. by destruct Hi as (_ & ? & ?).
Qed.

(** Property: The effect of an executed intent.  On a fresh copy, when the event says
    executed, the stored spec is changed by exactly what the intent asks for:
    a memory or CPU limit (and the request, if it was absent or above), or
    the replica count, which is between 1 and 10; nothing else of it. *)
Theorem intent_effect `{QuantityLib} (w : Oracle) (s : Cluster) (r : Run Cluster ops_event)
    (i : option OpsIntent) :
  claw s = stored s ->
  exec consumeAndExecuteOpsIntent w s = (Ok tt, r) ->
  EvRecorded EventOpsIntentExecuted i ∈ run_trace r ->
  exists intent patch, parseOpsIntent (Meta (stored s)) = Ok (Some intent) /\
    buildIntentPatch intent = Ok patch /\
    Spec (stored (run_st r)) = intent_spec patch (Spec (stored s)) /\
    (ip_Action patch = "scale-replicas"%string -> 1 <= ip_Replicas patch <= 10).
Proof.
  intros Hfresh He Hin. pose proof (consume_spec w (mkRun s 0 [])) as Hc. unfold wp, exec in *.
  rewrite He in Hc. cbn [run_st run_trace app] in Hc. rewrite Hfresh in Hc.
  assert (Hreason : forall l reason i', Forall pod_event l -> run_trace r = l ++ [EvPatched; EvRecorded reason i'] ->
    reason = EventOpsIntentExecuted).
  { intros l reason i' Hl Ht. rewrite Ht in Hin. apply elem_of_app in Hin as [Hin|Hin].
    - rewrite Forall_forall in Hl. by apply Hl in Hin.
    - apply elem_of_cons in Hin as [Hin|Hin]; [done|]. apply list_elem_of_singleton in Hin.
      by injection Hin. }
  assert (Hsc : forall intent patch, buildIntentPatch intent = Ok patch ->
    ip_Action patch = "scale-replicas"%string -> 1 <= ip_Replicas patch <= 10) by exact scale_in_range.
  destruct (parseOpsIntent (Meta (stored s))) as [[intent|]|e] eqn:Ep.
  - destruct Hc as (l & c & g & reason & i' & Hl & Hi & _ & Hex & _ & Hst & Ht).
    destruct (Hex (Hreason _ _ _ Hl Ht)) as (int & patch & [= <-] & Hb & Happ).
    exists intent, patch. split; [done|]. split; [done|]. rewrite Hst. split; [|by eapply Hsc].
    by apply apply_patch_spec.
  - destruct Hc as (_ & _ & Ht). rewrite Ht in Hin. by apply not_elem_of_nil in Hin.
  - destruct Hc as (l & c & g & reason & i' & Hl & Hi & _ & Hex & _ & Hst & Ht).
    by destruct (Hex (Hreason _ _ _ Hl Ht)) as (int & patch & [=] & _).
Qed.

(** ** Witnesses *)

(** Quantities that are plain integers, for evaluation. *)
Definition intent_json (i : OpsIntent) : string :=
  String.string_of_list_ascii (default [] (marshal i)).

Definition sample_intent (action : string) (params : list (string * string)) (gen : Z) : OpsIntent :=
  mkIntent action (Some (list_to_map params)) gen "cli" "".

Definition sample_cluster : Cluster (H := int_quantities) :=
  let c := sample_claw [(AnnotationOpsIntent,
             intent_json (sample_intent "scale-replicas" [("replicas", "3")]%string 7))] in
  mkCluster (H := int_quantities) c c [].

Definition sample_consumed :=
  exec (consumeAndExecuteOpsIntent (H := int_quantities)) all_ok sample_cluster.

Lemma intent_handled_once_witness :
  fst sample_consumed = Ok tt /\
  exec (consumeAndExecuteOpsIntent (H := int_quantities)) all_ok (run_st (snd sample_consumed)) =
  (Ok tt, mkRun (run_st (snd sample_consumed)) 0 []).
Proof.
  assert (Hok : fst sample_consumed = Ok tt) by (vm_compute; reflexivity).
  split; [exact Hok|].
  apply (intent_handled_once (H := int_quantities) all_ok all_ok sample_cluster).
  change (sample_consumed = (Ok tt, snd sample_consumed)). rewrite <- Hok. apply surjective_pairing.
Defined.

Lemma intent_generations_increase_witness :
  let ops := [OReconcile; OReconcile;
              OSetIntent (intent_json (sample_intent "restart-pod" [] 7)); OReconcile;
              OSetIntent (intent_json (sample_intent "restart-pod" [] 9)); OReconcile] in
  let r := snd (exec (mfor ops (run_intent_op (H := int_quantities))) all_ok sample_cluster) in
  handled (run_trace r) = [7; 9] /\ StronglySorted Z.lt (handled (run_trace r)).
Proof.
  intros ops r. split; [vm_compute; reflexivity|].
  exact (proj1 (intent_generations_increase (H := int_quantities) all_ok sample_cluster ops r eq_refl)).
Defined.

Lemma intent_effect_witness :
  exists intent patch, parseOpsIntent (Meta (stored sample_cluster)) = Ok (Some intent) /\
    buildIntentPatch (H := int_quantities) intent = Ok patch /\
    Spec (stored (run_st (snd sample_consumed))) = intent_spec patch sample_spec /\
    (ip_Action patch = "scale-replicas"%string -> 1 <= ip_Replicas patch <= 10).
Proof.
  apply (intent_effect (H := int_quantities) all_ok sample_cluster (snd sample_consumed)
    (Some (sample_intent "scale-replicas" [("replicas", "3")]%string 7))).
  - reflexivity.
  - assert (Hok : fst sample_consumed = Ok tt) by (vm_compute; reflexivity).
    change (sample_consumed = (Ok tt, snd sample_consumed)). rewrite <- Hok. apply surjective_pairing.
  - assert (Ht : run_trace (snd sample_consumed) =
      [EvPatched; EvRecorded EventOpsIntentExecuted
         (Some (sample_intent "scale-replicas" [("replicas", "3")]%string 7))]) by (vm_compute; reflexivity).
    rewrite Ht. right. left.
Defined.
