(* ===== verification/Webhook.v ===== *)
(** * The webhook sidecar (cmd/channel-webhook: handler.go, main.go)

    Inbound, an HTTP server that checks a signature and forwards each body to
    the bus by the channel client; outbound, a loop that posts what the bus
    delivers to a URL, with retries. *)

From S2P Require Import Prelude.
From S2P Require Import GoStrings.
From S2P Require Import Json.
From S2P Require Import GoText.
From S2P Require Import GoHttp.
From S2P Require Import GoSha256.
From S2P Require Import Message.
From S2P Require Import Framing.
From S2P Require Import Client.
From S2P Require Import Api.
From S2P Require Import OpsIntent.

(** ** Configuration *)

Record webhookConfig := mkWebhookConfig {
  wc_ListenPort : Z;
  Path : string;
  TargetURL : string;
  Secret : string;
  Headers : option (gmap string string);
  RetryAttempts : Z;
}.

Definition webhook_keys : list string :=
  ["listenPort"; "path"; "targetURL"; "secret"; "headers"; "retryAttempts"]%string.

Definition set_webhook (k : string) (v : json) (c : webhookConfig) : option webhookConfig :=
  let '(mkWebhookConfig l p t s h n) := c in
  if decide (k = "listenPort"%string) then (fun x => mkWebhookConfig x p t s h n) <$> dec_int v l
  else if decide (k = "path"%string) then (fun x => mkWebhookConfig l x t s h n) <$> dec_str v p
  else if decide (k = "targetURL"%string) then (fun x => mkWebhookConfig l p x s h n) <$> dec_str v t
  else if decide (k = "secret"%string) then (fun x => mkWebhookConfig l p t x h n) <$> dec_str v s
  else if decide (k = "headers"%string) then (fun x => mkWebhookConfig l p t s x n) <$> dec_params v h
  else (fun x => mkWebhookConfig l p t s h x) <$> dec_int v n.

(** [parseConfig]; [None] is an error. *)
Definition parseConfig (raw : string) : option webhookConfig :=
  let cfg := mkWebhookConfig 8080 "/webhook" "" "" None 3 in
  if decide (raw = ""%string) then Some cfg
  else
    v ← parse (bytes_of raw);
    c ← dec_struct webhook_keys set_webhook v cfg;
    Some (mkWebhookConfig
      (if decide (wc_ListenPort c = 0) then 8080 else wc_ListenPort c)
      (if decide (Path c = ""%string) then "/webhook"%string else Path c)
      (TargetURL c) (Secret c) (Headers c)
      (if decide (RetryAttempts c = 0) then 3 else RetryAttempts c)).

(** ** Inbound *)

Definition maxRequestBody : Z := 16 * 1024 * 1024.

Definition verifyHMAC (body signature secret : bytes) : bool :=
  match cut_prefix (bytes_of "sha256=") signature with
  | None => false
  | Some hex =>
      match hex_decode hex with
      | None => false
      | Some sig => bool_decide (hmac_sha256 secret body = sig)
      end
  end.

(** A request; [None] for a body that cannot be read. *)
Record inbound_request := mkInboundRequest {
  ir_Method : string;
  ir_Signature : string;
  ir_Body : option bytes;
}.

(** [inboundHandler.ServeHTTP]: the status of the response. *)
Definition serve_inbound (secret : string) (rq : inbound_request) : CM Z :=
  if negb (bool_decide (ir_Method rq = "POST"%string)) then mret 405
  else
    match ir_Body rq with
    | None => mret 413
    | Some body =>
        if maxRequestBody <? Z.of_nat (length body) then mret 413
        else if negb (bool_decide (secret = ""%string)) &&
                negb (verifyHMAC body (bytes_of (ir_Signature rq)) (bytes_of secret))
        then mret 401
        else
          let* res := Send (raw_of body) in
          mret (match res with Ok _ => 202 | Err _ => 500 end)
    end.

(** [healthHandler.ServeHTTP] with the check of [buildMux]. *)
Definition serve_health : CM Z :=
  let* n := BufferedCount in
  mret (if n =? 0 then 200 else 503).

(** ** The routes

    Registering one pattern twice panics. *)
Inductive route := RInbound (secret : string) | RHealth.

Definition buildMux (cfg : webhookConfig) (mode : string) : option (list (string * route)) :=
  let inbound := if decide (mode = "inbound"%string \/ mode = "bidirectional"%string)
                 then [(Path cfg, RInbound (Secret cfg))] else [] in
  let routes := inbound ++ [("/healthz"%string, RHealth)] in
  if decide (NoDup routes.*1) then Some routes else None.

Definition needsOutbound (mode targetURL : string) : bool :=
  (bool_decide (mode = "outbound"%string) || bool_decide (mode = "bidirectional"%string)) &&
  negb (bool_decide (targetURL = ""%string)).

(** ** Outbound *)

Inductive post_error := ErrRequest | ErrCancelled | ErrPost (attempts : Z).

Inductive post_event := EvPost (rq : http_request) | EvSlept (d : Z).

Abbreviation PM := (M unit post_event).

(** [retrySleep]: the timer or the end of the context. *)
Definition retrySleep (attempt : Z) : PM bool :=
  let* alive := io in
  if alive then emit (EvSlept ((attempt + 1) * second)) ;;; mret true else mret false.

Section Outbound.
(** What the target answers. *)
Context (serve : nat -> http_request -> option http_response).

Definition exchange (rq : http_request) : PM (option http_response) :=
  emit (EvPost rq) ;;; (fun w r => (serve (run_tick r) rq, mkRun (run_st r) (S (run_tick r)) (run_trace r))).

(** The header names of the configuration are taken in canonical form. *)
Definition post_request (cfg : webhookConfig) (payload : bytes) : http_request :=
  mkRequest "POST" (TargetURL cfg)
    (default ∅ (Headers cfg) ∪ {["Content-Type"%string := "application/json"%string]}) payload.

Definition accepted (a : option http_response) : bool :=
  match a with Some resp => (200 <=? StatusCode resp) && (StatusCode resp <? 300) | None => false end.

(** The attempts from [attempt] on, [n] of them. *)
Fixpoint post_loop (cfg : webhookConfig) (payload : bytes) (attempt : Z) (n : nat)
    : PM (result post_error unit) :=
  match n with
  | O => mret (Err (ErrPost (RetryAttempts cfg)))
  | S n' =>
      let* made := io in
      if made then
        let* a := exchange (post_request cfg payload) in
        if accepted a then mret (Ok tt)
        else
          let* alive := retrySleep attempt in
          if alive then post_loop cfg payload (attempt + 1) n' else mret (Err ErrCancelled)
      else mret (Err ErrRequest)
  end.

Definition post (cfg : webhookConfig) (payload : bytes) : PM (result post_error unit) :=
  post_loop cfg payload 0 (Z.to_nat (RetryAttempts cfg)).

(** [runOutboundLoop] over the messages that arrive: errors are logged. *)
Definition runOutboundLoop (cfg : webhookConfig) (payloads : list bytes) : PM unit :=
  mfor payloads (fun p => let* _ := post cfg p in mret tt).
End Outbound.

(** ** Properties *)

(** What a hexadecimal signature must say. *)
Definition signed_with (secret body signature : bytes) : Prop :=
  exists hex, signature = bytes_of "sha256=" ++ hex /\ hex_decode hex = Some (hmac_sha256 secret body).

Lemma verifyHMAC_spec body signature secret :
  verifyHMAC body signature secret = true <-> signed_with secret body signature.
Proof.
  unfold verifyHMAC, signed_with. split.
  - destruct (cut_prefix _ signature) as [hex|] eqn:Ec; [|done].
    destruct (hex_decode hex) as [sig|] eqn:Eh; [|done]. intros H%bool_decide_eq_true.
    exists hex. rewrite H. split; [by apply cut_prefix_Some|done].
  - intros (hex & -> & Hh). by rewrite cut_prefix_app, Hh, bool_decide_true.
Qed.

(** C24: the webhook forwards exactly the authentic requests.  With a
    secret, a request reaches the channel client if and only if it is a POST
    whose body can be read, has at most 16 MiB and is signed with the secret;
    its payload is then that body, and every other request is refused with
    the status that fits and leaves the client untouched. *)
Theorem webhook_authentic (w : Oracle) (c : Client) (secret : string) (rq : inbound_request) :
  secret <> ""%string ->
  let out := exec (serve_inbound secret rq) w c in
  (exists body, ir_Method rq = "POST"%string /\ ir_Body rq = Some body /\
     Z.of_nat (length body) <= maxRequestBody /\
     signed_with (bytes_of secret) body (bytes_of (ir_Signature rq)) /\
     out = exec (let* res := Send (raw_of body) in
                 mret (match res with Ok _ => 202 | Err _ => 500 end)) w c) \/
  (out = (fst out, mkRun c 0 []) /\
   (ir_Method rq <> "POST"%string /\ fst out = 405 \/
    ir_Method rq = "POST"%string /\ fst out = 413 /\
      match ir_Body rq with Some b => maxRequestBody < Z.of_nat (length b) | None => True end \/
    ir_Method rq = "POST"%string /\ fst out = 401 /\
      match ir_Body rq with
      | Some b => ~ signed_with (bytes_of secret) b (bytes_of (ir_Signature rq))
      | None => False
      end)).
Proof.
  intros Hs out. unfold out, serve_inbound. rewrite (bool_decide_false (secret = ""%string)) by done.
  destruct (bool_decide (ir_Method rq = "POST"%string)) eqn:Em;
    [apply bool_decide_eq_true in Em|apply bool_decide_eq_false in Em; right; split; [done|by left]].
  cbn [negb]. destruct (ir_Body rq) as [body|] eqn:Eb; [|right; split; [done|right; left; by split_and!]].
  destruct (Z.ltb_spec maxRequestBody (Z.of_nat (length body))) as [Hl|Hl];
    [right; split; [done|right; left; by split_and!]|].
  cbn [andb]. destruct (verifyHMAC body _ _) eqn:Ev; cbn [negb].
  - left. exists body. by rewrite verifyHMAC_spec in Ev.
  - right. split; [done|]. right; right. split_and!; [done..|]. rewrite <- verifyHMAC_spec, Ev. done.
Qed.

Lemma bad_unsendable m b : Sdk.payload_ m = RawBad b -> sendable m = false.
Proof.
  intros Hb. unfold sendable. cbn [marshal Sdk.message_codec struct_codec]. unfold Sdk.enc_msg.
  rewrite Hb. cbn [raw_field_omitempty]. by destruct (time_json _).
Qed.

(** Property: one request with a body that is not JSON breaks the sidecar.  On
    a connected client with an empty buffer such a request is answered with
    202 Accepted; from then on, whatever the client does, the health check
    answers 503. *)
Theorem bad_body_breaks_health (w w' : Oracle) (c : Client) (cn : nat) (rq : inbound_request)
    (body : bytes) (ops : list client_op) :
  connected c = true -> conn c = Some cn -> throttled c = false ->
  items (cbuf c) = [] -> 0 < cap (cbuf c) ->
  ir_Method rq = "POST"%string -> ir_Body rq = Some body ->
  Z.of_nat (length body) <= maxRequestBody -> body <> [] -> parse body = None ->
  let '(status, r) := exec (let* status := serve_inbound "" rq in mfor ops run_op ;;; mret status) w c in
  status = 202 /\ fst (exec serve_health w' (run_st r)) = 503.
Proof.
  intros Hcon Hcn Hth Hit Hcap Hm Hb Hlen Hne Hp.
  assert (Hraw : raw_of body = RawBad body) by (unfold raw_of; rewrite Hp; by destruct body).
  pose proof (unsendable_blocks w c cn (RawBad body) ops Hcon Hcn Hit Hcap) as Hbl.
  cbn zeta in Hbl. specialize (Hbl ltac:(by apply (bad_unsendable _ body))).
  assert (Heq : exec (let* status := serve_inbound "" rq in mfor ops run_op ;;; mret status) w c =
    let '(res, r) := exec (let* res := send_rest (RawBad body) in mfor ops run_op ;;; mret res) w c in
    (match res with Ok _ => 202 | Err _ => 500 end, r)).
  { unfold serve_inbound. rewrite bool_decide_true, Hb by done. cbn [negb].
    rewrite (proj2 (Z.ltb_ge _ _) Hlen), bool_decide_true, Hraw by done. cbn [negb andb].
    unfold exec, Send, send_begin, mbind, mget, mret. cbn [run_st]. rewrite Hth.
    destruct (send_rest _ w _) as [res r1]. by destruct (mfor ops run_op w r1). }
  rewrite Heq. destruct (exec _ w c) as [res r]. destruct Hbl as (-> & _ & Hlen').
  split; [done|]. unfold exec, serve_health, BufferedCount, mbind, mgets, mret. cbn [run_st fst].
  destruct (Z.eqb_spec (len (cbuf (run_st r))) 0); [lia|done].
Qed.

Definition posts (tr : list post_event) : list http_request :=
  omap (fun e => match e with EvPost rq => Some rq | _ => None end) tr.

Definition slept (tr : list post_event) : list Z :=
  omap (fun e => match e with EvSlept d => Some d | _ => None end) tr.

Lemma posts_app t1 t2 : posts (t1 ++ t2) = posts t1 ++ posts t2.
Proof. apply omap_app. Qed.
Lemma slept_app t1 t2 : slept (t1 ++ t2) = slept t1 ++ slept t2.
Proof. apply omap_app. Qed.

(** Property: posting a payload makes at most the configured number of
    requests, each with the payload unchanged, and waits one second longer
    after each failure; success means that the target accepted the last of
    them, and none before it. *)
Theorem post_outcome (w : Oracle) (serve : nat -> http_request -> option http_response)
    (cfg : webhookConfig) (payload : bytes) :
  let '(res, r) := exec (post serve cfg payload) w tt in
  exists k : nat, posts (run_trace r) = repeat (post_request cfg payload) k /\
    Z.of_nat k <= Z.max 0 (RetryAttempts cfg) /\
    slept (run_trace r) =
      map (fun i => Z.of_nat (S i) * second) (seq 0 (length (slept (run_trace r)))) /\
    match res with
    | Ok _ => length (slept (run_trace r)) = (k - 1)%nat /\ (0 < k)%nat
    | Err (ErrPost n) => n = RetryAttempts cfg /\ Z.of_nat k = Z.max 0 (RetryAttempts cfg)
    | Err _ => True
    end.
Proof.
  assert (Hl : forall n i r0, wp w (post_loop serve cfg payload (Z.of_nat i) n) (fun res r =>
    exists (k : nat) (m : nat), posts (run_trace r) = posts (run_trace r0) ++ repeat (post_request cfg payload) k /\
      (k <= n)%nat /\
      slept (run_trace r) = slept (run_trace r0) ++ map (fun i => Z.of_nat (S i) * second) (seq i m) /\
      match res with
      | Ok _ => m = (k - 1)%nat /\ (0 < k)%nat
      | Err (ErrPost x) => x = RetryAttempts cfg /\ k = n
      | Err _ => True
      end) r0).
  { induction n as [|n IH]; intros i r0; cbn [post_loop].
    { wp_step. exists 0%nat, 0%nat. by rewrite !app_nil_r. }
    wp_step. destruct (o_ok w _).
    2:{ wp_step. exists 0%nat, 0%nat. cbn [seq map repeat]. rewrite !app_nil_r. split_and!; done || lia. }
    unfold exchange. rewrite !wp_bind, wp_emit. unfold wp at 1. cbn [run_st run_tick run_trace].
    assert (Hp : forall tr, posts (tr ++ [EvPost (post_request cfg payload)]) = posts tr ++ [post_request cfg payload]).
    { intros tr. by rewrite posts_app. }
    assert (Hs : forall tr, slept (tr ++ [EvPost (post_request cfg payload)]) = slept tr).
    { intros tr. rewrite slept_app. apply app_nil_r. }
    case_match eqn:Ea; unfold retrySleep; wp_step.
    { exists 1%nat, 0%nat. rewrite Hp, Hs. cbn [seq map repeat]. rewrite app_nil_r.
      split_and!; done || lia. }
    destruct (o_ok w _); wp_step.
    - replace (Z.of_nat i + 1) with (Z.of_nat (S i)) by lia. eapply wp_conseq; [|apply IH]. cbn beta.
      intros res r (k & m & H1 & H2 & H3 & H4). exists (S k), (S m). cbn [run_trace] in H1, H3.
      rewrite posts_app, Hp in H1. rewrite slept_app, Hs in H3. rewrite H1, H3, <- !app_assoc.
      split_and!; [by rewrite app_nil_l|lia| |].
      + done.
      + destruct res as [u|[]]; try done; [|destruct H4; split; [done|lia]]. destruct H4. lia.
    - exists 1%nat, 0%nat. rewrite Hp, Hs. cbn [seq map repeat]. rewrite app_nil_r.
      split_and!; done || lia. }
  specialize (Hl (Z.to_nat (RetryAttempts cfg)) 0%nat (mkRun tt 0 [])). cbn [run_trace] in Hl.
  unfold exec, post. unfold wp in Hl. destruct (post_loop _ _ _ _ _ w _) as [res r].
  destruct Hl as (k & m & H1 & H2 & H3 & H4). exists k. cbn [posts slept omap list_omap app] in H1, H3.
  rewrite H3. rewrite length_map, length_seq. split_and!; [done|lia|done|].
  destruct res as [u|[]]; try done. destruct H4 as [-> ->]. split; [done|lia].
Qed.

(** ** Samples *)

Module Sample.

Definition connected_client : Client :=
  mkClient sample_config (Some 7%nat) true false (mkBuffer [] 3) false 0 ∅ [] false false false 8.

Definition signed (secret body : string) : inbound_request :=
  mkInboundRequest "POST"
    ("sha256=" +:+ str_of (hex_encode (hmac_sha256 (bytes_of secret) (bytes_of body))))
    (Some (bytes_of body)).

Example statuses :
  fst (exec (serve_inbound "s3" (signed "s3" "[1,2]")) all_ok connected_client) = 202 /\
  fst (exec (serve_inbound "s3" (signed "other" "[1,2]")) all_ok connected_client) = 401 /\
  fst (exec (serve_inbound "s3" (mkInboundRequest "GET" "" None)) all_ok connected_client) = 405 /\
  fst (exec (serve_inbound "s3" (mkInboundRequest "POST" "" None)) all_ok connected_client) = 413.
Proof. vm_compute. done. Qed.

Lemma webhook_authentic_witness :
  signed_with (bytes_of "s3") (bytes_of "[1,2]") (bytes_of (ir_Signature (signed "s3" "[1,2]"))).
Proof.
  destruct (webhook_authentic all_ok connected_client "s3" (signed "s3" "[1,2]"))
    as [(body & _ & Hb & _ & Hs & _)|[Heq _]].
  - discriminate.
  - injection Hb as <-. exact Hs.
  - exfalso. apply (f_equal (fun x => length (run_trace (snd x)))) in Heq. vm_compute in Heq.
    discriminate Heq.
Defined.

Definition junk : inbound_request := mkInboundRequest "POST" "" (Some (bytes_of "hello")).

Lemma bad_body_breaks_health_witness :
  let '(status, r) := exec (let* status := serve_inbound "" junk in
    mfor [OReconnect (fun id => Some (sample_ack id)); OSend RawEmpty] run_op ;;; mret status)
    all_ok connected_client in
  status = 202 /\ fst (exec serve_health all_ok (run_st r)) = 503.
Proof.
  apply (bad_body_breaks_health all_ok all_ok connected_client 7 junk (bytes_of "hello")).
  - reflexivity.
  - reflexivity.
  - reflexivity.
  - reflexivity.
  - reflexivity.
  - reflexivity.
  - reflexivity.
  - vm_compute. discriminate.
  - discriminate.
  - vm_compute. reflexivity.
Defined.

(** Inbound on the path of the health check panics when the routes are
    built. *)
Example health_path_panics :
  (fun c => buildMux c "inbound") <$> parseConfig (str_of (print (JObj [field "path" (str_json "/healthz")]))) =
  Some None.
Proof. vm_compute. reflexivity. Qed.

End Sample.
