(* ===== verification/AgentRuntime.v ===== *)
(** * The OpenClaw runtime (runtimes/openclaw: handler.go, main.go)

    The program at the other end of the bus's WebSocket bridge.  It answers
    every data message with one message: what the model says to the text of
    its payload, or an apology.  The model is a parameter, as is the text of
    an error of package json, and so is what mock mode answers (a table of
    keywords that is searched in the random order of a Go map). *)

From S2P Require Import Prelude.
From S2P Require Import GoStrings.
From S2P Require Import GoTime.
From S2P Require Import Json.
From S2P Require Import GoText.
From S2P Require Import Message.

Record chatPayload := mkPayload { Text : string; User : string; Thread : string }.

Definition enc_payload (p : chatPayload) : list (bytes * json) :=
  [field "text" (str_json (Text p))] ++ str_field_omitempty "user" (User p) ++
  str_field_omitempty "thread" (Thread p).

Definition payload_keys : list string := ["text"; "user"; "thread"]%string.

Definition set_payload (k : string) (v : json) (p : chatPayload) : option chatPayload :=
  let '(mkPayload t u h) := p in
  if decide (k = "text"%string) then (fun x => mkPayload x u h) <$> dec_str v t
  else if decide (k = "user"%string) then (fun x => mkPayload t x h) <$> dec_str v u
  else (fun x => mkPayload t u x) <$> dec_str v h.

Definition dec_payload (r : raw_message) : option chatPayload :=
  unmarshal_raw payload_keys set_payload (mkPayload "" "" "") r.

Definition marshal_payload (p : chatPayload) : bytes := print (JObj (enc_payload p)).

Inductive runtime_error := ErrInvalidPayload | ErrEmptyText | ErrAPI (text : string).

(** ** Configuration and routes (main.go) *)

Definition envOr (getenv : string -> string) (key fallback : string) : string :=
  let v := getenv key in if decide (v = ""%string) then fallback else v.

Record gateway_config := mkGateway {
  gw_port : string;
  gw_apiKey : string;
  gw_baseURL : string;
  gw_model : string;
  gw_systemPrompt : string;
  gw_mock : bool;
}.

Definition gateway_config_of (getenv : string -> string) : gateway_config :=
  let apiKey := getenv "ANTHROPIC_API_KEY"%string in
  mkGateway (envOr getenv "CLAW_GATEWAY_PORT" "18900") apiKey (getenv "ANTHROPIC_BASE_URL"%string)
    (envOr getenv "OPENCLAW_MODEL" "claude-sonnet-4-20250514")
    (envOr getenv "OPENCLAW_SYSTEM_PROMPT" "You are a helpful team assistant.")
    (bool_decide (envOr getenv "OPENCLAW_MODE" "" = "mock"%string) || bool_decide (apiKey = ""%string)).

(** The library client is its options: the key and the base URL, if any. *)
Record handler := mkHandler {
  hd_client : option (string * option string);
  hd_model : string;
  hd_systemPrompt : string;
  hd_mockMode : bool;
}.

Definition newHandler (apiKey model systemPrompt baseURL : string) : handler :=
  mkHandler (Some (apiKey, if decide (baseURL = ""%string) then None else Some baseURL)) model systemPrompt false.

Definition newMockHandler (model systemPrompt : string) : handler := mkHandler None model systemPrompt true.

Definition handler_of (c : gateway_config) : handler :=
  if gw_mock c then newMockHandler (gw_model c) (gw_systemPrompt c)
  else newHandler (gw_apiKey c) (gw_model c) (gw_systemPrompt c) (gw_baseURL c).

(** The routes of the ServeMux on a clean path; a pattern for GET takes HEAD
    as well. *)
Inductive gateway_answer := GwBody (code : Z) (body : string) | GwNotFound | GwBridge.

Definition eol : string := String "010" EmptyString.

Definition gateway_serve (method path upgrade : string) : gateway_answer :=
  let get := bool_decide (method ∈ ["GET"; "HEAD"]%string) in
  if get && bool_decide (path = "/health"%string) then GwBody 200 ("ok" +:+ eol)
  else if get && bool_decide (path = "/ready"%string) then GwBody 200 ("ready" +:+ eol)
  else if negb (bool_decide (upgrade = "websocket"%string)) then GwNotFound
  else GwBridge.

(** ** The answer to a text *)

Record model_request := mkModelRequest {
  mr_Model : string;
  mr_MaxTokens : Z;
  mr_System : string;
  mr_User : string;
}.

(** A response is a list of blocks, each a type and a text. *)
Definition response_text (content : list (string * string)) : string :=
  String.concat "" (map snd (filter (fun b => b.1 = "text"%string) content)).

Definition respond_with (mockResponse : string -> string)
    (ask : option (string * option string) -> model_request -> result string (list (string * string)))
    (h : handler) (text : string) : result string string :=
  if hd_mockMode h then Ok (mockResponse text)
  else
    match ask (hd_client h) (mkModelRequest (hd_model h) 4096 (hd_systemPrompt h) text) with
    | Err e => Err e
    | Ok content => Ok (response_text content)
    end.

(** ** The handler *)

Section Runtime.
(** The answer to a text, as [respond_with] gives it, or the error of the
    call. *)
Context (respond : string -> result string string) (json_error : raw_message -> string).

Definition describe (payload : raw_message) (e : runtime_error) : string :=
  match e with
  | ErrInvalidPayload => ("invalid payload: " +:+ json_error payload)%string
  | ErrEmptyText => "empty text in payload"%string
  | ErrAPI text => ("claude API call failed: " +:+ text)%string
  end.

(** [buildResponse] and [errorResponse]: a message to the channel the
    original came from. *)
Definition reply (t : Z) (suffix text : string) (original : Message) : Message :=
  mkMessage (ID original +:+ suffix) "message" (Channel original) (ID original) (Channel original) t
    (raw_of (marshal_payload (mkPayload text "" ""))).

Definition buildResponse (t : Z) (original : Message) (text : string) : Message :=
  reply t "-resp" text original.

Definition errorResponse (t : Z) (original : Message) (e : runtime_error) : Message :=
  reply t "-err" ("Sorry, I encountered an error: " +:+ describe (Payload original) e) original.

Definition handleMessage (t : Z) (msg : Message) : result runtime_error Message :=
  match dec_payload (Payload msg) with
  | None => Err ErrInvalidPayload
  | Some p =>
      if decide (Text p = ""%string) then Err ErrEmptyText
      else match respond (Text p) with
           | Err e => Err (ErrAPI e)
           | Ok text => Ok (buildResponse t msg text)
           end
  end.

(** One turn of [serve] on the data of a WebSocket message: the answer. *)
Definition serve_one (t : Z) (data : bytes) : option Message :=
  match unmarshal (A := Message) data with
  | None => None
  | Some msg =>
      if decide (Type_ msg = "message"%string) then
        Some (match handleMessage t msg with
              | Ok resp => resp
              | Err e => errorResponse t msg e
              end)
      else None
  end.

(** [serve] over the messages that arrive, until a write fails. *)
Fixpoint serve (incoming : list bytes) : M unit Message unit :=
  match incoming with
  | [] => mret tt
  | data :: rest =>
      let* t := now in
      match serve_one t data with
      | None => serve rest
      | Some resp =>
          let* ok := io in
          if ok then emit resp ;;; serve rest else mret tt
      end
  end.
End Runtime.

(** ** Payloads are read back *)

Definition utf8_payload (p : chatPayload) : Prop :=
  utf8_str (Text p) = true /\ utf8_str (User p) = true /\ utf8_str (Thread p) = true.

Lemma enc_payload_wf p : wf_json (JObj (enc_payload p)) = true.
Proof.
  unfold enc_payload. cbn [wf_json app forallb field].
  rewrite !forallb_app, !str_omitempty_wf, str_json_wf by reflexivity. reflexivity.
Qed.

Lemma dec_payload_marshal p :
  utf8_payload p -> dec_payload (raw_of (marshal_payload p)) = Some p.
Proof.
  destruct p as [t u h]. unfold utf8_payload, utf8_str. cbn [Text User Thread]. intros (H1 & H2 & H3).
  unfold dec_payload, marshal_payload, unmarshal_raw. rewrite raw_of_print by apply enc_payload_wf.
  unfold dec_struct, enc_payload. cbn [app Text User Thread].
  erewrite dec_field; [|reflexivity..|set_key dec_str_json].
  erewrite dec_omitempty; [|reflexivity..| |set_key dec_str_json]; [|by intros ->].
  rewrite <- (app_nil_r (str_field_omitempty "thread" h)).
  erewrite dec_omitempty; [|reflexivity..| |set_key dec_str_json]; [|by intros ->].
  reflexivity.
Qed.

(** Decoding a payload that the bus has encoded again. *)
Lemma enc_payload_escaped p : escape_html (JObj (enc_payload p)) = JObj (enc_payload p).
Proof.
  cbn [escape_html]. f_equal. rewrite <- (map_id (enc_payload p)) at 2. apply map_ext_in.
  intros [k v] Hin%list_elem_of_In. unfold enc_payload in Hin.
  assert (Hkv : escape_raw k = k /\ exists s, v = str_json s).
  { assert (Hone : forall n t, (k, v) ∈ str_field_omitempty n t -> (k, v) = field n (str_json t)).
    { intros n t. unfold str_field_omitempty. case_decide; [by intros ?%not_elem_of_nil|].
      by intros ?%list_elem_of_singleton. }
    apply elem_of_app in Hin as [Hin%list_elem_of_singleton|[Hin%Hone|Hin%Hone]%elem_of_app];
      unfold field in Hin; injection Hin as -> ->; (split; [reflexivity|by eexists]). }
  destruct Hkv as [-> [x ->]]. by rewrite str_json_escaped.
Qed.

Lemma dec_payload_norm p :
  utf8_payload p -> dec_payload (norm_raw (raw_of (marshal_payload p))) = Some p.
Proof.
  intros H. rewrite <- (dec_payload_marshal p H). unfold marshal_payload.
  rewrite raw_of_print by apply enc_payload_wf. unfold norm_raw. by rewrite enc_payload_escaped.
Qed.

Lemma utf8_app a b : utf8_str a = true -> utf8_str b = true -> utf8_str (a +:+ b) = true.
Proof.
  unfold utf8_str, valid_utf8. intros Ha Hb.
  rewrite bytes_of_app, <- (runes_bytes (bytes_of a)). revert Ha.
  generalize (runes (bytes_of a)). intros l. induction l as [|t l IH]; intros Ha; [done|].
  cbn [forallb flat_map] in *. apply andb_true_iff in Ha as [Ht Hl]. specialize (IH Hl).
  rewrite <- app_assoc. destruct t as [c|r|c]; [| |done].
  - by apply (clean_ascii c).
  - by apply (clean_rune r).
Qed.


(** ** Properties *)

(** Property: the runtime answers a WebSocket message exactly if it is a data
    message, and then with one data message that goes back to the channel it
    came from and names it; its payload is the model's answer to the text,
    or an apology when the payload has no text or the model fails. *)
Theorem runtime_answers (respond : string -> result string string) (json_error : raw_message -> string)
    (t : Z) (data : bytes) :
  match serve_one respond json_error t data with
  | None => forall msg, unmarshal data = Some msg -> Type_ msg <> "message"%string
  | Some resp =>
      exists msg text, unmarshal data = Some msg /\ Type_ msg = "message"%string /\
        Type_ resp = "message"%string /\ Channel resp = Channel msg /\
        CorrelationID resp = ID msg /\ ReplyTo resp = Channel msg /\
        Payload resp = raw_of (marshal_payload (mkPayload text "" "")) /\
        match dec_payload (Payload msg) with
        | Some p =>
            match respond (Text p) with
            | Ok answer => Text p <> ""%string -> (text = answer /\ ID resp = ID msg +:+ "-resp")%string
            | Err _ => (ID resp = ID msg +:+ "-err")%string
            end
        | None => (ID resp = ID msg +:+ "-err")%string
        end
  end.
Proof.
  unfold serve_one. destruct (unmarshal data) as [msg|] eqn:Eu; [|by intros msg].
  case_decide as Hty; [|by intros msg' [= <-]].
  unfold handleMessage, errorResponse, buildResponse, reply.
  destruct (dec_payload (Payload msg)) as [p|] eqn:Ep; [|eexists msg, _; rewrite Ep; split_and!; done].
  case_decide as Ht.
  - eexists msg, _. rewrite Ep. split_and!; try done. destruct (respond (Text p)); [by intros []|done].
  - destruct (respond (Text p)) as [answer|e] eqn:Er; eexists msg, _; rewrite Ep, Er; split_and!; done.
Qed.
