(* ===== verification/MockMode.v ===== *)
(** * Mock mode of the OpenClaw runtime (runtimes/openclaw/mock.go)

    The runtime answers from a table of keywords when it has no key.  The
    table is a Go map: the order in which the keywords are tried is not
    specified.  The case tables of Unicode and the [%q] verb are parameters;
    on ASCII text the case is computed. *)

From S2P Require Import Prelude.
From S2P Require Import GoStrings.
From S2P Require AgentRuntime.

(** ** [strings.ToLower] *)

Definition lower_byte (c : ascii) : ascii :=
  if between 65 (code c) 90 then chr (code c + 32) else c.

Definition is_ascii (s : bytes) : bool := forallb (fun c => code c <? 128) s.

Class TextLib := {
  to_lower_unicode : bytes -> bytes;
  quoted : string -> string;
}.

Definition ToLower `{TextLib} (s : bytes) : bytes :=
  if is_ascii s then map lower_byte s else to_lower_unicode s.

(** ** The table *)

Definition dq : string := String "034" EmptyString.
Definition eol : string := AgentRuntime.eol.

Definition lines (l : list string) : string := String.concat eol l.

Definition mockResponses : gmap string string := list_to_map [
  ("hello", "Hello! I'm an OpenClaw agent running on Kubernetes, managed by k8s4claw. How can I help your team today?");
  ("help", lines ["I can help with:"; "- Code reviews and explanations"; "- Documentation drafting"; "- Data analysis";
                  "- Team knowledge Q&A"; ""; "Just send me a message!"]);
  ("code", lines ["Here's a quick example of a Go HTTP server:"; ""; "```go";
                  "http.HandleFunc(" +:+ dq +:+ "/" +:+ dq +:+ ", func(w http.ResponseWriter, r *http.Request) {";
                  "    fmt.Fprintln(w, " +:+ dq +:+ "Hello from k8s4claw!" +:+ dq +:+ ")"; "})";
                  "http.ListenAndServe(" +:+ dq +:+ ":8080" +:+ dq +:+ ", nil)"; "```"]);
  ("k8s", lines ["k8s4claw manages AI agent runtimes on Kubernetes. It handles:"; "- StatefulSet lifecycle";
                 "- IPC Bus message routing (WAL + DLQ)"; "- Channel sidecars (Slack, Discord, Webhook)";
                 "- Auto-updates with health checks and circuit breaker"; "- PVC persistence and CSI snapshots"]);
  ("status", lines ["All systems operational:"; "- Runtime: OpenClaw v0.1.0"; "- IPC Bus: Connected";
                    "- Channels: 1 active (slack-team)"; "- Uptime: 2h 15m"; "- Messages processed: 42"])]%string.

Definition defaultMockResponse : string :=
  "I received your message. In production mode (with ANTHROPIC_API_KEY set), I would process this with Claude. This is a demo response from mock mode."%string.

(** ** The answer *)

Section Mock.
Context `{TextLib, RangeOrder}.

Definition has_keyword (text keyword : string) : bool := contains (bytes_of keyword) (ToLower (bytes_of text)).

Definition mockResponse (text : string) : string :=
  match find (fun kv => has_keyword text kv.1) (range mockResponses) with
  | Some (_, response) => response
  | None => (defaultMockResponse +:+ eol +:+ eol +:+ "You said: " +:+ quoted text)%string
  end.

(** The handler that [main] builds without a key. *)
Definition mock_respond (ask : option (string * option string) -> AgentRuntime.model_request ->
                               result string (list (string * string)))
    (getenv : string -> string) : string -> result string string :=
  AgentRuntime.respond_with mockResponse ask (AgentRuntime.handler_of (AgentRuntime.gateway_config_of getenv)).
End Mock.

(** Trying one keyword first is an order the language allows. *)
Definition first_tried (k : string) {A} (m : gmap string A) : list (string * A) :=
  match m !! k with Some v => (k, v) :: map_to_list (delete k m) | None => map_to_list m end.

Lemma first_tried_perm k {A} (m : gmap string A) : first_tried k m ≡ₚ map_to_list m.
Proof. unfold first_tried. destruct (m !! k) eqn:E; [by apply map_to_list_delete|done]. Qed.

Definition tried_first (k : string) : RangeOrder :=
  {| range _ m := first_tried k m; range_perm _ m := first_tried_perm k m |}.

Section Answers.
Context `{TextLib}.

Lemma mock_answer_in (RO : RangeOrder) text :
  (exists k, mockResponses !! k = Some (mockResponse text) /\ has_keyword text k = true) \/
  ((forall k, is_Some (mockResponses !! k) -> has_keyword text k = false) /\
   mockResponse text = (defaultMockResponse +:+ eol +:+ eol +:+ "You said: " +:+ quoted text)%string).
Proof.
  unfold mockResponse. destruct (find _ _) as [[k v]|] eqn:Hf.
  - left. exists k. apply find_some in Hf as [Hin Hk]. split; [|exact Hk].
    apply elem_of_map_to_list. rewrite <- range_perm. by apply list_elem_of_In.
  - right. split; [|done]. intros k [v Hv]. apply (find_none _ _ Hf (k, v)).
    apply list_elem_of_In. rewrite range_perm. by apply elem_of_map_to_list.
Qed.

(** What mock mode answers, whatever the order of the map: a text with no
    keyword is repeated after a notice; a text with one keyword has that
    keyword's answer; a text with several has the answer of any one of them,
    and each of the answers comes in some order.  So two runs may answer
    "help with code" differently. *)
Theorem mock_answers text :
  (forall RO : RangeOrder, (forall k, is_Some (mockResponses !! k) -> has_keyword text k = false) ->
    mockResponse text = (defaultMockResponse +:+ eol +:+ eol +:+ "You said: " +:+ quoted text)%string) /\
  (forall RO : RangeOrder, (exists k, is_Some (mockResponses !! k) /\ has_keyword text k = true) ->
    exists k, mockResponses !! k = Some (mockResponse text) /\ has_keyword text k = true) /\
  (forall k response, mockResponses !! k = Some response -> has_keyword text k = true ->
    exists RO : RangeOrder, mockResponse text = response).
Proof.
  split_and!.
  - intros RO Hno. destruct (mock_answer_in RO text) as [(k & Hk & Ht)|[_ E]]; [|exact E].
    rewrite Hno in Ht by eauto. discriminate Ht.
  - intros RO (k & Hs & Hk). destruct (mock_answer_in RO text) as [Hin|[Hno _]]; [exact Hin|].
    rewrite Hno in Hk by done. discriminate Hk.
  - intros k response Hk Ht. exists (tried_first k). unfold mockResponse, range, tried_first, first_tried.
    rewrite Hk. cbn [find]. cbn [fst]. by rewrite Ht.
Qed.

(** Without a key the runtime never asks the model and never fails. *)
Theorem keyless_answers (RO : RangeOrder) ask getenv text :
  getenv "ANTHROPIC_API_KEY"%string = ""%string ->
  mock_respond ask getenv text = Ok (mockResponse text).
Proof.
  intros Hkey. unfold mock_respond, AgentRuntime.handler_of, AgentRuntime.gateway_config_of. rewrite Hkey.
  cbn [AgentRuntime.gw_mock]. rewrite (bool_decide_eq_true_2 (""%string = ""%string)) by done.
  by rewrite orb_true_r.
Qed.
End Answers.

(** ** Samples *)
Module Sample.
#[local] Instance ascii_text : TextLib := {| to_lower_unicode s := s; quoted s := (dq +:+ s +:+ dq)%string |}.

Example two_keywords : forallb (has_keyword "HELP me with code") ["help"; "code"]%string = true /\
  bool_decide (mockResponses !! "help"%string = mockResponses !! "code"%string) = false.
Proof. vm_compute. done. Qed.

(** The same text, two answers. *)
Lemma mock_answers_sample :
  exists O1 O2 : RangeOrder, @mockResponse _ O1 "HELP me with code"%string <> @mockResponse _ O2 "HELP me with code"%string.
Proof.
  destruct (mock_answers "HELP me with code"%string) as (_ & _ & Hany).
  destruct (Hany "help"%string _ eq_refl eq_refl) as [O1 E1], (Hany "code"%string _ eq_refl eq_refl) as [O2 E2].
  exists O1, O2. rewrite E1, E2. vm_compute. discriminate.
Qed.

Example keyless : @mock_respond _ sorted_range (fun _ _ => Err "unused"%string) (fun _ => ""%string) "Hi"%string =
  Ok (defaultMockResponse +:+ eol +:+ eol +:+ "You said: " +:+ dq +:+ "Hi" +:+ dq)%string.
Proof. vm_compute. reflexivity. Qed.
End Sample.
