(* ===== verification/Discord.v ===== *)
(** * The Discord sidecar (cmd/channel-discord/main.go)

    Messages from the gateway are filtered and forwarded to the bus; answers
    from the bus are posted to a Discord channel.  The sidecar remembers one
    channel, that of the last message it forwarded.  The Discord library is
    what its callback receives and whether a post succeeds. *)

From S2P Require Import Prelude.
From S2P Require Import GoStrings.
From S2P Require Import Json.
From S2P Require Import GoText.
From S2P Require Import Message.
From S2P Require Import Client.
From S2P Require Import AgentRuntime.

Definition defaultListenPort : Z := 8080.

(** ** Configuration *)

Record discordConfig := mkDiscordConfig { dc_ChannelID : string; dc_ListenPort : Z }.

(** [parseConfig]; [None] is an error. *)
Definition parseConfig (raw : string) : option discordConfig :=
  let cfg := mkDiscordConfig "" defaultListenPort in
  if decide (raw = ""%string) then Some cfg
  else
    c ← unmarshal_raw ["channelId"; "listenPort"]%string
          (fun k v c => if decide (k = "channelId"%string)
                        then (fun x => mkDiscordConfig x (dc_ListenPort c)) <$> dec_str v (dc_ChannelID c)
                        else (fun x => mkDiscordConfig (dc_ChannelID c) x) <$> dec_int v (dc_ListenPort c))
          cfg (raw_of (bytes_of raw));
    Some (mkDiscordConfig (dc_ChannelID c)
            (if decide (dc_ListenPort c = 0) then defaultListenPort else dc_ListenPort c)).

Definition needsGateway (mode : string) : bool :=
  bool_decide (mode = "inbound"%string) || bool_decide (mode = "bidirectional"%string).
Definition needsOutbound (mode : string) : bool :=
  bool_decide (mode = "outbound"%string) || bool_decide (mode = "bidirectional"%string).

(** ** Messages *)

(** Of [discordgo.MessageCreate]: the author and the member may be nil. *)
Record Author := mkAuthor { Username : string; Bot : bool }.
Record MessageCreate := mkMessageCreate {
  mc_Author : option Author;
  mc_Member : option string;
  mc_ChannelID : string;
  mc_Content : string;
}.

Definition discordDisplayName (m : MessageCreate) : string :=
  match mc_Member m with
  | Some nick =>
      if decide (nick = ""%string) then default ""%string (Username <$> mc_Author m) else nick
  | None => default ""%string (Username <$> mc_Author m)
  end.

(** [inboundRuntimeMessage] has the fields of the runtime's payload. *)
Definition inbound_payload (m : MessageCreate) : chatPayload :=
  mkPayload (str_of (trim_space (bytes_of (mc_Content m)))) (discordDisplayName m) (mc_ChannelID m).

Record outboundRuntimeMessage := mkOutbound { ob_Channel : string; ob_Thread : string; ob_Text : string }.

Definition set_outbound (k : string) (v : json) (m : outboundRuntimeMessage) : option outboundRuntimeMessage :=
  let '(mkOutbound c h t) := m in
  if decide (k = "channel"%string) then (fun x => mkOutbound x h t) <$> dec_str v c
  else if decide (k = "thread"%string) then (fun x => mkOutbound c x t) <$> dec_str v h
  else (fun x => mkOutbound c h x) <$> dec_str v t.

Definition dec_outbound (r : raw_message) : option outboundRuntimeMessage :=
  unmarshal_raw ["channel"; "thread"; "text"]%string set_outbound (mkOutbound "" "" "") r.

Fixpoint firstNonEmpty (values : list string) : string :=
  match values with
  | [] => ""
  | v :: rest => if decide (v = ""%string) then firstNonEmpty rest else v
  end.

(** ** The sidecar *)

Record Sidecar := mkSidecar { d_client : Client; d_channel : string }.

Inductive discord_event :=
| EvClient (e : client_event)
| EvPosted (channelID content : string).

Inductive discord_error := ErrParse | ErrEmpty | ErrNoChannel | ErrSendMessage.

Abbreviation DM := (M Sidecar discord_event).

Definition newSidecar (cfg : discordConfig) (c : Client) : Sidecar := mkSidecar c (dc_ChannelID cfg).

(** [channelState.Set]. *)
Definition set_channel (id : string) : DM unit :=
  mmodify (fun s => if decide (id = ""%string) then s else mkSidecar (d_client s) id).

Definition on_client {A} (m : CM A) : DM A :=
  zoom d_client (fun c s => mkSidecar c (d_channel s)) EvClient m.

(** Which messages are forwarded. *)
Definition forwarded (cfg : discordConfig) (m : MessageCreate) : bool :=
  match mc_Author m with
  | None => false
  | Some a =>
      negb (Bot a) &&
      (bool_decide (dc_ChannelID cfg = ""%string) || bool_decide (mc_ChannelID m = dc_ChannelID cfg)) &&
      negb (bool_decide (trim_space (bytes_of (mc_Content m)) = []))
  end.

(** The callback of [newDiscordMessageHandler]. *)
Definition handle_discord (cfg : discordConfig) (m : MessageCreate) : DM unit :=
  if forwarded cfg m then
    set_channel (mc_ChannelID m) ;;;
    let* _ := on_client (Send (raw_of (marshal_payload (inbound_payload m)))) in mret tt
  else mret tt.

(** [discordPoster.post]. *)
Definition post (cfg : discordConfig) (payload : raw_message) : DM (result discord_error unit) :=
  match dec_outbound payload with
  | None => mret (Err ErrParse)
  | Some msg =>
      if decide (trim_space (bytes_of (ob_Text msg)) = []) then mret (Err ErrEmpty)
      else
        let* s := mget in
        let id := firstNonEmpty [ob_Thread msg; ob_Channel msg; dc_ChannelID cfg; d_channel s] in
        if decide (id = ""%string) then mret (Err ErrNoChannel)
        else
          let* ok := io in
          if ok then emit (EvPosted id (ob_Text msg)) ;;; mret (Ok tt) else mret (Err ErrSendMessage)
  end.

(** [runOutboundLoop] over the messages the bus delivers. *)
Definition runOutboundLoop (cfg : discordConfig) (payloads : list raw_message) : DM unit :=
  mfor payloads (fun p => let* _ := post cfg p in mret tt).

(** [/healthz], with the state of the gateway. *)
Definition serve_health (mode : string) (gatewayConnected : bool) : DM Z :=
  let* n := on_client BufferedCount in
  mret (if negb (n =? 0) then 503
        else if needsGateway mode && negb gatewayConnected then 503 else 200).

(** ** Properties *)

(** Messages from Discord and answers from the runtime, in the order in which
    the sidecar handles them. *)
Inductive discord_input := IMessage (m : MessageCreate) | IAnswer (payload : raw_message).

Definition handle_input (cfg : discordConfig) (i : discord_input) : DM unit :=
  match i with
  | IMessage m => handle_discord cfg m
  | IAnswer p => let* _ := post cfg p in mret tt
  end.

(** The channel of the last forwarded message that names one. *)
Fixpoint last_channel (cfg : discordConfig) (inputs : list discord_input) (ch : string) : string :=
  match inputs with
  | [] => ch
  | IMessage m :: rest =>
      last_channel cfg rest
        (if forwarded cfg m && negb (bool_decide (mc_ChannelID m = ""%string)) then mc_ChannelID m else ch)
  | IAnswer _ :: rest => last_channel cfg rest ch
  end.

Lemma handle_input_channel w cfg i (r : Run Sidecar discord_event) :
  wp w (handle_input cfg i) (fun _ r' => d_channel (run_st r') = last_channel cfg [i] (d_channel (run_st r))) r.
Proof.
  destruct i as [m|p]; cbn [handle_input last_channel].
  - unfold handle_discord. destruct (forwarded cfg m); [|by wp_step]. cbn [andb].
    unfold set_channel, on_client. rewrite wp_bind, wp_mmodify, wp_bind, wp_zoom.
    eapply wp_conseq; [|apply wp_true]. cbn beta. intros res r' _. wp_step. cbn [run_st d_channel].
    destruct (decide (mc_ChannelID m = ""%string)) as [E|E];
      [by rewrite bool_decide_true|by rewrite bool_decide_false].
  - unfold post. rewrite wp_bind. destruct (dec_outbound p) as [msg|]; [|by wp_step].
    case_decide; [by wp_step|]. wp_step. case_decide; [by wp_step|]. wp_step. destruct (o_ok w _); by wp_step.
Qed.

Lemma last_channel_cons cfg i inputs ch :
  last_channel cfg (i :: inputs) ch = last_channel cfg inputs (last_channel cfg [i] ch).
Proof. by destruct i. Qed.

Lemma handle_inputs_channel w cfg inputs (r : Run Sidecar discord_event) :
  wp w (mfor inputs (handle_input cfg))
    (fun _ r' => d_channel (run_st r') = last_channel cfg inputs (d_channel (run_st r))) r.
Proof.
  revert r. induction inputs as [|i inputs IH]; intros r; [done|]. cbn [mfor]. rewrite wp_bind.
  eapply wp_conseq; [|apply handle_input_channel]. cbn beta. intros [] r1 H1.
  eapply wp_conseq; [|apply IH]. cbn beta. intros [] r2 ->. by rewrite (last_channel_cons cfg i inputs), H1.
Qed.

(** The answer the runtime gives to a message carries a text and nothing else. *)
Lemma dec_outbound_answer text :
  utf8_str text = true ->
  dec_outbound (raw_of (marshal_payload (mkPayload text "" ""))) = Some (mkOutbound "" "" text).
Proof.
  intros H. unfold utf8_str in H. unfold dec_outbound, marshal_payload, unmarshal_raw.
  rewrite raw_of_print by apply enc_payload_wf. unfold dec_struct, enc_payload. cbn [app Text User Thread].
  erewrite dec_field; [|reflexivity..|set_key dec_str_json]. reflexivity.
Qed.

(** Property: a forwarded message reaches the runtime as it was written: the
    payload the sidecar sends, read as the runtime reads it, is the trimmed
    text with its author and channel.  Messages of bots are not forwarded and
    leave the sidecar as it was, so answers are not answered. *)
Theorem discord_forwards (w : Oracle) (cfg : discordConfig) (m : MessageCreate) (s : Sidecar) :
  utf8_payload (inbound_payload m) ->
  (forwarded cfg m = true ->
     dec_payload (raw_of (marshal_payload (inbound_payload m))) = Some (inbound_payload m) /\
     Text (inbound_payload m) <> ""%string) /\
  (Bot <$> mc_Author m = Some true -> exec (handle_discord cfg m) w s = (tt, mkRun s 0 [])).
Proof.
  intros Hu. split.
  - intros Hf. split; [by apply dec_payload_marshal|]. cbn [inbound_payload Text]. intros He.
    unfold forwarded in Hf. destruct (mc_Author m); [|done]. split_bools.
    repeat match goal with Hb : bool_decide _ = false |- _ => apply bool_decide_eq_false in Hb end.
    apply (f_equal bytes_of) in He. rewrite bytes_of_str_of in He. done.
  - intros Hb. unfold handle_discord, forwarded. destruct (mc_Author m) as [a|]; [|done].
    injection Hb as ->. done.
Qed.

(** Property: an answer goes to the channel of the latest message, not to that
    of the message it answers.  Without a configured channel, after any
    sequence of messages and answers, the runtime's answer to whichever
    message is posted to the channel of the last message that was
    forwarded; nothing in the answer says where it belongs. *)
Theorem discord_answers_latest (w w' : Oracle) (respond : string -> result string string)
    (t : Z) (asked : Message) (resp : Message) (text : string)
    (cfg : discordConfig) (inputs : list discord_input) (c : Client) :
  dc_ChannelID cfg = ""%string -> o_ok w' 0 = true ->
  handleMessage respond t asked = Ok resp ->
  respond (default ""%string (Text <$> dec_payload (Payload asked))) = Ok text ->
  utf8_str text = true -> trim_space (bytes_of text) <> [] ->
  last_channel cfg inputs "" <> ""%string ->
  let s := run_st (snd (exec (mfor inputs (handle_input cfg)) w (newSidecar cfg c))) in
  exec (post cfg (Payload resp)) w' s =
  (Ok tt, mkRun s 1 [EvPosted (last_channel cfg inputs "") text]).
Proof.
  intros Hcfg Hok Hh Hr Hu Hne Hlast s.
  assert (Hs : d_channel s = last_channel cfg inputs "").
  { pose proof (handle_inputs_channel w cfg inputs (mkRun (newSidecar cfg c) 0 [])) as H.
    unfold s, exec. unfold wp in H. destruct (mfor inputs _ w _) as [u r]. cbn [snd]. rewrite H.
    cbn [run_st newSidecar d_channel]. by rewrite Hcfg. }
  assert (Hp : Payload resp = raw_of (marshal_payload (mkPayload text "" ""))).
  { unfold handleMessage in Hh. destruct (dec_payload (Payload asked)) as [p|]; [|done].
    case_decide; [done|]. cbn in Hr. rewrite Hr in Hh. by injection Hh as <-. }
  assert (Hid : firstNonEmpty [""; ""; dc_ChannelID cfg; d_channel s]%string = last_channel cfg inputs "").
  { rewrite Hcfg, Hs. cbn [firstNonEmpty]. repeat case_decide; done. }
  unfold post. rewrite Hp, dec_outbound_answer by done. cbn [ob_Text ob_Thread ob_Channel].
  rewrite decide_False by done. unfold exec, mbind, mget, mret, io, emit. cbn [run_st run_tick run_trace].
  rewrite Hid, decide_False by done. cbn. by rewrite Hok.
Qed.

(** ** Samples *)

Module Sample.

Definition from (channel text : string) : MessageCreate :=
  mkMessageCreate (Some (mkAuthor "ada" false)) None channel text.

Definition config : discordConfig := mkDiscordConfig "" 8080.

Definition asked (m : MessageCreate) : Message :=
  mkMessage "m1" "message" "discord" "" "" 0 (raw_of (marshal_payload (inbound_payload m))).

Definition echo (text : string) : result string string := Ok ("re: " +:+ text)%string.

Lemma discord_forwards_witness :
  dec_payload (raw_of (marshal_payload (inbound_payload (from "dm-7" " hi ")))) =
  Some (mkPayload "hi" "ada" "dm-7").
Proof.
  refine (proj1 (proj1 (discord_forwards all_ok config (from "dm-7" " hi ")
    (newSidecar config (newClient sample_config)) _) _)).
  - vm_compute. done.
  - vm_compute. reflexivity.
Defined.

(** A private question; before it is answered somebody writes in a public
    channel, and the answer appears there. *)
Lemma discord_answers_latest_witness :
  let s := run_st (snd (exec (mfor [IMessage (from "dm-7" "my salary?"); IMessage (from "public" "hello")]
                         (handle_input config)) all_ok (newSidecar config (newClient sample_config)))) in
  let resp := match handleMessage echo 0 (asked (from "dm-7" "my salary?")) with
              | Ok resp => resp
              | Err _ => asked (from "dm-7" "my salary?")
              end in
  exec (post config (Payload resp)) all_ok s =
  (Ok tt, mkRun s 1 [EvPosted "public" "re: my salary?"]).
Proof.
  cbn zeta. destruct (handleMessage echo 0 (asked (from "dm-7" "my salary?"))) as [resp|e] eqn:Hr.
  2:{ vm_compute in Hr. discriminate Hr. }
  apply (discord_answers_latest all_ok all_ok echo 0 (asked (from "dm-7" "my salary?")) resp
    "re: my salary?" config [IMessage (from "dm-7" "my salary?"); IMessage (from "public" "hello")]
    (newClient sample_config)).
  - reflexivity.
  - reflexivity.
  - exact Hr.
  - vm_compute. reflexivity.
  - vm_compute. reflexivity.
  - vm_compute. discriminate.
  - vm_compute. discriminate.
Defined.

End Sample.
