(* ===== verification/Slack.v ===== *)
(** * The Slack sidecar (cmd/channel-slack: handler.go, main.go)

    Inbound, a loop that reads Socket Mode envelopes from a WebSocket,
    acknowledges them and forwards each one whole to the bus; outbound, a loop
    that posts what the bus delivers, with retries.  The WebSocket library and
    the network are what a request is answered with, what a read returns and
    whether a dial or a write succeeds. *)

From S2P Require Import Prelude.
From S2P Require Import GoStrings.
From S2P Require Import Json.
From S2P Require Import GoText.
From S2P Require Import GoHttp.
From S2P Require Import Message.
From S2P Require Import Client.

(** ** Configuration *)

Record slackConfig := mkSlackConfig {
  sc_AppLevelToken : string;
  sc_BotToken : string;
  DefaultChannel : string;
  sc_ListenPort : Z;
  sc_RetryAttempts : Z;
  SlackAPIURL : string;
}.

Definition slack_keys : list string :=
  ["appLevelToken"; "botToken"; "defaultChannel"; "listenPort"; "retryAttempts"; "slackAPIURL"]%string.

Definition set_slack (k : string) (v : json) (c : slackConfig) : option slackConfig :=
  let '(mkSlackConfig a b d l n u) := c in
  if decide (k = "appLevelToken"%string) then (fun x => mkSlackConfig x b d l n u) <$> dec_str v a
  else if decide (k = "botToken"%string) then (fun x => mkSlackConfig a x d l n u) <$> dec_str v b
  else if decide (k = "defaultChannel"%string) then (fun x => mkSlackConfig a b x l n u) <$> dec_str v d
  else if decide (k = "listenPort"%string) then (fun x => mkSlackConfig a b d x n u) <$> dec_int v l
  else if decide (k = "retryAttempts"%string) then (fun x => mkSlackConfig a b d l x u) <$> dec_int v n
  else (fun x => mkSlackConfig a b d l n x) <$> dec_str v u.

Definition default_api_url : string := "https://slack.com/api".

(** [parseConfig] in an environment; [None] is an error. *)
Definition parseConfig (getenv : string -> string) (raw : string) : option slackConfig :=
  let cfg := mkSlackConfig "" "" "" 8080 3 default_api_url in
  c ← (if decide (raw = ""%string) then Some cfg
       else unmarshal_raw slack_keys set_slack cfg (raw_of (bytes_of raw)));
  let app := getenv "SLACK_APP_TOKEN"%string in
  let bot := getenv "SLACK_BOT_TOKEN"%string in
  Some (mkSlackConfig
    (if decide (app = ""%string) then sc_AppLevelToken c else app)
    (if decide (bot = ""%string) then sc_BotToken c else bot)
    (DefaultChannel c)
    (if decide (sc_ListenPort c = 0) then 8080 else sc_ListenPort c)
    (if decide (sc_RetryAttempts c = 0) then 3 else sc_RetryAttempts c)
    (if decide (SlackAPIURL c = ""%string) then default_api_url else SlackAPIURL c)).

(** ** Answers of the Web API *)

Definition dec_bool (v : json) (old : bool) : option bool :=
  match v with
  | JNull => Some old
  | JBool b => Some b
  | _ => None
  end.

(** The answer to [apps.connections.open]; [chat.postMessage] has the same
    without a URL. *)
Record slackResp := mkSlackResp { r_OK : bool; r_URL : string; r_Error : string }.

Definition set_resp (k : string) (v : json) (c : slackResp) : option slackResp :=
  let '(mkSlackResp o u e) := c in
  if decide (k = "ok"%string) then (fun x => mkSlackResp x u e) <$> dec_bool v o
  else if decide (k = "url"%string) then (fun x => mkSlackResp o x e) <$> dec_str v u
  else (fun x => mkSlackResp o u x) <$> dec_str v e.

Definition dec_resp (names : list string) (body : bytes) : option slackResp :=
  unmarshal_raw names set_resp (mkSlackResp false "" "") (raw_of (limit_body (2 ^ 20) body)).

(** ** Socket Mode *)

Record slackSocketMode := mkSocketMode {
  appToken : string;
  apiURL : string;
  wsConn : option nat;
  sm_connected : bool;
  ws_next : nat;
}.

Definition newSlackSocketMode (token url : string) : slackSocketMode :=
  mkSocketMode token url None false 0.

Inductive socket_event :=
| EvOpen (rq : http_request)
| EvDialed (url : string) (ws : nat)
| EvWritten (ws : nat) (data : bytes) (ok : bool)
| EvWsClosed (ws : nat).

Inductive socket_error :=
| ErrOpenRequest | ErrOpenCall | ErrOpenRead | ErrOpenParse | ErrOpen (code : string) | ErrDialWs
| ErrNotConnected | ErrReadWs | ErrEnvelope | ErrSendAck.

Abbreviation WM := (M slackSocketMode socket_event).

Definition set_connected (b : bool) : WM unit :=
  mmodify (fun s => mkSocketMode (appToken s) (apiURL s) (wsConn s) b (ws_next s)).

(** The envelope of an event; its payload is read and not used. *)
Record slackEnvelope := mkEnvelope { EnvelopeID : string; env_Type : string; env_Payload : raw_message }.

Definition set_envelope (k : string) (v : json) (e : slackEnvelope) : option slackEnvelope :=
  let '(mkEnvelope i t p) := e in
  if decide (k = "envelope_id"%string) then (fun x => mkEnvelope x t p) <$> dec_str v i
  else if decide (k = "type"%string) then (fun x => mkEnvelope i x p) <$> dec_str v t
  else Some (mkEnvelope i t (RawDoc v)).

Definition dec_envelope (data : bytes) : option slackEnvelope :=
  unmarshal_raw ["envelope_id"; "type"; "payload"]%string set_envelope (mkEnvelope "" "" RawEmpty)
    (raw_of data).

(** [ReadEvent] with what the WebSocket returns: the data and the identifier. *)
Definition ReadEvent (read : option bytes) : WM (result socket_error (bytes * string)) :=
  let* s := mget in
  match wsConn s with
  | None => mret (Err ErrNotConnected)
  | Some _ =>
      match read with
      | None => set_connected false ;;; mret (Err ErrReadWs)
      | Some data =>
          mret match dec_envelope data with
               | None => Err ErrEnvelope
               | Some e => Ok (data, EnvelopeID e)
               end
      end
  end.

Definition ack_body (envelopeID : string) : bytes :=
  print (JObj [field "envelope_id" (str_json envelopeID)]).

Definition Acknowledge (envelopeID : string) : WM (result socket_error unit) :=
  let* s := mget in
  match wsConn s with
  | None => mret (Err ErrNotConnected)
  | Some ws =>
      let* ok := io in
      emit (EvWritten ws (ack_body envelopeID) ok) ;;;
      mret (if ok then Ok tt else Err ErrSendAck)
  end.

(** [Close] of the Socket Mode connection. *)
Definition CloseSocket : WM unit :=
  set_connected false ;;;
  let* s := mget in
  match wsConn s with Some ws => emit (EvWsClosed ws) | None => mret tt end.

Section Connect.
(** What the Web API answers. *)
Context (serve : nat -> http_request -> option http_response).

Definition ask (rq : http_request) : WM (option http_response) :=
  emit (EvOpen rq) ;;; (fun w r => (serve (run_tick r) rq, mkRun (run_st r) (S (run_tick r)) (run_trace r))).

Definition open_request (s : slackSocketMode) : http_request :=
  mkRequest "POST" (apiURL s +:+ "/apps.connections.open")
    (<["Authorization"%string := ("Bearer " +:+ appToken s)%string]>
      {["Content-Type"%string := "application/x-www-form-urlencoded"%string]}) [].

(** [dialWebSocket], and the new connection when it succeeds. *)
Definition dial_ws (url : string) : WM (result socket_error unit) :=
  let* ok := io in
  if ok then
    let* s := mget in
    emit (EvDialed url (ws_next s)) ;;;
    mput (mkSocketMode (appToken s) (apiURL s) (Some (ws_next s)) true (S (ws_next s))) ;;;
    mret (Ok tt)
  else mret (Err ErrDialWs).

Definition ConnectSocket : WM (result socket_error unit) :=
  let* made := io in
  if made then
    let* s := mget in
    let* a := ask (open_request s) in
    match a with
    | None => mret (Err ErrOpenCall)
    | Some resp =>
        match Body resp with
        | None => mret (Err ErrOpenRead)
        | Some body =>
            match dec_resp ["ok"; "url"; "error"]%string body with
            | None => mret (Err ErrOpenParse)
            | Some c => if r_OK c then dial_ws (r_URL c) else mret (Err (ErrOpen (r_Error c)))
            end
        end
    end
  else mret (Err ErrOpenRequest).
End Connect.

(** ** The inbound loop *)

Record Inbound := mkIn { in_socket : slackSocketMode; in_client : Client; in_reconnecting : bool }.

Inductive slack_event := EvSocket (e : socket_event) | EvBus (e : client_event).

Abbreviation SM := (M Inbound slack_event).

Definition on_socket {A} (m : WM A) : SM A :=
  zoom in_socket (fun s i => mkIn s (in_client i) (in_reconnecting i)) EvSocket m.
Definition on_bus {A} (m : CM A) : SM A :=
  zoom in_client (fun c i => mkIn (in_socket i) c (in_reconnecting i)) EvBus m.
Definition set_retrying (b : bool) : SM unit :=
  mmodify (fun i => mkIn (in_socket i) (in_client i) b).

(** What the loop waits for: data or an error of the WebSocket, and, while it
    reconnects, the two seconds between attempts.  The sequence ends when the
    context does. *)
Inductive inbound_input := IRead (read : option bytes) | ITick.

Definition inbound_step (serve : nat -> http_request -> option http_response) (i : inbound_input) : SM unit :=
  let* s := mget in
  match i, in_reconnecting s with
  | IRead read, false =>
      let* ev := on_socket (ReadEvent read) in
      match ev with
      | Err _ => set_retrying true
      | Ok (payload, envelopeID) =>
          (if decide (envelopeID = ""%string) then mret tt
           else let* _ := on_socket (Acknowledge envelopeID) in mret tt) ;;;
          let* _ := on_bus (Send (raw_of payload)) in mret tt
      end
  | ITick, true =>
      let* res := on_socket (ConnectSocket serve) in
      match res with Ok _ => set_retrying false | Err _ => mret tt end
  | _, _ => mret tt
  end.

Definition runInboundLoop (serve : nat -> http_request -> option http_response) (inputs : list inbound_input)
    : SM unit := mfor inputs (inbound_step serve).

(** [/healthz]: [inbound] tells whether there is a Socket Mode connection. *)
Definition serve_health (inbound : bool) : SM Z :=
  let* s := mget in
  if inbound && negb (sm_connected (in_socket s)) then mret 503
  else let* n := on_bus BufferedCount in mret (if n =? 0 then 200 else 503).

(** What [mainRun] and [run] check before anything starts. *)
Definition needs_inbound (mode : string) : bool :=
  bool_decide (mode = "inbound"%string) || bool_decide (mode = "bidirectional"%string).
Definition needs_outbound (mode : string) : bool :=
  bool_decide (mode = "outbound"%string) || bool_decide (mode = "bidirectional"%string).
Definition has_bot_token (cfg : slackConfig) : bool := negb (bool_decide (sc_BotToken cfg = ""%string)).
Definition can_run (cfg : slackConfig) (mode : string) : bool :=
  negb (needs_inbound mode && bool_decide (sc_AppLevelToken cfg = ""%string)).

(** ** Outbound *)

Record outboundMessage := mkOutMsg { om_Channel : string; om_Text : string; Blocks : raw_message }.

Definition set_out (k : string) (v : json) (m : outboundMessage) : option outboundMessage :=
  let '(mkOutMsg c t b) := m in
  if decide (k = "channel"%string) then (fun x => mkOutMsg x t b) <$> dec_str v c
  else if decide (k = "text"%string) then (fun x => mkOutMsg c x b) <$> dec_str v t
  else Some (mkOutMsg c t (RawDoc v)).

Definition dec_out (r : raw_message) : option outboundMessage :=
  unmarshal_raw ["channel"; "text"; "blocks"]%string set_out (mkOutMsg "" "" RawEmpty) r.

(** The body of [chat.postMessage]: a Go map is written with sorted keys. *)
Definition api_payload (channel : string) (msg : outboundMessage) : option bytes :=
  blocks ← raw_field_omitempty "blocks" (Blocks msg);
  Some (print (JObj (blocks ++ [field "channel" (str_json channel); field "text" (str_json (om_Text msg))]))).

(** Multiplication of durations wraps at 64 bits. *)
Definition wrap64 (x : Z) : Z := (x + 2 ^ 63) mod 2 ^ 64 - 2 ^ 63.

(** What [doPost] makes of an exchange: its nil or error. *)
Inductive verdict := Posted | RateLimited (retryAfter : Z) | APIError (code : string) | Transient.

Definition judge (a : option http_response) : verdict :=
  match a with
  | None => Transient
  | Some resp =>
      if StatusCode resp =? 429 then
        let v := header_get "Retry-After" (Header resp) in
        match parse_int 64 (bytes_of v) with
        | Some secs => RateLimited (wrap64 (secs * second))
        | None => RateLimited second
        end
      else
        match Body resp with
        | None => Transient
        | Some body =>
            match dec_resp ["ok"; "error"]%string body with
            | None => Transient
            | Some c => if r_OK c then Posted else APIError (r_Error c)
            end
        end
  end.

Inductive slack_post_event :=
| EvChat (rq : http_request) (answer : option http_response)
| EvNoRequest
| EvPause (d : Z).

Inductive slack_post_error :=
| ErrOutbound | ErrNoChannel | ErrPayload | ErrAPI (code : string) | ErrPostCancelled | ErrAttempts (n : Z).

Abbreviation PM := (M unit slack_post_event).

(** A timer, or the end of the context. *)
Definition pause (d : Z) : PM bool :=
  let* alive := io in
  if alive then emit (EvPause d) ;;; mret true else mret false.

Definition retrySleep (attempt : Z) : PM bool := pause ((attempt + 1) * second).

Section Outbound.
Context (serve : nat -> http_request -> option http_response).

Definition chat_request (cfg : slackConfig) (body : bytes) : http_request :=
  mkRequest "POST" (SlackAPIURL cfg +:+ "/chat.postMessage")
    (<["Authorization"%string := ("Bearer " +:+ sc_BotToken cfg)%string]>
      {["Content-Type"%string := "application/json; charset=utf-8"%string]}) body.

Definition chat (rq : http_request) : PM (option http_response) := fun w r =>
  let a := serve (run_tick r) rq in
  (a, mkRun (run_st r) (S (run_tick r)) (run_trace r ++ [EvChat rq a])).

Definition doPost (cfg : slackConfig) (body : bytes) : PM verdict :=
  let* made := io in
  if made then let* a := chat (chat_request cfg body) in mret (judge a)
  else emit EvNoRequest ;;; mret Transient.

(** The attempts from [attempt] on, [n] of them. *)
Fixpoint post_loop (cfg : slackConfig) (body : bytes) (attempt : Z) (n : nat)
    : PM (result slack_post_error unit) :=
  match n with
  | O => mret (Err (ErrAttempts (sc_RetryAttempts cfg)))
  | S n' =>
      let* v := doPost cfg body in
      match v with
      | Posted => mret (Ok tt)
      | APIError code => mret (Err (ErrAPI code))
      | RateLimited d =>
          let* alive := pause d in
          if alive then post_loop cfg body (attempt + 1) n' else mret (Err ErrPostCancelled)
      | Transient =>
          let* alive := retrySleep attempt in
          if alive then post_loop cfg body (attempt + 1) n' else mret (Err ErrPostCancelled)
      end
  end.

(** [slackPoster.post]. *)
Definition post (cfg : slackConfig) (payload : raw_message) : PM (result slack_post_error unit) :=
  match dec_out payload with
  | None => mret (Err ErrOutbound)
  | Some msg =>
      let channel := if decide (om_Channel msg = ""%string) then DefaultChannel cfg else om_Channel msg in
      if decide (channel = ""%string) then mret (Err ErrNoChannel)
      else
        match api_payload channel msg with
        | None => mret (Err ErrPayload)
        | Some body => post_loop cfg body 0 (Z.to_nat (sc_RetryAttempts cfg))
        end
  end.

(** [runOutboundLoop] over the messages that arrive: errors are logged. *)
Definition runOutboundLoop (cfg : slackConfig) (payloads : list raw_message) : PM unit :=
  mfor payloads (fun p => let* _ := post cfg p in mret tt).
End Outbound.

(** ** Posting *)

(** What came of the attempts, and the pauses after them. *)
Definition outcomes (tr : list slack_post_event) : list verdict :=
  omap (fun e => match e with EvChat _ a => Some (judge a) | EvNoRequest => Some Transient | EvPause _ => None end) tr.

Definition pauses (tr : list slack_post_event) : list Z :=
  omap (fun e => match e with EvPause d => Some d | _ => None end) tr.

Definition retryable (v : verdict) : bool :=
  match v with RateLimited _ | Transient => true | _ => false end.

(** The pause after failed attempt [i]. *)
Definition pause_after (i : Z) (v : verdict) : Z :=
  match v with RateLimited d => d | _ => (i + 1) * second end.

(** The pauses after failed attempts, the first of them being [i]. *)
Fixpoint delays_from (i : Z) (vs : list verdict) : list Z :=
  match vs with
  | [] => []
  | v :: rest => pause_after i v :: delays_from (i + 1) rest
  end.

(** The last attempt ended it with [last], those before failed and were
    waited for. *)
Definition ended_with (i : Z) (tr : list slack_post_event) (last : verdict) : Prop :=
  exists vs, outcomes tr = vs ++ [last] /\ forallb retryable vs = true /\ pauses tr = delays_from i vs.

Definition attempts_end (cfg : slackConfig) (i : Z) (n : nat) (res : result slack_post_error unit)
    (tr : list slack_post_event) : Prop :=
  match res with
  | Ok _ => ended_with i tr Posted
  | Err (ErrAPI code) => ended_with i tr (APIError code)
  | Err ErrPostCancelled => exists v, retryable v = true /\ ended_with i tr v
  | Err (ErrAttempts m) =>
      m = sc_RetryAttempts cfg /\ length (outcomes tr) = n /\ forallb retryable (outcomes tr) = true /\
      pauses tr = delays_from i (outcomes tr)
  | Err _ => False
  end.

(** All requests of a trace are [rq]. *)
Definition only (rq : http_request) (tr : list slack_post_event) : Prop :=
  Forall (fun e => match e with EvChat x _ => x = rq | _ => True end) tr.

Definition try_spec (cfg : slackConfig) (body : bytes) (v : verdict) (tr : list slack_post_event) : Prop :=
  outcomes tr = [v] /\ pauses tr = [] /\ only (chat_request cfg body) tr.

Lemma doPost_spec w serve cfg body r0 :
  wp w (doPost serve cfg body) (fun v r => exists tr, run_trace r = run_trace r0 ++ tr /\ try_spec cfg body v tr) r0.
Proof.
  unfold doPost. wp_step. destruct (o_ok w _); wp_step.
  - unfold chat, wp. cbn [run_trace run_st run_tick mret]. eexists; split; [done|].
    split_and!; [done..|]. by repeat constructor.
  - eexists; split; [done|]. split_and!; [done..|]. by repeat constructor.
Qed.

Lemma outcomes_app t1 t2 : outcomes (t1 ++ t2) = outcomes t1 ++ outcomes t2.
Proof. apply omap_app. Qed.
Lemma pauses_app t1 t2 : pauses (t1 ++ t2) = pauses t1 ++ pauses t2.
Proof. apply omap_app. Qed.

(** A failed attempt and its pause before what follows. *)
Lemma attempts_end_cons cfg body i n res v tr tr' :
  try_spec cfg body v tr -> retryable v = true ->
  attempts_end cfg (i + 1) n res tr' ->
  attempts_end cfg i (S n) res
    (tr ++ EvPause (pause_after i v) :: tr').
Proof.
  intros (Ho & Hp & _) Hv H.
  assert (Hend : forall last, ended_with (i + 1) tr' last ->
    ended_with i (tr ++ EvPause (pause_after i v) :: tr') last).
  { intros last (vs & H1 & H2 & H3). exists (v :: vs). cbn [forallb delays_from].
    rewrite outcomes_app, pauses_app, Ho, Hp, Hv. cbn [app]. split_and!; [|done|].
    - cbn [outcomes omap list_omap]. by rewrite <- H1.
    - cbn [pauses omap list_omap]. by rewrite <- H3. }
  destruct res as [u|[]]; cbn [attempts_end] in *; try by auto.
  - destruct H as (v' & Hv' & He). eauto.
  - destruct H as (-> & H1 & H2 & H3). rewrite outcomes_app, pauses_app, Ho, Hp.
    cbn [app outcomes pauses omap list_omap length forallb delays_from].
    fold (outcomes tr'). fold (pauses tr'). rewrite H1, H3, H2, Hv. done.
Qed.

Lemma post_loop_spec w serve cfg body n : forall i r0,
  wp w (post_loop serve cfg body i n) (fun res r => exists tr, run_trace r = run_trace r0 ++ tr /\
    (length (outcomes tr) <= n)%nat /\ only (chat_request cfg body) tr /\ attempts_end cfg i n res tr) r0.
Proof.
  induction n as [|n IH]; intros i r0; cbn [post_loop].
  { wp_step. exists []. rewrite app_nil_r. split_and!; [done..|constructor|done]. }
  rewrite wp_bind. eapply wp_conseq; [|apply doPost_spec]. cbn beta.
  intros v r1 (tr & Htr & Hsp). pose proof Hsp as (Ho & Hp & Hon).
  assert (Hend : forall res, attempts_end cfg i (S n) res tr ->
    exists tr0, run_trace r1 = run_trace r0 ++ tr0 /\ (length (outcomes tr0) <= S n)%nat /\
      only (chat_request cfg body) tr0 /\ attempts_end cfg i (S n) res tr0).
  { intros res H. exists tr. rewrite Ho. split_and!; [done|cbn; lia|done|done]. }
  assert (Hwait : retryable v = true ->
    wp w (let* alive := pause (pause_after i v) in
          if alive then post_loop serve cfg body (i + 1) n else mret (Err ErrPostCancelled))
      (fun res r => exists tr, run_trace r = run_trace r0 ++ tr /\
        (length (outcomes tr) <= S n)%nat /\ only (chat_request cfg body) tr /\
        attempts_end cfg i (S n) res tr) r1).
  { intros Hv. unfold pause. wp_step. destruct (o_ok w _); wp_step.
    - eapply wp_conseq; [|apply IH]. cbn beta. cbn [run_trace]. intros res r (tr' & H1 & H2 & H3 & H4).
      rewrite Htr in H1. exists (tr ++ EvPause (pause_after i v) :: tr'). split_and!.
      + rewrite H1, <- !app_assoc. done.
      + rewrite outcomes_app, Ho. cbn [app length]. cbn [outcomes omap list_omap]. fold (outcomes tr'). lia.
      + by apply Forall_app_2, Forall_cons_2.
      + by eapply attempts_end_cons.
    - apply Hend. exists v. split; [done|]. exists []. by rewrite Ho, Hp. }
  destruct v as [|d|code|]; [| |  |]; try (by apply Hwait); wp_step; apply Hend; exists [];
    by rewrite Ho, Hp.
Qed.

(** Nothing is sent for a payload that cannot be posted. *)
Definition refused (res : result slack_post_error unit) (tr : list slack_post_event) : Prop :=
  tr = [] /\ match res with Err ErrOutbound | Err ErrNoChannel | Err ErrPayload => True | _ => False end.

(** Property: posting to Slack makes at most the configured number of
    attempts, all with one request.  Unless the payload is refused outright,
    it succeeds exactly with the first attempt that Slack accepts, stops at
    the first error of the API, and otherwise waits after every failed
    attempt, as long as a rate limit says or else one second longer each
    time. *)
Theorem slack_post_outcome (w : Oracle) (serve : nat -> http_request -> option http_response)
    (cfg : slackConfig) (payload : raw_message) :
  let '(res, r) := exec (post serve cfg payload) w tt in
  Z.of_nat (length (outcomes (run_trace r))) <= Z.max 0 (sc_RetryAttempts cfg) /\
  (exists rq, only rq (run_trace r)) /\
  (refused res (run_trace r) \/
   attempts_end cfg 0 (Z.to_nat (sc_RetryAttempts cfg)) res (run_trace r)).
Proof.
  assert (Hnone : forall (res : result slack_post_error unit), refused res [] ->
    Z.of_nat (length (outcomes [])) <= Z.max 0 (sc_RetryAttempts cfg) /\
    (exists rq, only rq []) /\
    (refused res [] \/ attempts_end cfg 0 (Z.to_nat (sc_RetryAttempts cfg)) res [])).
  { intros res Hr. split; [cbn; lia|]. split; [exists (mkRequest "" "" ∅ []); constructor|by left]. }
  unfold exec, post. destruct (dec_out payload) as [msg|]; [|by apply (Hnone (Err ErrOutbound))].
  set (channel := if decide (om_Channel msg = ""%string) then _ else _).
  case_decide; [by apply (Hnone (Err ErrNoChannel))|].
  destruct (api_payload channel msg) as [body|]; [|by apply (Hnone (Err ErrPayload))].
  pose proof (post_loop_spec w serve cfg body (Z.to_nat (sc_RetryAttempts cfg)) 0 (mkRun tt 0 [])) as Hl.
  unfold wp in Hl. destruct (post_loop _ _ _ _ _ w _) as [res r].
  destruct Hl as (tr & H1 & H2 & H3 & H4). cbn [run_trace app] in H1. rewrite H1.
  split; [lia|]. split; [by eexists|by right].
Qed.

(** ** Reconnecting *)

(** No step closes a WebSocket. *)
Definition nothing_closed (r : Run Inbound slack_event) : Prop :=
  Forall (fun e => match e with EvSocket (EvWsClosed _) => False | _ => True end) (run_trace r).

Definition no_close (r : Run slackSocketMode socket_event) : Prop :=
  Forall (fun e => match e with EvWsClosed _ => False | _ => True end) (run_trace r).

Section Sockets.
Context (w : Oracle) (serve : nat -> http_request -> option http_response).

Lemma no_close_io : preserves w no_close io. Proof using Type. by intros r Hr. Qed.
Lemma no_close_modify f : preserves w no_close (mmodify f). Proof using Type. by intros r Hr. Qed.
Lemma no_close_put s : preserves w no_close (mput s). Proof using Type. by intros r Hr. Qed.
Lemma no_close_emit e :
  match e with EvWsClosed _ => False | _ => True end -> preserves w no_close (emit e).
Proof using Type. intros He r Hr. apply Forall_app_2; [done|]. by repeat constructor. Qed.
Lemma no_close_ask rq : preserves w no_close (ask serve rq).
Proof using Type. intros r Hr. apply Forall_app_2; [done|]. by repeat constructor. Qed.
#[local] Hint Resolve no_close_io no_close_modify no_close_put no_close_ask : preserves.
#[local] Hint Extern 1 (preserves _ _ (emit _)) => apply no_close_emit; exact I : preserves.

Lemma no_close_read d : preserves w no_close (ReadEvent d).
Proof using Type. unfold ReadEvent, set_connected. preserve. Qed.
Lemma no_close_ack e : preserves w no_close (Acknowledge e).
Proof using Type. unfold Acknowledge. preserve. Qed.
Lemma no_close_connect : preserves w no_close (ConnectSocket serve).
Proof using Type. unfold ConnectSocket, dial_ws. preserve. Qed.

Lemma nothing_closed_socket {A} (m : WM A) :
  preserves w no_close m -> preserves w nothing_closed (on_socket m).
Proof using Type.
  intros Hm r Hr. unfold on_socket. rewrite wp_zoom. eapply wp_conseq; [|apply Hm; constructor].
  cbn beta. intros a r' Hr'. unfold nothing_closed. cbn [run_trace]. apply Forall_app_2; [done|].
  apply Forall_map. eapply Forall_impl; [exact Hr'|]. intros []; done.
Qed.

Lemma nothing_closed_bus {A} (m : CM A) : preserves w nothing_closed (on_bus m).
Proof using Type.
  intros r Hr. unfold on_bus. rewrite wp_zoom. eapply wp_conseq; [|apply wp_true].
  cbn beta. intros a r' _. unfold nothing_closed. cbn [run_trace]. apply Forall_app_2; [done|].
  apply Forall_map, Forall_true. by intros [].
Qed.

Lemma nothing_closed_modify f : preserves w nothing_closed (mmodify f).
Proof using Type. by intros r Hr. Qed.

#[local] Hint Resolve no_close_read no_close_ack no_close_connect nothing_closed_socket nothing_closed_bus
  nothing_closed_modify : preserves.

Lemma nothing_closed_loop inputs : preserves w nothing_closed (runInboundLoop serve inputs).
Proof using Type. unfold runInboundLoop, inbound_step, set_retrying. preserve. Qed.
End Sockets.

(** Property: an envelope that does not decode makes the loop reconnect
    without an acknowledgement and without closing anything.  It stops reading
    a WebSocket that still works, is still reported as connected, and stays
    open whatever happens afterwards: only [Close] closes a connection, the
    latest. *)
Theorem malformed_event_reconnects (w : Oracle) (serve : nat -> http_request -> option http_response)
    (ws : nat) (data : bytes) (s : Inbound) (inputs : list inbound_input) :
  wsConn (in_socket s) = Some ws -> in_reconnecting s = false -> dec_envelope data = None ->
  exec (inbound_step serve (IRead (Some data))) w s =
    (tt, mkRun (mkIn (in_socket s) (in_client s) true) 0 []) /\
  nothing_closed (snd (exec (runInboundLoop serve (IRead (Some data) :: inputs)) w s)).
Proof.
  intros Hws Hr Hd. split.
  - destruct s as [[tok url wo co nx] c rc]. cbn [wsConn in_socket in_reconnecting] in Hws, Hr. subst.
    unfold exec, inbound_step, on_socket, zoom, ReadEvent, set_retrying, mbind, mget, mret, mmodify.
    cbn [run_st run_tick run_trace in_reconnecting in_socket wsConn]. by rewrite Hd.
  - pose proof (nothing_closed_loop w serve (IRead (Some data) :: inputs) (mkRun s 0 [])) as Hn.
    unfold exec. unfold wp in Hn. destruct (runInboundLoop _ _ w _) as [u r]. apply Hn. constructor.
Qed.

(** ** Samples *)

Module Sample.

Definition getenv (k : string) : string :=
  if decide (k = "SLACK_BOT_TOKEN"%string) then "xoxb-env" else "".

Definition config_text : string :=
  str_of (print (JObj [field "appLevelToken" (str_json "xapp-1"); field "botToken" (str_json "xoxb-1");
    field "defaultChannel" (str_json "C1")])).

Definition config : slackConfig := mkSlackConfig "xapp-1" "xoxb-env" "C1" 8080 3 default_api_url.

Example config_parsed : parseConfig getenv config_text = Some config /\ has_bot_token config && can_run config "bidirectional" = true.
Proof. vm_compute. done. Qed.

(** Slack greets, refuses once with a rate limit, then accepts. *)
Definition hello : bytes := print (JObj [field "type" (str_json "hello"); field "num_connections" (JNum (format_int 1))]).

Definition answer (v : json) : http_response := mkResponse 200 ∅ (Some (print v)).
Definition posted : http_response := answer (JObj [field "ok" (JBool true)]).
Definition limited : http_response := mkResponse 429 {["Retry-After"%string := "30"%string]} (Some []).

Definition slack (n : nat) (rq : http_request) : option http_response :=
  if decide (rq_URL rq = "https://slack.com/api/apps.connections.open"%string) then
    Some (answer (JObj [field "ok" (JBool true); field "url" (str_json "wss://slack/1")]))
  else Some (if (n <=? 1)%nat then limited else posted).

Definition started : Inbound :=
  mkIn (run_st (snd (exec (ConnectSocket slack) all_ok (newSlackSocketMode "xapp-1" default_api_url))))
    (mkClient sample_config (Some 7%nat) true false (mkBuffer [] 3) false 0 ∅ [] false false false 8) false.

(** A malformed envelope and a reconnection: the health check sees neither, and
    the first WebSocket stays open. *)
Lemma malformed_event_reconnects_witness :
  nothing_closed (snd (exec (runInboundLoop slack [IRead (Some (bytes_of "1")); ITick]) all_ok started)) /\
  wsConn (in_socket (run_st (snd (exec (runInboundLoop slack [IRead (Some (bytes_of "1")); ITick])
    all_ok started)))) = Some 1%nat /\
  fst (exec (inbound_step slack (IRead (Some (bytes_of "1"))) ;;; serve_health true) all_ok started) = 200.
Proof.
  destruct (malformed_event_reconnects all_ok slack 0 (bytes_of "1") started [ITick]) as [_ Hn].
  - vm_compute. reflexivity.
  - reflexivity.
  - vm_compute. reflexivity.
  - split; [exact Hn|]. split; vm_compute; reflexivity.
Defined.

End Sample.
