(* ===== verification/SidecarMain.v ===== *)
(** * The start of a sidecar (cmd/channel-webhook, cmd/channel-discord and
    cmd/channel-slack: mainRun and run in main.go)

    What each program opens, in which order, on which errors it gives up, and
    what its deferred calls close.  The outcome of every call that leaves the
    program is the oracle's. *)

From S2P Require Import Prelude.
From S2P Require Import GoStrings.
From S2P Require Import Json.
From S2P Require Webhook Discord Slack.

Inductive start_event :=
| BusConnected | BusClosed
| GatewayOpened | GatewayClosed
| HandlerAdded | HandlerRemoved
| InboundStarted | OutboundStarted
| Serving (port : Z).

#[export] Instance start_event_eq_dec : EqDecision start_event.
Proof. solve_decision. Defined.

Inductive launch_error :=
| ErrLogger | ErrConfig | ErrToken | ErrBus | ErrSession | ErrGateway | ErrReceive | ErrListen | ErrServe
| ErrPanic.

Abbreviation SM := (M unit start_event).
Abbreviation Outcome := (SM (result launch_error unit)).

(** [defer]: also when the function panics. *)
Definition deferred (cleanup : start_event) (m : Outcome) : Outcome :=
  let* res := m in emit cleanup ;;; mret res.

(** [if err := ...; err != nil { return ... }]. *)
Definition attempt (e : launch_error) (m : Outcome) : Outcome :=
  let* ok := io in if ok then m else mret (Err e).

(** Listen, then serve until the shutdown, whose [ErrServerClosed] is no
    error. *)
Definition listen_and_serve (on_listen : launch_error) (port : Z) : Outcome :=
  attempt on_listen (emit (Serving port) ;;; attempt ErrServe (mret (Ok tt))).

(** ** The webhook sidecar *)

Definition run_webhook (cfg : Webhook.webhookConfig) (mode : string) (outCh : bool) : Outcome :=
  match Webhook.buildMux cfg mode with
  | None => mret (Err ErrPanic)
  | Some _ =>
      (if outCh then emit OutboundStarted else mret tt) ;;;
      listen_and_serve ErrListen (Webhook.wc_ListenPort cfg)
  end.

Definition main_webhook (getenv : string -> string) : Outcome :=
  attempt ErrLogger
    (match Webhook.parseConfig (getenv "CHANNEL_CONFIG"%string) with
     | None => mret (Err ErrConfig)
     | Some cfg =>
         attempt ErrBus (emit BusConnected ;;; deferred BusClosed
           (let mode := getenv "CHANNEL_MODE"%string in
            if Webhook.needsOutbound mode (Webhook.TargetURL cfg)
            then attempt ErrReceive (run_webhook cfg mode true) else run_webhook cfg mode false))
     end).

(** ** The Discord sidecar *)

Definition run_discord (cfg : Discord.discordConfig) (mode : string) : Outcome :=
  let serve := listen_and_serve ErrListen (Discord.dc_ListenPort cfg) in
  let outbound :=
    if Discord.needsOutbound mode then attempt ErrReceive (emit OutboundStarted ;;; serve) else serve in
  deferred GatewayClosed
    (if Discord.needsGateway mode
     then emit HandlerAdded ;;; deferred HandlerRemoved (attempt ErrGateway (emit GatewayOpened ;;; outbound))
     else outbound).

Definition main_discord (getenv : string -> string) : Outcome :=
  attempt ErrLogger
    (match Discord.parseConfig (getenv "CHANNEL_CONFIG"%string) with
     | None => mret (Err ErrConfig)
     | Some cfg =>
         if decide (getenv "DISCORD_TOKEN"%string = ""%string) then mret (Err ErrToken)
         else
           attempt ErrBus (emit BusConnected ;;; deferred BusClosed
             (attempt ErrSession (run_discord cfg (getenv "CHANNEL_MODE"%string))))
     end).

(** ** The Slack sidecar *)

Definition run_slack (cfg : Slack.slackConfig) (mode : string) : Outcome :=
  let serve := listen_and_serve ErrServe (Slack.sc_ListenPort cfg) in
  let outbound :=
    if Slack.needs_outbound mode then attempt ErrReceive (emit OutboundStarted ;;; serve) else serve in
  if negb (Slack.can_run cfg mode) then mret (Err ErrToken)
  else if Slack.needs_inbound mode
  then attempt ErrGateway (emit GatewayOpened ;;; deferred GatewayClosed (emit InboundStarted ;;; outbound))
  else outbound.

Definition main_slack (getenv : string -> string) : Outcome :=
  attempt ErrLogger
    (match Slack.parseConfig getenv (getenv "CHANNEL_CONFIG"%string) with
     | None => mret (Err ErrConfig)
     | Some cfg =>
         if negb (Slack.has_bot_token cfg) then mret (Err ErrToken)
         else
           attempt ErrBus (emit BusConnected ;;; deferred BusClosed (run_slack cfg (getenv "CHANNEL_MODE"%string)))
     end).

(** ** What holds of all three *)

Inductive sidecar := WebhookSidecar | DiscordSidecar | SlackSidecar.

Definition sidecar_main (k : sidecar) : (string -> string) -> Outcome :=
  match k with WebhookSidecar => main_webhook | DiscordSidecar => main_discord | SlackSidecar => main_slack end.

(** Does the sidecar hold a connection to the messaging service in a mode? *)
Definition has_gateway (k : sidecar) (mode : string) : bool :=
  match k with
  | WebhookSidecar => false
  | _ => bool_decide (mode = "inbound"%string) || bool_decide (mode = "bidirectional"%string)
  end.

(** After every [open] comes a [close]. *)
Fixpoint closed_after (open close : start_event) (tr : list start_event) : bool :=
  match tr with
  | [] => true
  | e :: t => (negb (bool_decide (e = open)) || bool_decide (close ∈ t)) && closed_after open close t
  end.

Definition serving (e : start_event) : bool := match e with Serving _ => true | _ => false end.

(** What the events of a run must satisfy, given whether a gateway and the
    outbound loop are wanted. *)
Definition orderly (gateway outbound : bool) (res : result launch_error unit) (tr : list start_event) : bool :=
  closed_after BusConnected BusClosed tr && closed_after GatewayOpened GatewayClosed tr &&
  closed_after HandlerAdded HandlerRemoved tr &&
  (negb (existsb serving tr) ||
    (Bool.eqb (bool_decide (GatewayOpened ∈ tr)) gateway &&
     Bool.eqb (bool_decide (OutboundStarted ∈ tr)) outbound)) &&
  (negb (is_ok res) || existsb serving tr).

Definition wants_outbound (k : sidecar) (getenv : string -> string) : bool :=
  let mode := getenv "CHANNEL_MODE"%string in
  match k with
  | WebhookSidecar =>
      match Webhook.parseConfig (getenv "CHANNEL_CONFIG"%string) with
      | Some cfg => Webhook.needsOutbound mode (Webhook.TargetURL cfg)
      | None => false
      end
  | _ => bool_decide (mode = "outbound"%string) || bool_decide (mode = "bidirectional"%string)
  end.

(** Every path through a start, one call at a time. *)
Ltac all_paths :=
  repeat first
    [ progress (unfold attempt, deferred, listen_and_serve)
    | progress (wp_step; cbn [negb andb orb])
    | reflexivity
    | case_match; try congruence ].

Definition orderly_start (k : sidecar) (w : Oracle) (getenv : string -> string) : Prop :=
  wp w (sidecar_main k getenv) (fun res r =>
    orderly (has_gateway k (getenv "CHANNEL_MODE"%string)) (wants_outbound k getenv) res (run_trace r) = true)
    (mkRun tt 0 []).

Lemma slack_orderly w getenv : orderly_start SlackSidecar w getenv.
Proof.
  unfold orderly_start, wants_outbound, has_gateway. cbn [sidecar_main].
  unfold main_slack, run_slack, Slack.needs_inbound, Slack.needs_outbound. all_paths.
Qed.

Lemma discord_orderly w getenv : orderly_start DiscordSidecar w getenv.
Proof.
  unfold orderly_start, wants_outbound, has_gateway. cbn [sidecar_main].
  unfold main_discord, run_discord, Discord.needsGateway, Discord.needsOutbound. all_paths.
Qed.

Lemma webhook_orderly w getenv : orderly_start WebhookSidecar w getenv.
Proof.
  unfold orderly_start, wants_outbound, has_gateway. cbn [sidecar_main].
  unfold main_webhook, run_webhook. all_paths.
Qed.

(** What the boolean checks say of a trace. *)
Lemma closed_after_spec open close tr1 tr2 :
  closed_after open close (tr1 ++ open :: tr2) = true -> close ∈ tr2.
Proof.
  induction tr1 as [|e t IH]; cbn [app closed_after]; intros [H1 H2]%andb_prop; [|auto].
  rewrite bool_decide_eq_true_2 in H1 by reflexivity. cbn in H1. by apply bool_decide_eq_true in H1.
Qed.

Lemma serving_spec tr : existsb serving tr = true <-> exists port, Serving port ∈ tr.
Proof.
  rewrite existsb_exists. split.
  - intros (e & Hin & He). destruct e; try discriminate. exists port. by apply list_elem_of_In.
  - intros [port Hin]. exists (Serving port). split; [by apply list_elem_of_In|reflexivity].
Qed.

Definition brackets : list (start_event * start_event) :=
  [(BusConnected, BusClosed); (GatewayOpened, GatewayClosed); (HandlerAdded, HandlerRemoved)].

Lemma orderly_spec gateway outbound res tr :
  orderly gateway outbound res tr = true ->
  (forall opened closed tr1 tr2, (opened, closed) ∈ brackets -> tr = tr1 ++ opened :: tr2 -> closed ∈ tr2) /\
  (forall port, Serving port ∈ tr ->
     (GatewayOpened ∈ tr <-> gateway = true) /\ (OutboundStarted ∈ tr <-> outbound = true)) /\
  (res = Ok tt -> exists port, Serving port ∈ tr).
Proof.
  unfold orderly. intros [[[[H1 H2]%andb_prop H3]%andb_prop H4]%andb_prop H5]%andb_prop. split_and!.
  - intros opened closed tr1 tr2 Hin ->. rewrite list_elem_of_In in Hin.
    destruct Hin as [[= <- <-]|[[= <- <-]|[[= <- <-]|[]]]]; eauto using closed_after_spec.
  - intros port Hin. rewrite (proj2 (serving_spec tr)) in H4 by eauto.
    apply andb_prop in H4 as [Hg%eqb_prop Ho%eqb_prop]. subst. by rewrite !bool_decide_eq_true.
  - intros ->. by apply serving_spec.
Qed.

(** Whichever sidecar is started, and whatever the calls it makes answer:
    everything that was opened (the connection to the bus, the session with
    the messaging service, the handler on it) is closed before the program
    ends; the health endpoint is served only with the session open and the
    outbound loop running in exactly the modes that ask for them; and the
    program ends without an error only after having served. *)
Theorem sidecar_lifecycle k w getenv :
  wp w (sidecar_main k getenv) (fun res r =>
    (forall opened closed tr1 tr2, (opened, closed) ∈ brackets -> run_trace r = tr1 ++ opened :: tr2 -> closed ∈ tr2) /\
    (forall port, Serving port ∈ run_trace r ->
       (GatewayOpened ∈ run_trace r <-> has_gateway k (getenv "CHANNEL_MODE"%string) = true) /\
       (OutboundStarted ∈ run_trace r <-> wants_outbound k getenv = true)) /\
    (res = Ok tt -> exists port, Serving port ∈ run_trace r))
    (mkRun tt 0 []).
Proof.
  eapply wp_conseq; [intros res r; apply orderly_spec|].
  destruct k; [apply webhook_orderly|apply discord_orderly|apply slack_orderly].
Qed.

(** A mode that is none of the three ("both", say) is no error: the sidecar
    serves its health check and passes no message either way. *)
Theorem unknown_mode_idles k w getenv (mode := getenv "CHANNEL_MODE"%string) :
  mode ∉ ["inbound"; "outbound"; "bidirectional"]%string ->
  (forall cfg, Webhook.buildMux cfg mode = Some [("/healthz"%string, Webhook.RHealth)]) /\
  wp w (sidecar_main k getenv) (fun _ r =>
    forall port, Serving port ∈ run_trace r -> (GatewayOpened ∉ run_trace r) /\ OutboundStarted ∉ run_trace r)
    (mkRun tt 0 []).
Proof.
  subst mode. intros Hmode. rewrite !list_elem_of_In in Hmode. cbn in Hmode.
  assert (Hno : forall m, m = "inbound"%string \/ m = "outbound"%string \/ m = "bidirectional"%string ->
    (bool_decide (getenv "CHANNEL_MODE"%string = m)) = false).
  { intros m Hm. apply bool_decide_eq_false. intros E. rewrite E in Hmode. intuition congruence. }
  split.
  - intros cfg. unfold Webhook.buildMux. 
    rewrite (decide_False (P := _ = "inbound"%string \/ _)) by intuition congruence. reflexivity.
  - eapply wp_conseq; [|apply sidecar_lifecycle].
    intros res r (_ & H & _) port Hin. destruct (H port Hin) as [-> ->].
    unfold has_gateway, wants_outbound, Webhook.needsOutbound.
    rewrite !Hno by tauto. destruct k; cbn; try case_match; split; congruence.
Qed.


(** ** Two runs *)
Module Sample.

Definition env (mode name : string) : string :=
  if decide (name = "CHANNEL_MODE"%string) then mode
  else if decide (name = "CHANNEL_CONFIG"%string) then "{}"%string else "token"%string.

(** An oracle whose first [n] calls succeed and the next ones fail. *)
Definition first_ok (n : nat) : Oracle :=
  mkOracle (fun k => bool_decide (k < n)%nat) (fun _ => ""%string) (fun _ => 0) (fun _ => 0%nat).

Definition run_of (k : sidecar) (n : nat) (mode : string) : result launch_error unit * list start_event :=
  let '(res, r) := sidecar_main k (env mode) (first_ok n) (mkRun tt 0 []) in (res, run_trace r).

(** A Discord sidecar that runs until it is stopped. *)
Example discord_runs : run_of DiscordSidecar 7 "bidirectional" =
  (Ok tt, [BusConnected; HandlerAdded; GatewayOpened; OutboundStarted; Serving 8080;
           HandlerRemoved; GatewayClosed; BusClosed]).
Proof. vm_compute. reflexivity. Qed.

(** A Slack sidecar whose Socket Mode cannot be opened. *)
Example slack_gives_up : run_of SlackSidecar 2 "inbound" = (Err ErrGateway, [BusConnected; BusClosed]).
Proof. vm_compute. reflexivity. Qed.

Lemma unknown_mode_sample :
  wp (first_ok 9) (sidecar_main SlackSidecar (env "both")) (fun _ r =>
    forall port, Serving port ∈ run_trace r -> (GatewayOpened ∉ run_trace r) /\ OutboundStarted ∉ run_trace r)
    (mkRun tt 0 []).
Proof.
  apply unknown_mode_idles. rewrite !list_elem_of_In. vm_compute.
  intros H. repeat destruct H as [H|H]; try discriminate H; exact H.
Defined.

End Sample.
