(* ===== verification/Conversation.v ===== *)
(** * A conversation through the bus (sdk/channel, internal/ipcbus,
    runtimes/openclaw)

    A sidecar sends a payload through the channel SDK; the bus reads the frame
    from the sidecar's socket and passes the message to the runtime's
    WebSocket; the runtime answers on the WebSocket; the bus sends the answer
    to the sidecar, whose read loop delivers it.  [converse] runs the five
    programs on the bytes the others wrote.

    A WebSocket connection of the library has a limit on the messages it
    reads (32768 bytes unless SetReadLimit is called, which neither side
    does); a longer message closes the connection.  The limit is a parameter. *)

From S2P Require Import Prelude.
From S2P Require Import GoStrings.
From S2P Require Import GoTime.
From S2P Require Import GoFloat.
From S2P Require Import Json.
From S2P Require Import GoText.
From S2P Require Import Message.
From S2P Require Import Framing.
From S2P Require Import RingBuffer.
From S2P Require Import GoIO.
From S2P Require Import WAL.
From S2P Require Import DLQ.
From S2P Require Import Router.
From S2P Require Import Bridges.
From S2P Require Import Server.
From S2P Require Import Client.
From S2P Require Import AgentRuntime.

(** ** What travels between the programs *)

(** The bytes of the frames written with success. *)
Definition frame_bytes {A} `{JsonCodec A} (m : A) : bytes := fst (write_frame wire_write m []).

Definition client_stream (cn : nat) (tr : list client_event) : bytes :=
  concat (map (fun e => match e with
                        | Wrote c m true => if decide (c = cn) then frame_bytes m else []
                        | _ => []
                        end) tr).

Definition bus_stream (cn : nat) (tr : list router_event) : bytes :=
  concat (map (fun e => match e with
                        | Sent c m true => if decide (c = cn) then frame_bytes m else []
                        | _ => []
                        end) tr).

(** The WebSocket messages of the bus and of the runtime. *)
Definition bridged (tr : list router_event) : list bytes :=
  omap (fun e => match e with Bridged m true => marshal m | _ => None end) tr.

Definition runtime_output (tr : list Message) : list bytes := omap marshal tr.

(** What the reader of a WebSocket gets of the messages sent. *)
Fixpoint ws_read (limit : Z) (l : list bytes) : list bytes :=
  match l with
  | [] => []
  | d :: l' => if decide (Z.of_nat (length d) <= limit) then d :: ws_read limit l' else []
  end.

(** The read loop of the client on the bytes that have arrived. *)
Fixpoint client_reads (fuel : nat) (s : bytes) : CM unit :=
  match fuel with
  | O => mret tt
  | S k =>
      match readMessage s with
      | (Err _, _) => mret tt
      | (Ok m, s') => let* stop := read_round (Ok m) in if stop : bool then mret tt else client_reads k s'
      end
  end.

Section Conversation.
Context {B : Type} `{Bucket B} `{RangeOrder}.
Context (respond : string -> result string string) (json_error : raw_message -> string) (limit : Z).

(** What the client has written on connection [cn], the frames [sent], over
    the bus [s], which knows the connection as [sc], to the runtime, and the
    answer back to the client.  The oracles are those of the client, the bus
    and the runtime; [sel] are the choices of the bridge's selects. *)
Definition answer_back (wc wb wr : Oracle) (sel : choices) (sent : bytes) (sc : SidecarConn)
    (c : Client) (s : Router B) : Client * Router B * list bytes :=
  let b1 := snd (exec (read_loop 2 sc sent) wb s) in
  let a1 := snd (exec (AgentRuntime.serve respond json_error (ws_read limit (bridged (run_trace b1)))) wr tt) in
  let received := ws_Receive sel (ws_read limit (runtime_output (run_trace a1))) in
  let b2 := snd (exec (StartOutboundLoop received) wb (run_st b1)) in
  let c2 := snd (exec (client_reads 2 (bus_stream (sc_conn sc) (run_trace b1 ++ run_trace b2))) wc c) in
  (run_st c2, run_st b2, bridged (run_trace b1)).

(** One payload, from the client [c] to the runtime and back. *)
Definition converse (wc wb wr : Oracle) (sel : choices) (payload : raw_message) (cn : nat) (sc : SidecarConn)
    (c : Client) (s : Router B) : Client * Router B * list bytes :=
  let c1 := snd (exec (Client.Send payload) wc c) in
  answer_back wc wb wr sel (client_stream cn (run_trace c1)) sc (run_st c1) s.

(** ** The state before *)

Definition succeeds (w : Oracle) : Prop := forall n, o_ok w n = true.

(** A connected client that is not throttled, with room for a message. *)
Definition ready_client (cn : nat) (c : Client) : Prop :=
  connected c = true /\ conn c = Some cn /\ throttled c = false /\ done c = false /\
  inboundClosed c = false /\ (length (inbound c) < inbound_cap)%nat.

(** A buffer in which a message that is pushed and popped crosses no mark. *)
Definition calm (rb : RingBuffer Message) : Prop :=
  forall m, notified (fst (rb_step rb (OpPush m))) = None /\
    notified (fst (rb_step (snd (rb_step rb (OpPush m))) OpPop)) = None.

(** A bus with a bridge that knows the sidecar. *)
Definition ready_bus (sc : SidecarConn) (s : Router B) : Prop :=
  bridge s = true /\ sidecars s !! sc_Channel sc = Some sc /\
  forall rb, buffers s !! sc_Channel sc = Some rb -> calm rb.

(** ** One program at a time *)

Lemma frame_bytes_of {A} `{JsonLaws A} (m : A) d : frame_of m d -> frame_bytes m = PutUint32 (Z.of_nat (length d)) ++ d.
Proof.
  intros Hd. unfold frame_bytes.
  destruct (write_frame wire_write m []) as [s' r] eqn:E.
  assert (Hw : write_frame wire_write m [] = (PutUint32 (Z.of_nat (length d)) ++ d, Ok tt)).
  { by apply write_frame_Ok; exists d. }
  rewrite Hw in E. by injection E as <- _.
Qed.

(** The message the client sends when the oracle has been asked [k] times. *)
Definition message_at (w : Oracle) (k : nat) (c : Client) (payload : raw_message) : Sdk.message :=
  Sdk.mkMsg (o_uuid w k) Sdk.typeMessage (channelName (cfg c)) "" "" (o_now w (S k)) payload.

Definition sent_message (w : Oracle) : Client -> raw_message -> Sdk.message := message_at w 0.

Lemma client_sends_at w cn c k tr payload :
  succeeds w -> ready_client cn c -> sendable (message_at w k c payload) = true ->
  Client.Send payload w (mkRun c k tr) =
    (Ok tt, mkRun c (3 + k) (tr ++ [Wrote cn (message_at w k c payload) true])).
Proof.
  intros Hok (Hc & Hcn & Ht & _) Hs. unfold Client.Send, send_begin.
  cbn [mbind mget mret run_st]. rewrite Ht. cbn [mret].
  unfold send_rest. cbn [mbind mget mret run_st Sdk.newMessage new_uuid now run_tick run_trace Nat.add].
  rewrite Hc, Hcn. unfold write_conn. cbn [mbind mget mret io emit run_st run_tick run_trace Nat.add app].
  fold (message_at w k c payload). by rewrite Hok, Hs.
Qed.

Lemma client_sends w cn c payload :
  succeeds w -> ready_client cn c -> sendable (sent_message w c payload) = true ->
  exec (Client.Send payload) w c = (Ok tt, mkRun c 3 [Wrote cn (sent_message w c payload) true]).
Proof. intros Hok Hc Hs. exact (client_sends_at w cn c 0 [] payload Hok Hc Hs). Qed.

(** The bus passes the message on and sends nothing to sidecars. *)
Definition silent (e : router_event) : Prop := match e with Logged _ => True | _ => False end.

Lemma silent_stream cn l : Forall silent l -> bus_stream cn l = [] /\ bridged l = [].
Proof.
  intros Hl. induction Hl as [|e l He _ [IH1 IH2]]; [done|]. unfold bus_stream, bridged in *.
  by destruct e; cbn in *.
Qed.

Lemma bus_stream_app cn l l' : bus_stream cn (l ++ l') = bus_stream cn l ++ bus_stream cn l'.
Proof. unfold bus_stream. by rewrite map_app, concat_app. Qed.

Lemma bridged_app l l' : bridged (l ++ l') = bridged l ++ bridged l'.
Proof. apply omap_app. Qed.


Implicit Types (r : Run (Router B) router_event) (s : Router B).

Lemma push_calm w sc m r :
  ready_bus sc (run_st r) ->
  wp w (push_buffer sc m) (fun _ r' => run_trace r' = run_trace r /\ bridge (run_st r') = bridge (run_st r) /\
    sidecars (run_st r') = sidecars (run_st r) /\
    forall rb, buffers (run_st r') !! sc_Channel sc = Some rb -> notified (fst (rb_step rb OpPop)) = None) r.
Proof.
  intros (_ & _ & Hcalm). eapply wp_conseq; [|apply push_buffer_spec].
  intros _ r' ((Hs & Hb & _) & _ & Hr). split_and!; try done.
  - destruct (buffers (run_st r) !! sc_Channel sc) as [rb|]; [|by destruct Hr].
    destruct Hr as (_ & l & Ht & _ & Hl). destruct (Hcalm rb eq_refl m) as [Hn _]. rewrite Hn in Hl.
    destruct l; [|done]. by rewrite Ht, app_nil_r.
  - intros rb Hrb. destruct (buffers (run_st r) !! sc_Channel sc) as [rb0|] eqn:E.
    + destruct Hr as (Hbuf & _). rewrite Hbuf, lookup_insert_eq in Hrb. apply Some_inj in Hrb as <-.
      by destruct (Hcalm rb0 eq_refl m).
    + destruct Hr as [Hst _]. rewrite Hst in Hrb. congruence.
Qed.

Lemma pop_calm w sc r :
  (forall rb, buffers (run_st r) !! sc_Channel sc = Some rb -> notified (fst (rb_step rb OpPop)) = None) ->
  wp w (pop_buffer sc) (fun _ r' => run_trace r' = run_trace r /\ bridge (run_st r') = bridge (run_st r) /\
    sidecars (run_st r') = sidecars (run_st r) /\ wal (run_st r') = wal (run_st r)) r.
Proof.
  intros Hcalm. eapply wp_conseq; [|apply pop_buffer_spec].
  intros _ r' ((Hs & Hb & Hw & _) & _ & Hr). split_and!; try done.
  destruct (buffers (run_st r) !! sc_Channel sc) as [rb|]; [|by destruct Hr].
  destruct Hr as (_ & l & Ht & _ & Hl). rewrite (Hcalm rb eq_refl) in Hl. destruct l; [|done]. by rewrite Ht, app_nil_r.
Qed.

Lemma bus_passes w sc m s :
  succeeds w -> ready_bus sc s -> IsControl m = false ->
  wp w (HandleInbound sc m) (fun _ r => bridge (run_st r) = true /\ sidecars (run_st r) = sidecars s /\
    (forall cn, bus_stream cn (run_trace r) = []) /\
    bridged (run_trace r) = option_list (marshal m) /\
    forall wl, wal (run_st r) = Some wl -> werr (out wl) = false -> entries wl !! ID m = None) (mkRun s 0 []).
Proof.
  intros Hok Hready Hm. unfold HandleInbound. rewrite Hm. wp_step.
  eapply wp_conseq; [|apply log_append_spec].
  intros [] r1 ((Hs1 & Hb1 & _ & Hbuf1 & _) & (l1 & Ht1 & Hl1) & _). cbn [run_st run_trace] in *. wp_step.
  eapply wp_conseq; [|apply (push_calm w sc m)].
  2: { destruct Hready as (Hb & Hsc & Hcalm). split_and!; [by rewrite Hb1|by rewrite Hs1|by rewrite Hbuf1]. }
  intros [] r2 (Ht2 & Hb2 & Hs2 & Hpop). wp_step.
  assert (Hbr : bridge (run_st r2) = true) by (rewrite Hb2, Hb1; apply Hready).
  rewrite Hbr. unfold bridge_Send. wp_step. rewrite Hok. wp_step.
  eapply wp_conseq; [|apply log_complete_spec].
  intros [] r3 ((Hs3 & Hb3 & _ & Hbuf3 & _ & _ & _ & Hnone) & (l3 & Ht3 & Hl3) & Hlog). cbn [run_st run_trace] in *. wp_step.
  eapply wp_conseq; [|apply (pop_calm w sc); by rewrite Hbuf3].
  intros [] r4 (Ht4 & Hb4 & Hs4 & Hw4). split_and!; [congruence|congruence| | |].
  - intros cn. rewrite Ht4, Ht3, Ht2, Ht1. cbn [app]. rewrite !bus_stream_app.
    by rewrite (proj1 (silent_stream cn _ Hl1)), (proj1 (silent_stream cn _ Hl3)).
  - rewrite Ht4, Ht3, Ht2, Ht1. cbn [app]. rewrite !bridged_app.
    rewrite (proj2 (silent_stream 0 _ Hl1)), (proj2 (silent_stream 0 _ Hl3)), app_nil_r.
    unfold bridged. cbn. by destruct (marshal m).
  - intros wl Hwl Herr. rewrite Hw4 in Hwl.
    destruct (wal (run_st r2)) as [wl2|] eqn:Hw2; [|by rewrite Hnone in Hwl].
    destruct (Hlog wl2 eq_refl) as (wl3 & Hw3 & _ & Hent). assert (wl3 = wl) as -> by congruence.
    destruct Hent as [->|[-> Hsome]]; [by apply lookup_delete_eq|].
    destruct (entries wl2 !! ID m) as [e|] eqn:He; [|done]. rewrite Hsome in Herr; [done|by exists e].
Qed.

(** Encoding a message that has been encoded before gives the same bytes. *)
Lemma marshal_norm (m : Message) : marshal (norm_message m) = marshal m.
Proof.
  destruct m as [i t c co r ts p]. unfold norm_message. cbn [marshal Message_codec struct_codec]. unfold enc_message.
  cbn [ID Type_ Channel CorrelationID ReplyTo Timestamp Payload].
  assert (Hp : raw_field_omitempty "payload" (norm_raw p) = raw_field_omitempty "payload" p).
  { destruct p as [|v|b]; [done| |done]. cbn [norm_raw raw_field_omitempty]. by rewrite escape_html_idem. }
  by rewrite Hp.
Qed.

Lemma reread (m : Message) d : message_ok m -> marshal m = Some d -> unmarshal d = Some (norm_message m).
Proof. intros Hok Hd. exact (marshal_unmarshal (A := Message) m d Hok Hd). Qed.

Lemma bus_reads w sc cn (m : Sdk.message) d r :
  Sdk.msg_ok m -> marshal m = Some d -> Z.of_nat (length d) <= MaxMessageSize ->
  snd (read_loop 2 sc (client_stream cn [Wrote cn m true]) w r) =
  snd (HandleInbound sc (norm_message (Sdk.to_bus m)) w r).
Proof.
  intros Hok Hd Hl. unfold client_stream. cbn [map concat]. rewrite decide_True by done.
  rewrite (frame_bytes_of m d) by done.
  rewrite Sdk.marshal_to_bus in Hd.
  pose proof (read_loop_frames 2 sc [Sdk.to_bus m] [d]) as Hr. cbn [map concat mfor] in Hr. rewrite Hr.
  - unfold mbind, mret. by destruct (HandleInbound _ _ _ _) as [[] r'].
  - by constructor.
  - by constructor.
  - cbn. lia.
Qed.

Lemma runtime_serves w d resp :
  succeeds w -> serve_one respond json_error (o_now w 0) d = Some resp ->
  run_trace (snd (exec (AgentRuntime.serve respond json_error [d]) w tt)) = [resp].
Proof.
  intros Hok Hs. unfold exec. cbn [AgentRuntime.serve mbind now run_tick run_st run_trace]. rewrite Hs.
  cbn [mbind io run_tick run_st run_trace Nat.add]. by rewrite Hok.
Qed.

Lemma runtime_answer t (m : Message) d p answer :
  unmarshal d = Some m -> Type_ m = "message"%string -> dec_payload (Payload m) = Some p ->
  Text p <> ""%string -> respond (Text p) = Ok answer ->
  serve_one respond json_error t d = Some (buildResponse t m answer).
Proof.
  intros Hu Ht Hp Hne Hr. unfold serve_one. rewrite Hu, decide_True by done.
  unfold AgentRuntime.handleMessage. by rewrite Hp, decide_False, Hr.
Qed.

Lemma answer_ok t suffix (m : Message) answer :
  message_ok m -> utf8_str suffix = true -> message_ok (reply t suffix answer m).
Proof.
  intros Hm Hsuf. revert Hm. unfold message_ok. rewrite !andb_true_iff. intros (((((Hi & _) & Hc) & _) & _) & _).
  unfold reply. cbn [ID Type_ Channel CorrelationID ReplyTo Payload].
  rewrite utf8_app, Hi, Hc by done. unfold marshal_payload. rewrite raw_of_print by apply enc_payload_wf.
  split_and!; try done. apply enc_payload_wf.
Qed.

Lemma norm_ok (m : Message) : message_ok m -> message_ok (norm_message m).
Proof.
  unfold message_ok, norm_message. cbn [ID Type_ Channel CorrelationID ReplyTo Payload].
  rewrite !andb_true_iff. intros [Hs Hp]. split; [exact Hs|].
  destruct (Payload m) as [|v|b]; [done| |done]. by apply escape_html_wf.
Qed.

Lemma bus_delivers w sc (m : Message) r :
  succeeds w -> bridge (run_st r) = true -> sidecars (run_st r) !! Channel m = Some sc -> run_trace r = [] ->
  run_trace (snd (StartOutboundLoop [m] w r)) = [Sent (sc_conn sc) m true].
Proof.
  intros Hok Hb Hsc Ht. unfold StartOutboundLoop. cbn [mfor]. unfold HandleOutbound, Router.Send.
  unfold mbind, mget, mret, io, emit. rewrite Hb. cbn [run_st run_tick run_trace]. rewrite Hok.
  cbn [run_st run_tick run_trace]. rewrite Hsc. cbn [run_st run_tick run_trace snd]. by rewrite Hok, Ht.
Qed.

Lemma client_takes w cn (m : Sdk.message) (q : Run Client client_event) :
  succeeds w -> ready_client cn (run_st q) -> Sdk.typ m = Sdk.typeMessage ->
  wp w (read_round (Ok m)) (fun stop q' => stop = false /\
    inbound (run_st q') = inbound (run_st q) ++ [mkInbound (Sdk.id_ m) (Sdk.channel_ m) (Sdk.payload_ m)] /\
    panicked (run_st q') = panicked (run_st q)) q.
Proof.
  intros Hok (_ & Hcn & _ & Hd & Hic & Hlen) Ht. unfold read_round. wp_step. rewrite Hd, Hcn.
  unfold Client.handleMessage. wp_step. rewrite Ht.
  do 3 (rewrite decide_False by done). rewrite decide_True, Hic, decide_True by done. wp_step. rewrite Hok.
  cbn [orb]. unfold set_inbound. by wp_step.
Qed.

(** Nothing more has arrived. *)
Lemma reads_nothing k : client_reads k [] = mret tt.
Proof.
  destruct k as [|k]; [done|]. cbn [client_reads]. unfold readMessage, read_frame, read_full.
  by rewrite decide_False by (unfold FrameHeaderSize; cbn; lia).
Qed.

Lemma client_reads_S k (s s' : bytes) m :
  readMessage s = (Ok m, s') ->
  client_reads (S k) s = let* stop := read_round (Ok m) in if stop : bool then mret tt else client_reads k s'.
Proof. intros Hr. cbn [client_reads]. by rewrite Hr. Qed.

Lemma client_gets w cn (c : Client) (m : Sdk.message) d tr :
  succeeds w -> ready_client cn c -> Sdk.msg_ok m -> frame_of m d -> Sdk.typ m = Sdk.typeMessage ->
  let q := snd (client_reads 2 (frame_bytes m) w (mkRun c 0 tr)) in
  inbound (run_st q) = inbound c ++ [mkInbound (Sdk.id_ m) (Sdk.channel_ m) (norm_raw (Sdk.payload_ m))] /\
  panicked (run_st q) = panicked c.
Proof.
  intros Hok Hc Hm Hf Ht. cbv zeta. rewrite (frame_bytes_of m d) by done.
  pose proof (client_takes w cn (json_norm m) (mkRun c 0 tr) Hok Hc Ht) as Hr. unfold wp in Hr.
  rewrite (client_reads_S 1 _ [] (json_norm m)).
  2: { rewrite <- (app_nil_r (_ ++ d)), <- app_assoc. by apply read_frame_frame. }
  rewrite reads_nothing. unfold mbind.
  destruct (read_round (Ok (json_norm m)) w (mkRun c 0 tr)) as [stop q']. destruct Hr as (-> & Hi & Hp). split; [exact Hi|exact Hp].
Qed.

(** ** Properties *)

(** What the client has sent has reached the bridge. *)
Lemma first_leg wb cn sc s (m : Sdk.message) d :
  succeeds wb -> ready_bus sc s -> Sdk.msg_ok m -> marshal m = Some d ->
  Z.of_nat (length d) <= MaxMessageSize -> IsControl (Sdk.to_bus m) = false ->
  let b1 := snd (exec (read_loop 2 sc (client_stream cn [Wrote cn m true])) wb s) in
  bridge (run_st b1) = true /\ sidecars (run_st b1) = sidecars s /\
  (forall cn', bus_stream cn' (run_trace b1) = []) /\ bridged (run_trace b1) = [d] /\
  forall wl, wal (run_st b1) = Some wl -> werr (out wl) = false -> entries wl !! Sdk.id_ m = None.
Proof.
  intros Hwb Hs Hok Hd Hl Hm. cbv zeta. unfold exec. rewrite (bus_reads wb sc cn m d) by done.
  assert (Hp := bus_passes wb sc (norm_message (Sdk.to_bus m)) s Hwb Hs Hm).
  unfold wp in Hp. destruct (HandleInbound _ _ _ _) as [[] b1]. destruct Hp as (? & ? & ? & Hbr & Hw).
  split_and!; try done. cbn [snd]. rewrite Hbr, marshal_norm, <- Sdk.marshal_to_bus, Hd. done.
Qed.

(** A message the runtime answers: the answer is in the client's inbound
    messages. *)
Lemma round_trip wc wb wr sel cn sc c s (m : Sdk.message) d resp d2 :
  succeeds wc -> succeeds wb -> succeeds wr -> ready_client cn c -> ready_bus sc s ->
  limit <= MaxMessageSize -> IsControl (Sdk.to_bus m) = false ->
  Sdk.msg_ok m -> marshal m = Some d -> Z.of_nat (length d) <= limit ->
  serve_one respond json_error (o_now wr 0) d = Some resp ->
  message_ok resp -> Type_ resp = "message"%string -> Channel resp = sc_Channel sc ->
  marshal resp = Some d2 -> Z.of_nat (length d2) <= limit ->
  let c' := fst (fst (answer_back wc wb wr (true :: sel) (client_stream cn [Wrote cn m true]) sc c s)) in
  inbound c' = inbound c ++ [mkInbound (ID resp) (Channel resp) (norm_raw (Payload resp))] /\ panicked c' = panicked c.
Proof.
  intros Hwc Hwb Hwr Hc Hs Hlim Hctl Hok Hd Hl Hserve Hrok Hty Hch Hd2 Hl2. cbv zeta.
  pose proof (first_leg wb cn sc s m d Hwb Hs Hok Hd) as Hfirst. cbv zeta in Hfirst.
  unfold answer_back.
  destruct (exec (read_loop 2 sc (client_stream cn _)) wb s) as [[] b1]. cbn [snd] in *.
  destruct Hfirst as (Hbr & Hsc & Hsil & Hout & _); [lia|done|]. rewrite Hout. cbn [ws_read].
  rewrite decide_True by done. rewrite (runtime_serves wr d resp Hwr Hserve).
  unfold runtime_output. cbn [omap list_omap]. rewrite Hd2. cbn [ws_read]. rewrite decide_True by done.
  cbn [ws_Receive]. rewrite (reread resp d2 Hrok Hd2). cbn [ws_Receive].
  assert (Hb2 : bus_stream (sc_conn sc) (run_trace b1 ++
      run_trace (snd (exec (StartOutboundLoop [norm_message resp]) wb (run_st b1)))) =
    frame_bytes (Sdk.of_bus (norm_message resp))).
  { unfold exec. rewrite (bus_delivers wb sc); [|done|done| |done].
    - rewrite bus_stream_app, Hsil. unfold bus_stream. cbn [app map concat]. rewrite decide_True, app_nil_r by done.
      unfold frame_bytes, write_frame. by rewrite Sdk.marshal_to_bus, Sdk.to_of_bus.
    - cbn [run_st]. rewrite Hsc. change (Channel (norm_message resp)) with (Channel resp). rewrite Hch. apply Hs. }
  rewrite Hb2. cbn [fst].
  assert (Hf : frame_of (Sdk.of_bus (norm_message resp)) d2).
  { split; [by rewrite Sdk.marshal_to_bus, Sdk.to_of_bus, marshal_norm|lia]. }
  destruct (client_gets wc cn c (Sdk.of_bus (norm_message resp)) d2 [] Hwc Hc (norm_ok resp Hrok) Hf Hty)
    as [Hin Hpan].
  split; [|exact Hpan]. unfold exec. rewrite Hin.
  change (Sdk.payload_ (Sdk.of_bus (norm_message resp))) with (norm_raw (Payload resp)).
  by rewrite norm_raw_idem.
Qed.

(** C5: a message is answered.  If no write fails, a payload with a
    text that the client sends reaches the runtime over the bus, and what the
    model answers to the text comes back to the client's inbound messages,
    under the identifier and the channel of the message sent. *)
Theorem message_answered wc wb wr sel cn sc c s payload d p answer d2 :
  succeeds wc -> succeeds wb -> succeeds wr -> ready_client cn c -> ready_bus sc s ->
  sc_Channel sc = channelName (cfg c) -> limit <= MaxMessageSize ->
  let m := sent_message wc c payload in
  Sdk.msg_ok m -> marshal m = Some d -> Z.of_nat (length d) <= limit ->
  dec_payload (norm_raw payload) = Some p -> Text p <> ""%string ->
  respond (Text p) = Ok answer -> utf8_str answer = true ->
  marshal (buildResponse (o_now wr 0) (norm_message (Sdk.to_bus m)) answer) = Some d2 -> Z.of_nat (length d2) <= limit ->
  let c' := fst (fst (converse wc wb wr (true :: sel) payload cn sc c s)) in
  panicked c' = panicked c /\
  exists x, inbound c' = inbound c ++ [mkInbound (Sdk.id_ m +:+ "-resp") (Sdk.channel_ m) x] /\
    dec_payload x = Some (mkPayload answer "" "").
Proof.
  intros Hwc Hwb Hwr Hc Hs Hch Hlim m Hok Hd Hl Hp Hne Hans Hutf Hd2 Hl2. cbv zeta.
  unfold converse. rewrite (client_sends wc cn c payload Hwc Hc).
  2: { fold m. unfold sendable. rewrite Hd. apply Z.leb_le. lia. }
  fold m. cbn [snd run_st run_trace].
  set (resp := buildResponse (o_now wr 0) (norm_message (Sdk.to_bus m)) answer) in *.
  destruct (round_trip wc wb wr sel cn sc c s m d resp d2) as [Hin Hpan]; try done.
  - apply (runtime_answer _ _ _ p); try done. rewrite Sdk.marshal_to_bus in Hd.
    exact (reread (Sdk.to_bus m) d Hok Hd).
  - apply answer_ok, eq_refl. apply norm_ok. exact Hok.
  - split; [exact Hpan|]. eexists. split; [exact Hin|]. by apply dec_payload_norm.
Qed.

(** C36: a message that is longer than what the runtime's WebSocket
    reads, yet no longer than the bus allows, is lost: the bus writes it to
    the WebSocket, takes it off its log, so no replay sends it again, and
    nothing comes back to the client. *)
Theorem long_message_lost wc wb wr sel cn sc c s payload d :
  succeeds wc -> succeeds wb -> ready_client cn c -> ready_bus sc s ->
  let m := sent_message wc c payload in
  Sdk.msg_ok m -> marshal m = Some d -> limit < Z.of_nat (length d) <= MaxMessageSize ->
  let '(c', s', written) := converse wc wb wr sel payload cn sc c s in
  written = [d] /\ inbound c' = inbound c /\
  forall wl, wal s' = Some wl -> werr (out wl) = false -> entries wl !! Sdk.id_ m = None.
Proof.
  intros Hwc Hwb Hc Hs m Hok Hd [Hl Hmax].
  pose proof (first_leg wb cn sc s m d Hwb Hs Hok Hd Hmax eq_refl) as Hfirst. cbv zeta in Hfirst.
  unfold converse. rewrite (client_sends wc cn c payload Hwc Hc).
  2: { fold m. unfold sendable. rewrite Hd. apply Z.leb_le. lia. }
  fold m. cbn [snd run_st run_trace]. unfold answer_back.
  destruct (exec (read_loop 2 sc (client_stream cn _)) wb s) as [[] b1]. cbn [snd] in *.
  destruct Hfirst as (Hbr & Hsc & Hsil & Hout & Hlog). rewrite Hout. cbn [ws_read].
  rewrite decide_False by lia.
  change (snd (exec (AgentRuntime.serve respond json_error []) wr tt)) with (mkRun tt 0 (@nil Message)).
  cbn [run_trace runtime_output omap list_omap ws_read ws_Receive].
  rewrite bus_stream_app, Hsil.
  assert (Hb2 : exec (StartOutboundLoop []) wb (run_st b1) = (tt, mkRun (run_st b1) 1 [])).
  { unfold exec, StartOutboundLoop. cbn [mbind mget run_st]. rewrite Hbr. cbn [mbind io run_st run_tick run_trace].
    by rewrite Hwb. }
  rewrite Hb2. cbn [snd run_trace bus_stream map concat app]. rewrite reads_nothing.
  split_and!; [done|done|]. exact Hlog.
Qed.
End Conversation.

(** ** Evaluation *)

Definition slack_sc : SidecarConn := mkSC "slack" TypeRegister 1.

Definition sample_bus : Router (gmap string bytes) :=
  run_st (snd (exec (Register slack_sc) all_ok (sample_router true))).

Definition sample_client : Client :=
  let c := newClient (mkConfig "/var/run/claw/bus.sock" "slack" "" 2 second (30 * second)) in
  mkClient (cfg c) (Some 7%nat) true false (cbuf c) false 0 ∅ [] false false false 8.

Definition echo (text : string) : result string string := Ok ("You said: " +:+ text)%string.
Definition no_json_error (r : raw_message) : string := ""%string.

Definition hello : raw_message := raw_of (marshal_payload (mkPayload "hello" "u1" "")).

Lemma sample_client_ready : ready_client 7 sample_client.
Proof. split_and!; try reflexivity. unfold inbound_cap. cbn. lia. Qed.

Lemma default_buffer_calm : calm (NewRingBuffer 1024 f0_8 f0_3).
Proof. intros m. split; vm_compute; reflexivity. Qed.

Lemma sample_bus_ready : ready_bus slack_sc sample_bus.
Proof.
  split_and!; [reflexivity|reflexivity|]. intros rb Hrb.
  assert (Hd : buffers sample_bus !! "slack"%string = Some (NewRingBuffer 1024 f0_8 f0_3)) by reflexivity.
  change (sc_Channel slack_sc) with "slack"%string in Hrb. rewrite Hd in Hrb. apply Some_inj in Hrb as <-.
  apply default_buffer_calm.
Qed.

Lemma message_answered_witness :
  let c' := fst (fst (converse echo no_json_error 32768 all_ok all_ok all_ok [true] hello 7 slack_sc
              sample_client sample_bus)) in
  exists x, inbound c' = [mkInbound "id-resp" "slack" x] /\
    dec_payload x = Some (mkPayload "You said: hello" "" "").
Proof.
  assert (Hd : is_Some (marshal (sent_message all_ok sample_client hello))) by (vm_compute; eexists; reflexivity).
  destruct Hd as [d Hd].
  assert (Hd2 : is_Some (marshal (buildResponse (o_now all_ok 0)
    (norm_message (Sdk.to_bus (sent_message all_ok sample_client hello))) "You said: hello"))).
  { vm_compute; eexists; reflexivity. }
  destruct Hd2 as [d2 Hd2].
  assert (Hl : Z.of_nat (length d) <= 32768) by (revert Hd; vm_compute; by intros [= <-]).
  assert (Hl2 : Z.of_nat (length d2) <= 32768) by (revert Hd2; vm_compute; by intros [= <-]).
  assert (Hp : dec_payload (norm_raw hello) = Some (mkPayload "hello" "u1" "")) by (vm_compute; reflexivity).
  assert (Hok : Sdk.msg_ok (sent_message all_ok sample_client hello)) by (vm_compute; reflexivity).
  assert (Hne : Text (mkPayload "hello" "u1" "") <> ""%string) by discriminate.
  assert (Hmax : 32768 <= MaxMessageSize) by (vm_compute; discriminate).
  destruct (message_answered echo no_json_error 32768 all_ok all_ok all_ok [] 7 slack_sc sample_client sample_bus
    hello d (mkPayload "hello" "u1" "") "You said: hello" d2
    (fun _ => eq_refl) (fun _ => eq_refl) (fun _ => eq_refl) sample_client_ready sample_bus_ready eq_refl
    Hmax Hok Hd Hl Hp Hne eq_refl eq_refl Hd2 Hl2) as (_ & x & Hin & Hx).
  exists x. split; [exact Hin|exact Hx].
Defined.

(** With a limit of 64 bytes the same message is lost. *)
Lemma long_message_lost_witness :
  let '(c', s', written) := converse echo no_json_error 64 all_ok all_ok all_ok [true] hello 7 slack_sc
                              sample_client sample_bus in
  length written = 1%nat /\ inbound c' = [].
Proof.
  assert (Hd : is_Some (marshal (sent_message all_ok sample_client hello))) by (vm_compute; eexists; reflexivity).
  destruct Hd as [d Hd].
  assert (Hl : 64 < Z.of_nat (length d) <= MaxMessageSize).
  { assert (Hn : (fun d => (64 <? Z.of_nat (length d)) && (Z.of_nat (length d) <=? MaxMessageSize)) <$>
      marshal (sent_message all_ok sample_client hello) = Some true) by (vm_compute; reflexivity).
    rewrite Hd in Hn. apply Some_inj, andb_true_iff in Hn as [Hn1%Z.ltb_lt Hn2%Z.leb_le]. by split. }
  assert (Hok : Sdk.msg_ok (sent_message all_ok sample_client hello)) by (vm_compute; reflexivity).
  pose proof (long_message_lost echo no_json_error 64 all_ok all_ok all_ok [true] 7 slack_sc sample_client sample_bus
    hello d (fun _ => eq_refl) (fun _ => eq_refl) sample_client_ready sample_bus_ready Hok Hd Hl) as Hlost.
  destruct (converse _ _ _ _ _ _ _ _ _ _ _ _) as [[c' s'] written]. destruct Hlost as (-> & Hin & _).
  split; [reflexivity|exact Hin].
Defined.
