(* ===== verification/SlackEvents.v ===== *)
(** * A Socket Mode event on its way (cmd/channel-slack, sdk/channel,
    internal/ipcbus, runtimes/openclaw)

    [slack_round] runs one turn of the Slack sidecar's inbound loop on an
    envelope read from the WebSocket, and takes what it writes to the bus
    over the bus, the runtime and the bus again into the sidecar's inbox, from
    which the outbound loop posts. *)

From S2P Require Import Prelude.
From S2P Require Import GoStrings.
From S2P Require Import Json.
From S2P Require Import GoText.
From S2P Require Import GoHttp.
From S2P Require Import Message.
From S2P Require Import Framing.
From S2P Require Import RingBuffer.
From S2P Require Import WAL.
From S2P Require Import DLQ.
From S2P Require Import Router.
From S2P Require Import Bridges.
From S2P Require Import Client.
From S2P Require Import AgentRuntime.
From S2P Require Import Slack.
From S2P Require Import Conversation.

(** What the sidecar has written to the bus. *)
Definition to_bus_events (tr : list slack_event) : list client_event :=
  omap (fun e => match e with EvBus e => Some e | EvSocket _ => None end) tr.

Section Round.
Context {B : Type} `{Bucket B}.
Context (serve : nat -> http_request -> option http_response).
Context (respond : string -> result string string) (json_error : raw_message -> string) (limit : Z).

(** The sidecar [i], connected to the bus [s] on connection [cn], after the
    turn of its loop on [data] and the way of what it wrote. *)
Definition slack_round (wc wb wr : Oracle) (sel : choices) (data : bytes) (cn : nat) (sc : SidecarConn)
    (i : Inbound) (s : Router B) : Client * Router B * list bytes :=
  let i1 := snd (exec (inbound_step serve (IRead (Some data))) wc i) in
  answer_back respond json_error limit wc wb wr sel (client_stream cn (to_bus_events (run_trace i1))) sc
    (in_client (run_st i1)) s.
End Round.

(** The acknowledgement of an envelope that has an identifier. *)
Definition acks (ws : nat) (envelopeID : string) : list socket_event :=
  if decide (envelopeID = ""%string) then [] else [EvWritten ws (ack_body envelopeID) true].

(** The message that carries an envelope. *)
Definition event_message (w : Oracle) (e : slackEnvelope) (c : Client) (data : bytes) : Sdk.message :=
  message_at w (length (acks 0 (EnvelopeID e))) c (raw_of data).

(** A member that is encoded as it stands and is none of those the runtime
    looks for ("text", "user" and "thread"), as are all that an envelope has
    at its top level. *)
Definition envelope_member (m : bytes * json) : bool :=
  bool_decide (escape_raw (fst m) = fst m) &&
  match unquote (fst m) with Some k => bool_decide (find_key payload_keys k = None) | None => false end.

Definition apology : string := "Sorry, I encountered an error: empty text in payload".

(** ** Lemmas *)

Lemma inbound_forwards serve w ws cn i data e :
  succeeds w -> wsConn (in_socket i) = Some ws -> in_reconnecting i = false -> dec_envelope data = Some e ->
  ready_client cn (in_client i) -> sendable (event_message w e (in_client i) data) = true ->
  exec (inbound_step serve (IRead (Some data))) w i =
    (tt, mkRun i (3 + length (acks ws (EnvelopeID e)))
      (map EvSocket (acks ws (EnvelopeID e)) ++ [EvBus (Wrote cn (event_message w e (in_client i) data) true)])).
Proof.
  intros Hok Hws Hrec Hd Hc Hs. destruct i as [[tok url wo co nx] c rec].
  cbn [in_socket in_client in_reconnecting wsConn] in *. subst wo rec.
  unfold event_message, acks in *.
  unfold exec, inbound_step, on_socket, on_bus, zoom, ReadEvent, Acknowledge, mbind, mret, mget, io, emit.
  cbn [run_st run_tick run_trace in_reconnecting in_socket wsConn]. rewrite Hd.
  cbn [run_st run_tick run_trace in_reconnecting in_socket in_client wsConn map app].
  destruct (decide (EnvelopeID e = ""%string)) as [He|He];
    cbn [run_st run_tick run_trace in_socket in_client wsConn map app length] in *.
  - by rewrite (client_sends_at w cn c 0 [] (raw_of data)).
  - rewrite Hok. cbn [run_st run_tick run_trace in_socket in_client wsConn map app Nat.add].
    by rewrite (client_sends_at w cn c 1 [] (raw_of data)).
Qed.

Lemma to_bus_acks l e : to_bus_events (map EvSocket l ++ [EvBus e]) = [e].
Proof. induction l as [|a l IH]; [done|exact IH]. Qed.

Lemma envelope_members l p :
  forallb envelope_member l = true ->
  dec_members payload_keys set_payload (map (fun '(k, v) => (escape_raw k, escape_html v)) l) p = Some p.
Proof.
  induction l as [|[k v] l IH]; [done|]. cbn [forallb map dec_members].
  intros [Hm Hl]%andb_true_iff. unfold envelope_member in Hm. cbn [fst] in Hm.
  apply andb_true_iff in Hm as [->%bool_decide_eq_true Hk].
  destruct (unquote k) as [k'|]; [|done]. apply bool_decide_eq_true in Hk. rewrite Hk. by apply IH.
Qed.

(** The runtime answers an envelope without asking the model. *)
Lemma envelope_refused respond json_error t (m : Message) d l :
  unmarshal d = Some (norm_message m) -> Type_ m = "message"%string -> Payload m = RawDoc (JObj l) ->
  forallb envelope_member l = true ->
  serve_one respond json_error t d = Some (reply t "-err" apology (norm_message m)).
Proof.
  intros Hu Ht Hp Hl. unfold serve_one. rewrite Hu. change (Type_ (norm_message m)) with (Type_ m).
  rewrite decide_True by done. unfold AgentRuntime.handleMessage, dec_payload.
  change (Payload (norm_message m)) with (norm_raw (Payload m)). rewrite Hp.
  cbn [norm_raw escape_html unmarshal_raw dec_struct]. rewrite envelope_members by done. done.
Qed.

(** Posting a text goes to the default channel. *)
Definition post_body (cfg : slackConfig) (text : string) : bytes :=
  print (JObj [field "channel" (str_json (DefaultChannel cfg)); field "text" (str_json text)]).

Lemma dec_out_apology :
  dec_out (norm_raw (raw_of (marshal_payload (mkPayload apology "" "")))) = Some (mkOutMsg "" apology RawEmpty).
Proof. vm_compute. reflexivity. Qed.

Lemma post_apology serve cfg :
  DefaultChannel cfg <> ""%string ->
  post serve cfg (norm_raw (raw_of (marshal_payload (mkPayload apology "" "")))) =
  post_loop serve cfg (post_body cfg apology) 0 (Z.to_nat (sc_RetryAttempts cfg)).
Proof.
  intros Hc. unfold post. rewrite dec_out_apology. cbn [om_Channel om_Text Blocks].
  rewrite (decide_True (P := ""%string = ""%string)) by done. rewrite decide_False by done. reflexivity.
Qed.

(** ** Properties *)

(** C25: every Socket Mode event is answered with an apology.  On an
    envelope that decodes (a greeting as well as an event), the sidecar's
    loop writes an acknowledgement, if the envelope has an identifier, and one
    message to the bus, with the whole envelope as its payload; as no member
    of an envelope is one the runtime looks for, whatever the model would
    answer, and whatever text the envelope carries further down, the one
    message that comes back to the sidecar has the fixed text of [apology],
    and posting it is posting this text to the default channel.  The
    programs are connected, no write fails and both messages are within the
    limit of the WebSocket. *)
Theorem slack_event_apologised {B : Type} `{Bucket B}
    (open serve : nat -> http_request -> option http_response) (cfg : slackConfig) (limit : Z)
    (wc wb wr w : Oracle) (sel : choices) (ws cn : nat) (sc : SidecarConn) (i : Inbound) (s : Router B)
    (data : bytes) (e : slackEnvelope) (l : list (bytes * json)) (d d2 : bytes) :
  succeeds wc -> succeeds wb -> succeeds wr ->
  wsConn (in_socket i) = Some ws -> in_reconnecting i = false ->
  ready_client cn (in_client i) -> ready_bus sc s -> sc_Channel sc = channelName (Client.cfg (in_client i)) ->
  dec_envelope data = Some e -> raw_of data = RawDoc (JObj l) -> forallb envelope_member l = true ->
  let m := event_message wc e (in_client i) data in
  let resp := reply (o_now wr 0) "-err" apology (norm_message (Sdk.to_bus m)) in
  Sdk.msg_ok m -> marshal m = Some d -> marshal resp = Some d2 ->
  limit <= MaxMessageSize -> Z.of_nat (length d) <= limit -> Z.of_nat (length d2) <= limit ->
  DefaultChannel cfg <> ""%string ->
  run_trace (snd (exec (inbound_step open (IRead (Some data))) wc i)) =
    map EvSocket (acks ws (EnvelopeID e)) ++ [EvBus (Wrote cn m true)] /\
  Sdk.payload_ m = raw_of data /\
  exists x,
    (forall respond json_error,
      inbound (fst (fst (slack_round open respond json_error limit wc wb wr (true :: sel) data cn sc i s))) =
        inbound (in_client i) ++ [x]) /\
    exec (post serve cfg (in_Payload x)) w tt =
      exec (post_loop serve cfg (post_body cfg apology) 0 (Z.to_nat (sc_RetryAttempts cfg))) w tt.
Proof.
  intros Hwc Hwb Hwr Hws Hrec Hc Hs Hch He Hl Hmem m resp Hok Hd Hd2 Hlim Hld Hld2 Hcfg.
  assert (Hsend : sendable m = true) by (unfold sendable; rewrite Hd; apply Z.leb_le; lia).
  pose proof (inbound_forwards open wc ws cn i data e Hwc Hws Hrec He Hc Hsend) as Hf.
  rewrite Hf. split; [done|]. split; [done|].
  exists (mkInbound (ID resp) (Channel resp) (norm_raw (Payload resp))). split.
  - intros respond json_error. unfold slack_round. rewrite Hf. cbn [snd run_st run_trace]. rewrite to_bus_acks.
    destruct (round_trip respond json_error limit wc wb wr sel cn sc (in_client i) s m d resp d2) as [Hin _]; try done.
    + apply (envelope_refused _ _ _ _ _ l); [|done|done|done].
      rewrite Sdk.marshal_to_bus in Hd. exact (reread (Sdk.to_bus m) d Hok Hd).
    + apply answer_ok, eq_refl. by apply norm_ok.
  - cbn [in_Payload]. change (Payload resp) with (raw_of (marshal_payload (mkPayload apology "" ""))).
    by rewrite post_apology.
Qed.

(** ** Evaluation *)

(** A mention of the bot: the text of the user is in the event. *)
Definition mention : list (bytes * json) :=
  [field "envelope_id" (str_json "E1"); field "type" (str_json "events_api");
   field "payload" (JObj [field "event" (JObj [field "type" (str_json "app_mention"); field "text" (str_json "hello")])])].

Definition mention_envelope : slackEnvelope :=
  mkEnvelope "E1" "events_api"
    (RawDoc (JObj [field "event" (JObj [field "type" (str_json "app_mention"); field "text" (str_json "hello")])])).

Definition sidecar : Inbound := mkIn (in_socket Sample.started) sample_client false.

Definition apologised (a : option http_response) : slack_post_event :=
  EvChat (chat_request Sample.config (post_body Sample.config apology)) a.

(** The user's greeting is answered with the apology, although the model
    would echo it. *)
Lemma slack_event_apologised_witness :
  exists x,
    inbound (fst (fst (slack_round Sample.slack echo no_json_error 32768 all_ok all_ok all_ok [true]
      (print (JObj mention)) 7 slack_sc sidecar sample_bus))) = [x] /\
    exec (post Sample.slack Sample.config (in_Payload x)) all_ok tt =
    (Ok tt, mkRun tt 5 [apologised (Some Sample.limited); EvPause (30 * second); apologised (Some Sample.posted)]).
Proof.
  set (m := event_message all_ok mention_envelope sample_client (print (JObj mention))).
  assert (Hd : is_Some (marshal m)) by (vm_compute; eexists; reflexivity). destruct Hd as [d Hd].
  set (resp := reply (o_now all_ok 0) "-err" apology (norm_message (Sdk.to_bus m))).
  assert (Hd2 : is_Some (marshal resp)) by (vm_compute; eexists; reflexivity). destruct Hd2 as [d2 Hd2].
  assert (Hl : Z.of_nat (length d) <= 32768) by (revert Hd; vm_compute; by intros [= <-]).
  assert (Hl2 : Z.of_nat (length d2) <= 32768) by (revert Hd2; vm_compute; by intros [= <-]).
  assert (Hmax : 32768 <= MaxMessageSize) by (vm_compute; discriminate).
  assert (Hok : Sdk.msg_ok m) by (vm_compute; reflexivity).
  assert (He : dec_envelope (print (JObj mention)) = Some mention_envelope) by (vm_compute; reflexivity).
  assert (Hraw : raw_of (print (JObj mention)) = RawDoc (JObj mention)) by (vm_compute; reflexivity).
  assert (Hm : forallb envelope_member mention = true) by (vm_compute; reflexivity).
  assert (Hch : DefaultChannel Sample.config <> ""%string) by discriminate.
  destruct (slack_event_apologised Sample.slack Sample.slack Sample.config 32768 all_ok all_ok all_ok all_ok [] 0 7
    slack_sc sidecar sample_bus (print (JObj mention)) mention_envelope mention d d2
    (fun _ => eq_refl) (fun _ => eq_refl) (fun _ => eq_refl) eq_refl eq_refl sample_client_ready sample_bus_ready eq_refl
    He Hraw Hm Hok Hd Hd2 Hmax Hl Hl2 Hch) as (_ & _ & x & Hin & Hpost).
  exists x. split; [exact (Hin echo no_json_error)|]. rewrite Hpost. vm_compute. reflexivity.
Defined.
