(* ===== verification/Signet.v ===== *)
(** * Signed receipts (internal/signet/signer.go)

    An operation on a claw is signed: the receipt records what was asked for,
    and a signature covers its canonical payload.  Ed25519 is the class
    [SignatureScheme] with the one law the code relies on; random bytes, the
    clock and the external signer are inputs. *)

From S2P Require Import Prelude.
From S2P Require Import GoStrings.
From S2P Require Import GoTime.
From S2P Require Import Json.
From S2P Require Import GoText.
From S2P Require Import Message.
From S2P Require Import Rules.
From S2P Require Import OpsIntent.

Record SignRequest := mkSignRequest {
  sr_Key : string;
  sr_Tool : string;
  sr_Params : option (gmap string string);
  sr_Target : string;
}.

Record Receipt := mkReceipt {
  rc_Version : Z;
  rc_ID : string;
  KeyID : string;
  rc_Tool : string;
  rc_Params : option (gmap string string);
  rc_Target : string;
  rc_Timestamp : string;
  Signature : string;
}.

(** ** JSON *)

(** [omitempty] drops a map without members, nil or not. *)
Definition params_omitempty (k : string) (p : option (gmap string string)) : list (bytes * json) :=
  if decide (default ∅ p = ∅) then [] else [field k (enc_params p)].

Definition enc_receipt (r : Receipt) : list (bytes * json) :=
  [field "v" (JNum (format_int (rc_Version r))); field "id" (str_json (rc_ID r));
   field "key" (str_json (KeyID r)); field "tool" (str_json (rc_Tool r))] ++
  params_omitempty "params" (rc_Params r) ++
  [field "target" (str_json (rc_Target r)); field "ts" (str_json (rc_Timestamp r));
   field "sig" (str_json (Signature r))].

Definition receipt_keys : list string := ["v"; "id"; "key"; "tool"; "params"; "target"; "ts"; "sig"]%string.

Definition set_receipt (k : string) (v : json) (r : Receipt) : option Receipt :=
  let '(mkReceipt n i y t p g s u) := r in
  if decide (k = "v"%string) then (fun x => mkReceipt x i y t p g s u) <$> dec_int v n
  else if decide (k = "id"%string) then (fun x => mkReceipt n x y t p g s u) <$> dec_str v i
  else if decide (k = "key"%string) then (fun x => mkReceipt n i x t p g s u) <$> dec_str v y
  else if decide (k = "tool"%string) then (fun x => mkReceipt n i y x p g s u) <$> dec_str v t
  else if decide (k = "params"%string) then (fun x => mkReceipt n i y t x g s u) <$> dec_params v p
  else if decide (k = "target"%string) then (fun x => mkReceipt n i y t p x s u) <$> dec_str v g
  else if decide (k = "ts"%string) then (fun x => mkReceipt n i y t p g x u) <$> dec_str v s
  else (fun x => mkReceipt n i y t p g s x) <$> dec_str v u.

Definition dec_receipt (data : bytes) : option Receipt :=
  unmarshal_raw receipt_keys set_receipt (mkReceipt 0 "" "" "" None "" "" "") (raw_of data).

Definition with_signature (r : Receipt) (sig : string) : Receipt :=
  mkReceipt (rc_Version r) (rc_ID r) (KeyID r) (rc_Tool r) (rc_Params r) (rc_Target r) (rc_Timestamp r) sig.

(** ** The payload that is signed *)

Definition canonicalPayload (r : Receipt) : bytes :=
  bytes_of "v=" ++ format_int (rc_Version r) ++ bytes_of "|id=" ++ bytes_of (rc_ID r) ++
  bytes_of "|key=" ++ bytes_of (KeyID r) ++ bytes_of "|tool=" ++ bytes_of (rc_Tool r) ++
  bytes_of "|target=" ++ bytes_of (rc_Target r) ++ bytes_of "|ts=" ++ bytes_of (rc_Timestamp r) ++
  bytes_of "|params=" ++ print (enc_params (rc_Params r)).

(** ** Signers *)

Inductive sign_error := ErrRandom | ErrMarshalReceipt | ErrCLI | ErrMock.

Class SignatureScheme := {
  private_key : Type;
  public_of : private_key -> bytes;
  ed_sign : private_key -> bytes -> bytes;
  ed_verify : bytes -> bytes -> bytes -> bool;
}.

(** The documented contract of a signature scheme. *)
Class SignatureLaws `{SignatureScheme} := {
  ed_verify_sign k m : ed_verify (public_of k) m (ed_sign k m) = true;
}.

Section Signers.
Context `{SignatureScheme}.

Inductive Signer :=
| Ed25519Signer (privateKey : private_key) (publicKey : bytes)
| CLISigner (BinaryPath : string)
| MockSigner (history : list SignRequest) (err : bool).

Inductive signer_event := EvExec (path : string) (args : list string).

Abbreviation GM := (M Signer signer_event).

(** [randomID]: sixteen random bytes, if there are any. *)
Definition randomID (random : nat -> option bytes) : GM (option string) := fun w r =>
  ((fun b => "rec_" +:+ str_of (hex_encode b))%string <$> random (run_tick r),
   mkRun (run_st r) (S (run_tick r)) (run_trace r)).

(** The receipt before it is signed. *)
Definition unsigned (id : string) (t : Z) (req : SignRequest) : Receipt :=
  mkReceipt 1 id (sr_Key req) (sr_Tool req) (sr_Params req) (sr_Target req) (str_of (format_rfc3339 t)) "".

Definition signed_receipt (k : private_key) (r : Receipt) : Receipt :=
  with_signature r (str_of (hex_encode (ed_sign k (canonicalPayload r)))).

Definition ed_Sign (random : nat -> option bytes) (k : private_key) (req : SignRequest)
    : GM (result sign_error bytes) :=
  let* id := randomID random in
  match id with
  | None => mret (Err ErrRandom)
  | Some id =>
      let* t := now in
      mret (Ok (print (JObj (enc_receipt (signed_receipt k (unsigned id t req))))))
  end.

(** [Verify]: an error, or whether the signature is good. *)
Definition Verify (publicKey : bytes) (receiptJSON : bytes) : option bool :=
  receipt ← dec_receipt receiptJSON;
  sig ← hex_decode (bytes_of (Signature receipt));
  Some (ed_verify publicKey (canonicalPayload receipt) sig).

Definition PublicKeyHex (publicKey : bytes) : string := str_of (hex_encode publicKey).

(** The arguments of the signet binary. *)
Definition cli_args (req : SignRequest) : list string :=
  ["sign"; "--key"; sr_Key req; "--tool"; sr_Tool req;
   "--params"; str_of (print (enc_params (sr_Params req))); "--target"; sr_Target req]%string.

(** [cmd.Output]: what the binary printed, unless it failed. *)
Definition cli_Sign (run : string -> list string -> option bytes) (path : string) (req : SignRequest)
    : GM (result sign_error bytes) :=
  emit (EvExec path (cli_args req)) ;;;
  mret match run path (cli_args req) with Some out => Ok out | None => Err ErrCLI end.

Definition mock_receipt : bytes :=
  print (JObj [field "v" (JNum (format_int 1)); field "id" (str_json "rec_mock"); field "sig" (str_json "mock")]).

Definition mock_Sign (req : SignRequest) (history : list SignRequest) (err : bool)
    : GM (result sign_error bytes) :=
  if err then mret (Err ErrMock)
  else mput (MockSigner (history ++ [req]) err) ;;; mret (Ok mock_receipt).

Definition SetError (err : bool) : GM unit :=
  mmodify (fun s => match s with MockSigner h _ => MockSigner h err | _ => s end).

Definition History (s : Signer) : list SignRequest :=
  match s with MockSigner h _ => h | _ => [] end.

(** The interface [Signer]. *)
Definition Sign (random : nat -> option bytes) (run : string -> list string -> option bytes)
    (req : SignRequest) : GM (result sign_error bytes) :=
  let* s := mget in
  match s with
  | Ed25519Signer k _ => ed_Sign random k req
  | CLISigner path => cli_Sign run path req
  | MockSigner h e => mock_Sign req h e
  end.

(** [NewSigner]: the binary if it can be found, else a new key, else the mock. *)
Definition NewSigner (lookPath : string -> bool) (generate : option private_key) (binaryPath : string) : Signer :=
  if negb (bool_decide (binaryPath = ""%string)) && lookPath binaryPath then CLISigner binaryPath
  else match generate with
       | Some k => Ed25519Signer k (public_of k)
       | None => MockSigner [] false
       end.
End Signers.

(** ** Receipts are read back *)

Definition norm_params (p : option (gmap string string)) : option (gmap string string) :=
  if decide (default ∅ p = ∅) then None else p.

Definition utf8_params (p : option (gmap string string)) : Prop :=
  match p with
  | Some m => map_Forall (fun k v => utf8_str k = true /\ utf8_str v = true) m
  | None => True
  end.

Definition receipt_ok (r : Receipt) : Prop :=
  int64_ok (rc_Version r) = true /\ utf8_params (rc_Params r) /\
  Forall (fun s => utf8_str s = true)
    [rc_ID r; KeyID r; rc_Tool r; rc_Target r; rc_Timestamp r; Signature r].

Definition norm_receipt (r : Receipt) : Receipt :=
  mkReceipt (rc_Version r) (rc_ID r) (KeyID r) (rc_Tool r) (norm_params (rc_Params r)) (rc_Target r)
    (rc_Timestamp r) (Signature r).

Lemma enc_receipt_wf r : wf_json (JObj (enc_receipt r)) = true.
Proof.
  unfold enc_receipt, params_omitempty. cbn [wf_json]. rewrite !forallb_app.
  assert (H : forallb (fun '(k, v) => valid_raw k && wf_json v)
    (if decide (default ∅ (rc_Params r) = ∅) then [] else [field "params" (enc_params (rc_Params r))]) = true).
  { destruct (decide _); [done|]. cbn [forallb field]. by rewrite enc_params_wf. }
  rewrite H. cbn [forallb field]. rewrite !str_json_wf. cbn [wf_json]. by rewrite format_int_valid.
Qed.

Lemma set_receipt_version v n i y t p g s u :
  set_receipt "v" v (mkReceipt n i y t p g s u) = (fun x => mkReceipt x i y t p g s u) <$> dec_int v n.
Proof. reflexivity. Qed.

Lemma set_receipt_params v n i y t p g s u :
  set_receipt "params" v (mkReceipt n i y t p g s u) = (fun x => mkReceipt n i y t x g s u) <$> dec_params v p.
Proof. reflexivity. Qed.

Lemma dec_params_omitempty n i y t p g s u l :
  utf8_params p ->
  dec_members receipt_keys set_receipt (params_omitempty "params" p ++ l) (mkReceipt n i y t None g s u) =
  dec_members receipt_keys set_receipt l (mkReceipt n i y t (norm_params p) g s u).
Proof.
  intros Hp. unfold params_omitempty, norm_params. destruct (decide _); [done|]. cbn [app].
  erewrite dec_field; [reflexivity|reflexivity..|].
  rewrite set_receipt_params, dec_enc_params by done. reflexivity.
Qed.

Lemma dec_enc_receipt r :
  receipt_ok r ->
  dec_receipt (print (JObj (enc_receipt r))) = Some (norm_receipt r).
Proof.
  destruct r as [n i y t p g s u]. intros (Hn & Hp & Hu). unfold dec_receipt, unmarshal_raw.
  rewrite raw_of_print by apply enc_receipt_wf. unfold enc_receipt, dec_struct.
  cbn [rc_Version rc_ID KeyID rc_Tool rc_Params rc_Target rc_Timestamp Signature app] in *.
  unfold int64_ok in Hn. apply between_spec in Hn. unfold utf8_str in Hu.
  repeat match goal with Hf : Forall _ (_ :: _) |- _ => inversion Hf; subst; clear Hf end.
  erewrite dec_field; [|reflexivity..|].
  2:{ rewrite set_receipt_version. unfold dec_int. rewrite parse_format_int by lia. reflexivity. }
  do 3 (erewrite dec_field; [|reflexivity..|set_key dec_str_json]).
  rewrite dec_params_omitempty by done. unfold norm_receipt.
  cbn [rc_Version rc_ID KeyID rc_Tool rc_Params rc_Target rc_Timestamp Signature].
  generalize (norm_params p). clear p Hp. intros p.
  do 3 (erewrite dec_field; [|reflexivity..|set_key dec_str_json]).
  reflexivity.
Qed.

(** ** Text without accidents *)

Lemma ascii_utf8 l : forallb (fun c => code c <? 128) l = true -> valid_utf8 l = true.
Proof.
  induction l as [|c l IH]; cbn [forallb]; [done|]. intros [Hc Hl]%andb_true_iff.
  apply (clean_ascii c); auto.
Qed.

Lemma hex_ascii b : forallb (fun c => code c <? 128) (hex_encode b) = true.
Proof.
  induction b as [|c b IH]; [done|]. cbn [hex_encode flat_map app forallb].
  change (flat_map _ b) with (hex_encode b). rewrite IH.
  pose proof (code_range c). assert (Hd : forall n, 0 <= n < 16 -> (code (hex_digit n) <? 128) = true).
  { intros n Hn. unfold hex_digit. destruct (n <? 10); rewrite code_chr; lia. }
  rewrite !Hd by div_lia. done.
Qed.

Lemma hex_utf8 b : utf8_str (str_of (hex_encode b)) = true.
Proof. unfold utf8_str. rewrite bytes_of_str_of. apply ascii_utf8, hex_ascii. Qed.

Lemma rfc3339_utf8 t : utf8_str (str_of (format_rfc3339 t)) = true.
Proof.
  unfold utf8_str. rewrite bytes_of_str_of. apply ascii_utf8, format_nano_forallb; [|reflexivity].
  intros c Hc%between_spec. lia.
Qed.

(** ** What a payload says *)

Definition no_bar (s : string) : Prop := "|"%char ∉ bytes_of s.

(** A field ends at the next bar. *)
Lemma bar_inj lit a a' b b' :
  "|"%char ∉ a -> "|"%char ∉ a' ->
  a ++ bytes_of (String "|" lit) ++ b = a' ++ bytes_of (String "|" lit) ++ b' -> a = a' /\ b = b'.
Proof.
  intros Ha Ha' He. change (a ++ "|"%char :: (bytes_of lit ++ b) = a' ++ "|"%char :: (bytes_of lit ++ b')) in He.
  pose proof (cut_byte_app "|" a (bytes_of lit ++ b) Ha) as Hc. rewrite He, cut_byte_app in Hc by done.
  injection Hc as -> Hc. by apply app_inv_head in Hc.
Qed.

Lemma format_int_no_bar n : "|"%char ∉ format_int n.
Proof.
  assert (Hd : forall m, 0 <= m -> "|"%char ∉ format_nat m).
  { intros m Hm Hin. pose proof (format_nat_digits m Hm) as Hf. rewrite forallb_forall in Hf.
    apply list_elem_of_In, Hf in Hin. discriminate Hin. }
  unfold format_int. destruct (Z.ltb_spec n 0); [|by apply Hd].
  intros [Hc|Hin]%elem_of_cons; [discriminate Hc|]. by apply (Hd (- n)); [lia|].
Qed.

Lemma enc_params_inj p p' : utf8_params p -> utf8_params p' -> enc_params p = enc_params p' -> p = p'.
Proof.
  intros Hp Hp' He. pose proof (dec_enc_params p None Hp eq_refl) as Hd.
  rewrite He, dec_enc_params in Hd by done. by injection Hd.
Qed.

Lemma print_inj v v' : wf_json v = true -> wf_json v' = true -> print v = print v' -> v = v'.
Proof.
  intros H H' He. pose proof (parse_print v H) as Hp. rewrite He, parse_print in Hp by done. by injection Hp.
Qed.

Lemma canonical_params n i y t p q g s u u' :
  canonicalPayload (mkReceipt n i y t p g s u) = canonicalPayload (mkReceipt n i y t q g s u') ->
  print (enc_params p) = print (enc_params q).
Proof. unfold canonicalPayload. cbn [rc_Version rc_ID KeyID rc_Tool rc_Params rc_Target rc_Timestamp].
  rewrite !app_assoc. by intros Heq%app_inv_head. Qed.

Definition barless (r : Receipt) : Prop :=
  int64_ok (rc_Version r) = true /\ utf8_params (rc_Params r) /\
  Forall no_bar [rc_ID r; KeyID r; rc_Tool r; rc_Target r; rc_Timestamp r].

(** ** Signing and verifying *)

Section SignedReceipts.
Context `{SignatureScheme}.

Lemma Verify_signed pub k r :
  receipt_ok (signed_receipt k r) ->
  Verify pub (print (JObj (enc_receipt (signed_receipt k r)))) =
  Some (ed_verify pub (canonicalPayload (norm_receipt r)) (ed_sign k (canonicalPayload r))).
Proof using Type.
  intros Hok. unfold Verify. rewrite dec_enc_receipt by done. cbn [base.mbind option_bind].
  change (Signature (norm_receipt (signed_receipt k r)))
    with (str_of (hex_encode (ed_sign k (canonicalPayload r)))).
  rewrite bytes_of_str_of, hex_decode_encode. reflexivity.
Qed.

Lemma unsigned_ok k b t req :
  utf8_str (sr_Key req) = true -> utf8_str (sr_Tool req) = true -> utf8_str (sr_Target req) = true ->
  utf8_params (sr_Params req) ->
  receipt_ok (signed_receipt k (unsigned ("rec_" +:+ str_of (hex_encode b)) t req)).
Proof using Type.
  intros Hk Ht Hg Hp. unfold receipt_ok, signed_receipt, with_signature, unsigned.
  cbn [rc_Version rc_ID KeyID rc_Tool rc_Params rc_Target rc_Timestamp Signature].
  split_and!; [done|done|]. repeat (apply Forall_cons_2); try done; [|apply rfc3339_utf8|apply hex_utf8].
  unfold utf8_str. rewrite bytes_of_app, bytes_of_str_of. apply ascii_utf8. by rewrite forallb_app, hex_ascii.
Qed.
End SignedReceipts.

Lemma norm_params_default p : default ∅ (norm_params p) = default ∅ p.
Proof. unfold norm_params. destruct (decide _) as [E|]; [by rewrite E|done]. Qed.

Lemma norm_params_id p : p <> Some ∅ -> norm_params p = p.
Proof.
  intros Hne. unfold norm_params. destruct (decide _) as [E|]; [|done].
  destruct p as [m|]; [|done]. cbn in E. by subst.
Qed.

(** C27: a signed receipt states the request, and it verifies if the
    parameters are nil or not empty.  An empty map that is not nil is signed as
    an empty object, left out of the JSON and read back as nil: [Verify] then
    checks the signature against another payload than the one signed, so the
    receipt is refused if the signature is good for nothing but what was
    signed. *)
Theorem sign_then_verify `{SignatureLaws} (w : Oracle) (random : nat -> option bytes) (k : private_key)
    (pub : bytes) (req : SignRequest) (out : bytes) (r : Run Signer signer_event) :
  utf8_str (sr_Key req) = true -> utf8_str (sr_Tool req) = true -> utf8_str (sr_Target req) = true ->
  utf8_params (sr_Params req) ->
  exec (ed_Sign random k req) w (Ed25519Signer k pub) = (Ok out, r) ->
  exists receipt, dec_receipt out = Some receipt /\
    KeyID receipt = sr_Key req /\ rc_Tool receipt = sr_Tool req /\ rc_Target receipt = sr_Target req /\
    default ∅ (rc_Params receipt) = default ∅ (sr_Params req) /\
    (sr_Params req <> Some ∅ -> Verify (public_of k) out = Some true) /\
    (sr_Params req = Some ∅ -> exists payload, payload <> canonicalPayload receipt /\
       Signature receipt = str_of (hex_encode (ed_sign k payload)) /\
       Verify (public_of k) out = Some (ed_verify (public_of k) (canonicalPayload receipt) (ed_sign k payload)) /\
       ((forall m, ed_verify (public_of k) m (ed_sign k payload) = true -> m = payload) ->
        Verify (public_of k) out = Some false)).
Proof.
  intros Hk Ht Hg Hp. unfold exec, ed_Sign, randomID, mbind, now, mret. cbn [run_tick run_st run_trace].
  destruct (random 0%nat) as [b|]; cbn [fmap option_fmap option_map]; [|done].
  pose proof (unsigned_ok k b (o_now w 1) req Hk Ht Hg Hp) as Hok. revert Hok.
  set (u := unsigned _ _ req). intros Hok He.
  assert (Ho : print (JObj (enc_receipt (signed_receipt k u))) = out) by congruence. subst out. clear He.
  exists (norm_receipt (signed_receipt k u)). split; [by apply dec_enc_receipt|].
  rewrite Verify_signed by done.
  change (canonicalPayload (norm_receipt (signed_receipt k u))) with (canonicalPayload (norm_receipt u)).
  split_and!; [done..|apply norm_params_default| |].
  - intros Hne. unfold norm_receipt. change (rc_Params u) with (sr_Params req).
    rewrite norm_params_id by done. f_equal. apply ed_verify_sign.
  - intros He. exists (canonicalPayload u).
    assert (Hne : canonicalPayload u <> canonicalPayload (norm_receipt u)).
    { unfold norm_receipt, u, unsigned. cbn [rc_Version rc_ID KeyID rc_Tool rc_Params rc_Target rc_Timestamp].
      intros Heq%canonical_params. rewrite He in Heq. by vm_compute in Heq. }
    split_and!; [exact Hne|done|done|]. intros Honly. f_equal.
    destruct (ed_verify _ _ _) eqn:Ev; [|done]. by apply Honly in Ev.
Qed.

(** Property: a payload determines the receipt.  Two receipts whose fields hold no
    vertical bar and whose canonical payloads agree differ in their signatures
    at most, so a signature for one cannot be moved to another. *)
Theorem canonicalPayload_injective (r r' : Receipt) :
  barless r -> barless r' -> canonicalPayload r = canonicalPayload r' ->
  r' = with_signature r (Signature r').
Proof.
  destruct r as [n i y t p g s u], r' as [n' i' y' t' p' g' s' u'].
  intros (Hn & Hp & Hf) (Hn' & Hp' & Hf'). unfold canonicalPayload, no_bar in *.
  cbn [rc_Version rc_ID KeyID rc_Tool rc_Params rc_Target rc_Timestamp Signature with_signature] in *.
  repeat match goal with Hl : Forall _ (_ :: _) |- _ => inversion Hl; subst; clear Hl end.
  intros He. apply (app_inv_head (bytes_of "v=")) in He.
  apply bar_inj in He as [Hv He]; [|apply format_int_no_bar..].
  do 5 (apply bar_inj in He as [? He]; [|done..]).
  apply print_inj in He; [|apply enc_params_wf..]. apply enc_params_inj in He; [|done..].
  assert (n = n') as ->.
  { unfold int64_ok in Hn, Hn'. apply between_spec in Hn, Hn'.
    pose proof (parse_format_int 64 n ltac:(lia)) as Hz. rewrite Hv, parse_format_int in Hz by lia. congruence. }
  repeat match goal with Hb : bytes_of _ = bytes_of _ |- _ => apply bytes_of_inj in Hb end. by subst.
Qed.
(** ** Samples *)

Module Sample.

(** A scheme that satisfies the law: a keyed hash would do, here the key is
    put before the message. *)
#[local] Instance toy_scheme : SignatureScheme := {|
  private_key := bytes;
  public_of k := k;
  ed_sign k m := k ++ m;
  ed_verify p m s := bool_decide (s = p ++ m);
|}.

#[local] Instance toy_laws : SignatureLaws.
Proof. split. intros k m. by apply bool_decide_eq_true. Qed.

Definition key : @private_key toy_scheme := bytes_of "key".

Definition request (p : option (gmap string string)) : SignRequest :=
  mkSignRequest "rule-engine" "bump-memory" p "claw://default/my-claw".

Definition limits : gmap string string := {["target"%string := "1Gi"%string]}.

Lemma limits_utf8 : utf8_params (Some limits).
Proof. unfold limits. intros k v [<- <-]%lookup_singleton_Some. vm_compute. done. Qed.

Definition random (n : nat) : option bytes := Some (bytes_of "0123456789abcdef").

Definition signed_json (p : option (gmap string string)) : bytes :=
  match fst (exec (ed_Sign random key (request p)) all_ok (Ed25519Signer key key)) with
  | Ok out => out
  | Err _ => []
  end.

Lemma sign_then_verify_witness :
  Verify key (signed_json (Some limits)) = Some true.
Proof.
  destruct (exec (ed_Sign random key (request (Some limits))) all_ok
    (Ed25519Signer key key)) as [res r] eqn:E.
  assert (Hr : res = Ok (signed_json (Some limits))).
  { change res with (fst (res, r)). rewrite <- E. vm_compute. reflexivity. }
  rewrite Hr in E.
  destruct (sign_then_verify all_ok random key key (request (Some limits))
    (signed_json (Some limits)) r) as (receipt & _ & _ & _ & _ & _ & Hv & _).
  - reflexivity.
  - reflexivity.
  - reflexivity.
  - exact limits_utf8.
  - exact E.
  - apply Hv. discriminate.
Defined.

(** With an empty map of parameters the receipt just signed is refused. *)
Example empty_params_refused :
  Verify key (signed_json (Some ∅)) = Some false /\
  Verify key (signed_json None) = Some true.
Proof. vm_compute. done. Qed.

Definition plain : Receipt :=
  mkReceipt 1 "rec_1" "rule-engine" "bump-memory" (Some limits) "claw://default/my-claw" "2026-01-02T03:04:05Z" "00".

Lemma plain_barless : barless plain.
Proof.
  split; [reflexivity|]. split; [exact limits_utf8|].
  repeat (apply Forall_cons_2); [..|apply Forall_nil_2]; unfold no_bar; apply cut_byte_None; vm_compute; reflexivity.
Qed.

Lemma canonicalPayload_injective_witness :
  with_signature plain "00" = plain.
Proof.
  symmetry. apply (canonicalPayload_injective plain plain).
  - exact plain_barless.
  - exact plain_barless.
  - reflexivity.
Defined.

(** With bars two receipts share a payload: the signature of one verifies for
    the other. *)
Example bars_are_ambiguous :
  canonicalPayload (mkReceipt 1 "r" "k" "a|tool=b" None "t" "ts" "") =
  canonicalPayload (mkReceipt 1 "r" "k|tool=a" "b" None "t" "ts" "").
Proof. vm_compute. reflexivity. Qed.

(** The factory prefers the binary, then a key, then the mock. *)
Example signers_in_order :
  NewSigner (fun _ => true) (Some key) "signet" = CLISigner "signet" /\
  NewSigner (fun _ => false) (Some key) "signet" = Ed25519Signer key key /\
  NewSigner (fun _ => false) (Some key) "" = Ed25519Signer key key /\
  NewSigner (fun _ => false) None "" = MockSigner [] false.
Proof. done. Qed.

(** The mock records what it signed until it is told to fail. *)
Example mock_records :
  let sign t := Sign random (fun _ _ => None) (mkSignRequest "k" t None "") in
  let '(res, r) := exec (let* _ := sign "t1"%string in SetError true ;;; sign "t2"%string) all_ok (MockSigner [] false) in
  map sr_Tool (History (run_st r)) = ["t1"%string] /\ res = Err ErrMock.
Proof. vm_compute. done. Qed.

End Sample.
