(* ===== verification/ClawOps.v ===== *)
(** * The ops controller (internal/controller/clawops_controller.go)

    The controller watches the pods of a Claw for anomalies.  It answers a
    signal by an ops intent when a rule matches and the rate limit allows, and
    by an escalation for a human otherwise; approved escalations become
    intents.  The state is what the API server stores (the claw, its pods, the
    escalations) and the controller's own memory (the rule engine and the
    times of its actions). *)

From S2P Require Import Prelude.
From S2P Require Import GoStrings.
From S2P Require Import Json.
From S2P Require Import Message.
From S2P Require Import Api.
From S2P Require Import Samples.
From S2P Require Import Rules.
From S2P Require Import OpsIntent.

(** [ClusterCircuitBreakerPct] is read nowhere and left out. *)
Record ClawOpsConfig := mkOpsConfig {
  MaxActionsPerClawPerHour : Z;
  CircuitBreakerThreshold : Z;
  MetricPollInterval : Z;
  EscalationTTL : Z;
}.

Definition second : Z := 1000000000.
Definition hour : Z := 3600 * second.

Definition DefaultClawOpsConfig : ClawOpsConfig := mkOpsConfig 5 3 (60 * second) 604800.

(** ** Intents of rules *)

Definition ruleActionToIntentAction (rule : Rule) : string :=
  let a := rule_Action rule in
  if decide (act_Type a = ActionPatchResource) then
    match act_Params a !! "field"%string with
    | Some f => if decide (f = "memory-limit"%string) then "bump-memory"
                else if decide (f = "cpu-request"%string) then "bump-cpu" else "bump-memory"
    | None => "bump-memory"
    end
  else if decide (act_Type a = ActionRestartPod) then "restart-pod"
  else if decide (act_Type a = ActionScaleReplicas) then "scale-replicas"
  else act_Type a.

Definition UnixMilli (t : Z) : Z := t / 1000000.

Definition rule_intent (t : Z) (rule : Rule) : OpsIntent :=
  mkIntent (ruleActionToIntentAction rule) (Some (act_Params (rule_Action rule))) (UnixMilli t)
    "rule-engine" "".

Definition buildIntentJSON (t : Z) (rule : Rule) : option string :=
  String.string_of_list_ascii <$> marshal (rule_intent t rule).

Section Controller.
Context `{QuantityLib}.

Record World := mkWorld {
  cluster : Cluster;
  escalations : list ClawOpsEscalation;
  RuleEngine : Engine;
  actionCounts : gmap string (list Z);
}.

(** [EvRuleIntent] and [EvAction] record, for the theorems, when the intent of
    a rule has been written and when an action is counted. *)
Inductive clawops_event :=
| EvCluster (e : ops_event)
| EvCreated (e : ClawOpsEscalation)
| EvStatus (e : ClawOpsEscalation)
| EvDeleted (e : ClawOpsEscalation)
| EvRuleIntent (clawName : string) (t : Z)
| EvAction (clawName : string) (t : Z)
| EvRecord (reason : string).

Inductive clawops_error :=
| ErrGet | ErrList | ErrCreate | ErrStatus | ErrDelete | ErrWriteIntent | ErrIntentJSON.

Abbreviation OM := (M World clawops_event).

Definition set_cluster (k : Cluster) (s : World) : World :=
  mkWorld k (escalations s) (RuleEngine s) (actionCounts s).
Definition set_escalations (f : list ClawOpsEscalation -> list ClawOpsEscalation) : OM unit :=
  mmodify (fun s => mkWorld (cluster s) (f (escalations s)) (RuleEngine s) (actionCounts s)).
Definition set_engine (f : Engine -> Engine) : OM unit :=
  mmodify (fun s => mkWorld (cluster s) (escalations s) (f (RuleEngine s)) (actionCounts s)).
Definition set_counts (f : gmap string (list Z) -> gmap string (list Z)) : OM unit :=
  mmodify (fun s => mkWorld (cluster s) (escalations s) (RuleEngine s) (f (actionCounts s))).

Definition on_cluster {A} (m : M Cluster ops_event A) : OM A := zoom cluster set_cluster EvCluster m.

(** The controller's copy of the claw. *)
Definition the_claw (s : World) : Claw := claw (cluster s).

Definition same_object (a b : ClawOpsEscalation) : bool :=
  bool_decide (Name (es_Meta a) = Name (es_Meta b)) &&
  bool_decide (Namespace (es_Meta a) = Namespace (es_Meta b)).

(** [r.List] of the escalations in the namespace of the claw. *)
Definition list_escalations : OM (option (list ClawOpsEscalation)) :=
  let* ok := io in
  let* s := mget in
  mret (if ok then
          Some (filter (fun e => Namespace (es_Meta e) = Namespace (Meta (the_claw s))) (escalations s))
        else None).

(** [r.Create]: the server names the object and drops its status. *)
Definition create_escalation (e : ClawOpsEscalation) : OM (option ClawOpsEscalation) :=
  let* ok := io in
  if ok then
    let* suffix := new_uuid in
    let* t := now in
    let m := es_Meta e in
    let e' := mkEsc (mkMeta (GenerateName m +:+ suffix) (GenerateName m) (Namespace m) suffix 1
                       (Labels m) (Annotations m) (OwnerReferences m) (Finalizers m) t None)
                (es_Spec e) empty_es_status in
    set_escalations (fun l => l ++ [e']) ;;;
    emit (EvCreated e') ;;; mret (Some e')
  else mret None.

(** [r.Status().Update]. *)
Definition update_status (e : ClawOpsEscalation) : OM bool :=
  let* ok := io in
  if ok then
    set_escalations (map (fun x => if same_object x e then with_es_status (es_Status e) x else x)) ;;;
    emit (EvStatus e) ;;; mret true
  else mret false.

Definition delete_escalation (e : ClawOpsEscalation) : OM bool :=
  let* ok := io in
  if ok then
    set_escalations (filter (fun x => same_object x e = false)) ;;;
    emit (EvDeleted e) ;;; mret true
  else mret false.

(** ** Approved escalations *)

Definition is_approved (c : Claw) (e : ClawOpsEscalation) : bool :=
  bool_decide (ClawRef (es_Spec e) = Name (Meta c)) &&
  bool_decide (es_Phase (es_Status e) = EscalationPhaseApproved) &&
  negb (bool_decide (ProposedAction (es_Status e) = ""%string)).

(** Write an intent into the annotation: patch base, change, patch. *)
Definition write_intent (raw : string) : OM bool :=
  on_cluster (
    let* s := mget in
    let base := claw s in
    put_claw (set_meta (put_annotation AnnotationOpsIntent raw) base) ;;;
    Patch base).

Definition executed_status (st : ClawOpsEscalationStatus) (t : Z) : ClawOpsEscalationStatus :=
  mkEscStatus EscalationPhaseExecuted (MatchedRule st) (Analysis st) (ProposedAction st)
    (ProposedAction st) (Some t) (es_Result st) (SignetReceipt st) (ApprovedBy st) (ApprovedAt st)
    (RejectionReason st).

Fixpoint process_approved (l : list ClawOpsEscalation) : OM (result clawops_error unit) :=
  match l with
  | [] => mret (Ok tt)
  | e :: l' =>
      let* s := mget in
      if is_approved (the_claw s) e then
        let* ok := write_intent (ProposedAction (es_Status e)) in
        if ok then
          let* t := now in
          let* ok := update_status (with_es_status (executed_status (es_Status e) t) e) in
          if ok then emit (EvRecord "ApprovedRemediation") ;;; process_approved l'
          else mret (Err ErrStatus)
        else mret (Err ErrWriteIntent)
      else process_approved l'
  end.

Definition processApprovedEscalations : OM (result clawops_error unit) :=
  let* l := list_escalations in
  match l with
  | None => mret (Err ErrList)
  | Some l => process_approved l
  end.

(** ** Garbage collection *)

Fixpoint gc_escalations (ttl0 : Z) (l : list ClawOpsEscalation) : OM (result clawops_error unit) :=
  match l with
  | [] => mret (Ok tt)
  | e :: l' =>
      let* s := mget in
      if negb (bool_decide (ClawRef (es_Spec e) = Name (Meta (the_claw s)))) ||
         negb (IsTerminalPhase (es_Phase (es_Status e)))
      then gc_escalations ttl0 l'
      else
        let ttl := default ttl0 (TTLSecondsAfterFinished (es_Spec e)) in
        let* t := now in
        if ttl * second <? t - CreationTimestamp (es_Meta e) then
          let* ok := delete_escalation e in
          if ok then gc_escalations ttl0 l' else mret (Err ErrDelete)
        else gc_escalations ttl0 l'
  end.

Definition gcExpiredEscalations (cfg : ClawOpsConfig) : OM (result clawops_error unit) :=
  let* l := list_escalations in
  match l with
  | None => mret (Err ErrList)
  | Some l => gc_escalations (EscalationTTL cfg) l
  end.

(** ** Signals *)

Definition collectSignals : OM (result clawops_error (list Signal)) :=
  let* ok := io in
  let* s := mget in
  if ok then
    let c := Meta (the_claw s) in
    mret (Ok (flat_map ExtractPodSignals
      (filter (fun p => Namespace (pod_Meta p) = Namespace c /\
                 Labels (pod_Meta p) !! "claw.prismer.ai/instance"%string = Some (Name c))
         (pods (cluster s)))))
  else mret (Err ErrList).

(** The trigger types with an escalation still open. *)
Definition activeTypes (c : Claw) (l : list ClawOpsEscalation) : list string :=
  map (fun e => tr_Type (Trigger (es_Spec e)))
    (filter (fun e => ClawRef (es_Spec e) = Name (Meta c) /\
               IsTerminalPhase (es_Phase (es_Status e)) = false) l).

Definition deduplicateSignals (signals : list Signal) : OM (list Signal) :=
  let* l := list_escalations in
  let* s := mget in
  mret (match l with
        | None => signals
        | Some l => filter (fun sig => sig_Type sig ∉ activeTypes (the_claw s) l) signals
        end).

(** ** Rate limit *)

Definition isRateLimited (cfg : ClawOpsConfig) (clawName : string) : OM bool :=
  let* t := now in
  let* s := mget in
  let recent := filter (fun x => t - hour < x) (default [] (actionCounts s !! clawName)) in
  set_counts (insert clawName recent) ;;;
  mret (MaxActionsPerClawPerHour cfg <=? Z.of_nat (length recent)).

Definition recordAction (clawName : string) : OM unit :=
  let* t := now in
  set_counts (fun m => <[clawName := default [] (m !! clawName) ++ [t]]> m) ;;;
  emit (EvAction clawName t).

(** ** Escalation and automatic execution *)

Definition new_escalation (cfg : ClawOpsConfig) (c : Claw) (sig : Signal) (t : Z) : ClawOpsEscalation :=
  mkEsc (mkMeta "" (Name (Meta c) +:+ "-ops-") (Namespace (Meta c)) "" 0 ∅ None
           [mkOwnerRef "Claw" (Name (Meta c)) (UID (Meta c)) None] [] 0 None)
    (mkEscSpec (Name (Meta c))
       (mkTriggerInfo (sig_Type sig) (sig_Message sig) (Some t) (sig_Count sig))
       (sig_Severity sig) (Some (EscalationTTL cfg)))
    empty_es_status.

Definition pending_status : ClawOpsEscalationStatus :=
  mkEscStatus EscalationPhasePending "" "" "" "" None "" "" "" None "".

Definition escalate (cfg : ClawOpsConfig) (sig : Signal) : OM (result clawops_error unit) :=
  let* t := now in
  let* s := mget in
  let* created := create_escalation (new_escalation cfg (the_claw s) sig t) in
  match created with
  | None => mret (Err ErrCreate)
  | Some e =>
      let* ok := update_status (with_es_status pending_status e) in
      mret (if ok then Ok tt else Err ErrStatus)
  end.

(** The signer is asked once; its failure is logged and leaves no receipt. *)
Definition sign : OM string :=
  let* ok := io in
  if ok then new_uuid else mret ""%string.

Definition auto_status (rule : Rule) (raw : string) (t : Z) (receipt : string) : ClawOpsEscalationStatus :=
  mkEscStatus EscalationPhaseAutoExecuted (rule_ID rule) "" "" raw (Some t) "" receipt "" None "".

Definition autoExecute (cfg : ClawOpsConfig) (sig : Signal) (rule : Rule)
    : OM (result clawops_error unit) :=
  let* receipt := sign in
  let* t := now in
  match buildIntentJSON t rule with
  | None => mret (Err ErrIntentJSON)
  | Some raw =>
      let* ok := write_intent raw in
      if ok then
        let* t := now in
        let* s := mget in
        emit (EvRuleIntent (Name (Meta (the_claw s))) t) ;;;
        let* created := create_escalation (new_escalation cfg (the_claw s) sig t) in
        match created with
        | None => mret (Err ErrCreate)
        | Some e =>
            let* ok := update_status (with_es_status (auto_status rule raw t receipt) e) in
            if ok then
              recordAction (Name (Meta (the_claw s))) ;;;
              let* t' := now in
              set_engine (RecordExecution t' (Name (Meta (the_claw s))) (rule_ID rule)) ;;;
              emit (EvRecord "AutoRemediation") ;;; mret (Ok tt)
            else mret (Err ErrStatus)
        end
      else mret (Err ErrWriteIntent)
  end.

(** ** Reconcile *)

Definition escalate_all (cfg : ClawOpsConfig) (l : list Signal) : OM unit :=
  mfor l (fun sig => let* _ := escalate cfg sig in mret tt).

Definition handle_signals (cfg : ClawOpsConfig) (signals : list Signal) : OM unit :=
  let* s := mget in
  let name := Name (Meta (the_claw s)) in
  let* limited := isRateLimited cfg name in
  if limited then escalate_all cfg signals
  else
    let* t := now in
    let* s := mget in
    match MatchHighestPriority (RuleEngine s) t name signals with
    | None => escalate_all cfg signals
    | Some (sig, rule) =>
        (let* res := autoExecute cfg sig rule in
         match res with
         | Ok _ => mret tt
         | Err _ => let* _ := escalate cfg sig in mret tt
         end) ;;;
        escalate_all cfg (filter (fun x => sig_Type x <> sig_Type sig) signals)
    end.

Definition Reconcile (cfg : ClawOpsConfig) : OM (result clawops_error unit) :=
  (** [r.Get]: a claw that is gone ends the run without an error. *)
  let* got := io in
  if got then
    on_cluster (mmodify (fun k => mkCluster (stored k) (stored k) (pods k))) ;;;
    let* _ := processApprovedEscalations in
    let* _ := gcExpiredEscalations cfg in
    let* signals := collectSignals in
    match signals with
    | Err e => mret (Err e)
    | Ok [] => mret (Ok tt)
    | Ok signals =>
        let* signals := deduplicateSignals signals in
        match signals with
        | [] => mret (Ok tt)
        | _ => handle_signals cfg signals ;;; mret (Ok tt)
        end
    end
  else let* gone := io in mret (if gone then Ok tt else Err ErrGet).

(** ** Mappers *)

Definition podToClaw (p : Pod) : list (string * string) :=
  match Labels (pod_Meta p) !! "claw.prismer.ai/instance"%string with
  | Some clawName => [(Namespace (pod_Meta p), clawName)]
  | None => []
  end.

Definition escalationToClaw (e : ClawOpsEscalation) : list (string * string) :=
  [(Namespace (es_Meta e), ClawRef (es_Spec e))].
End Controller.

(** ** The rate limit *)

(** A clock that does not go back. *)
Definition monotone_clock (w : Oracle) : Prop :=
  forall i j, (i <= j)%nat -> o_now w i <= o_now w j.

Section Rate.
Context `{QuantityLib} (w : Oracle) (cfg : ClawOpsConfig).
Implicit Types r : Run World clawops_event.

(** The times at which an intent of a rule has been written to a claw. *)
Definition intent_times (c : string) (tr : list clawops_event) : list Z :=
  omap (fun e => match e with
                 | EvRuleIntent c' t => if decide (c' = c) then Some t else None
                 | _ => None
                 end) tr.

(** The times of the automatic actions that are counted for a claw. *)
Definition times (c : string) (tr : list clawops_event) : list Z :=
  omap (fun e => match e with
                 | EvAction c' t => if decide (c' = c) then Some t else None
                 | _ => None
                 end) tr.

Definition counts (c : string) r : list Z := default [] (actionCounts (run_st r) !! c).

Definition named (n : string) r : Prop :=
  Name (Meta (claw (cluster (run_st r)))) = n /\ Name (Meta (stored (cluster (run_st r)))) = n.

(** Steps that neither record an action nor read the counts. *)
Definition rate_frame (n : string) r r' : Prop :=
  named n r' /\ actionCounts (run_st r') = actionCounts (run_st r) /\
  (run_tick r <= run_tick r')%nat /\
  forall c, times c (run_trace r') = times c (run_trace r) /\
            intent_times c (run_trace r') = intent_times c (run_trace r).

Lemma intent_times_app c t1 t2 : intent_times c (t1 ++ t2) = intent_times c t1 ++ intent_times c t2.
Proof. apply omap_app. Qed.

Lemma times_app c t1 t2 : times c (t1 ++ t2) = times c t1 ++ times c t2.
Proof. apply omap_app. Qed.

Definition not_action (e : clawops_event) : Prop :=
  match e with EvAction _ _ | EvRuleIntent _ _ => False | _ => True end.

Lemma times_none c l : Forall not_action l -> times c l = [] /\ intent_times c l = [].
Proof. induction 1 as [|[] l He _ IH]; try done. Qed.

Section Frame.
Context (n : string) (r0 : Run World clawops_event).
Abbreviation keeps m := (preserves w (rate_frame n r0) m).

(** A call that takes ticks, changes nothing of the counts or the names, and
    adds no action to the trace. *)
Lemma frame_call {A} (m : M World clawops_event A) :
  (forall r, named n r -> wp w m (fun _ r' => named n r' /\
     actionCounts (run_st r') = actionCounts (run_st r) /\ (run_tick r <= run_tick r')%nat /\
     exists l, run_trace r' = run_trace r ++ l /\ Forall not_action l) r) ->
  keeps m.
Proof.
  intros Hm r (Hn & Hc & Ht & Htr). eapply wp_conseq; [|by apply Hm].
  intros a r' (Hn' & Hc' & Ht' & l & Hl & Hna). split; [done|]. split; [congruence|]. split; [lia|].
  intros c. destruct (times_none c l Hna) as [H1 H2]. destruct (Htr c) as [<- <-].
  by rewrite Hl, times_app, intent_times_app, H1, H2, !app_nil_r.
Qed.

Ltac frame_call :=
  apply frame_call; intros r Hn; wp_step; split; [exact Hn|]; split; [done|]; split; [lia|];
  first [exists []; rewrite app_nil_r; by split | eexists; split; [reflexivity|]; by repeat constructor].

Lemma frame_io : keeps io. Proof. frame_call. Qed.
Lemma frame_now : keeps now. Proof. frame_call. Qed.
Lemma frame_uuid : keeps new_uuid. Proof. frame_call. Qed.
Lemma frame_set_escalations f : keeps (set_escalations f).
Proof. unfold set_escalations. frame_call. Qed.
Lemma frame_set_engine f : keeps (set_engine f).
Proof. unfold set_engine. frame_call. Qed.
Lemma frame_created e : keeps (emit (EvCreated e)). Proof. frame_call. Qed.
Lemma frame_status e : keeps (emit (EvStatus e)). Proof. frame_call. Qed.
Lemma frame_deleted e : keeps (emit (EvDeleted e)). Proof. frame_call. Qed.
Lemma frame_record s : keeps (emit (EvRecord s)). Proof. frame_call. Qed.

Lemma frame_write_intent raw : keeps (write_intent raw).
Proof.
  apply frame_call. intros r [Hc Hs]. unfold write_intent, on_cluster, put_claw, Patch. wp_step.
  cbn [cluster stored claw]. destruct (o_ok w _); wp_step.
  - split; [done|]. split; [done|]. split; [lia|]. eexists. split; [reflexivity|]. by repeat constructor.
  - split; [done|]. split; [done|]. split; [lia|]. exists []. by split.
Qed.
End Frame.

#[local] Hint Resolve frame_io frame_now frame_uuid frame_set_escalations frame_set_engine
  frame_created frame_status frame_deleted frame_record frame_write_intent : preserves.

Lemma frame_list n r0 : preserves w (rate_frame n r0) list_escalations.
Proof. unfold list_escalations. preserve. Qed.
Lemma frame_create n r0 e : preserves w (rate_frame n r0) (create_escalation e).
Proof. unfold create_escalation. preserve. Qed.
Lemma frame_update n r0 e : preserves w (rate_frame n r0) (update_status e).
Proof. unfold update_status. preserve. Qed.
Lemma frame_delete n r0 e : preserves w (rate_frame n r0) (delete_escalation e).
Proof. unfold delete_escalation. preserve. Qed.
#[local] Hint Resolve frame_list frame_create frame_update frame_delete : preserves.

Lemma frame_process n r0 l : preserves w (rate_frame n r0) (process_approved l).
Proof. induction l as [|e l IH]; cbn [process_approved]; preserve. Qed.
Lemma frame_gc n r0 ttl l : preserves w (rate_frame n r0) (gc_escalations ttl l).
Proof. induction l as [|e l IH]; cbn [gc_escalations]; preserve. Qed.
#[local] Hint Resolve frame_process frame_gc : preserves.
Lemma frame_process_all n r0 : preserves w (rate_frame n r0) processApprovedEscalations.
Proof. unfold processApprovedEscalations. preserve. Qed.
Lemma frame_gc_all n r0 : preserves w (rate_frame n r0) (gcExpiredEscalations cfg).
Proof. unfold gcExpiredEscalations. preserve. Qed.
Lemma frame_dedup n r0 l : preserves w (rate_frame n r0) (deduplicateSignals l).
Proof. unfold deduplicateSignals. preserve. Qed.
Lemma frame_escalate n r0 sig : preserves w (rate_frame n r0) (escalate cfg sig).
Proof. unfold escalate. preserve. Qed.
#[local] Hint Resolve frame_escalate : preserves.
Lemma frame_escalate_all n r0 l : preserves w (rate_frame n r0) (escalate_all cfg l).
Proof. unfold escalate_all. preserve. Qed.
#[local] Hint Resolve frame_escalate_all : preserves.

Lemma rate_frame_refl n r : named n r -> rate_frame n r r.
Proof. intros Hn. split; [done|]. split; [done|]. split; [lia|done]. Qed.

Lemma wp_frame {A B} n (m : M World clawops_event A) (k : A -> M World clawops_event B) Q r :
  preserves w (rate_frame n r) m -> named n r ->
  (forall a r', rate_frame n r r' -> wp w (k a) Q r') -> wp w (mbind m k) Q r.
Proof.
  intros Hm Hn Hk. rewrite wp_bind. eapply wp_conseq; [|by apply Hm, rate_frame_refl].
  intros a r' Hr'. by apply Hk.
Qed.

(** *** The invariant *)

Context (Hclock : monotone_clock w).

Definition window (t x : Z) : Prop := t - hour < x <= t.
#[local] Instance window_dec t x : Decision (window t x).
Proof. unfold window. apply _. Defined.

Definition limit : Z := Z.max 0 (MaxActionsPerClawPerHour cfg).

(** What the controller has counted. *)
Definition counted r : Prop :=
  (forall c t, Z.of_nat (length (filter (window t) (times c (run_trace r)))) <= limit) /\
  (forall c x, o_now w (run_tick r) - hour <= x ->
     filter (Z.lt x) (counts c r) = filter (Z.lt x) (times c (run_trace r))) /\
  (forall c, Forall (fun x => x <= o_now w (run_tick r)) (times c (run_trace r))).

(** If every request is answered, each intent is counted, if not at once;
    [owed] is the one that is still to be counted. *)
Definition answered : Prop := forall n, o_ok w n = true.

Definition owes (owed : option (string * Z)) (c : string) : list Z :=
  match owed with Some (n, t) => if decide (n = c) then [t] else [] | None => [] end.

Definition intents_inv (owed : option (string * Z)) r : Prop :=
  (forall c t, Z.of_nat (length (filter (window t) (intent_times c (run_trace r)))) <= limit) /\
  (forall c, Forall2 Z.le (intent_times c (run_trace r)) (times c (run_trace r) ++ owes owed c)).

Definition rate_inv r : Prop := counted r /\ (answered -> intents_inv None r).

Lemma counted_frame n r r' : rate_frame n r r' -> counted r -> counted r'.
Proof.
  intros (_ & Hc & Ht & Htr) (I1 & I2 & I3). apply Hclock in Ht. unfold counted, counts.
  rewrite Hc. split; [|split]; intros c; rewrite (proj1 (Htr c)).
  - apply I1.
  - intros x Hx. apply I2. lia.
  - eapply Forall_impl; [apply I3|]. cbn. lia.
Qed.

Lemma intents_frame n owed r r' : rate_frame n r r' -> intents_inv owed r -> intents_inv owed r'.
Proof.
  intros (_ & _ & _ & Htr) [J1 J2]. split; intros c; destruct (Htr c) as [H1 H2].
  - intros t. rewrite H2. apply J1.
  - rewrite H1, H2. apply J2.
Qed.

Lemma rate_inv_frame n r r' : rate_frame n r r' -> rate_inv r -> rate_inv r'.
Proof.
  intros Hf [Hc Hi]. split; [by eapply counted_frame|]. intros Ha. eapply intents_frame; [exact Hf|auto].
Qed.

(** Time passes, and the cluster changes. *)
Lemma rate_inv_later r r' :
  actionCounts (run_st r') = actionCounts (run_st r) -> (run_tick r <= run_tick r')%nat ->
  run_trace r' = run_trace r -> rate_inv r -> rate_inv r'.
Proof.
  intros Hc Ht Htr [(I1 & I2 & I3) Hi]. apply Hclock in Ht.
  unfold rate_inv, counted, intents_inv, counts. rewrite Hc, Htr. split; [|exact Hi].
  split; [exact I1|]. split.
  - intros c x Hx. apply (I2 c x). lia.
  - intros c. eapply Forall_impl; [apply I3|]. cbn beta. lia.
Qed.

(** Room for one more action of [n] from time [t0] on. *)
Definition room (n : string) (t0 : Z) r : Prop :=
  forall x, t0 - hour <= x ->
    Z.of_nat (length (filter (Z.lt x) (times n (run_trace r)))) < MaxActionsPerClawPerHour cfg.

Lemma room_frame n t0 r r' : rate_frame n r r' -> room n t0 r -> room n t0 r'.
Proof. intros (_ & _ & _ & Htr) Hr x Hx. rewrite (proj1 (Htr n)). by apply Hr. Qed.

Lemma length_filter_mono (P Q : Z -> Prop) `{forall x, Decision (P x)} `{forall x, Decision (Q x)} l :
  (forall x, P x -> Q x) -> (length (filter P l) <= length (filter Q l))%nat.
Proof.
  intros HPQ. induction l as [|x l IH]; [done|]. rewrite !filter_cons.
  destruct (decide (P x)) as [Hp|Hp]; destruct (decide (Q x)) as [Hq|Hq]; cbn [length]; try lia.
  by destruct Hq; apply HPQ.
Qed.

(** Intents are not later than the actions that count them. *)
Lemma length_filter_le x l l' :
  Forall2 Z.le l l' -> (length (filter (Z.lt x) l) <= length (filter (Z.lt x) l'))%nat.
Proof.
  induction 1 as [|a b l l' Hab _ IH]; [done|]. rewrite !filter_cons.
  destruct (decide (x < a)), (decide (x < b)); cbn [length]; lia.
Qed.

Lemma isRateLimited_spec n r :
  named n r -> rate_inv r ->
  wp w (isRateLimited cfg n) (fun b r' => named n r' /\ rate_inv r' /\
    exists t0, t0 <= o_now w (run_tick r') /\ (b = false -> room n t0 r')) r.
Proof.
  intros Hn [(I1 & I2 & I3) Hi]. unfold isRateLimited, set_counts. wp_step.
  set (t := o_now w (run_tick r)). split; [exact Hn|].
  assert (Ht : t <= o_now w (1 + run_tick r)%nat) by (apply Hclock; lia).
  fold (counts n r).
  split.
  - split; [|exact Hi]. split; [exact I1|]. split.
    + intros c x Hx. unfold counts. cbn [run_st run_tick run_trace actionCounts] in *.
      destruct (decide (c = n)) as [->|Hne].
      * rewrite lookup_insert_eq. cbn [default from_option id]. fold (counts n r).
        rewrite <- (I2 n x) by (fold t; lia). rewrite list_filter_filter.
        apply list_filter_iff. intros y. unfold hour in *. lia.
      * rewrite lookup_insert_ne by done. fold (counts c r). apply I2. fold t. lia.
    + intros c. cbn [run_tick run_trace]. eapply Forall_impl; [apply I3|]. cbn beta. fold t. lia.
  - exists t. split; [exact Ht|]. intros Hb x Hx. apply Z.leb_gt in Hb. cbn [run_trace].
    eapply Z.le_lt_trans; [|exact Hb]. apply inj_le. rewrite (I2 n) by (fold t; lia).
    apply length_filter_mono. intros y Hy. lia.
Qed.

Lemma recordAction_spec n t0 t1 r :
  named n r -> counted r -> (answered -> intents_inv (Some (n, t1)) r) ->
  t0 <= o_now w (run_tick r) -> t1 <= o_now w (run_tick r) -> room n t0 r ->
  wp w (recordAction n) (fun _ r' => named n r' /\ rate_inv r') r.
Proof.
  intros Hn (I1 & I2 & I3) Hi Ht0 Ht1 Hroom. unfold recordAction, set_counts. wp_step.
  set (t := o_now w (run_tick r)) in *. split; [exact Hn|].
  assert (Ht : t <= o_now w (1 + run_tick r)%nat) by (apply Hclock; lia).
  assert (Htimes : forall c, times c (run_trace r ++ [EvAction n t]) =
    times c (run_trace r) ++ (if decide (n = c) then [t] else [])).
  { intros c. rewrite times_app. f_equal. cbn. by destruct (decide (n = c)). }
  unfold rate_inv, counted, intents_inv, counts. cbn [run_st run_tick run_trace actionCounts].
  split; [split; [|split]|].
  - intros c u. rewrite Htimes, filter_app, length_app. specialize (I1 c u).
    destruct (decide (n = c)) as [<-|]; [|cbn; lia]. rewrite filter_cons, filter_nil.
    destruct (decide (window u t)) as [Hw|Hw]; [|cbn; lia].
    assert (Hlt : Z.of_nat (length (filter (window u) (times n (run_trace r)))) <
      MaxActionsPerClawPerHour cfg).
    { eapply Z.le_lt_trans; [|apply (Hroom (u - hour))].
      - apply inj_le, length_filter_mono. unfold window. lia.
      - unfold window in Hw. lia. }
    unfold limit. cbn [length]. lia.
  - intros c x Hx. rewrite Htimes, filter_app. rewrite <- (I2 c x) by (fold t; lia).
    destruct (decide (n = c)) as [<-|Hne].
    + rewrite lookup_insert_eq. cbn [default from_option id]. by rewrite filter_app.
    + rewrite lookup_insert_ne by done. cbn. by rewrite app_nil_r.
  - intros c. rewrite Htimes. apply Forall_app. split.
    + eapply Forall_impl; [apply I3|]. cbn beta. fold t. lia.
    + destruct (decide (n = c)); [|done]. by constructor.
  - intros Ha. destruct (Hi Ha) as [J1 J2].
    assert (Hit : forall c, intent_times c (run_trace r ++ [EvAction n t]) = intent_times c (run_trace r)).
    { intros c. rewrite intent_times_app. cbn. apply app_nil_r. }
    split; intros c; rewrite Hit; [apply J1|]. rewrite Htimes. cbn [owes]. rewrite app_nil_r.
    specialize (J2 c). cbn [owes] in J2. destruct (decide (n = c)); [|exact J2].
    apply Forall2_app_inv_r in J2 as (l1 & l2 & H1 & H2 & ->).
    apply Forall2_app; [exact H1|]. apply Forall2_cons_inv_r in H2 as (a & l3 & Ha1 & H3 & ->).
    apply Forall2_nil_inv_r in H3 as ->. repeat constructor. lia.
Qed.

(** An intent of a rule is written while there is room. *)
Lemma rule_intent_spec n t0 r :
  named n r -> rate_inv r -> room n t0 r -> t0 <= o_now w (run_tick r) ->
  let r' := mkRun (run_st r) (1 + run_tick r)%nat
              (run_trace r ++ [EvRuleIntent n (o_now w (run_tick r))]) in
  named n r' /\ counted r' /\ room n t0 r' /\
  (answered -> intents_inv (Some (n, o_now w (run_tick r))) r').
Proof.
  intros Hn [(I1 & I2 & I3) Hi] Hroom Ht0 r'. set (t := o_now w (run_tick r)) in *.
  assert (Ht : t <= o_now w (1 + run_tick r)%nat) by (apply Hclock; lia).
  assert (Htimes : forall c, times c (run_trace r') = times c (run_trace r)).
  { intros c. unfold r'. cbn [run_trace]. rewrite times_app. cbn. apply app_nil_r. }
  split; [exact Hn|]. split; [|split].
  - split; [intros c u; rewrite Htimes; apply I1|]. split; intros c.
    + intros x Hx. rewrite Htimes. apply I2. unfold r' in Hx. cbn [run_tick] in Hx. fold t. lia.
    + rewrite Htimes. eapply Forall_impl; [apply I3|]. unfold r'. cbn [run_tick]. fold t. lia.
  - intros x Hx. rewrite Htimes. by apply Hroom.
  - intros Ha. destruct (Hi Ha) as [J1 J2].
    assert (Hit : forall c, intent_times c (run_trace r') =
      intent_times c (run_trace r) ++ (if decide (n = c) then [t] else [])).
    { intros c. unfold r'. cbn [run_trace]. rewrite intent_times_app. f_equal. cbn. by destruct (decide (n = c)). }
    split; intros c.
    + intros u. rewrite Hit, filter_app, length_app. specialize (J1 c u).
      destruct (decide (n = c)) as [<-|]; [|cbn; lia]. rewrite filter_cons, filter_nil.
      destruct (decide (window u t)) as [Hw|Hw]; [|cbn; lia].
      assert (Hlt : Z.of_nat (length (filter (window u) (intent_times n (run_trace r)))) <
        MaxActionsPerClawPerHour cfg).
      { eapply Z.le_lt_trans; [|apply (Hroom (u - hour))].
        - apply inj_le. etrans; [|apply length_filter_le; specialize (J2 n); cbn [owes] in J2;
            rewrite app_nil_r in J2; exact J2].
          apply length_filter_mono. unfold window. lia.
        - unfold window in Hw. lia. }
      unfold limit. cbn [length]. lia.
    + rewrite Hit, Htimes. specialize (J2 c). cbn [owes] in J2 |- *. rewrite app_nil_r in J2.
      apply Forall2_app; [exact J2|]. destruct (decide (n = c)); by repeat constructor.
Qed.

Lemma create_answered e r :
  wp w (create_escalation e) (fun res _ => answered -> is_Some res) r.
Proof.
  unfold create_escalation, set_escalations. wp_step. destruct (o_ok w (run_tick r)) eqn:E; wp_step.
  - intros _. by eexists.
  - intros Ha. by rewrite Ha in E.
Qed.

Lemma update_answered e r : wp w (update_status e) (fun ok _ => answered -> ok = true) r.
Proof.
  unfold update_status, set_escalations. wp_step. destruct (o_ok w (run_tick r)) eqn:E; wp_step; [done|].
  intros Ha. by rewrite Ha in E.
Qed.

Lemma wp_frame_answered {A B} n (m : M World clawops_event A) (k : A -> M World clawops_event B) (G : A -> Prop) Q r :
  preserves w (rate_frame n r) m -> named n r -> wp w m (fun a _ => answered -> G a) r ->
  (forall a r', rate_frame n r r' -> (answered -> G a) -> wp w (k a) Q r') -> wp w (mbind m k) Q r.
Proof.
  intros Hm Hn HG Hk. rewrite wp_bind.
  eapply wp_conseq; [|apply (wp_and _ _ _ _ _ (Hm r (rate_frame_refl n r Hn)) HG)].
  intros a r' [Hr' Ha]. by apply Hk.
Qed.

Lemma rate_frame_trans n a b c : rate_frame n a b -> rate_frame n b c -> rate_frame n a c.
Proof.
  intros (_ & A1 & A2 & A3) (B0 & B1 & B2 & B3). split; [done|]. split; [congruence|].
  split; [lia|]. intros d. destruct (A3 d) as [<- <-]. apply B3.
Qed.

(** What follows the intent of a rule: the record, and the count. *)
Lemma auto_record_spec n t0 t1 rule raw receipt r :
  named n r -> counted r -> room n t0 r -> (answered -> intents_inv (Some (n, t1)) r) ->
  t0 <= o_now w (run_tick r) -> t1 <= o_now w (run_tick r) ->
  forall e, wp w (let* created := create_escalation e in
    match created with
    | None => mret (Err ErrCreate)
    | Some e =>
        let* ok := update_status (with_es_status (auto_status rule raw t1 receipt) e) in
        if ok then
          recordAction n ;;;
          let* t' := now in
          set_engine (RecordExecution t' n (rule_ID rule)) ;;;
          emit (EvRecord "AutoRemediation") ;;; mret (Ok tt)
        else mret (Err ErrStatus)
    end) (fun _ r' => named n r' /\ rate_inv r') r.
Proof.
  intros Hn Hc Hroom Hi Ht0 Ht1 e.
  assert (Hend : forall r', rate_frame n r r' -> ~ answered -> named n r' /\ rate_inv r').
  { intros r' Hf Hna. split; [apply Hf|]. split; [by eapply counted_frame|done]. }
  apply (wp_frame_answered n _ _ is_Some); [preserve|done|apply create_answered|]. intros created r1 F1 G1.
  destruct created as [e'|].
  2: { wp_step. apply Hend; [done|]. intros Ha. by destruct (G1 Ha). }
  apply (wp_frame_answered n _ _ (fun ok => ok = true)); [preserve|apply F1|apply update_answered|].
  intros ok r2 F2 G2. pose proof (rate_frame_trans _ _ _ _ F1 F2) as F. destruct ok.
  2: { wp_step. apply Hend; [done|]. intros Ha. by specialize (G2 Ha). }
  assert (Hle : o_now w (run_tick r) <= o_now w (run_tick r2)) by apply Hclock, F.
  rewrite wp_bind. eapply wp_conseq; [|apply (recordAction_spec n t0 t1)].
  - intros [] r3 [Hn3 Hi3]. apply (wp_frame n); [preserve|done|]. intros t' r4 F4.
    apply (wp_frame n); [preserve|apply F4|]. intros [] r5 F5. pose proof (rate_frame_trans _ _ _ _ F4 F5) as F6.
    apply (wp_frame n); [preserve|apply F5|]. intros [] r6 F7. pose proof (rate_frame_trans _ _ _ _ F6 F7) as F8.
    wp_step. split; [apply F8|]. by eapply rate_inv_frame.
  - apply F.
  - by eapply counted_frame.
  - intros Ha. eapply intents_frame; [exact F|auto].
  - lia.
  - lia.
  - by eapply room_frame.
Qed.

Lemma autoExecute_spec n t0 sig rule r :
  named n r -> rate_inv r -> t0 <= o_now w (run_tick r) -> room n t0 r ->
  wp w (autoExecute cfg sig rule) (fun _ r' => named n r' /\ rate_inv r') r.
Proof.
  intros Hn Hi Ht0 Hroom. unfold autoExecute.
  assert (Hend : forall r', rate_frame n r r' -> named n r' /\ rate_inv r').
  { intros r' Hf. split; [apply Hf|]. by eapply rate_inv_frame. }
  apply (wp_frame n); [unfold sign; preserve|done|]. intros receipt r1 F1.
  apply (wp_frame n); [preserve|apply F1|]. intros t r2 F2. pose proof (rate_frame_trans _ _ _ _ F1 F2) as G2.
  destruct (buildIntentJSON t rule) as [raw|]; [|wp_step; by apply Hend].
  apply (wp_frame n); [preserve|apply F2|]. intros ok r3 F3. pose proof (rate_frame_trans _ _ _ _ G2 F3) as G3.
  destruct ok; [|wp_step; by apply Hend].
  rewrite wp_bind, wp_now, wp_bind, wp_mget. cbn [run_st]. unfold the_claw.
  rewrite (proj1 (proj1 F3)), wp_bind, wp_emit. cbn [run_st run_tick run_trace].
  assert (Hle : o_now w (run_tick r) <= o_now w (run_tick r3)) by apply Hclock, G3.
  destruct (rule_intent_spec n t0 r3) as (Hn4 & Hc4 & Hroom4 & Hi4);
    [apply G3|by eapply rate_inv_frame|by eapply room_frame|lia|].
  assert (Hnow : o_now w (run_tick r3) <= o_now w (1 + run_tick r3)%nat) by (apply Hclock; lia).
  apply (auto_record_spec n t0 (o_now w (run_tick r3)) rule raw receipt); [done..| |]; cbn [run_tick]; lia.
Qed.

Lemma handle_signals_spec n signals r :
  named n r -> rate_inv r -> wp w (handle_signals cfg signals) (fun _ => rate_inv) r.
Proof.
  intros Hn Hi. unfold handle_signals. wp_step. unfold the_claw at 1. rewrite (proj1 Hn).
  eapply wp_conseq; [|by apply isRateLimited_spec].
  assert (Hesc : forall l r1, named n r1 -> rate_inv r1 -> wp w (escalate_all cfg l) (fun _ => rate_inv) r1).
  { intros l r1 Hn1 Hi1. eapply wp_conseq; [|by apply (frame_escalate_all n r1), rate_frame_refl].
    intros [] r2 F2. by eapply rate_inv_frame. }
  intros limited r1 (Hn1 & Hi1 & t0 & Ht0 & Hroom). destruct limited; [by apply Hesc|].
  apply (wp_frame n); [preserve|done|]. intros t r2 F2. rewrite wp_bind, wp_mget.
  unfold the_claw. rewrite (proj1 Hn).
  destruct (MatchHighestPriority _ _ _ _) as [[sig rule]|];
    [|apply Hesc; [apply F2|by eapply rate_inv_frame]].
  rewrite !wp_bind. eapply wp_conseq; [|apply (autoExecute_spec n t0)].
  - intros res r3 [Hn3 Hi3]. destruct res as [u|e]; [rewrite wp_ret; by apply Hesc|].
    rewrite wp_bind. eapply wp_conseq; [|by apply (frame_escalate n r3), rate_frame_refl].
    intros res r4 F4. rewrite wp_ret. apply Hesc; [apply F4|exact (rate_inv_frame _ _ _ F4 Hi3)].
  - apply F2.
  - by eapply rate_inv_frame.
  - etrans; [exact Ht0|]. apply Hclock, F2.
  - eapply room_frame; [exact F2|]. by apply Hroom.
Qed.

Lemma Reconcile_rate : preserves w rate_inv (Reconcile cfg).
Proof.
  intros r Hi. unfold Reconcile. rewrite wp_bind, wp_io.
  destruct (o_ok w (run_tick r)).
  - rewrite wp_bind. unfold on_cluster. rewrite wp_zoom, wp_mmodify. cbn [run_st run_tick run_trace map]. rewrite app_nil_r.
    set (r1 := mkRun _ _ _). set (n := Name (Meta (stored (cluster (run_st r))))).
    assert (Hn1 : named n r1) by done.
    assert (Hi1 : rate_inv r1) by (apply (rate_inv_later r); [done|cbn; lia|done|exact Hi]).
    clearbody r1 n. clear Hi.
    rewrite wp_bind. eapply wp_conseq; [|by apply (frame_process_all n r1), rate_frame_refl].
    intros res r2 F2. rewrite wp_bind. eapply wp_conseq; [|apply (frame_gc_all n r1); exact F2].
    intros res2 r3 F3. rewrite wp_bind. unfold collectSignals. wp_step.
    assert (Fio : forall q, rate_frame n r1 q -> rate_frame n r1 (mkRun (run_st q) (S (run_tick q)) (run_trace q))).
    { intros q (A0 & A1 & A2 & A3). split; [exact A0|]. split; [done|]. split; [cbn [run_tick]; lia|done]. }
    pose proof (Fio _ F3) as F4. pose proof (rate_inv_frame _ _ _ F4 Hi1) as Hi4.
    destruct (o_ok w (run_tick r3)); wp_step; [|exact Hi4].
    destruct (flat_map _ _) as [|sig l]; [rewrite wp_ret; exact Hi4|].
    rewrite wp_bind. eapply wp_conseq; [|apply (frame_dedup n r1); exact F4].
    intros signals r5 F5. destruct signals; [rewrite wp_ret; exact (rate_inv_frame _ _ _ F5 Hi1)|].
    rewrite wp_bind. eapply wp_conseq; [|apply (handle_signals_spec n); [apply F5|exact (rate_inv_frame _ _ _ F5 Hi1)]].
    intros [] r6 Hr6. by wp_step.
  - wp_step. apply (rate_inv_later r); [done|cbn; lia|done|exact Hi].
Qed.
End Rate.

(** ** The approval gate *)

Section Gate.
Context `{QuantityLib} (w : Oracle) (cfg : ClawOpsConfig) (s0 : World).
Implicit Types r : Run World clawops_event.

(** The intents the controller may write: the one it found, the proposal of
    an approved escalation, the intent of a rule. *)
Definition allowed_intent (raw : string) : Prop :=
  annotation (Meta (stored (cluster s0))) AnnotationOpsIntent = Some raw \/
  (exists e0, e0 ∈ escalations s0 /\ es_Phase (es_Status e0) = EscalationPhaseApproved /\
     ProposedAction (es_Status e0) = raw) \/
  (exists t rule, rule ∈ rules (RuleEngine s0) /\ buildIntentJSON t rule = Some raw).

(** An escalation that is executed was so before, or was approved with this
    action. *)
Definition gated (e : ClawOpsEscalation) : Prop :=
  es_Phase (es_Status e) = EscalationPhaseExecuted ->
  exists e0, e0 ∈ escalations s0 /\ same_object e e0 = true /\
    (es_Phase (es_Status e0) = EscalationPhaseExecuted \/
     es_Phase (es_Status e0) = EscalationPhaseApproved /\
     ExecutedAction (es_Status e) = ProposedAction (es_Status e0)).

Definition gate r : Prop :=
  Forall gated (escalations (run_st r)) /\
  (forall raw, annotation (Meta (stored (cluster (run_st r)))) AnnotationOpsIntent = Some raw ->
     allowed_intent raw) /\
  rules (RuleEngine (run_st r)) = rules (RuleEngine s0).

Abbreviation keeps m := (preserves w gate m).

Lemma gate_io : keeps io. Proof. by intros r Hr. Qed.
Lemma gate_now : keeps now. Proof. by intros r Hr. Qed.
Lemma gate_uuid : keeps new_uuid. Proof. by intros r Hr. Qed.
Lemma gate_emit e : keeps (emit e). Proof. by intros r Hr. Qed.
Lemma gate_counts f : keeps (set_counts f). Proof. by intros r Hr. Qed.
Lemma gate_execution t c id : keeps (set_engine (RecordExecution t c id)).
Proof. by intros r Hr. Qed.
#[local] Hint Resolve gate_io gate_now gate_uuid gate_emit gate_counts gate_execution : preserves.

Lemma gate_list : keeps list_escalations.
Proof. unfold list_escalations. preserve. Qed.
#[local] Hint Resolve gate_list : preserves.

Lemma gate_set_escalations f :
  (forall l, Forall gated l -> Forall gated (f l)) -> keeps (set_escalations f).
Proof.
  intros Hf r (H1 & H2 & H3). unfold set_escalations. wp_step.
  split; [by apply Hf|]. by split.
Qed.

Lemma gate_create e : keeps (create_escalation e).
Proof.
  unfold create_escalation. preserve. apply gate_set_escalations. intros l Hl.
  apply Forall_app. split; [done|]. constructor; [|done]. done.
Qed.
#[local] Hint Resolve gate_create : preserves.

Lemma gate_update e :
  (es_Phase (es_Status e) = EscalationPhaseExecuted ->
     exists e0, e0 ∈ escalations s0 /\ same_object e e0 = true /\
       es_Phase (es_Status e0) = EscalationPhaseApproved /\
       ExecutedAction (es_Status e) = ProposedAction (es_Status e0)) ->
  keeps (update_status e).
Proof.
  intros He. unfold update_status. preserve. apply gate_set_escalations. intros l Hl.
  apply Forall_map. eapply Forall_impl; [exact Hl|]. cbn. intros x Hx.
  destruct (same_object x e) eqn:Eo; [|done]. intros Hp. cbn [with_es_status es_Status] in *.
  destruct (He Hp) as (e0 & Hin & Ho & Ha & Hact). exists e0. split; [done|]. split; [|by right].
  unfold same_object, with_es_status in *. cbn [es_Meta]. split_bools.
  repeat match goal with Hb : bool_decide _ = true |- _ => apply bool_decide_eq_true in Hb end.
  apply andb_true_iff. split; apply bool_decide_eq_true; congruence.
Qed.

Lemma gate_pending e : keeps (update_status (with_es_status pending_status e)).
Proof. by apply gate_update. Qed.
Lemma gate_auto_status rule raw t receipt e :
  keeps (update_status (with_es_status (auto_status rule raw t receipt) e)).
Proof. by apply gate_update. Qed.
#[local] Hint Resolve gate_pending gate_auto_status : preserves.

Lemma gate_delete e : keeps (delete_escalation e).
Proof.
  unfold delete_escalation. preserve. apply gate_set_escalations. intros l Hl.
  rewrite Forall_forall in Hl |- *. intros x [_ Hx]%list_elem_of_filter. by apply Hl.
Qed.

#[local] Hint Resolve gate_delete : preserves.

Lemma gate_write_intent raw : allowed_intent raw -> keeps (write_intent raw).
Proof.
  intros Ha r (H1 & H2 & H3). unfold write_intent, on_cluster, put_claw, Patch. wp_step.
  cbn [cluster stored claw]. destruct (o_ok w _); wp_step; [|done].
  split; [done|]. split; [|done]. cbn [run_st set_cluster cluster stored].
  intros raw'. rewrite annotation_patch. unfold set_meta. cbn [run_st cluster stored claw Meta].
  rewrite annotation_put, (decide_True (P := AnnotationOpsIntent = _)) by done.
  case_decide; [apply H2|]. by intros [= <-].
Qed.

Lemma gate_process l : (forall e, e ∈ l -> e ∈ escalations s0) -> keeps (process_approved l).
Proof.
  induction l as [|e l IH]; intros Hl; cbn [process_approved]; [preserve|].
  assert (IHl : keeps (process_approved l)) by (apply IH; intros x Hx; apply Hl; by right).
  assert (He : e ∈ escalations s0) by (apply Hl; by left).
  apply preserves_bind; [preserve|]. intros s. destruct (is_approved _ e) eqn:Ea; [|exact IHl].
  unfold is_approved in Ea. split_bools.
  repeat match goal with Hb : bool_decide _ = true |- _ => apply bool_decide_eq_true in Hb end.
  apply preserves_bind; [apply gate_write_intent; right; left; by exists e|].
  intros []; [|preserve]. apply preserves_bind; [preserve|]. intros t.
  apply preserves_bind; [|intros []; preserve].
  apply gate_update. intros _. exists e. split; [done|]. split; [|done].
  unfold same_object. cbn [es_Meta with_es_status]. by rewrite !bool_decide_true.
Qed.

Lemma gate_gc ttl l : keeps (gc_escalations ttl l).
Proof.
  induction l as [|e l IH]; cbn [gc_escalations]; preserve.
Qed.

Lemma gate_escalate sig : keeps (escalate cfg sig).
Proof. unfold escalate. preserve. Qed.
#[local] Hint Resolve gate_gc gate_escalate : preserves.

Lemma gate_escalate_all l : keeps (escalate_all cfg l).
Proof. unfold escalate_all. preserve. Qed.
#[local] Hint Resolve gate_escalate_all : preserves.

Lemma gate_auto sig rule : rule ∈ rules (RuleEngine s0) -> keeps (autoExecute cfg sig rule).
Proof.
  intros Hr. unfold autoExecute, sign, recordAction.
  assert (Hw : forall t raw, buildIntentJSON t rule = Some raw -> keeps (write_intent raw)).
  { intros t raw Ht. apply gate_write_intent. right. right. eauto. }
  apply preserves_bind; [preserve|]. intros receipt. apply preserves_bind; [preserve|]. intros t.
  destruct (buildIntentJSON t rule) as [raw|] eqn:Ej; [|preserve].
  apply preserves_bind; [by apply (Hw t)|]. intros ok. preserve.
Qed.

Lemma gate_handle signals : keeps (handle_signals cfg signals).
Proof.
  intros r Hr. unfold handle_signals. rewrite wp_bind, wp_mget, wp_bind.
  eapply wp_conseq; [|unshelve eapply (_ : keeps (isRateLimited cfg _)); [|exact Hr]; unfold isRateLimited; preserve].
  intros limited r1 H1. destruct limited; [by apply gate_escalate_all|].
  rewrite wp_bind. eapply wp_conseq; [|by apply gate_now]. intros t r2 H2. rewrite wp_bind, wp_mget.
  destruct (MatchHighestPriority _ _ _ _) as [[sig rule]|] eqn:Em; [|by apply gate_escalate_all].
  assert (Hrule : rule ∈ rules (RuleEngine s0)).
  { rewrite <- (proj2 (proj2 H2)).
    pose proof (match_fold_best (RuleEngine (run_st r2)) t
      (Name (Meta (the_claw (run_st r)))) signals) as Hb.
    unfold MatchHighestPriority in Em. destruct (foldl _ _ _) as [best rank].
    destruct (0 <=? rank); [|done]. subst best. unfold best_of in Hb. cbn [fst] in Hb.
    destruct Hb as (_ & Hm & _). apply find_first_Some in Hm as (l1 & l2 & -> & _).
    apply elem_of_app. right. by left. }
  revert r2 H2 Em. intros r2 H2 _. revert r2 H2.
  change (keeps (mbind (mbind (autoExecute cfg sig rule) (fun res => match res with
    | Ok _ => mret tt | Err _ => let* _ := escalate cfg sig in mret tt end))
    (fun _ => escalate_all cfg (filter (fun x => sig_Type x <> sig_Type sig) signals)))).
  apply preserves_bind; [|intros _; apply gate_escalate_all].
  apply preserves_bind; [by apply gate_auto|]. intros res. preserve.
Qed.

#[local] Hint Resolve gate_handle : preserves.

Lemma gate_reconcile r :
  run_st r = s0 -> wp w (Reconcile cfg) (fun _ => gate) r.
Proof.
  intros Hs. assert (Hr : gate r).
  { unfold gate. rewrite Hs. split; [|split; [intros raw Hraw; by left|done]].
    apply Forall_forall. intros e He Hp. exists e. split; [done|]. split; [|by left].
    unfold same_object. by rewrite !bool_decide_true. }
  unfold Reconcile. rewrite wp_bind, wp_io. destruct (o_ok w (run_tick r)); [|by wp_step].
  rewrite wp_bind. unfold on_cluster. rewrite wp_zoom, wp_mmodify. cbn [run_st run_tick run_trace map].
  rewrite wp_bind. unfold processApprovedEscalations at 1, list_escalations.
  set (r1 := mkRun _ _ _). assert (H1 : gate r1) by exact Hr. rewrite !wp_bind, wp_io, wp_bind, wp_mget, wp_ret.
  cbn [run_st]. set (r2 := mkRun _ _ _). assert (H2 : gate r2) by exact Hr.
  assert (Hrest : forall r3, gate r3 -> wp w (let* _ := gcExpiredEscalations cfg in
    let* signals := collectSignals in
    match signals with
    | Err e => mret (Err e)
    | Ok [] => mret (Ok tt)
    | Ok ((_ :: _) as signals) =>
        let* signals := deduplicateSignals signals in
        match signals with [] => mret (Ok tt) | _ => handle_signals cfg signals ;;; mret (Ok tt) end
    end) (fun _ => gate) r3).
  { assert (Hk : keeps (let* _ := gcExpiredEscalations cfg in
      let* signals := collectSignals in
      match signals with
      | Err e => mret (Err e)
      | Ok [] => mret (Ok tt)
      | Ok ((_ :: _) as signals) =>
          let* signals := deduplicateSignals signals in
          match signals with [] => mret (Ok tt) | _ => handle_signals cfg signals ;;; mret (Ok tt) end
      end)); [|exact Hk].
    unfold gcExpiredEscalations, collectSignals, deduplicateSignals. preserve. }
  destruct (o_ok w (run_tick r1)).
  - eapply wp_conseq; [|apply gate_process; [|exact H2]].
    + intros res r3 H3. by apply Hrest.
    + intros e He. apply list_elem_of_filter in He as [_ He]. cbn [run_st r1 set_cluster escalations] in He.
      by rewrite Hs in He.
  - rewrite wp_ret. by apply Hrest.
Qed.
End Gate.

(** ** Sequences of reconciliations *)

(** Between two runs the cluster may change at will, and the next request may
    be for another claw; the controller's memory stays. *)
Inductive controller_step `{QuantityLib} :=
| SWorld (k : Cluster) (l : list ClawOpsEscalation)
| SReconcile.

Definition run_step `{QuantityLib} (cfg : ClawOpsConfig) (o : controller_step)
    : M World clawops_event unit :=
  match o with
  | SWorld k l => mmodify (fun s => mkWorld k l (RuleEngine s) (actionCounts s))
  | SReconcile => let* _ := Reconcile cfg in mret tt
  end.

Lemma run_step_rate `{QuantityLib} w cfg o :
  monotone_clock w -> preserves w (rate_inv w cfg) (run_step cfg o).
Proof.
  intros Hclock. destruct o as [k l|]; cbn [run_step].
  - intros r Hi. wp_step. exact Hi.
  - apply preserves_bind; [by apply Reconcile_rate|]. preserve.
Qed.

(** What the built-in rules of type PatchResource have in common. *)
Definition patch_rule_okb (rule : Rule) : bool :=
  negb (bool_decide (act_Type (rule_Action rule) = ActionPatchResource)) ||
  bool_decide (act_Params (rule_Action rule) !! "target"%string = None) &&
  bool_decide (ruleActionToIntentAction rule ∈ ["bump-memory"; "bump-cpu"]%string) &&
  utf8_str (ruleActionToIntentAction rule) &&
  forallb (fun kv => utf8_str (kv.1) && utf8_str (kv.2)) (map_to_list (act_Params (rule_Action rule))).

Lemma patch_rules_ok : forallb patch_rule_okb DefaultRules = true.
Proof. vm_compute. reflexivity. Qed.

Lemma patch_rule_spec rule :
  rule ∈ DefaultRules -> act_Type (rule_Action rule) = ActionPatchResource ->
  act_Params (rule_Action rule) !! "target"%string = None /\
  ruleActionToIntentAction rule ∈ ["bump-memory"; "bump-cpu"]%string /\
  utf8_str (ruleActionToIntentAction rule) = true /\
  map_Forall (fun k v => utf8_str k = true /\ utf8_str v = true) (act_Params (rule_Action rule)).
Proof.
  intros Hin Hty. pose proof patch_rules_ok as H. rewrite forallb_forall in H.
  apply list_elem_of_In in Hin. specialize (H rule Hin). clear Hin. unfold patch_rule_okb in H.
  rewrite Hty, bool_decide_true in H by done. cbn [negb orb] in H. rewrite !andb_true_iff in H.
  destruct H as [[[H1 H2] H3] H4]. apply bool_decide_eq_true in H1, H2. split; [done|]. split; [done|].
  split; [done|]. intros k v Hk. rewrite forallb_forall in H4.
  apply elem_of_map_to_list, list_elem_of_In, H4, andb_true_iff in Hk. exact Hk.
Qed.

(** ** Properties *)

(** C33: The rate limit holds.  As long as the clock does not go back and the
    requests are answered, rules write intents to one claw name at most
    MaxActionsPerClawPerHour times in any hour, whatever happens to the cluster
    between and during the reconciliations.  When requests fail the limit
    holds of the actions that were recorded; an intent whose record could not
    be created is not counted. *)
Theorem rate_limit_respected `{QuantityLib} (w : Oracle) (cfg : ClawOpsConfig) (k : Cluster)
    (l : list ClawOpsEscalation) (e : Engine) (steps : list controller_step) (c : string) (t : Z) :
  monotone_clock w -> 0 <= MaxActionsPerClawPerHour cfg ->
  let r := snd (exec (mfor steps (run_step cfg)) w (mkWorld k l e ∅)) in
  let in_hour l := Z.of_nat (length (filter (fun x => t - hour < x <= t) l)) in
  (answered w -> in_hour (intent_times c (run_trace r)) <= MaxActionsPerClawPerHour cfg) /\
  in_hour (times c (run_trace r)) <= MaxActionsPerClawPerHour cfg.
Proof.
  intros Hclock Hmax.
  assert (Hi : wp w (mfor steps (run_step cfg)) (fun _ => rate_inv w cfg) (mkRun (mkWorld k l e ∅) 0 [])).
  { apply preserves_mfor; [intros o _; by apply run_step_rate|].
    unfold rate_inv, counted, intents_inv, counts, limit.
    cbn [run_trace run_st actionCounts]. split; [split; [|split]|intros _; split].
    - intros d u. cbn [times omap list_omap]. rewrite filter_nil. cbn. lia.
    - intros d x _. by rewrite lookup_empty.
    - by intros d.
    - intros d u. cbn [intent_times omap list_omap]. rewrite filter_nil. cbn. lia.
    - intros d. constructor. }
  unfold wp, exec in *. destruct (mfor steps _ w _) as [[] r]. destruct Hi as [(Hi & _) Hj]. cbn [snd].
  assert (Hlim : limit cfg <= MaxActionsPerClawPerHour cfg) by (unfold limit; lia).
  assert (Hwin : forall l0, Z.of_nat (length (filter (window t) l0)) <= limit cfg ->
    Z.of_nat (length (filter (fun x => t - hour < x <= t) l0)) <= MaxActionsPerClawPerHour cfg).
  { intros l0 H0. etrans; [|exact Hlim]. etrans; [|exact H0]. apply inj_le, length_filter_mono. by unfold window. }
  split; [intros Ha|]; apply Hwin; [by apply (Hj Ha)|apply Hi].
Qed.

(** C34: Nothing is executed without a rule or an approval.  After a
    reconciliation an escalation in phase Executed was already executed or
    was Approved with that very action, and the intent on the claw is the one
    that was there, the proposal of an Approved escalation, or the intent of
    a rule of the engine. *)
Theorem approval_gate `{QuantityLib} (w : Oracle) (cfg : ClawOpsConfig) (s : World) :
  let s' := run_st (snd (exec (Reconcile cfg) w s)) in
  Forall (gated s) (escalations s') /\
  (forall raw, annotation (Meta (stored (cluster s'))) AnnotationOpsIntent = Some raw ->
     allowed_intent s raw).
Proof.
  pose proof (gate_reconcile w cfg s (mkRun s 0 []) eq_refl) as Hg.
  unfold exec, wp in *. destruct (Reconcile cfg w _) as [res r]. by destruct Hg as (? & ? & _).
Qed.

(** C38: The built-in resource rules do nothing.  Their parameters name a field,
    a strategy and a maximum, but the consumer wants a target: the intent a
    rule of type PatchResource produces is well formed and always rejected. *)
Theorem builtin_patch_rules_rejected `{QuantityLib} (t : Z) (rule : Rule) :
  0 <= t < 2 ^ 63 -> rule ∈ DefaultRules -> act_Type (rule_Action rule) = ActionPatchResource ->
  exists raw, buildIntentJSON t rule = Some raw /\
    ValidateIntent raw = Ok (rule_intent t rule) /\
    buildIntentPatch (rule_intent t rule) = Err (ErrMissingParam "target").
Proof.
  intros Ht Hin Hty. destruct (patch_rule_spec rule Hin Hty) as (Hnone & Hact & Hutf & Hmap).
  assert (Hok : json_ok (rule_intent t rule)).
  { split; [|exact Hmap]. cbn [Action in_Source EscalationRef Generation rule_intent]. rewrite Hutf.
    cbn [andb]. apply between_spec. unfold UnixMilli.
    pose proof (Z.div_pos t 1000000 ltac:(lia) ltac:(lia)).
    pose proof (Z.div_le_upper_bound t 1000000 (2 ^ 63 - 1) ltac:(lia) ltac:(lia)). lia. }
  destruct (marshal (rule_intent t rule)) as [b|] eqn:Em; [|done].
  exists (String.string_of_list_ascii b). split; [unfold buildIntentJSON; by rewrite Em|].
  assert (Hparam : param (rule_intent t rule) "target" = None).
  { unfold param. cbn [rule_intent Params base.mbind option_bind]. by rewrite Hnone. }
  split.
  - unfold ValidateIntent, bytes_of. rewrite String.list_ascii_of_string_of_list_ascii.
    rewrite (marshal_unmarshal _ _ Hok Em). change (json_norm (rule_intent t rule)) with (rule_intent t rule).
    cbn [rule_intent Action].
    apply elem_of_cons in Hact as [->|Hact]; [reflexivity|].
    apply list_elem_of_singleton in Hact as ->. reflexivity.
  - unfold buildIntentPatch. rewrite Hparam. cbn [rule_intent Action].
    apply elem_of_cons in Hact as [->|Hact]; [reflexivity|].
    apply list_elem_of_singleton in Hact as ->. reflexivity.
Qed.

(** ** Witnesses *)

Definition crash_pod : Pod :=
  mkPod (mkMeta "agent-0" "" "default" "p" 1 (list_to_map [("claw.prismer.ai/instance", "agent")]%string)
           None [] [] 0 None) "Running" "" ""
    [mkContainerStatus "runtime" 7 None (Some "CrashLoopBackOff"%string)].

Definition crash_cluster : Cluster (H := int_quantities) :=
  mkCluster (H := int_quantities) (sample_claw []) (sample_claw []) [crash_pod].

Lemma rate_limit_respected_witness :
  let steps := [SReconcile; SWorld crash_cluster []; SReconcile] in
  let r := snd (exec (mfor steps (run_step (H := int_quantities) DefaultClawOpsConfig)) all_ok
                 (mkWorld crash_cluster [] (NewEngine DefaultRules) ∅)) in
  intent_times "agent" (run_trace r) = [1700000000000000000] /\
  times "agent" (run_trace r) = [1700000000000000000] /\
  Z.of_nat (length (filter (fun x => 1700000000000000000 - hour < x <= 1700000000000000000)
    (intent_times "agent" (run_trace r)))) <= 5.
Proof.
  intros steps r. split; [vm_compute; reflexivity|]. split; [vm_compute; reflexivity|].
  apply (proj1 (rate_limit_respected (H := int_quantities) all_ok DefaultClawOpsConfig crash_cluster []
    (NewEngine DefaultRules) steps "agent" 1700000000000000000 (fun i j _ => Z.le_refl _)
    ltac:(vm_compute; discriminate))).
  intros n. reflexivity.
Defined.

(** The API server refuses to create escalations.  Each run takes fifteen
    effects, of which these are the two requests to create one. *)
Definition creates_refused : Oracle :=
  mkOracle (fun n => negb ((n mod 15 =? 12)%nat || (n mod 15 =? 14)%nat)) (o_uuid all_ok) (o_now all_ok) (o_len all_ok).

(** Then nothing is counted: every run writes the intent of the rule again. *)
Example uncounted_intents :
  let r := snd (exec (mfor (repeat SReconcile 20) (run_step (H := int_quantities) DefaultClawOpsConfig)) creates_refused
                 (mkWorld crash_cluster [] (NewEngine DefaultRules) ∅)) in
  length (intent_times "agent" (run_trace r)) = 20%nat /\ times "agent" (run_trace r) = [].
Proof. vm_compute. done. Qed.

Definition oom_rule : Rule :=
  mkRule "oom-bump-memory" (mkMatch TriggerOOMKilled SeverityHigh 2)
    (mkAction ActionPatchResource
       (list_to_map [("field", "memory-limit"); ("strategy", "multiply-1.5"); ("max", "4Gi")]%string))
    (30 * minute).

Lemma builtin_patch_rules_rejected_witness :
  exists raw, buildIntentJSON 1700000000000000000 oom_rule = Some raw /\
    ValidateIntent raw = Ok (rule_intent 1700000000000000000 oom_rule) /\
    buildIntentPatch (H := int_quantities) (rule_intent 1700000000000000000 oom_rule) =
    Err (ErrMissingParam "target").
Proof.
  apply (builtin_patch_rules_rejected (H := int_quantities)).
  - lia.
  - left.
  - reflexivity.
Defined.

Definition approved (name raw : string) : ClawOpsEscalation :=
  mkEsc (mkMeta name "" "default" name 1 ∅ None [] [] 1700000000000000000 None)
    (mkEscSpec "agent" (mkTriggerInfo TriggerOOMKilled "" None 3) SeverityHigh None)
    (mkEscStatus EscalationPhaseApproved "" "" raw "" None "" "" "" None "").

Definition proposal (gen : Z) : string := intent_json (sample_intent "restart-pod" [] gen).

Definition after_reconcile (annotations : list (string * string)) (l : list ClawOpsEscalation) : World :=
  let c := sample_claw annotations in
  run_st (snd (exec (Reconcile (H := int_quantities) DefaultClawOpsConfig) all_ok
    (mkWorld (mkCluster (H := int_quantities) c c []) l (NewEngine DefaultRules) ∅))).

(** Two escalations approved at the same time are both marked Executed, but
    the second proposal replaces the first before anything consumes it. *)
Example approved_overwritten :
  let s := after_reconcile [] [approved "e1" (proposal 5); approved "e2" (proposal 6)] in
  map (fun e => es_Phase (es_Status e)) (escalations s) =
    [EscalationPhaseExecuted; EscalationPhaseExecuted] /\
  annotation (Meta (stored (cluster s))) AnnotationOpsIntent = Some (proposal 6).
Proof. vm_compute. done. Qed.

(** A proposal was stamped with the time of its analysis.  If a later intent
    has been processed before a human approves it, the escalation is marked
    Executed and the consumer ignores the intent as stale. *)
Example approved_stale_ignored :
  let s := after_reconcile [(AnnotationOpsIntentGen, "9"%string)] [approved "e1" (proposal 5)] in
  map (fun e => es_Phase (es_Status e)) (escalations s) = [EscalationPhaseExecuted] /\
  annotation (Meta (stored (cluster s))) AnnotationOpsIntent = Some (proposal 5) /\
  parseOpsIntent (Meta (stored (cluster s))) = Ok None.
Proof. vm_compute. done. Qed.

(** Claws of the same name in different namespaces share one rate limit and
    one cooldown: the memory is keyed by the name alone. *)
Example namesakes_share_cooldown :
  let e := RecordExecution 1000 "agent" "r" (NewEngine [mkRule "r" (mkMatch TriggerCrashLoop "" 0)
             (mkAction ActionRestartPod ∅) 100]) in
  Match e 1050 "agent" (mkSignal TriggerCrashLoop SeverityHigh 1 "in another namespace" "pod-status") = None.
Proof. reflexivity. Qed.
