(* ===== verification/OpenEscalations.v ===== *)
(** * Open escalations (internal/controller/clawops_controller.go)

    While an escalation of a claw is open, the ops controller raises no other
    one for the same kind of trigger, and does not collect the open one as
    garbage: an escalation that nobody will ever finish silences its trigger. *)

From S2P Require Import Prelude.
From S2P Require Import GoStrings.
From S2P Require Import Json.
From S2P Require Import Message.
From S2P Require Import Api.
From S2P Require Import Samples.
From S2P Require Import Rules.
From S2P Require Import OpsIntent.
From S2P Require Import ClawOps.

Section Silence.
Context `{QuantityLib} (w : Oracle) (cfg : ClawOpsConfig).
(** Every request succeeds. *)
Context (Hok : forall n, o_ok w n = true).
(** The open escalation, of the claw [n] in namespace [ns]. *)
Context (e : ClawOpsEscalation) (n ns : string).
Context (Href : ClawRef (es_Spec e) = n) (Hns : Namespace (es_Meta e) = ns).
Context (Hopen : IsTerminalPhase (es_Phase (es_Status e)) = false)
        (Hnot : es_Phase (es_Status e) <> EscalationPhaseApproved).
Implicit Types r : Run World clawops_event.

Abbreviation ty := (tr_Type (Trigger (es_Spec e))).

(** Nobody else has its name. *)
Definition only_one (l : list ClawOpsEscalation) : Prop :=
  e ∈ l /\ forall x, x ∈ l -> same_object e x = true -> x = e.

Definition is_ours (c : Claw) : Prop := Name (Meta c) = n /\ Namespace (Meta c) = ns.

Definition about_claw r : Prop :=
  is_ours (claw (cluster (run_st r))) /\ is_ours (stored (cluster (run_st r))).

(** No escalation of that trigger was created. *)
Definition silent r : Prop :=
  forall e', EvCreated e' ∈ run_trace r -> tr_Type (Trigger (es_Spec e')) <> ty.

(** Up to the point where the signals are filtered. *)
Definition still_open r : Prop :=
  about_claw r /\ silent r /\ only_one (escalations (run_st r)).

(** From there on. *)
Definition quiet r : Prop := about_claw r /\ silent r.

Lemma silent_emit r ev :
  silent r -> match ev with EvCreated e' => tr_Type (Trigger (es_Spec e')) <> ty | _ => True end ->
  silent (mkRun (run_st r) (run_tick r) (run_trace r ++ [ev])).
Proof.
  intros Hs Hev e' [Hin|Hin]%elem_of_app; [by apply Hs|].
  apply list_elem_of_singleton in Hin as <-. exact Hev.
Qed.

Definition one_of (I : Run World clawops_event -> Prop) : Prop := I = still_open \/ I = quiet.

Lemma one_open : one_of still_open. Proof. by left. Qed.
Lemma one_quiet : one_of quiet. Proof. by right. Qed.

(** Both invariants are kept by what touches neither claw nor list. *)
Section Either.
Context (I : Run World clawops_event -> Prop) (HI : one_of I).
Abbreviation keeps m := (preserves w I m).

Lemma open_io : keeps io. Proof using HI. destruct HI as [-> | ->]; by intros r Hr. Qed.
Lemma open_now : keeps now. Proof using HI. destruct HI as [-> | ->]; by intros r Hr. Qed.
Lemma open_uuid : keeps new_uuid. Proof using HI. destruct HI as [-> | ->]; by intros r Hr. Qed.
Lemma open_counts f : keeps (set_counts f). Proof using HI. destruct HI as [-> | ->]; by intros r Hr. Qed.
Lemma open_engine f : keeps (set_engine f). Proof using HI. destruct HI as [-> | ->]; by intros r Hr. Qed.
Lemma open_emit ev :
  match ev with EvCreated e' => tr_Type (Trigger (es_Spec e')) <> ty | _ => True end -> keeps (emit ev).
Proof using HI.
  intros Hev. destruct HI as [-> | ->].
  - intros r (Ha & Hs & Hl). wp_step. split; [exact Ha|]. split; [by apply silent_emit|exact Hl].
  - intros r (Ha & Hs). wp_step. split; [exact Ha|]. by apply silent_emit.
Qed.
#[local] Hint Resolve open_io open_now open_uuid open_counts open_engine : preserves.
#[local] Hint Extern 2 (preserves _ _ (emit _)) => (apply open_emit; exact I) : preserves.

Lemma open_list : keeps list_escalations. Proof using HI. unfold list_escalations. preserve. Qed.

Lemma open_write_intent raw : keeps (write_intent raw).
Proof using HI Hok.
  intros r Hr.
  assert (Ha : about_claw r) by (destruct HI as [-> | ->]; apply Hr).
  assert (Hgo : forall r', about_claw r' -> escalations (run_st r') = escalations (run_st r) ->
    (forall e', EvCreated e' ∈ run_trace r' -> EvCreated e' ∈ run_trace r) -> I r').
  { intros r' Ha' He' Ht'. destruct HI as [-> | ->].
    - destruct Hr as (_ & Hs & Hl). split; [done|]. split; [intros e' Hin; by apply Hs, Ht'|].
      by rewrite He'.
    - destruct Hr as (_ & Hs). split; [done|]. intros e' Hin; by apply Hs, Ht'. }
  unfold write_intent, on_cluster, put_claw, Patch. wp_step. cbn [cluster stored claw].
  rewrite Hok. wp_step. apply Hgo; [split; exact (proj2 Ha)|done|].
  cbn [run_trace map app]. intros e' [Hin|Hin]%elem_of_app; [done|].
  apply list_elem_of_singleton in Hin. discriminate Hin.
Qed.
End Either.

#[local] Hint Resolve one_open one_quiet open_io open_now open_uuid open_counts open_engine open_list
  open_write_intent : preserves.
#[local] Hint Extern 1 (preserves _ _ (emit _)) =>
  (apply open_emit; [solve [auto using one_open, one_quiet]|exact I]) : preserves.

Abbreviation keeps m := (preserves w still_open m).

Lemma open_set_escalations f :
  (forall l, only_one l -> only_one (f l)) -> keeps (set_escalations f).
Proof. intros Hf r (Ha & Hs & Hl). unfold set_escalations. wp_step. split; [exact Ha|]. split; [exact Hs|]. by apply Hf. Qed.

Lemma same_object_meta x y z :
  es_Meta x = es_Meta y -> same_object z x = same_object z y.
Proof. intros Heq. unfold same_object. by rewrite Heq. Qed.

Lemma open_update st x : same_object e x = false -> keeps (update_status (with_es_status st x)).
Proof.
  intros Hx. unfold update_status.
  apply preserves_bind; [preserve|]. intros []; [|preserve].
  apply preserves_bind; [|intros []; preserve]. apply open_set_escalations. intros l [Hin Hone].
  assert (Hsame : forall y, same_object y (with_es_status st x) = same_object y x) by done. split.
  - apply list_elem_of_fmap. exists e. split; [|done]. by rewrite Hsame, Hx.
  - intros y (z & -> & Hz)%list_elem_of_fmap Hey. rewrite Hsame in *. destruct (same_object z x) eqn:Ez.
    + change (same_object e z = true) in Hey. apply Hone in Hey as ->; [|done]. by rewrite Hx in Ez.
    + by apply Hone.
Qed.

Lemma same_object_sym x y : same_object x y = same_object y x.
Proof. unfold same_object. f_equal; apply bool_decide_ext; split; congruence. Qed.

Lemma open_delete x : same_object e x = false -> keeps (delete_escalation x).
Proof.
  intros Hx. unfold delete_escalation.
  apply preserves_bind; [preserve|]. intros []; [|preserve].
  apply preserves_bind; [|intros []; preserve]. apply open_set_escalations. intros l [Hin Hone].
  split; [by apply list_elem_of_filter|]. intros y [_ Hy]%list_elem_of_filter. by apply Hone.
Qed.

(** What is in the answer of a list request is [e] or has another name. *)
Definition apart (x : ClawOpsEscalation) : Prop := same_object e x = true -> x = e.

Lemma apart_other x : apart x -> x <> e -> same_object e x = false.
Proof. intros Ha Hx. destruct (same_object e x) eqn:E; [|done]. by apply Ha in E. Qed.

Lemma open_process l : Forall apart l -> keeps (process_approved l).
Proof.
  induction 1 as [|x l Hx _ IH]; cbn [process_approved]; [preserve|].
  apply preserves_bind; [preserve|]. intros s. destruct (is_approved _ x) eqn:Ea; [|exact IH].
  assert (Hxe : same_object e x = false).
  { apply apart_other; [done|]. intros ->. unfold is_approved in Ea. split_bools.
    repeat match goal with Hb : bool_decide _ = true |- _ => apply bool_decide_eq_true in Hb end. done. }
  apply preserves_bind; [auto with preserves|]. intros []; [|preserve].
  apply preserves_bind; [preserve|]. intros t.
  apply preserves_bind; [by apply open_update|]. intros []; [|preserve].
  apply preserves_bind; [preserve|]. intros _. exact IH.
Qed.

Lemma open_gc ttl l : Forall apart l -> keeps (gc_escalations ttl l).
Proof.
  induction 1 as [|x l Hx _ IH]; cbn [gc_escalations]; [preserve|].
  apply preserves_bind; [preserve|]. intros s. destruct (_ || _) eqn:Et; [exact IH|]. split_bools.
  assert (Hxe : same_object e x = false).
  { apply apart_other; [done|]. intros ->. congruence. }
  apply preserves_bind; [preserve|]. intros t. destruct (_ <? _); [|exact IH].
  apply preserves_bind; [by apply open_delete|]. intros []; [exact IH|preserve].
Qed.

Lemma open_listed {B} (k : option (list ClawOpsEscalation) -> M World clawops_event B) Q r :
  still_open r ->
  (forall l r', still_open r' -> Forall apart l ->
     l = filter (fun x => Namespace (es_Meta x) = Namespace (Meta (the_claw (run_st r'))))
           (escalations (run_st r')) ->
     wp w (k (Some l)) Q r') ->
  wp w (mbind list_escalations k) Q r.
Proof.
  intros Hr Hk. unfold list_escalations. wp_step. rewrite Hok.
  apply Hk; [by destruct Hr as (? & ? & ?)| |done]. apply Forall_forall.
  intros x [_ Hx]%list_elem_of_filter. exact (proj2 (proj2 (proj2 Hr)) x Hx).
Qed.

(** The filter on the signals. *)
Lemma open_dedup signals r :
  still_open r ->
  wp w (deduplicateSignals signals)
    (fun l r' => quiet r' /\ Forall (fun sig => sig_Type sig <> ty) l) r.
Proof.
  intros Hr. unfold deduplicateSignals. apply open_listed; [done|].
  intros l r' (Ha & Hs & Hl) _ ->. wp_step. split; [by split|]. apply Forall_forall.
  intros sig [Hsig _]%list_elem_of_filter. intros Heq. apply Hsig. rewrite Heq.
  unfold activeTypes. apply list_elem_of_fmap. exists e. split; [done|].
  destruct Ha as [[Hn Hn'] _]. unfold the_claw. apply list_elem_of_filter.
  split; [by rewrite Hn|]. apply list_elem_of_filter. split; [congruence|apply Hl].
Qed.

Abbreviation hush m := (preserves w quiet m).

Lemma quiet_set_escalations f : hush (set_escalations f).
Proof. by intros r Hr. Qed.
#[local] Hint Resolve quiet_set_escalations : preserves.

Lemma quiet_create c sig t :
  sig_Type sig <> ty -> hush (create_escalation (new_escalation cfg c sig t)).
Proof.
  intros Hsig. unfold create_escalation. apply preserves_bind; [preserve|]. intros []; [|preserve].
  apply preserves_bind; [preserve|]. intros suffix.
  apply preserves_bind; [preserve|]. intros t'.
  apply preserves_bind; [preserve|]. intros [].
  apply preserves_bind; [apply open_emit; [apply one_quiet|exact Hsig]|]. intros []. preserve.
Qed.

Lemma quiet_update x : hush (update_status x).
Proof. unfold update_status. preserve. Qed.

Lemma quiet_escalate sig : sig_Type sig <> ty -> hush (escalate cfg sig).
Proof.
  intros Hsig. unfold escalate. apply preserves_bind; [preserve|]. intros t.
  apply preserves_bind; [preserve|]. intros s.
  apply preserves_bind; [by apply quiet_create|]. intros [x|]; [|preserve].
  apply preserves_bind; [apply quiet_update|]. intros ok. preserve.
Qed.

Lemma quiet_escalate_all l : Forall (fun sig => sig_Type sig <> ty) l -> hush (escalate_all cfg l).
Proof.
  intros Hl. apply preserves_mfor. intros sig Hin. rewrite Forall_forall in Hl.
  apply preserves_bind; [by apply quiet_escalate, Hl|]. intros res. preserve.
Qed.

Lemma quiet_auto sig rule : sig_Type sig <> ty -> hush (autoExecute cfg sig rule).
Proof.
  intros Hsig. unfold autoExecute, sign, recordAction.
  apply preserves_bind; [preserve|]. intros receipt.
  apply preserves_bind; [preserve|]. intros t. destruct (buildIntentJSON t rule); [|preserve].
  apply preserves_bind; [auto with preserves|]. intros []; [|preserve].
  apply preserves_bind; [preserve|]. intros t'. apply preserves_bind; [preserve|]. intros s'.
  apply preserves_bind; [preserve|]. intros [].
  apply preserves_bind; [by apply quiet_create|]. intros [x|]; [|preserve].
  apply preserves_bind; [apply quiet_update|]. intros []; preserve.
Qed.

Lemma quiet_handle signals :
  Forall (fun sig => sig_Type sig <> ty) signals -> hush (handle_signals cfg signals).
Proof.
  intros Hall. unfold handle_signals, isRateLimited. apply preserves_bind; [preserve|]. intros s.
  apply preserves_bind; [preserve|]. intros []; [by apply quiet_escalate_all|].
  apply preserves_bind; [preserve|]. intros t. apply preserves_bind; [preserve|]. intros s'.
  destruct (MatchHighestPriority _ _ _ _) as [[sig rule]|] eqn:Em; [|by apply quiet_escalate_all].
  assert (Hsig : sig_Type sig <> ty).
  { pose proof (match_fold_best (RuleEngine s') t (Name (Meta (the_claw s))) signals) as Hb.
    unfold MatchHighestPriority in Em. destruct (foldl _ _ _) as [best rank].
    destruct (0 <=? rank); [|done]. subst best. unfold best_of in Hb. cbn [fst] in Hb.
    destruct Hb as (_ & _ & l1 & l2 & -> & _). by apply Forall_app in Hall as [_ [? _]%Forall_cons]. }
  apply preserves_bind.
  - apply preserves_bind; [by apply quiet_auto|]. intros [u|err]; [preserve|].
    apply preserves_bind; [by apply quiet_escalate|]. intros res. preserve.
  - intros _. apply quiet_escalate_all. apply Forall_forall. intros x [_ Hx]%list_elem_of_filter.
    rewrite Forall_forall in Hall. by apply Hall.
Qed.

(** The part after the garbage collection. *)
Lemma open_tail r :
  still_open r ->
  wp w (let* signals := collectSignals in
        match signals with
        | Err err => mret (Err err)
        | Ok [] => mret (Ok tt)
        | Ok ((_ :: _) as signals) =>
            let* signals := deduplicateSignals signals in
            match signals with [] => mret (Ok tt) | _ => handle_signals cfg signals ;;; mret (Ok tt) end
        end) (fun _ => silent) r.
Proof.
  intros Hr. unfold collectSignals. wp_step. rewrite Hok. wp_step.
  destruct (flat_map _ _) as [|sig signals]; [wp_step; apply Hr|].
  rewrite wp_bind. eapply wp_conseq; [|apply open_dedup; exact Hr]. cbn beta.
  intros [|sig' l] r' [Hq Hall]; [wp_step; apply Hq|].
  rewrite wp_bind. eapply wp_conseq; [|by apply quiet_handle]. cbn beta. intros [] r2 [_ Hs]. by wp_step.
Qed.

Lemma open_reconcile r :
  Name (Meta (stored (cluster (run_st r)))) = n -> Namespace (Meta (stored (cluster (run_st r)))) = ns ->
  only_one (escalations (run_st r)) -> silent r ->
  wp w (Reconcile cfg) (fun _ => silent) r.
Proof.
  intros Hn Hn' Hl Hs. unfold Reconcile. rewrite wp_bind, wp_io, Hok, wp_bind. unfold on_cluster.
  rewrite wp_zoom, wp_mmodify. cbn [run_st run_tick run_trace map]. rewrite app_nil_r.
  set (r1 := mkRun _ _ _). assert (H1 : still_open r1) by (split_and!; done). clearbody r1.
  rewrite wp_bind. unfold processApprovedEscalations. apply open_listed; [done|].
  intros l r2 H2 Hap _. eapply wp_conseq; [|by apply open_process]. cbn beta. intros res r3 H3.
  rewrite wp_bind. unfold gcExpiredEscalations. apply open_listed; [done|].
  intros l' r4 H4 Hap' _. eapply wp_conseq; [|by apply open_gc]. cbn beta. intros res' r5 H5.
  by apply open_tail.
Qed.
End Silence.

(** C23: an open escalation of a claw, one that is neither finished nor
    approved, silences its trigger: as long as requests succeed, a
    reconciliation of that claw creates no escalation and takes no automatic
    action for that kind of trigger.  Together with
    [Companion.interrupted_analysis_orphaned]: an analysis that was
    interrupted silences its trigger for good. *)
Theorem open_escalation_silences `{QuantityLib} (w : Oracle) (cfg : ClawOpsConfig) (s : World)
    (e : ClawOpsEscalation) :
  (forall n, o_ok w n = true) ->
  e ∈ escalations s -> (forall x, x ∈ escalations s -> same_object e x = true -> x = e) ->
  ClawRef (es_Spec e) = Name (Meta (stored (cluster s))) ->
  Namespace (es_Meta e) = Namespace (Meta (stored (cluster s))) ->
  IsTerminalPhase (es_Phase (es_Status e)) = false ->
  es_Phase (es_Status e) <> EscalationPhaseApproved ->
  forall e', EvCreated e' ∈ run_trace (snd (exec (Reconcile cfg) w s)) ->
  tr_Type (Trigger (es_Spec e')) <> tr_Type (Trigger (es_Spec e)).
Proof.
  intros Hok Hin Hone Href Hns Hopen Hnot.
  assert (Hsil : silent e (mkRun s 0 [])) by (intros e' He'; by apply not_elem_of_nil in He').
  pose proof (open_reconcile w cfg Hok e _ _ Href Hns Hopen Hnot (mkRun s 0 []) eq_refl eq_refl
    (conj Hin Hone) Hsil) as Hrec.
  unfold exec, wp in *. destruct (Reconcile cfg w _) as [res r]. exact Hrec.
Qed.

(** ** Samples *)

Module Sample.

Definition stuck : ClawOpsEscalation :=
  mkEsc (mkMeta "agent-ops-1" "agent-ops-" "default" "u" 1 ∅ None [] [] 1700000000000000000 None)
    (mkEscSpec "agent" (mkTriggerInfo TriggerCrashLoop "" None 7) SeverityHigh None)
    (mkEscStatus EscalationPhaseAnalyzing "" "" "" "" None "" "" "" None "").

Definition world (l : list ClawOpsEscalation) : World (H := int_quantities) :=
  mkWorld crash_cluster l (NewEngine DefaultRules) ∅.

Definition created (l : list ClawOpsEscalation) : list string :=
  omap (fun ev => match ev with EvCreated e' => Some (tr_Type (Trigger (es_Spec e'))) | _ => None end)
    (run_trace (snd (exec (Reconcile (H := int_quantities) DefaultClawOpsConfig) all_ok (world l)))).

(** The crashing pod is answered, unless an escalation is open. *)
Example created_or_silenced :
  created [] = [TriggerCrashLoop] /\ created [stuck] = [].
Proof. vm_compute. done. Qed.

Lemma open_escalation_silences_witness :
  tr_Type (Trigger (es_Spec stuck)) = TriggerCrashLoop /\
  forall e', EvCreated e' ∈ run_trace
    (snd (exec (Reconcile (H := int_quantities) DefaultClawOpsConfig) all_ok (world [stuck]))) ->
  tr_Type (Trigger (es_Spec e')) <> TriggerCrashLoop.
Proof.
  split; [reflexivity|].
  apply (open_escalation_silences (H := int_quantities) all_ok DefaultClawOpsConfig (world [stuck]) stuck).
  - done.
  - by left.
  - intros x Hx _. by apply list_elem_of_singleton in Hx.
  - reflexivity.
  - reflexivity.
  - reflexivity.
  - discriminate.
Defined.

End Sample.
