(* ===== verification/GoDuration.v ===== *)
(** * Durations

    [time.ParseDuration]: a sign and a sequence of decimal numbers with
    units.  Integers are unsigned 64-bit numbers with the overflow tests of
    the library; a fraction is scaled in [float64]. *)

From Stdlib Require Import SpecFloat.
From S2P Require Import Prelude.
From S2P Require Import GoStrings.
From S2P Require Import GoFloat.

Definition max63 : Z := 2 ^ 63.

Fixpoint leading_int (x : Z) (s : bytes) : option (Z * bytes) :=
  match s with
  | [] => Some (x, [])
  | c :: s' =>
      if is_digit c then
        if max63 / 10 <? x then None
        else let x' := x * 10 + digit_val c in
             if max63 <? x' then None else leading_int x' s'
      else Some (x, s)
  end.

Fixpoint leading_fraction (x : Z) (scale : float64) (overflow : bool) (s : bytes)
    : Z * float64 * bytes :=
  match s with
  | [] => (x, scale, [])
  | c :: s' =>
      if is_digit c then
        if overflow || ((max63 - 1) / 10 <? x) then leading_fraction x scale true s'
        else let y := x * 10 + digit_val c in
             if max63 <? y then leading_fraction x scale true s'
             else leading_fraction y (SFmul 53 1024 scale (of_int 10)) false s'
      else (x, scale, s)
  end.

(** The letters of a unit: up to the next digit or period. *)
Fixpoint span_unit (s : bytes) : bytes * bytes :=
  match s with
  | [] => ([], [])
  | c :: s' => if ascii_eqb c "." || is_digit c then ([], s)
               else let '(u, r) := span_unit s' in (c :: u, r)
  end.

Definition units : list (bytes * Z) :=
  [(bytes_of "ns", 1); (bytes_of "us", 1000); ([chr 194; chr 181; "s"%char], 1000);
   ([chr 206; chr 188; "s"%char], 1000); (bytes_of "ms", 1000000); (bytes_of "s", 1000000000);
   (bytes_of "m", 60 * 1000000000); (bytes_of "h", 3600 * 1000000000)].

Definition unit_of (u : bytes) : option Z :=
  snd <$> find_first (fun p => bool_decide (p.1 = u)) units.

(** [uint64(x)] of a finite non-negative float. *)
Definition trunc (x : float64) : Z :=
  match x with
  | S754_finite false m e => Z.shiftl (Zpos m) e
  | _ => 0
  end.

(** The digits behind a period, and whether there were any. *)
Definition parse_fraction (s : bytes) : Z * float64 * bytes * bool :=
  match s with
  | d :: t =>
      if ascii_eqb d "." then
        let '(f, scale, r) := leading_fraction 0 (of_int 1) false t in
        (f, scale, r, negb (bool_decide (length t = length r)))
      else (0, of_int 1, s, false)
  | [] => (0, of_int 1, s, false)
  end.

(** One number with its unit: its value in nanoseconds and the rest. *)
Definition parse_component (s : bytes) : option (Z * bytes) :=
  match s with
  | [] => None
  | c :: _ =>
      if ascii_eqb c "." || is_digit c then
        '(v, s1) ← leading_int 0 s;
        let pre := negb (bool_decide (length s = length s1)) in
        let '(f, scale, s2, post) := parse_fraction s1 in
        if negb pre && negb post then None
        else
          let '(u, s3) := span_unit s2 in
          if bool_decide (u = []) then None
          else
            unit ← unit_of u;
            if max63 / unit <? v then None
            else
              let v := v * unit in
              if 0 <? f then
                let v := v + trunc (SFmul 53 1024 (of_int f) (fdiv (of_int unit) scale)) in
                if max63 <? v then None else Some (v, s3)
              else Some (v, s3)
      else None
  end.

(** The sum wraps at 64 bits before the test.  Every component takes a byte,
    so the length of the text is enough fuel. *)
Fixpoint parse_components (fuel : nat) (d : Z) (s : bytes) : option Z :=
  match s, fuel with
  | [], _ => Some d
  | _, O => None
  | _, S fuel' =>
      '(v, s') ← parse_component s;
      let d := (d + v) mod 2 ^ 64 in
      if max63 <? d then None else parse_components fuel' d s'
  end.

Definition parse_duration (s : string) : option Z :=
  let b := bytes_of s in
  let '(neg, b) :=
    match b with
    | c :: t => if ascii_eqb c "-" || ascii_eqb c "+" then (ascii_eqb c "-", t) else (false, b)
    | [] => (false, b)
    end in
  if bool_decide (b = ["0"%char]) then Some 0
  else if bool_decide (b = []) then None
  else
    d ← parse_components (length b) 0 b;
    if neg then Some (- d)
    else if max63 - 1 <? d then None else Some d.

Lemma span_unit_length s u r : span_unit s = (u, r) -> (length u + length r = length s)%nat.
Proof.
  revert u r. induction s as [|c s IH]; cbn; intros u r; [by intros [= <- <-]|].
  destruct (_ || _); [by intros [= <- <-]|].
  destruct (span_unit s) as [v t] eqn:E. intros [= <- <-]. cbn. by rewrite <- (IH _ _ eq_refl).
Qed.

Lemma leading_int_length s x y r : leading_int x s = Some (y, r) -> (length r <= length s)%nat.
Proof.
  revert x. induction s as [|c s IH]; cbn; intros x; [intros [= <- <-]; cbn; lia|].
  destruct (is_digit c); [|intros [= <- <-]; cbn; lia].
  destruct (_ <? x); [done|]. destruct (_ <? _); [done|]. intros H%IH. lia.
Qed.

Lemma leading_fraction_length s x sc o y sc' r :
  leading_fraction x sc o s = (y, sc', r) -> (length r <= length s)%nat.
Proof.
  revert x sc o. induction s as [|c s IH]; cbn; intros x sc o; [intros [= <- <- <-]; cbn; lia|].
  destruct (is_digit c); [|intros [= <- <- <-]; cbn; lia].
  destruct (_ || _); [intros H%IH; lia|]. destruct (_ <? _); intros H%IH; lia.
Qed.

Lemma parse_fraction_length s f sc r post :
  parse_fraction s = (f, sc, r, post) -> (length r <= length s)%nat.
Proof.
  unfold parse_fraction. destruct s as [|d t]; [intros [= <- <- <- <-]; cbn; lia|].
  case_if; [|intros [= <- <- <- <-]; cbn; lia].
  destruct (leading_fraction _ _ _ t) as [[y sc'] r'] eqn:E. apply leading_fraction_length in E.
  intros [= <- <- <- <-]. cbn. lia.
Qed.

Lemma parse_component_shorter s v r : parse_component s = Some (v, r) -> (length r < length s)%nat.
Proof.
  unfold parse_component. destruct s as [|c t]; [done|]. set (s := c :: t) in *. case_if; [|done].
  destruct (leading_int 0 s) as [[v0 s1]|] eqn:E1; [|done]. apply leading_int_length in E1.
  cbn [base.mbind option_bind]. cbv zeta.
  destruct (parse_fraction s1) as [[[f sc] s2] post] eqn:E2. apply parse_fraction_length in E2.
  destruct (_ && _); [done|]. destruct (span_unit s2) as [u s3] eqn:E3. apply span_unit_length in E3.
  case_bool_decide as Hu; [done|].
  assert (length s3 < length s2)%nat as H3 by (destruct u; [done|]; cbn in E3; lia).
  intros Hr. assert (r = s3) as -> by (destruct (unit_of u); cbn in Hr; repeat case_match; by simplify_eq).
  lia.
Qed.

(** The length of the text is enough fuel: more changes nothing. *)
Lemma parse_components_fuel fuel fuel' d s :
  (length s <= fuel)%nat -> (length s <= fuel')%nat ->
  parse_components fuel d s = parse_components fuel' d s.
Proof.
  revert fuel' d s. induction fuel as [|n IH]; intros [|n'] d [|c s] H H'; cbn in H, H'; try lia; try done.
  cbn [parse_components]. destruct (parse_component (c :: s)) as [[v r]|] eqn:E; [|done].
  apply parse_component_shorter in E. cbn in E |- *. case_if; [done|]. apply IH; lia.
Qed.

(** A duration is a 64-bit integer. *)
Lemma parse_components_range fuel d s n :
  0 <= d <= max63 -> parse_components fuel d s = Some n -> 0 <= n <= max63.
Proof.
  revert d s. induction fuel as [|k IH]; intros d [|c s] Hd; cbn [parse_components]; try (by intros [= <-]).
  destruct (parse_component (c :: s)) as [[v r]|]; [|done]. cbn.
  destruct (max63 <? _) eqn:E; [done|]. apply IH.
  pose proof (Z.mod_pos_bound (d + v) (2 ^ 64) ltac:(done)). lia.
Qed.

Lemma parse_duration_range s d : parse_duration s = Some d -> - max63 <= d < max63.
Proof.
  unfold parse_duration.
  destruct (match bytes_of s with [] => _ | _ => _ end) as [neg b].
  case_bool_decide; [by intros [= <-]|]. case_bool_decide; [done|].
  destruct (parse_components (length b) 0 b) as [n|] eqn:E; [|done]. cbn.
  apply parse_components_range in E; [|done].
  destruct neg; [intros [= <-]; unfold max63 in *; lia|]. case_if; [done|].
  intros [= <-]. unfold max63 in *. lia.
Qed.

Example durations :
  parse_duration "1h15m30.918s" = Some 4530918000000 /\ parse_duration "-1.5h" = Some (-5400000000000) /\
  parse_duration "10" = None /\ parse_duration "0" = Some 0 /\ parse_duration ".s" = None /\
  parse_duration "3000000h" = None /\ parse_duration "2m" = Some 120000000000.
Proof. vm_compute. done. Qed.
