(* ===== verification/Registry.v ===== *)
(** * The registry client (internal/registry/resolver.go)

    Listing the tags of an image over HTTP, with the two caches, and choosing
    the version to update to.  The semver library is a parameter, as is what
    the registry answers.  The mutexes only protect single accesses of the
    caches; a call is modelled from its start to its end. *)

From S2P Require Import Prelude.
From S2P Require Import GoStrings.
From S2P Require Import Json.

Definition maxResponseBytes : Z := Z.shiftl 10 20.

(** [io.LimitReader]. *)
Fixpoint limit_reader (n : Z) (b : bytes) : bytes :=
  match b with
  | [] => []
  | c :: b' => if n <=? 0 then [] else c :: limit_reader (n - 1) b'
  end.

(** ** Client state *)

Record cacheEntry := mkCacheEntry { ce_tags : list string; ce_expiresAt : Z }.
Record tokenCacheEntry := mkTokenEntry { te_token : string; te_expiresAt : Z }.

Record RegistryClient := mkRegistryClient {
  tokenURL : string;
  cacheTTL : Z;
  cache : gmap string cacheEntry;
  tokenCache : gmap string tokenCacheEntry;
}.

Definition Option_ : Type := RegistryClient -> RegistryClient.

Definition WithCacheTTL (d : Z) : Option_ :=
  fun c => mkRegistryClient (tokenURL c) d (cache c) (tokenCache c).
Definition WithTokenURL (url : string) : Option_ :=
  fun c => mkRegistryClient url (cacheTTL c) (cache c) (tokenCache c).

Definition minute : Z := 60 * 1000000000.

Definition NewRegistryClient (opts : list Option_) : RegistryClient :=
  foldl (fun c o => o c) (mkRegistryClient "" (15 * minute) ∅ ∅) opts.

Definition set_cache (f : gmap string cacheEntry -> gmap string cacheEntry) (c : RegistryClient)
    : RegistryClient :=
  mkRegistryClient (tokenURL c) (cacheTTL c) (f (cache c)) (tokenCache c).
Definition set_tokens (f : gmap string tokenCacheEntry -> gmap string tokenCacheEntry)
    (c : RegistryClient) : RegistryClient :=
  mkRegistryClient (tokenURL c) (cacheTTL c) (cache c) (f (tokenCache c)).

(** ** Responses *)

(** Decoding an array into a slice: an element starts as what the slice held
    at its place. *)
Fixpoint dec_elems (l : list json) (old : list string) : option (list string) :=
  match l with
  | [] => Some []
  | v :: l' => s ← dec_str v (hd ""%string old); r ← dec_elems l' (tl old); Some (s :: r)
  end.

Definition dec_strings (v : json) (old : list string) : option (list string) :=
  match v with
  | JNull => Some []
  | JArr l => dec_elems l old
  | _ => None
  end.

(** [tagsResponse] and [tokenResponse] have one field each. *)
Definition dec_tags (v : json) : option (list string) :=
  dec_struct ["tags"%string] (fun _ v old => dec_strings v old) v [].
Definition dec_token (v : json) : option string :=
  dec_struct ["token"%string] (fun _ v old => dec_str v old) v ""%string.

(** [json.NewDecoder(io.LimitReader(body, maxResponseBytes)).Decode]: the
    first value of the stream, whatever follows it. *)
Definition decode_first {A} (dec : json -> option A) (body : bytes) : option A :=
  let b := limit_reader maxResponseBytes body in
  match parse_value (S (2 * length b)) b with
  | Some (v, _) => dec v
  | None => None
  end.

(** What a request comes back with: an error, or a status and the bytes of the
    body that arrive. *)
Inductive http_answer := NoAnswer | Answer (status : Z) (body : bytes).

Inductive registry_error :=
| ErrRequest | ErrHTTP | ErrHTTPStatus (code : Z) | ErrDecode | ErrToken (e : registry_error).

Inductive registry_event :=
| EvTokenRequest (url scope : string)
| EvTagsRequest (url : string) (bearer : option string).

Abbreviation GM := (M RegistryClient registry_event).

Definition check_answer {A} (dec : json -> option A) (a : http_answer) : result registry_error A :=
  match a with
  | NoAnswer => Err ErrHTTP
  | Answer status body =>
      if status =? 200 then
        match decode_first dec body with Some x => Ok x | None => Err ErrDecode end
      else Err (ErrHTTPStatus status)
  end.

(** ** exchangeToken *)

Definition extractScope (image : string) : string :=
  let u := trim_prefix (bytes_of "http://") (trim_prefix (bytes_of "https://") (bytes_of image)) in
  let u := match cut_byte "/" u with Some (_, r) => r | None => u end in
  let u := trim_prefix (bytes_of "v2/") u in
  str_of (bytes_of "repository:" ++ u ++ bytes_of ":pull").

Definition tokenCacheTTL : Z := 4 * minute.

Definition exchangeToken (answer : http_answer) (image : string)
    : GM (result registry_error string) :=
  let scope := extractScope image in
  let* c := mget in
  let* hit :=
    match tokenCache c !! scope with
    | Some entry =>
        let* t := now in
        if t <? te_expiresAt entry then mret (Some (te_token entry))
        else mmodify (set_tokens (delete scope)) ;;; mret None
    | None => mret None
    end in
  match hit with
  | Some token => mret (Ok token)
  | None =>
      (* url.Parse and http.NewRequestWithContext *)
      let* made := io in
      if made then
        emit (EvTokenRequest (tokenURL c) scope) ;;;
        match check_answer dec_token answer with
        | Err e => mret (Err e)
        | Ok token =>
            let* t := now in
            mmodify (set_tokens <[scope := mkTokenEntry token (t + tokenCacheTTL)]>) ;;;
            mret (Ok token)
        end
      else mret (Err ErrRequest)
  end.

(** ** ListTags *)

(** The request itself and the update of the cache. *)
Definition fetch_tags (tags_answer : http_answer) (image : string)
    (bearer : result registry_error (option string)) : GM (result registry_error (list string)) :=
  match bearer with
  | Err e => mret (Err e)
  | Ok bearer =>
      emit (EvTagsRequest (image +:+ "/tags/list")%string bearer) ;;;
      match check_answer dec_tags tags_answer with
      | Err e => mret (Err e)
      | Ok tags =>
          let* t := now in
          mmodify (fun s => set_cache <[image := mkCacheEntry tags (t + cacheTTL s)]> s) ;;;
          mret (Ok tags)
      end
  end.

Definition ListTags (token_answer tags_answer : http_answer) (image : string)
    : GM (result registry_error (list string)) :=
  let* c := mget in
  let* hit :=
    match cache c !! image with
    | Some entry =>
        let* t := now in
        if t <? ce_expiresAt entry then mret (Some (ce_tags entry))
        else mmodify (set_cache (delete image)) ;;; mret None
    | None => mret None
    end in
  match hit with
  | Some tags => mret (Ok tags)
  | None =>
      let* made := io in
      if made then
        let* bearer :=
          if decide (tokenURL c = ""%string) then mret (Ok None)
          else
            let* r := exchangeToken token_answer image in
            match r with
            | Ok token => mret (Ok (Some token))
            | Err e => mret (Err (ErrToken e))
            end in
        fetch_tags tags_answer image bearer
      else mret (Err ErrRequest)
  end.

(** ** Choosing a version *)

(** The semver library: what the code uses of it. *)
Class SemverLib := {
  Version : Type;
  Constraint : Type;
  NewConstraint : string -> option Constraint;
  NewVersion : string -> option Version;
  CheckVersion : Constraint -> Version -> bool;
  GreaterThan : Version -> Version -> bool;
  Original : Version -> string;
}.

(** Its documented behaviour: a version remembers the text it was parsed
    from, and [GreaterThan] is the strict part of semver's total preorder. *)
Class SemverLaws `{SemverLib} := {
  original_text s v : NewVersion s = Some v -> Original v = s;
  greater_irrefl v : GreaterThan v v = false;
  greater_trans u v w : GreaterThan u v = true -> GreaterThan v w = true -> GreaterThan u w = true;
  greater_cotrans u v w : GreaterThan u w = true -> GreaterThan u v = true \/ GreaterThan v w = true;
}.

Section Resolve.
Context `{SemverLib}.

Definition candidate (c : Constraint) (currentVer : option Version) (failedVersions : list string)
    (tag : string) : option Version :=
  v ← NewVersion tag;
  if negb (CheckVersion c v) then None
  else if bool_decide (Original v ∈ failedVersions) then None
  else match currentVer with
       | Some cur => if GreaterThan v cur then Some v else None
       | None => Some v
       end.

Definition better (c : Constraint) (currentVer : option Version) (failedVersions : list string)
    (best : option Version) (tag : string) : option Version :=
  match candidate c currentVer failedVersions tag with
  | None => best
  | Some v =>
      match best with
      | None => Some v
      | Some b => if GreaterThan v b then Some v else best
      end
  end.

Definition ResolveBestVersion (tags : list string) (constraint current : string)
    (failedVersions : list string) : option string :=
  c ← NewConstraint constraint;
  let currentVer := if decide (current = ""%string) then None else NewVersion current in
  Original <$> foldl (better c currentVer failedVersions) None tags.

Lemma resolve_not_failed tags constraint current failed t :
  ResolveBestVersion tags constraint current failed = Some t -> t ∉ failed.
Proof.
  unfold ResolveBestVersion. destruct (NewConstraint constraint) as [c|]; [|done]. cbn.
  set (cur := if decide _ then _ else _). intros (b & Hb & ->)%fmap_Some.
  revert b Hb. induction tags as [|tag tags IH] using rev_ind; intros b; [done|].
  rewrite foldl_snoc. unfold better at 1.
  assert (forall v, candidate c cur failed tag = Some v -> Original v ∉ failed) as Hcand.
  { intros v. unfold candidate. destruct (NewVersion tag) as [w|]; [|done]. cbn.
    destruct (CheckVersion c w); [|done]. cbn. case_bool_decide as Hf; [done|].
    destruct cur as [x|]; [destruct (GreaterThan w x); [|done]|]; by intros [= <-]. }
  destruct (candidate c cur failed tag) as [v|]; [|apply IH].
  destruct (foldl _ None tags) as [b'|]; [|intros [= <-]; by apply Hcand].
  destruct (GreaterThan v b'); [intros [= <-]; by apply Hcand|apply IH].
Qed.
End Resolve.

(** ** Image references *)

Definition IsDigestPinned (image : string) : bool :=
  contains (bytes_of "@sha256:") (bytes_of image).

Definition ImageForRuntime (runtime : string) : string :=
  if decide (runtime = "openclaw"%string) then "ghcr.io/prismer-ai/k8s4claw-openclaw"
  else if decide (runtime = "hermesclaw"%string) then "ghcr.io/nousresearch/hermes-agent"
  else if decide (runtime = "hermesrs"%string) then "ghcr.io/prismer-ai/hermes-agent-rs"
  else if decide (runtime = "k8sops"%string) then "ghcr.io/prismer-ai/claw4k8s"
  else "".

Definition RegistryURLForImage (image : string) : string :=
  match cut_byte "/" (bytes_of image) with
  | None => ""
  | Some (host, rest) => str_of (bytes_of "https://" ++ host ++ bytes_of "/v2/" ++ rest)
  end.

Definition TokenURLForRegistry (registryHost : string) : string :=
  if decide (registryHost = "ghcr.io"%string) then "https://ghcr.io/token"
  else if decide (registryHost = "registry-1.docker.io"%string) then "https://auth.docker.io/token"
  else if decide (registryHost = "docker.io"%string) then "https://auth.docker.io/token"
  else "".

(** ** The chosen version *)

Section ResolveLaws.
Context `{SemverLib, !SemverLaws}.

(** [tag] may be chosen, as the version [v]. *)
Definition eligible (constraint current : string) (failed : list string) (tag : string)
    (v : Version) : Prop :=
  exists c, NewConstraint constraint = Some c /\ NewVersion tag = Some v /\
    CheckVersion c v = true /\ (tag ∉ failed) /\
    (forall cur, current <> ""%string -> NewVersion current = Some cur -> GreaterThan v cur = true).

Lemma candidate_spec c cur failed tag v :
  candidate c cur failed tag = Some v <->
  NewVersion tag = Some v /\ CheckVersion c v = true /\ (tag ∉ failed) /\
  (forall x, cur = Some x -> GreaterThan v x = true).
Proof.
  unfold candidate. destruct (NewVersion tag) as [w|] eqn:Hw; cbn; [|split; [done|by intros [? _]]].
  rewrite (original_text _ _ Hw).
  destruct (CheckVersion c w) eqn:Hc; cbn; [|split; [done|]; intros ([= ->] & Hv & _); congruence].
  case_bool_decide as Hf; [split; [done|]; by intros (_ & _ & Hn & _)|].
  destruct cur as [x|].
  - destruct (GreaterThan w x) eqn:Hg; split; try done.
    + intros [= <-]. repeat split; try done. by intros ? [= <-].
    + intros ([= ->] & _). done.
    + intros ([= ->] & _ & _ & Hx). rewrite (Hx x eq_refl) in Hg. done.
  - split; [|by intros ([= ->] & _)]. intros [= <-]. by repeat split.
Qed.

(** The best so far is a candidate that no candidate seen exceeds. *)
Definition best_so_far (c : Constraint) (cur : option Version) (failed seen : list string)
    (best : option Version) : Prop :=
  match best with
  | Some b =>
      exists t, t ∈ seen /\ candidate c cur failed t = Some b /\
        (forall t' v, t' ∈ seen -> candidate c cur failed t' = Some v -> GreaterThan v b = false)
  | None => forall t, t ∈ seen -> candidate c cur failed t = None
  end.

Lemma better_step c cur failed seen best tag :
  best_so_far c cur failed seen best ->
  best_so_far c cur failed (seen ++ [tag]) (better c cur failed best tag).
Proof.
  unfold better. destruct (candidate c cur failed tag) as [v|] eqn:Hv.
  - destruct best as [b|]; cbn.
    + intros (t & Ht & Hb & Hmax). destruct (GreaterThan v b) eqn:Hg.
      * exists tag. split; [set_solver|]. split; [done|]. intros t' v' Ht' Hv'.
        apply elem_of_app in Ht' as [Ht'|Ht'%list_elem_of_singleton].
        -- destruct (GreaterThan v' v) eqn:Hg'; [|done].
           pose proof (greater_trans _ _ _ Hg' Hg) as Hx. by rewrite (Hmax _ _ Ht' Hv') in Hx.
        -- subst. rewrite Hv in Hv'. simplify_eq. apply greater_irrefl.
      * exists t. split; [set_solver|]. split; [done|]. intros t' v' Ht' Hv'.
        apply elem_of_app in Ht' as [Ht'|Ht'%list_elem_of_singleton]; [eauto|].
        subst. rewrite Hv in Hv'. by simplify_eq.
    + intros Hnone. exists tag. split; [set_solver|]. split; [done|]. intros t' v' Ht' Hv'.
      apply elem_of_app in Ht' as [Ht'|Ht'%list_elem_of_singleton].
      * by rewrite Hnone in Hv'.
      * subst. rewrite Hv in Hv'. simplify_eq. apply greater_irrefl.
  - destruct best as [b|]; cbn.
    + intros (t & Ht & Hb & Hmax). exists t. split; [set_solver|]. split; [done|].
      intros t' v' Ht' Hv'.
      apply elem_of_app in Ht' as [Ht'|Ht'%list_elem_of_singleton]; [eauto|naive_solver].
    + intros Hnone t [Ht|Ht%list_elem_of_singleton]%elem_of_app; naive_solver.
Qed.

Lemma better_fold c cur failed tags :
  best_so_far c cur failed tags (foldl (better c cur failed) None tags).
Proof.
  induction tags as [|tag tags IH] using rev_ind; [by intros ? ?%not_elem_of_nil|].
  rewrite foldl_snoc. by apply better_step.
Qed.

Lemma candidate_eligible c constraint current failed tag v :
  NewConstraint constraint = Some c ->
  candidate c (if decide (current = ""%string) then None else NewVersion current) failed tag = Some v
  <-> eligible constraint current failed tag v.
Proof.
  intros Hc. rewrite candidate_spec. unfold eligible. split.
  - intros (? & ? & ? & Hcur). exists c. repeat split; try done.
    intros x Hne Hx. apply Hcur. by rewrite decide_False.
  - intros (c' & Hc' & ? & ? & ? & Hcur). rewrite Hc in Hc'. simplify_eq.
    repeat split; try done. intros x. case_decide; [done|]. by apply Hcur.
Qed.

(** C40: the version chosen for an update is one of the tags, satisfies
    the constraint, is newer than the current version, has not failed before
    and no other such tag is newer; no version is chosen only if no tag
    qualifies. *)
Theorem resolve_best_version (tags : list string) (constraint current : string) (failed : list string) :
  match ResolveBestVersion tags constraint current failed with
  | Some t => t ∈ tags /\ exists v, eligible constraint current failed t v /\
      (forall t' v', t' ∈ tags -> eligible constraint current failed t' v' -> GreaterThan v' v = false)
  | None => forall t v, t ∈ tags -> ~ eligible constraint current failed t v
  end.
Proof.
  unfold ResolveBestVersion. destruct (NewConstraint constraint) as [c|] eqn:Hc; cbn.
  2: { intros t v _ (c & Hc' & _). congruence. }
  pose proof (better_fold c (if decide (current = ""%string) then None else NewVersion current)
    failed tags) as Hb.
  destruct (foldl _ None tags) as [b|]; cbn in *.
  - destruct Hb as (t & Ht & Hcand & Hmax).
    pose proof (proj1 (proj1 (candidate_spec _ _ _ _ _) Hcand)) as Hv.
    rewrite (original_text _ _ Hv). split; [done|]. exists b.
    split; [by eapply candidate_eligible|]. intros t' v' Ht' He.
    apply (Hmax t'); [done|]. by eapply candidate_eligible.
  - intros t v Ht He. apply (candidate_eligible c) in He; [|done]. by rewrite Hb in He.
Qed.
End ResolveLaws.

(** ** The cache *)

Lemma list_tags_hit w (r : Run RegistryClient registry_event) ta ga image e :
  cache (run_st r) !! image = Some e -> o_now w (run_tick r) < ce_expiresAt e ->
  ListTags ta ga image w r = (Ok (ce_tags e), mkRun (run_st r) (1 + run_tick r)%nat (run_trace r)).
Proof.
  intros He Ht. unfold ListTags, mbind, mget. rewrite He.
  unfold now. rewrite (proj2 (Z.ltb_lt _ _) Ht). done.
Qed.

Definition stored (image : string) (a : result registry_error (list string))
    (r : Run RegistryClient registry_event) : Prop :=
  forall tags, a = Ok tags -> exists e, cache (run_st r) !! image = Some e /\ ce_tags e = tags.

Lemma fetch_tags_stores w ga image bearer r : wp w (fetch_tags ga image bearer) (stored image) r.
Proof.
  destruct bearer as [b|e]; unfold fetch_tags; wp_step; [|done].
  destruct (check_answer dec_tags ga) as [tags|]; wp_step; [|done].
  intros ? [= <-]. eexists. cbn. by rewrite lookup_insert_eq.
Qed.

Lemma list_tags_stores w r ta ga image : wp w (ListTags ta ga image) (stored image) r.
Proof.
  unfold ListTags. rewrite wp_bind, wp_mget, wp_bind.
  eapply (wp_conseq w _ (fun hit r' => forall tags, hit = Some tags ->
    exists e, cache (run_st r') !! image = Some e /\ ce_tags e = tags)).
  2: { destruct (cache (run_st r) !! image) as [e|] eqn:He; wp_step; [|done].
       destruct (_ <? _); wp_step; [|done]. intros ? [= <-]. eauto. }
  intros [tags|] r1 Hhit; [wp_step; intros ? [= <-]; eauto|]. clear Hhit.
  rewrite wp_bind, wp_io. destruct (o_ok w _); [|done]. rewrite wp_bind.
  eapply wp_conseq; [|apply wp_true]. intros bearer r2 _. apply fetch_tags_stores.
Qed.

(** A successful answer is served again, without a request, until it expires. *)
Theorem list_tags_cached w (r : Run RegistryClient registry_event) ta ga image tags r1 :
  ListTags ta ga image w r = (Ok tags, r1) ->
  exists e, cache (run_st r1) !! image = Some e /\ ce_tags e = tags /\
    (o_now w (run_tick r1) < ce_expiresAt e -> forall ta' ga',
       ListTags ta' ga' image w r1 =
       (Ok tags, mkRun (run_st r1) (1 + run_tick r1)%nat (run_trace r1))).
Proof.
  intros Hrun. pose proof (list_tags_stores w r ta ga image) as Hs. unfold wp, stored in Hs.
  rewrite Hrun in Hs. destruct (Hs tags eq_refl) as (e & He & <-).
  exists e. repeat split; [done|]. intros. by apply list_tags_hit.
Qed.

(** ** A small semver, for evaluation: a version is a number, a constraint a
    lower bound *)

Definition int_semver : SemverLib := {|
  Version := string * Z;
  Constraint := Z;
  NewConstraint s := parse_int 64 (bytes_of s);
  NewVersion s := (fun n => (s, n)) <$> parse_int 64 (bytes_of s);
  CheckVersion c v := c <=? v.2;
  GreaterThan v w := w.2 <? v.2;
  Original := fst;
|}.

Lemma int_semver_laws : @SemverLaws int_semver.
Proof.
  split; cbn.
  - intros s v Hv. by apply fmap_Some in Hv as (n & _ & ->).
  - intros v. apply Z.ltb_irrefl.
  - intros u v w. lia.
  - intros u v w. lia.
Qed.

Lemma resolve_best_version_witness :
  let r := @ResolveBestVersion int_semver ["1"; "3"; "2"; "latest"; "4"]%string "1" "1" ["4"%string] in
  r = Some "3"%string /\
  match r with
  | Some t => t ∈ ["1"; "3"; "2"; "latest"; "4"]%string /\
      exists v, @eligible int_semver "1" "1" ["4"%string] t v /\
      (forall t' v', t' ∈ ["1"; "3"; "2"; "latest"; "4"]%string ->
         @eligible int_semver "1" "1" ["4"%string] t' v' -> @GreaterThan int_semver v' v = false)
  | None => forall t v, t ∈ ["1"; "3"; "2"; "latest"; "4"]%string ->
      ~ @eligible int_semver "1" "1" ["4"%string] t v
  end.
Proof.
  split; [reflexivity|].
  exact (@resolve_best_version int_semver int_semver_laws ["1"; "3"; "2"; "latest"; "4"]%string
    "1" "1" ["4"%string]).
Defined.

Example scope_of_image :
  extractScope "https://ghcr.io/v2/prismer-ai/k8s4claw-openclaw" =
  "repository:prismer-ai/k8s4claw-openclaw:pull"%string.
Proof. reflexivity. Qed.

Example url_of_image :
  RegistryURLForImage (ImageForRuntime "openclaw") = "https://ghcr.io/v2/prismer-ai/k8s4claw-openclaw"%string.
Proof. reflexivity. Qed.
