(* ===== verification/Kube.v ===== *)
(** * Kubernetes objects

    The parts of the Kubernetes API types that the operator reads or writes:
    containers, volumes, pod templates, claims, and the object-level helpers
    of the client libraries in the form the sources use them. *)

From S2P Require Import Prelude.
From S2P Require Import Api.

(** ** Libraries

    What the controllers call of them. *)

(** The cron library. *)
Class CronLib := {
  CronSchedule : Type;
  ParseCron : string -> option CronSchedule;
  CronNext : CronSchedule -> Z -> Z;
}.

(** [apimeta.SetStatusCondition]. *)
Class ConditionLib := { SetStatusCondition : Condition -> list Condition -> list Condition }.

(** ** Pod parts *)

Record SecretKeySource := mkSecretKeySource {
  sks_Name : string;
  sks_Key : string;
  sks_Optional : option bool;
}.

Record EnvVar := mkEnv {
  ev_Name : string;
  ev_Value : string;
  ev_From : option SecretKeySource;
}.

Definition env (n v : string) : EnvVar := mkEnv n v None.

Record VolumeMount := mkMount {
  vm_Name : string;
  vm_MountPath : string;
  vm_SubPath : string;
  vm_ReadOnly : bool;
}.

Definition mount (n p : string) : VolumeMount := mkMount n p "" false.
Definition mount_ro (n p : string) : VolumeMount := mkMount n p "" true.

Record ContainerPort := mkPort { cp_Name : string; cp_Port : Z; cp_Protocol : string }.

Record Probe := mkProbe {
  pr_Path : string;
  pr_Port : Z;
  InitialDelaySeconds : Z;
  PeriodSeconds : Z;
  TimeoutSeconds : Z;
}.

Record SecurityContext := mkSecurityContext {
  RunAsUser : option Z;
  RunAsGroup : option Z;
  RunAsNonRoot : option bool;
  ReadOnlyRootFilesystem : option bool;
  AllowPrivilegeEscalation : option bool;
  CapabilitiesDrop : list string;
  SeccompProfile : option string;
}.

Record PodSecurityContext := mkPodSecurity {
  psc_RunAsNonRoot : option bool;
  FSGroup : option Z;
  psc_SeccompProfile : option string;
}.

Section Pods.
Context `{QuantityLib}.

Inductive VolumeSource :=
| EmptyDir (medium : string) (sizeLimit : option Quantity)
| ConfigMapSource (name : string) (optional : option bool)
| ClaimSource (claimName : string).

Record Volume := mkVol { vol_Name : string; vol_Source : VolumeSource }.

Record Container := mkContainer {
  c_Name : string;
  c_Image : string;
  ImagePullPolicy : string;
  c_Command : list string;
  c_Args : list string;
  c_Ports : list ContainerPort;
  c_Env : list EnvVar;
  (** The secrets of [envFrom]. *)
  c_EnvFrom : list string;
  VolumeMounts : list VolumeMount;
  c_Resources : ResourceRequirements;
  c_LivenessProbe : option Probe;
  c_ReadinessProbe : option Probe;
  c_SecurityContext : option SecurityContext;
  PreStop : option (list string);
  RestartPolicy : option string;
}.

Record PodTemplate := mkTemplate {
  pt_Labels : option (gmap string string);
  pt_Annotations : option (gmap string string);
  InitContainers : list Container;
  Containers : list Container;
  Volumes : list Volume;
  pt_SecurityContext : option PodSecurityContext;
  ServiceAccountName : string;
  AutomountServiceAccountToken : option bool;
  TerminationGracePeriodSeconds : option Z;
}.

Record ClaimTemplate := mkClaimTemplate {
  ct_Name : string;
  ct_Labels : gmap string string;
  AccessModes : list string;
  StorageRequest : Quantity;
  StorageClassName : option string;
}.

(** [resource.MustParse]: [None] is the panic. *)
Definition MustParse (s : string) : option Quantity := ParseQuantity s.

Definition set_init (f : list Container -> list Container) (p : PodTemplate) : PodTemplate :=
  mkTemplate (pt_Labels p) (pt_Annotations p) (f (InitContainers p)) (Containers p) (Volumes p)
    (pt_SecurityContext p) (ServiceAccountName p) (AutomountServiceAccountToken p)
    (TerminationGracePeriodSeconds p).
Definition set_containers (f : list Container -> list Container) (p : PodTemplate) : PodTemplate :=
  mkTemplate (pt_Labels p) (pt_Annotations p) (InitContainers p) (f (Containers p)) (Volumes p)
    (pt_SecurityContext p) (ServiceAccountName p) (AutomountServiceAccountToken p)
    (TerminationGracePeriodSeconds p).

Definition with_image (i : string) (c : Container) : Container :=
  mkContainer (c_Name c) i (ImagePullPolicy c) (c_Command c) (c_Args c) (c_Ports c) (c_Env c)
    (c_EnvFrom c) (VolumeMounts c) (c_Resources c) (c_LivenessProbe c) (c_ReadinessProbe c)
    (c_SecurityContext c) (PreStop c) (RestartPolicy c).
Definition with_container_resources (r : ResourceRequirements) (c : Container) : Container :=
  mkContainer (c_Name c) (c_Image c) (ImagePullPolicy c) (c_Command c) (c_Args c) (c_Ports c) (c_Env c)
    (c_EnvFrom c) (VolumeMounts c) r (c_LivenessProbe c) (c_ReadinessProbe c)
    (c_SecurityContext c) (PreStop c) (RestartPolicy c).
Definition add_env_from (secret : string) (c : Container) : Container :=
  mkContainer (c_Name c) (c_Image c) (ImagePullPolicy c) (c_Command c) (c_Args c) (c_Ports c) (c_Env c)
    (c_EnvFrom c ++ [secret]) (VolumeMounts c) (c_Resources c) (c_LivenessProbe c) (c_ReadinessProbe c)
    (c_SecurityContext c) (PreStop c) (RestartPolicy c).
Definition add_env (l : list EnvVar) (c : Container) : Container :=
  mkContainer (c_Name c) (c_Image c) (ImagePullPolicy c) (c_Command c) (c_Args c) (c_Ports c)
    (c_Env c ++ l) (c_EnvFrom c) (VolumeMounts c) (c_Resources c) (c_LivenessProbe c)
    (c_ReadinessProbe c) (c_SecurityContext c) (PreStop c) (RestartPolicy c).

(** Change the first container of a name: the loops with [break]. *)
Fixpoint on_container (name : string) (f : Container -> Container) (l : list Container)
    : list Container :=
  match l with
  | [] => []
  | c :: l' => if decide (c_Name c = name) then f c :: l' else c :: on_container name f l'
  end.
End Pods.

(** ** Field errors of the admission webhooks, without their texts *)

Inductive field_error :=
| Required (path : string)
| Forbidden (path : string)
| Invalid (path : string)
| NotSupported (path : string).
