(* ===== verification/AutoUpdate.v ===== *)
(** * Auto-update (internal/controller/autoupdate_controller.go)

    The reconciler looks for a newer version on a cron schedule, writes the
    target image as an annotation, watches the health of the StatefulSet, and
    rolls back and opens a circuit breaker when updates fail.

    The API server stores the Claw; its main endpoint ignores the status of
    what is sent and [Status().Update] ignores the rest.  What [Update] leaves
    in the object it was given is a parameter, [decode_status]: the code keeps
    a pointer into that object across the call. *)

From S2P Require Import Prelude.
From S2P Require Import GoStrings.
From S2P Require Import GoTime.
From S2P Require Import GoDuration.
From S2P Require Import Api.
From S2P Require Import Samples.
From S2P Require Import Kube.
From S2P Require Import Registry.

Definition annotationTargetImage : string := "claw.prismer.ai/target-image".
Definition annotationUpdatePhase : string := "claw.prismer.ai/update-phase".
Definition annotationUpdateStart : string := "claw.prismer.ai/update-started".
Definition conditionAutoUpdateAvailable : string := "AutoUpdateAvailable".
Definition conditionAutoUpdateInProgress : string := "AutoUpdateInProgress".
Definition defaultSchedule : string := "0 3 * * *".
Definition defaultHealthTimeout : Z := 10 * minute.
Definition defaultMaxRollbacks : Z := 3.
Definition healthCheckPollInterval : Z := 15 * 1000000000.
Definition maxVersionHistory : nat := 50.

Definition EventAutoUpdateAvailable : string := "AutoUpdateAvailable".
Definition EventAutoUpdateStarting : string := "AutoUpdateStarting".
Definition EventAutoUpdateComplete : string := "AutoUpdateComplete".
Definition EventAutoUpdateRollback : string := "AutoUpdateRollback".
Definition EventAutoUpdateCircuitOpen : string := "AutoUpdateCircuitOpen".

(** What the status object holds after [Update], given the stored status and
    the local one. *)
Class UpdateAnswer := {
  decode_status : option AutoUpdateStatus -> AutoUpdateStatus -> AutoUpdateStatus;
}.

(** ** Local changes of the status *)

Definition empty_au_status : AutoUpdateStatus := mkAutoUpdateStatus "" "" None None 0 [] false [].

Definition with_check (t : Z) (s : AutoUpdateStatus) : AutoUpdateStatus :=
  mkAutoUpdateStatus (CurrentVersion s) (AvailableVersion s) (Some t) (LastUpdate s)
    (RollbackCount s) (FailedVersions s) (CircuitOpen s) (VersionHistory s).
Definition with_available (v : string) (s : AutoUpdateStatus) : AutoUpdateStatus :=
  mkAutoUpdateStatus (CurrentVersion s) v (LastCheck s) (LastUpdate s)
    (RollbackCount s) (FailedVersions s) (CircuitOpen s) (VersionHistory s).
Definition with_update (t : Z) (s : AutoUpdateStatus) : AutoUpdateStatus :=
  mkAutoUpdateStatus (CurrentVersion s) (AvailableVersion s) (LastCheck s) (Some t)
    (RollbackCount s) (FailedVersions s) (CircuitOpen s) (VersionHistory s).

Definition trimVersionHistory (l : list VersionHistoryEntry) : list VersionHistoryEntry :=
  keep_last maxVersionHistory l.

Definition containsString (slice : list string) (s : string) : bool := bool_decide (s ∈ slice).

(** The update to [version] succeeded at [t]. *)
Definition with_success (version : string) (t : Z) (s : AutoUpdateStatus) : AutoUpdateStatus :=
  mkAutoUpdateStatus version (AvailableVersion s) (LastCheck s) (LastUpdate s) 0 (FailedVersions s)
    false (trimVersionHistory (VersionHistory s ++ [mkHistory version t VersionHistoryHealthy])).

(** [failedVersion] was rolled back at [t]. *)
Definition with_rollback (failedVersion : string) (t : Z) (s : AutoUpdateStatus) : AutoUpdateStatus :=
  mkAutoUpdateStatus (CurrentVersion s) (AvailableVersion s) (LastCheck s) (LastUpdate s)
    (RollbackCount s + 1)
    (if containsString (FailedVersions s) failedVersion then FailedVersions s
     else FailedVersions s ++ [failedVersion])
    (CircuitOpen s)
    (trimVersionHistory (VersionHistory s ++ [mkHistory failedVersion t VersionHistoryRolledBack])).

Definition with_circuit_open (s : AutoUpdateStatus) : AutoUpdateStatus :=
  mkAutoUpdateStatus (CurrentVersion s) (AvailableVersion s) (LastCheck s) (LastUpdate s)
    (RollbackCount s) (FailedVersions s) true (VersionHistory s).

(** A stored status has times of whole seconds. *)
Definition store_status (s : AutoUpdateStatus) : AutoUpdateStatus :=
  mkAutoUpdateStatus (CurrentVersion s) (AvailableVersion s) (trunc_s <$> LastCheck s)
    (trunc_s <$> LastUpdate s) (RollbackCount s) (FailedVersions s) (CircuitOpen s)
    (map (fun h => mkHistory (vh_Version h) (trunc_s (AppliedAt h)) (vh_Status h)) (VersionHistory s)).

(** ** extractVersionFromImage *)

Definition extractVersionFromImage (image : string) : string :=
  let b := bytes_of image in
  let search := match cut_last_byte "/" b with Some (_, r) => r | None => b end in
  match cut_last_byte ":" search with Some (_, v) => str_of v | None => "" end.

(** ** State, events, errors *)

Record StsStatus := mkSts {
  sts_Replicas : option Z;
  UpdatedReplicas : Z;
  ReadyReplicas : Z;
}.

Section AutoUpdater.
Context `{QuantityLib, SemverLib, CronLib, ConditionLib, UpdateAnswer}.

Record AUState := mkAU { au_claw : option Claw; au_sts : option StsStatus }.

Inductive au_event :=
| EvCheck
| EvRecord (reason message : string)
| EvCircuitMetric (open : bool)
| EvResultMetric (r : string)
| EvUpdated (annotations : option (gmap string string))
| EvStatusUpdated (s : ClawStatus).

Inductive au_error := ErrNotFound | ErrGet | ErrUpdate | ErrStatusUpdate.

Abbreviation UM := (M AUState au_event).

(** ** The API server *)

Definition GetClaw : UM (result au_error Claw) :=
  let* ok := io in
  if ok then
    let* s := mget in
    mret (match au_claw s with Some c => Ok c | None => Err ErrNotFound end)
  else mret (Err ErrGet).

Definition Update (claw : Claw) : UM (result au_error unit) :=
  let* ok := io in
  let* s := mget in
  match ok, au_claw s with
  | true, Some st =>
      mput (mkAU (Some (set_meta (set_annotations (Annotations (Meta claw))) st)) (au_sts s)) ;;;
      emit (EvUpdated (Annotations (Meta claw))) ;;; mret (Ok tt)
  | _, _ => mret (Err ErrUpdate)
  end.

Definition stored_status (s : ClawStatus) : ClawStatus :=
  mkClawStatus (Phase s) (ObservedGeneration s) (Conditions s) (store_status <$> AutoUpdate_ s).

Definition StatusUpdate (claw : Claw) : UM (result au_error unit) :=
  let* ok := io in
  let* s := mget in
  match ok, au_claw s with
  | true, Some st =>
      let new := stored_status (Status claw) in
      mput (mkAU (Some (set_status (fun _ => new) st)) (au_sts s)) ;;;
      emit (EvStatusUpdated new) ;;; mret (Ok tt)
  | _, _ => mret (Err ErrStatusUpdate)
  end.

(** ** Scheduling *)

Definition isCheckDue (schedule : string) (lastCheck now : Z) : bool :=
  match ParseCron schedule with
  | None => true
  | Some sched => CronNext sched lastCheck <? now
  end.

Definition schedule_of (spec : AutoUpdateSpec) : string :=
  if decide (au_Schedule spec = ""%string) then defaultSchedule else au_Schedule spec.

Definition requeueAtNextCron (spec : AutoUpdateSpec) : UM (result au_error Z) :=
  match ParseCron (schedule_of spec) with
  | None => mret (Ok (60 * minute))
  | Some sched =>
      let* t := now in
      mret (Ok (Z.max minute (time_sub (CronNext sched t) t)))
  end.

(** ** Writing an update back

    Annotations first; then the Claw is fetched again and the local status
    and conditions are merged into it. *)

Definition mergeAutoUpdateStatus (local : AutoUpdateStatus) (claw : Claw) : Claw :=
  set_status (fun s =>
    mkClawStatus (Phase s) (ObservedGeneration s) (Conditions s)
      (Some (mkAutoUpdateStatus (CurrentVersion local) (AvailableVersion local) (LastCheck local)
               (LastUpdate local) (RollbackCount local) (FailedVersions local) (CircuitOpen local)
               (VersionHistory local)))) claw.

Definition set_conditions (cs : list Condition) (claw : Claw) : Claw :=
  set_status (fun s =>
    mkClawStatus (Phase s) (ObservedGeneration s)
      (foldl (fun l c => SetStatusCondition c l) (Conditions s) cs) (AutoUpdate_ s)) claw.

Definition write_back (claw : Claw) (status : AutoUpdateStatus) (conds : list Condition)
    (k : UM (result au_error Z)) : UM (result au_error Z) :=
  let* s := mget in
  let* u := Update claw in
  match u with
  | Err e => mret (Err e)
  | Ok _ =>
      let status := decode_status (au_claw s ≫= fun c => AutoUpdate_ (Status c)) status in
      let* g := GetClaw in
      match g with
      | Err e => mret (Err e)
      | Ok fresh =>
          let* w := StatusUpdate (set_conditions conds (mergeAutoUpdateStatus status fresh)) in
          match w with
          | Err e => mret (Err e)
          | Ok _ => k
          end
      end
  end.

(** ** Rollback *)

Definition version_condition (ty st reason message : string) (claw : Claw) : Condition :=
  mkCondition ty st reason message (ObjGeneration (Meta claw)).

Definition max_rollbacks (spec : AutoUpdateSpec) : Z :=
  if 0 <? MaxRollbacks spec then MaxRollbacks spec else defaultMaxRollbacks.

Definition rollback_annotations (m : ObjectMeta) : ObjectMeta :=
  del_annotation annotationUpdateStart
    (del_annotation annotationUpdatePhase (del_annotation annotationTargetImage m)).

Definition rollback (claw : Claw) (spec : AutoUpdateSpec) (status : AutoUpdateStatus) (reason : string)
    : UM (result au_error Z) :=
  let failedVersion := AvailableVersion status in
  emit (EvRecord EventAutoUpdateRollback
          ("Rolling back version " +:+ failedVersion +:+ ": " +:+ reason)%string) ;;;
  let* t := now in
  let status := with_rollback failedVersion t status in
  emit (EvResultMetric "rollback") ;;;
  let* status :=
    if max_rollbacks spec <=? RollbackCount status then
      emit (EvCircuitMetric true) ;;;
      emit (EvRecord EventAutoUpdateCircuitOpen
              ("Circuit breaker opened after " +:+ str_of (format_int (RollbackCount status)) +:+
               " rollbacks")%string) ;;;
      mret (with_circuit_open status)
    else mret status in
  write_back (set_meta rollback_annotations claw) status
    [version_condition conditionAutoUpdateInProgress "False" "RolledBack"
       ("Version " +:+ failedVersion +:+ " rolled back: " +:+ reason)%string claw]
    (requeueAtNextCron spec).

(** ** The health check *)

Definition health_timeout (spec : AutoUpdateSpec) : Z :=
  if decide (HealthTimeout spec = ""%string) then defaultHealthTimeout
  else default defaultHealthTimeout (parse_duration (HealthTimeout spec)).

Definition success_annotations (m : ObjectMeta) : ObjectMeta :=
  del_annotation annotationUpdateStart (del_annotation annotationUpdatePhase m).

Definition finish_update (claw : Claw) (spec : AutoUpdateSpec) (status : AutoUpdateStatus)
    (targetImage : string) : UM (result au_error Z) :=
  emit (EvRecord EventAutoUpdateComplete
          ("Auto-update to version " +:+ AvailableVersion status +:+ " completed successfully")%string) ;;;
  let version := extractVersionFromImage targetImage in
  let* t := now in
  emit (EvCircuitMetric false) ;;;
  emit (EvResultMetric "success") ;;;
  write_back (set_meta success_annotations claw) (with_success version t status)
    [version_condition conditionAutoUpdateAvailable "False" "UpToDate"
       ("Running version " +:+ version)%string claw;
     version_condition conditionAutoUpdateInProgress "False" "UpdateComplete"
       ("Successfully updated to version " +:+ version)%string claw]
    (requeueAtNextCron spec).

Definition replicas_ready (sts : StsStatus) : bool :=
  let desiredReplicas := default 1 (sts_Replicas sts) in
  (desiredReplicas <=? UpdatedReplicas sts) && (desiredReplicas <=? ReadyReplicas sts).

Definition timed_out (spec : AutoUpdateSpec) (startedAt t : Z) : bool :=
  health_timeout spec <? time_sub t startedAt.

Definition reconcileHealthCheck (claw : Claw) (spec : AutoUpdateSpec) (status : AutoUpdateStatus)
    : UM (result au_error Z) :=
  let targetImage := default ""%string (annotation (Meta claw) annotationTargetImage) in
  let startedStr := default ""%string (annotation (Meta claw) annotationUpdateStart) in
  match parse_rfc3339 (bytes_of startedStr) with
  | None => rollback claw spec status "invalid start time"
  | Some startedAt =>
      let* ok := io in
      if ok then
        let* s := mget in
        match au_sts s with
        | None =>
            let* t := now in
            if timed_out spec startedAt t
            then rollback claw spec status "StatefulSet not found within health timeout"
            else mret (Ok healthCheckPollInterval)
        | Some sts =>
            if replicas_ready sts then finish_update claw spec status targetImage
            else
              let* t := now in
              if timed_out spec startedAt t then rollback claw spec status "health check timed out"
              else mret (Ok healthCheckPollInterval)
        end
      else mret (Err ErrGet)
  end.

(** ** The version check *)

Definition starting_annotations (image : string) (t : Z) (m : ObjectMeta) : ObjectMeta :=
  put_annotation annotationUpdateStart (str_of (format_rfc3339 t))
    (put_annotation annotationUpdatePhase "HealthCheck" (put_annotation annotationTargetImage image m)).

Definition start_update (claw : Claw) (status : AutoUpdateStatus) (baseImage newVersion : string)
    (t : Z) : UM (result au_error Z) :=
  emit (EvRecord EventAutoUpdateAvailable
          ("New version available: " +:+ CurrentVersion status +:+ " → " +:+ newVersion)%string) ;;;
  emit (EvRecord EventAutoUpdateStarting ("Starting auto-update to version " +:+ newVersion)%string) ;;;
  let targetImage := (baseImage +:+ ":" +:+ newVersion)%string in
  write_back (set_meta (starting_annotations targetImage t) claw) (with_update t status)
    [version_condition conditionAutoUpdateAvailable "True" "NewVersionFound"
       ("Version " +:+ newVersion +:+ " is available")%string claw;
     version_condition conditionAutoUpdateInProgress "True" "UpdateStarted"
       ("Updating to version " +:+ newVersion)%string claw]
    (mret (Ok healthCheckPollInterval)).

Definition with_au_status (s : AutoUpdateStatus) (claw : Claw) : Claw :=
  set_status (fun st => mkClawStatus (Phase st) (ObservedGeneration st) (Conditions st) (Some s)) claw.

(** The status is written and the next check left to the schedule. *)
Definition update_status_only (claw : Claw) (spec : AutoUpdateSpec) : UM (result au_error Z) :=
  let* w := StatusUpdate claw in
  match w with
  | Err e => mret (Err e)
  | Ok _ => requeueAtNextCron spec
  end.

Definition circuit_blocks (claw : Claw) (spec : AutoUpdateSpec) (status : AutoUpdateStatus)
    (newVersion : string) : UM (result au_error Z) :=
  emit (EvRecord EventAutoUpdateCircuitOpen
          ("Auto-update circuit breaker open (rollbacks: " +:+ str_of (format_int (RollbackCount status))
           +:+ "), version " +:+ newVersion +:+ " available but not applied")%string) ;;;
  emit (EvCircuitMetric true) ;;;
  update_status_only
    (set_conditions
       [version_condition conditionAutoUpdateAvailable "True" "NewVersionFound"
          ("Version " +:+ newVersion +:+ " is available (circuit open)")%string claw]
       (with_au_status status claw)) spec.

Definition check_version (listed : option (list string)) (claw : Claw) (spec : AutoUpdateSpec)
    (status : AutoUpdateStatus) : UM (result au_error Z) :=
  emit EvCheck ;;;
  let baseImage := ImageForRuntime (Runtime (Spec claw)) in
  if decide (baseImage = ""%string) then requeueAtNextCron spec
  else
    match listed with
    | None => mret (Ok (5 * minute))
    | Some tags =>
        let* t := now in
        let status := with_check t status in
        let constraint :=
          if decide (VersionConstraint spec = ""%string) then ">=0.0.0"%string
          else VersionConstraint spec in
        match ResolveBestVersion tags constraint (CurrentVersion status) (FailedVersions status) with
        | None => update_status_only (with_au_status status claw) spec
        | Some newVersion =>
            let status := with_available newVersion status in
            if CircuitOpen status then circuit_blocks claw spec status newVersion
            else start_update claw status baseImage newVersion t
        end
    end.

(** ** Reconcile; [listed] is what the registry lists, if it answers. *)

Definition in_health_check (claw : Claw) : bool :=
  bool_decide (annotation (Meta claw) annotationUpdatePhase = Some "HealthCheck"%string).

Definition reconcile_claw (listed : option (list string)) (claw : Claw) : UM (result au_error Z) :=
  match AutoUpdate (Spec claw) with
  | None => mret (Ok 0)
  | Some spec =>
      if negb (au_Enabled spec) then mret (Ok 0)
      else
        let status := default empty_au_status (AutoUpdate_ (Status claw)) in
        if in_health_check claw then reconcileHealthCheck (with_au_status status claw) spec status
        else
          let currentImage := default ""%string (annotation (Meta claw) annotationTargetImage) in
          if negb (bool_decide (currentImage = ""%string)) && IsDigestPinned currentImage
          then requeueAtNextCron spec
          else
            let* due :=
              match LastCheck status with
              | None => mret true
              | Some last => let* t := now in mret (isCheckDue (schedule_of spec) last t)
              end in
            if due then check_version listed (with_au_status status claw) spec status
            else requeueAtNextCron spec
  end.

Definition Reconcile (listed : option (list string)) : UM (result au_error Z) :=
  let* g := GetClaw in
  match g with
  | Err ErrNotFound => mret (Ok 0)
  | Err e => mret (Err e)
  | Ok claw => reconcile_claw listed claw
  end.

(** ** The abstract state machine

    What one reconciliation can do to the stored Claw, whatever fails. *)

Definition au_status (c : Claw) : AutoUpdateStatus := default empty_au_status (AutoUpdate_ (Status c)).

(** A write-back: nothing, the annotations only, or both. *)
Inductive written (ann : ObjectMeta -> ObjectMeta) (s : AutoUpdateStatus) (c : Claw) : Claw -> Prop :=
| WNothing : written ann s c c
| WAnnotations : written ann s c (set_meta ann c)
| WBoth conds : written ann s c
    (mkClaw (ann (Meta c)) (Spec c)
       (mkClawStatus (Phase (Status c)) (ObservedGeneration (Status c)) conds
          (Some (store_status (decode_status (AutoUpdate_ (Status c)) s))))).

Definition rolled_back (spec : AutoUpdateSpec) (t : Z) (s : AutoUpdateStatus) : AutoUpdateStatus :=
  let s' := with_rollback (AvailableVersion s) t s in
  if max_rollbacks spec <=? RollbackCount s' then with_circuit_open s' else s'.

Definition target_image (c : Claw) : string :=
  default ""%string (annotation (Meta c) annotationTargetImage).

Inductive au_step (c : Claw) : Claw -> Prop :=
| AIdle : au_step c c
| AChecked spec t av conds :
    AutoUpdate (Spec c) = Some spec -> in_health_check c = false ->
    au_step c
      (mkClaw (Meta c) (Spec c)
         (mkClawStatus (Phase (Status c)) (ObservedGeneration (Status c)) conds
            (Some (store_status (from_option with_available id av (with_check t (au_status c)))))))
| AStarted spec t v c' :
    AutoUpdate (Spec c) = Some spec -> in_health_check c = false ->
    CircuitOpen (au_status c) = false -> v ∉ FailedVersions (au_status c) ->
    written (starting_annotations (ImageForRuntime (Runtime (Spec c)) +:+ ":" +:+ v)%string t)
      (with_update t (with_available v (with_check t (au_status c)))) c c' ->
    au_step c c'
| ARolledBack spec t c' :
    AutoUpdate (Spec c) = Some spec -> in_health_check c = true ->
    written rollback_annotations (rolled_back spec t (au_status c)) c c' ->
    au_step c c'
| AFinished spec t c' :
    AutoUpdate (Spec c) = Some spec -> in_health_check c = true ->
    written success_annotations
      (with_success (extractVersionFromImage (target_image c)) t (au_status c)) c c' ->
    au_step c c'.

(** ** The reconciler refines it *)

Definition holds (P : option Claw -> Prop) (r : Run AUState au_event) : Prop := P (au_claw (run_st r)).

Lemma requeue_state w spec (P : Run AUState au_event -> Prop) r :
  (forall n, P (mkRun (run_st r) n (run_trace r))) ->
  wp w (requeueAtNextCron spec) (fun _ => P) r.
Proof.
  intros HP. unfold requeueAtNextCron. destruct (ParseCron _); wp_step; [apply HP|].
  destruct r as [s n tr]. apply (HP n).
Qed.

Lemma write_back_spec w claw c status conds ann k r :
  au_claw (run_st r) = Some c -> Meta claw = ann (Meta c) ->
  set_annotations (Annotations (ann (Meta c))) (Meta c) = ann (Meta c) ->
  (forall P r', holds P r' -> wp w k (fun _ => holds P) r') ->
  wp w (write_back claw status conds k) (fun _ r' => exists c',
    au_claw (run_st r') = Some c' /\ written ann status c c') r.
Proof.
  intros Hc Hm Hann Hk. unfold write_back, Update, GetClaw, StatusUpdate. wp_step. rewrite Hc.
  destruct (o_ok w (run_tick r)); wp_step; [|by eexists; split; [done|constructor]].
  rewrite Hm. replace (set_meta (set_annotations (Annotations (ann (Meta c)))) c) with (set_meta ann c)
    by (unfold set_meta; by rewrite Hann).
  destruct (o_ok w (1 + run_tick r)%nat); wp_step; cbn [au_claw au_sts];
    [|by eexists; split; [done|constructor]].
  wp_step. destruct (o_ok w _); wp_step; cbn [au_claw au_sts]; [|by eexists; split; [done|constructor]].
  apply (Hk (fun oc => exists c', oc = Some c' /\ written ann status c c')).
  eexists. split; [done|]. apply (WBoth ann status c).
Qed.

(** Every handler leaves a claw that [au_step] allows. *)
Definition steps_from (c : Claw) (r : Run AUState au_event) : Prop :=
  exists c', au_claw (run_st r) = Some c' /\ au_step c c'.

Lemma steps_idle c r : au_claw (run_st r) = Some c -> steps_from c r.
Proof. intros ?. exists c. split; [done|constructor]. Qed.

Lemma requeue_holds w spec P r : holds P r -> wp w (requeueAtNextCron spec) (fun _ => holds P) r.
Proof. intros HP. by apply requeue_state. Qed.

Lemma rollback_steps w c spec reason r :
  au_claw (run_st r) = Some c -> AutoUpdate (Spec c) = Some spec -> in_health_check c = true ->
  wp w (rollback (with_au_status (au_status c) c) spec (au_status c) reason)
    (fun _ => steps_from c) r.
Proof.
  intros Hc Hs Hh. unfold rollback. rewrite !wp_bind, wp_emit, !wp_bind, wp_now.
  rewrite !wp_bind, wp_emit, !wp_bind. cbn [run_st run_tick run_trace].
  set (st := with_rollback _ _ _).
  eapply (wp_conseq w _ (fun s' r' => au_claw (run_st r') = Some c /\
    s' = if max_rollbacks spec <=? RollbackCount st then with_circuit_open st else st)).
  - intros s' r' [Hc' ->].
    eapply wp_conseq; [|by eapply (write_back_spec w _ c _ _ rollback_annotations);
      [| | |intros; apply requeue_holds]].
    intros _ r'' (c' & Hc'' & Hw). exists c'. split; [done|].
    by eapply (ARolledBack c spec (o_now w (run_tick r))).
  - destruct (max_rollbacks spec <=? RollbackCount st); wp_step; done.
Qed.

Lemma finish_steps w c spec r :
  au_claw (run_st r) = Some c -> AutoUpdate (Spec c) = Some spec -> in_health_check c = true ->
  wp w (finish_update (with_au_status (au_status c) c) spec (au_status c) (target_image c))
    (fun _ => steps_from c) r.
Proof.
  intros Hc Hs Hh. unfold finish_update. rewrite !wp_bind, wp_emit, !wp_bind, wp_now.
  rewrite !wp_bind, wp_emit, !wp_bind, wp_emit. cbn [run_st run_tick run_trace].
  eapply wp_conseq; [|by eapply (write_back_spec w _ c _ _ success_annotations);
    [| | |intros; apply requeue_holds]].
  intros _ r'' (c' & Hc'' & Hw). exists c'. split; [done|].
  by eapply (AFinished c spec (o_now w (run_tick r))).
Qed.

Lemma health_steps w c spec r :
  au_claw (run_st r) = Some c -> AutoUpdate (Spec c) = Some spec -> in_health_check c = true ->
  wp w (reconcileHealthCheck (with_au_status (au_status c) c) spec (au_status c))
    (fun _ => steps_from c) r.
Proof.
  intros Hc Hs Hh. unfold reconcileHealthCheck.
  destruct (parse_rfc3339 _) as [started|]; [|by apply rollback_steps].
  rewrite !wp_bind, wp_io. destruct (o_ok w _); [|by apply steps_idle].
  rewrite !wp_bind, wp_mget. cbn [run_st run_tick run_trace].
  destruct (au_sts (run_st r)) as [sts|].
  - destruct (replicas_ready sts); [by apply finish_steps|].
    rewrite !wp_bind, wp_now. case_if; [by apply rollback_steps|by apply steps_idle].
  - rewrite !wp_bind, wp_now. case_if; [by apply rollback_steps|by apply steps_idle].
Qed.

Lemma status_only_steps w c c' spec t av r :
  au_claw (run_st r) = Some c -> AutoUpdate (Spec c) = Some spec -> in_health_check c = false ->
  AutoUpdate_ (Status c') = Some (from_option with_available id av (with_check t (au_status c))) ->
  Phase (Status c') = Phase (Status c) ->
  ObservedGeneration (Status c') = ObservedGeneration (Status c) ->
  wp w (update_status_only c' spec) (fun _ => steps_from c) r.
Proof.
  intros Hc Hs Hh Hau Hp Ho. unfold update_status_only, StatusUpdate. wp_step. rewrite Hc.
  destruct (o_ok w _); wp_step; [|by apply steps_idle].
  apply requeue_state. intros n. eexists. cbn. split; [done|].
  unfold set_status, stored_status. rewrite Hau, Hp, Ho. by eapply (AChecked c spec t av).
Qed.

Lemma check_steps w listed c spec r :
  au_claw (run_st r) = Some c -> AutoUpdate (Spec c) = Some spec -> in_health_check c = false ->
  wp w (check_version listed (with_au_status (au_status c) c) spec (au_status c))
    (fun _ => steps_from c) r.
Proof.
  intros Hc Hs Hh. unfold check_version. rewrite !wp_bind, wp_emit.
  case_decide; [apply requeue_state; intros n; by apply steps_idle|].
  destruct listed as [tags|]; [|by apply steps_idle].
  rewrite !wp_bind, wp_now. cbn [run_st run_tick run_trace]. set (t := o_now w _).
  set (con := if decide _ then _ else _).
  destruct (ResolveBestVersion _ _ _ _) as [v|] eqn:Hv.
  - apply resolve_not_failed in Hv.
    change (CircuitOpen (with_available v (with_check t (au_status c)))) with (CircuitOpen (au_status c)).
    destruct (CircuitOpen (au_status c)) eqn:Ho.
    + unfold circuit_blocks. rewrite !wp_bind, wp_emit, !wp_bind, wp_emit.
      by eapply (status_only_steps w c _ spec t (Some v)).
    + unfold start_update. rewrite !wp_bind, wp_emit, !wp_bind, wp_emit.
      eapply wp_conseq; [|by eapply (write_back_spec w _ c _ _
        (starting_annotations (ImageForRuntime (Runtime (Spec c)) +:+ ":" +:+ v)%string t))].
      intros _ r'' (c' & Hc'' & Hw). exists c'. split; [done|]. by eapply (AStarted c spec t v).
  - by eapply (status_only_steps w c _ spec t None).
Qed.

Lemma reconcile_claw_steps w listed c r :
  au_claw (run_st r) = Some c -> wp w (reconcile_claw listed c) (fun _ => steps_from c) r.
Proof.
  intros Hc. unfold reconcile_claw.
  destruct (AutoUpdate (Spec c)) as [spec|] eqn:Hs; [|by apply steps_idle].
  destruct (negb (au_Enabled spec)); [by apply steps_idle|].
  fold (au_status c). destruct (in_health_check c) eqn:Hh; [by apply health_steps|].
  destruct (negb _ && _); [apply requeue_state; intros n; by apply steps_idle|].
  rewrite wp_bind.
  eapply (wp_conseq w _ (fun _ r' => au_claw (run_st r') = Some c)).
  - intros due r' Hc'. destruct due; [by apply check_steps|].
    apply requeue_state. intros n. by apply steps_idle.
  - destruct (LastCheck (au_status c)); wp_step; done.
Qed.

(** C39: whatever the API server, the registry and the clock answer, one
    reconciliation changes the stored claw by at most one step of the
    auto-update state machine. *)
Theorem reconcile_refines w listed s :
  let s' := run_st (snd (exec (Reconcile listed) w s)) in
  match au_claw s with
  | Some c => exists c', au_claw s' = Some c' /\ au_step c c'
  | None => au_claw s' = None
  end.
Proof.
  unfold exec.
  assert (wp w (Reconcile listed) (fun _ r' => match au_claw s with
    | Some c => steps_from c r' | None => au_claw (run_st r') = None end) (mkRun s 0 [])) as Hwp.
  { unfold Reconcile, GetClaw. rewrite !wp_bind, wp_io.
    destruct (o_ok w _); rewrite ?wp_bind, ?wp_mget, wp_ret; cbn [run_st run_tick run_trace].
    - destruct (au_claw s) as [c|] eqn:Hc; [by apply reconcile_claw_steps|done].
    - rewrite wp_ret. destruct (au_claw s) eqn:Hc; [by apply steps_idle|done]. }
  unfold wp in Hwp. destruct (Reconcile listed w _) as [a r]. cbn. destruct (au_claw s); done.
Qed.

(** ** Runs: reconciliations of one claw, in any order of events

    Between two of them the StatefulSet may change. *)

Definition au_reconcile (listed : option (list string)) (sts : option StsStatus) (w : Oracle)
    (s : AUState) : AUState :=
  run_st (snd (exec (Reconcile listed) w (mkAU (au_claw s) sts))).

Definition au_next (s s' : AUState) : Prop :=
  exists listed sts w, s' = au_reconcile listed sts w s.

Lemma au_next_step s s' c :
  au_next s s' -> au_claw s = Some c -> exists c', au_claw s' = Some c' /\ au_step c c'.
Proof.
  intros (listed & sts & w & ->) Hc.
  pose proof (reconcile_refines w listed (mkAU (au_claw s) sts)) as Hr. cbv zeta in Hr. cbn [au_claw] in Hr.
  unfold au_reconcile. rewrite Hc in Hr |- *. exact Hr.
Qed.

(** What every step of the machine keeps holds along every run. *)
Lemma au_runs (P : Claw -> Prop) s s' c :
  (forall c c', P c -> au_step c c' -> P c') ->
  rtc au_next s s' -> au_claw s = Some c -> P c -> exists c', au_claw s' = Some c' /\ P c'.
Proof.
  intros HP Hr. revert c. induction Hr as [s|s s1 s' Hs1 _ IH]; intros c Hc Hp; [by exists c|].
  destruct (au_next_step _ _ _ Hs1 Hc) as (c1 & Hc1 & Hstep). by eapply IH; [|eapply HP].
Qed.

Lemma store_status_fields s :
  CurrentVersion (store_status s) = CurrentVersion s /\
  RollbackCount (store_status s) = RollbackCount s /\
  FailedVersions (store_status s) = FailedVersions s /\
  CircuitOpen (store_status s) = CircuitOpen s.
Proof. done. Qed.

(** An open circuit stays open: no update is started again, whatever fails. *)
Theorem circuit_latched s s' c :
  au_claw s = Some c -> in_health_check c = false -> CircuitOpen (au_status c) = true ->
  rtc au_next s s' ->
  exists c', au_claw s' = Some c' /\ CircuitOpen (au_status c') = true /\
    Annotations (Meta c') = Annotations (Meta c).
Proof.
  intros Hc Hh Ho Hr.
  destruct (au_runs (fun d => in_health_check d = false /\ CircuitOpen (au_status d) = true /\
    Annotations (Meta d) = Annotations (Meta c)) s s' c) as (c' & ? & _ & ? & ?); [|done..|by exists c'].
  intros d d' (Hd & Hod & Had) Hstep.
  destruct Hstep as [|? ? [v|] ? ? ?|????? Hod'|??? Hs' Hd'|??? Hs' Hd']; try congruence; done.
Qed.

Lemma image_inj base v v' :
  (base +:+ ":" +:+ v)%string = (base +:+ ":" +:+ v')%string -> v = v'.
Proof.
  intros Heq. apply (f_equal bytes_of) in Heq. rewrite !bytes_of_app in Heq.
  apply app_inv_head in Heq. apply app_inv_head in Heq. by apply bytes_of_inj.
Qed.

Lemma image_nonempty base v : ""%string <> (base +:+ ":" +:+ v)%string.
Proof. by destruct base. Qed.

(** The target image after each of the three changes of annotations. *)
Lemma target_after m image t :
  annotation (starting_annotations image t m) annotationTargetImage = Some image /\
  annotation (rollback_annotations m) annotationTargetImage = None /\
  annotation (success_annotations m) annotationTargetImage = annotation m annotationTargetImage.
Proof.
  unfold starting_annotations, rollback_annotations, success_annotations.
  by rewrite !annotation_put, !annotation_del.
Qed.

Lemma phase_after m :
  annotation (rollback_annotations m) annotationUpdatePhase = None /\
  annotation (success_annotations m) annotationUpdatePhase = None.
Proof. unfold rollback_annotations, success_annotations. by rewrite !annotation_del. Qed.

(** ** When [Update] decodes the server's answer into the object

    The answer carries the stored status; a field that is empty there is
    omitted and keeps its local value. *)

Class InPlaceDecode := {
  in_place_none l : decode_status None l = l;
  in_place_count s l : RollbackCount (decode_status (Some s) l) =
    if RollbackCount s =? 0 then RollbackCount l else RollbackCount s;
  in_place_circuit s l :
    CircuitOpen (decode_status (Some s) l) = CircuitOpen s || CircuitOpen l;
  in_place_failed s l :
    FailedVersions s <> [] -> FailedVersions (decode_status (Some s) l) = FailedVersions s;
}.

(** What was recorded as failed survives an answer. *)
Lemma failed_survives `{!InPlaceDecode} c l v :
  v ∈ FailedVersions (au_status c) -> v ∈ FailedVersions (decode_status (AutoUpdate_ (Status c)) l).
Proof.
  unfold au_status. destruct (AutoUpdate_ (Status c)) as [s|]; cbn; [|by intros ?%not_elem_of_nil].
  intros Hv. rewrite in_place_failed; [done|]. intros He. rewrite He in Hv. by apply not_elem_of_nil in Hv.
Qed.

(** C13: a version that is recorded as failed is never again the target image
    of the claw, and stays recorded, whatever fails, whatever the registry
    lists and whatever the updates in between do, if [Update] decodes the
    server's answer into the object ([InPlaceDecode]). *)
Theorem failed_never_retried `{!InPlaceDecode} s s' c v :
  au_claw s = Some c -> v ∈ FailedVersions (au_status c) ->
  target_image c <> (ImageForRuntime (Runtime (Spec c)) +:+ ":" +:+ v)%string ->
  rtc au_next s s' ->
  exists c', au_claw s' = Some c' /\ v ∈ FailedVersions (au_status c') /\
    target_image c' <> (ImageForRuntime (Runtime (Spec c)) +:+ ":" +:+ v)%string.
Proof.
  intros Hc Hv Ht Hr. set (base := ImageForRuntime (Runtime (Spec c))) in *.
  destruct (au_runs (fun d => ImageForRuntime (Runtime (Spec d)) = base /\
    v ∈ FailedVersions (au_status d) /\ target_image d <> (base +:+ ":" +:+ v)%string) s s' c)
    as (c' & ? & _ & ? & ?); [|done..|by exists c'].
  intros d d' (Hb & Hvd & Htd) Hstep. unfold target_image in *.
  pose proof (fun l => failed_survives d l v Hvd) as Hkeep.
  destruct Hstep as [|? ? [v'|] ? ? ?|? t v' d' ? ? ? Hn Hw|? t d' ? ? Hw|? t d' ? ? Hw]; try done;
    destruct Hw as [| |conds]; try done; cbn [Meta Spec Status set_meta] in *;
    rewrite ?(proj1 (target_after _ _ _)), ?(proj1 (proj2 (target_after _ ""%string 0))),
      ?(proj2 (proj2 (target_after _ ""%string 0))); (split; [done|split; [first [done|apply Hkeep]|]]).
  - rewrite Hb. intros <-%image_inj. done.
  - rewrite Hb. intros <-%image_inj. done.
  - apply image_nonempty.
  - apply image_nonempty.
  - done.
  - done.
Qed.

(** The count of a run that starts without a status, below the threshold. *)
Definition count_stuck (c : Claw) : Prop :=
  0 <= RollbackCount (au_status c) <= 1 /\ CircuitOpen (au_status c) = false.

Lemma count_stuck_written `{!InPlaceDecode} ann c c' s :
  count_stuck c -> written ann s c c' ->
  0 <= RollbackCount s -> (RollbackCount (au_status c) = 0 -> RollbackCount s <= 1) ->
  CircuitOpen s = false -> count_stuck c'.
Proof.
  intros [Hc Ho] Hw Hs Hs1 Hos. unfold count_stuck in *.
  destruct Hw as [| |conds]; [done..|]. unfold au_status. cbn.
  unfold au_status in Hc, Ho, Hs1.
  destruct (AutoUpdate_ (Status c)) as [st|]; cbn in *.
  - rewrite in_place_count, in_place_circuit, Ho, Hos. split; [|done].
    destruct (Z.eqb_spec (RollbackCount st) 0); auto.
  - rewrite in_place_none. auto.
Qed.

(** Property: when [Update] decodes the server's answer into the object it was
    given, which the local status points into, no run ever counts a second
    rollback, and with the default threshold the circuit never opens however
    many updates fail. *)
Theorem rollbacks_not_counted `{!InPlaceDecode} s s' c spec :
  au_claw s = Some c -> AutoUpdate (Spec c) = Some spec -> AutoUpdate_ (Status c) = None ->
  defaultMaxRollbacks <= max_rollbacks spec -> rtc au_next s s' ->
  exists c', au_claw s' = Some c' /\ RollbackCount (au_status c') <= 1 /\
    CircuitOpen (au_status c') = false.
Proof.
  intros Hc Hspec Hst Hmax Hr.
  destruct (au_runs (fun d => AutoUpdate (Spec d) = Some spec /\ count_stuck d) s s' c)
    as (c' & ? & _ & [? ?] & ?); [|done..| |].
  - intros d d' (Hd & Hstuck) Hstep.
    destruct Hstep as [|? ? [v'|] ? ? ?|? t v' d' ? ? ? Hn Hw|? t d' Hd2 ? Hw|? t d' ? ? Hw]; try done.
    all: split; [by destruct Hw|].
    + eapply count_stuck_written; [exact Hstuck|exact Hw|..]; cbn; destruct Hstuck; (done || lia).
    + assert (spec = spec0) by congruence. subst spec0.
      eapply count_stuck_written; [exact Hstuck|exact Hw|..]; unfold rolled_back; destruct Hstuck;
        (destruct (Z.leb_spec (max_rollbacks spec) (RollbackCount (with_rollback
          (AvailableVersion (au_status d)) t (au_status d)))) as [Hle|_]; cbn in *;
         [unfold defaultMaxRollbacks in Hmax; lia|]); (done || lia).
    + eapply count_stuck_written; [exact Hstuck|exact Hw|..]; cbn; (done || lia).
  - split; [done|]. unfold count_stuck, au_status. rewrite Hst. cbn. lia.
  - by exists c'.
Qed.

(** ** A health check ends *)

(** With every request answered, a write-back changes the annotations. *)
Lemma write_back_ok w claw c status conds ann k r (P : option Claw -> Prop) :
  (forall n, o_ok w n = true) -> au_claw (run_st r) = Some c -> Meta claw = ann (Meta c) ->
  set_annotations (Annotations (ann (Meta c))) (Meta c) = ann (Meta c) ->
  (forall Q r', holds Q r' -> wp w k (fun _ => holds Q) r') ->
  (forall st, P (Some (mkClaw (ann (Meta c)) (Spec c) st))) ->
  wp w (write_back claw status conds k) (fun _ => holds P) r.
Proof.
  intros Hw Hc Hm Hann Hk HP. unfold write_back, Update, GetClaw, StatusUpdate. wp_step.
  rewrite Hc. do 4 (rewrite ?Hw; wp_step; cbn [au_claw au_sts]).
  apply Hk. unfold holds. cbn [run_st au_claw].
  unfold set_status, set_meta. cbn [Meta Spec Status]. rewrite Hm, Hann. apply HP.
Qed.

Definition out_of_health_check (c : option Claw) : Prop :=
  exists d, c = Some d /\ in_health_check d = false.

Lemma rollback_ends w c spec status reason r :
  (forall n, o_ok w n = true) -> au_claw (run_st r) = Some c ->
  wp w (rollback (with_au_status (au_status c) c) spec status reason)
    (fun _ => holds out_of_health_check) r.
Proof.
  intros Hw Hc. unfold rollback. rewrite !wp_bind, wp_emit, !wp_bind, wp_now.
  rewrite !wp_bind, wp_emit, !wp_bind. cbn [run_st run_tick run_trace].
  eapply (wp_conseq w _ (fun _ r' => au_claw (run_st r') = Some c)).
  - intros s' r' Hc'. eapply (write_back_ok w _ c _ _ rollback_annotations); try done.
    + intros. by apply requeue_holds.
    + intros st. eexists. split; [done|]. unfold in_health_check. cbn [Meta].
      by rewrite (proj1 (phase_after _)).
  - case_if; wp_step; done.
Qed.

Lemma finish_ends w c spec status image r :
  (forall n, o_ok w n = true) -> au_claw (run_st r) = Some c ->
  wp w (finish_update (with_au_status (au_status c) c) spec status image)
    (fun _ => holds out_of_health_check) r.
Proof.
  intros Hw Hc. unfold finish_update. rewrite !wp_bind, wp_emit, !wp_bind, wp_now.
  rewrite !wp_bind, wp_emit, !wp_bind, wp_emit. cbn [run_st run_tick run_trace].
  eapply (write_back_ok w _ c _ _ success_annotations); try done.
  - intros. by apply requeue_holds.
  - intros st. eexists. split; [done|]. unfold in_health_check. cbn [Meta].
    by rewrite (proj2 (phase_after _)).
Qed.

(** The clock is past the time given to the update. *)
Definition past_deadline (c : Claw) (spec : AutoUpdateSpec) (t : Z) : Prop :=
  match parse_rfc3339 (bytes_of (default ""%string (annotation (Meta c) annotationUpdateStart))) with
  | Some startedAt => timed_out spec startedAt t = true
  | None => True
  end.

Lemma deadline_ends listed sts w s c spec :
  au_claw s = Some c -> AutoUpdate (Spec c) = Some spec -> au_Enabled spec = true ->
  in_health_check c = true ->
  (forall n, o_ok w n = true) -> (forall n, past_deadline c spec (o_now w n)) ->
  out_of_health_check (au_claw (au_reconcile listed sts w s)).
Proof.
  intros Hc Hs He Hh Hw Hd.
  assert (wp w (Reconcile listed) (fun _ => holds out_of_health_check)
    (mkRun (mkAU (au_claw s) sts) 0 [])) as Hwp.
  { unfold Reconcile, GetClaw. rewrite !wp_bind, wp_io, Hw, wp_bind, wp_mget, wp_ret.
    cbn [run_st run_tick run_trace au_claw]. rewrite Hc. unfold reconcile_claw.
    rewrite Hs, He, Hh. cbn [negb]. fold (au_status c). unfold reconcileHealthCheck.
    unfold past_deadline in Hd.
    change (Meta (with_au_status (au_status c) c)) with (Meta c).
    destruct (parse_rfc3339 _) as [started|]; [|by apply rollback_ends].
    rewrite !wp_bind, wp_io, Hw, !wp_bind, wp_mget. cbn [run_st run_tick run_trace au_sts].
    destruct sts as [sts|]; [destruct (replicas_ready sts); [by apply finish_ends|]|];
      rewrite !wp_bind, wp_now, Hd; by apply rollback_ends. }
  unfold au_reconcile, exec. unfold wp in Hwp. destruct (Reconcile listed w _) as [a r]. exact Hwp.
Qed.

Definition au_input : Type := option (list string) * option StsStatus * Oracle.

Definition au_run (l : list au_input) (s : AUState) : AUState :=
  foldl (fun s '(listed, sts, w) => au_reconcile listed sts w s) s l.

Lemma au_run_rtc l s : rtc au_next s (au_run l s).
Proof.
  revert s. induction l as [|[[li st] w] l IH]; intros s; [done|].
  eapply rtc_l; [by exists li, st, w|]. apply IH.
Qed.

Lemma health_step c c' spec :
  au_step c c' -> AutoUpdate (Spec c) = Some spec -> in_health_check c = true ->
  c' = c \/ in_health_check c' = false.
Proof.
  intros Hstep Hs Hh.
  destruct Hstep as [|? ? ? ? ? ?|? ? ? ? ? ? ? ? Hw|? ? ? ? ? Hw|? ? ? ? ? Hw]; try congruence; auto.
  all: destruct Hw as [| |conds]; auto; right; unfold in_health_check; cbn [Meta set_meta];
    first [by rewrite (proj1 (phase_after _)) | by rewrite (proj2 (phase_after _))].
Qed.

(** C12: a health check ends.  Whatever the reconciliations before it
    meet - failing requests, any state of the StatefulSet, any clock - the
    first one past the deadline whose requests are answered finds the update
    finished or rolled back, or finishes it or rolls it back itself. *)
Theorem health_check_ends (l : list au_input) listed sts w s c spec :
  au_claw s = Some c -> AutoUpdate (Spec c) = Some spec -> au_Enabled spec = true ->
  (forall n, o_ok w n = true) -> (forall n, past_deadline c spec (o_now w n)) ->
  exists k, (k <= S (length l))%nat /\
    out_of_health_check (au_claw (au_run (take k (l ++ [(listed, sts, w)])) s)).
Proof.
  intros Hc Hs He Hw Hd. revert s Hc.
  induction l as [|[[li st] v] l IH]; intros s Hc;
    (destruct (in_health_check c) eqn:Hh; [|by exists 0%nat; split; [lia|exists c]]).
  - exists 1%nat. split; [done|]. by eapply deadline_ends.
  - destruct (au_next_step s (au_reconcile li st v s) c) as (c' & Hc' & Hstep);
      [by exists li, st, v|done|].
    destruct (health_step _ _ _ Hstep Hs Hh) as [->|Hout].
    + destruct (IH _ Hc') as (k & Hk & Hend). exists (S k). split; [cbn; lia|done].
    + exists 1%nat. split; [lia|]. exists c'. split; [|done]. exact Hc'.
Qed.
End AutoUpdater.

(** ** Evaluation *)

Module Sample.
#[local] Existing Instance int_quantities.
#[local] Existing Instance int_semver.

(** A tick every hour. *)
#[local] Instance hourly : CronLib := {|
  CronSchedule := unit;
  ParseCron _ := Some tt;
  CronNext _ t := t + 60 * minute;
|}.

#[local] Instance last_of_type : ConditionLib := {|
  SetStatusCondition c l := filter (fun d => co_Type d <> co_Type c) l ++ [c];
|}.

(** The object is left alone, or decoded into. *)
Definition kept : UpdateAnswer := {| decode_status _ l := l |}.

Definition or_local {A} `{EqDecision A} (zero stored local : A) : A :=
  if decide (stored = zero) then local else stored.

#[local] Instance VersionHistoryEntry_eq_dec : EqDecision VersionHistoryEntry.
Proof. solve_decision. Defined.

Definition in_place : UpdateAnswer := {|
  decode_status o l :=
    match o with
    | None => l
    | Some s =>
        mkAutoUpdateStatus (or_local ""%string (CurrentVersion s) (CurrentVersion l))
          (or_local ""%string (AvailableVersion s) (AvailableVersion l))
          (or_local None (LastCheck s) (LastCheck l)) (or_local None (LastUpdate s) (LastUpdate l))
          (or_local 0 (RollbackCount s) (RollbackCount l))
          (or_local [] (FailedVersions s) (FailedVersions l))
          (CircuitOpen s || CircuitOpen l)
          (or_local [] (VersionHistory s) (VersionHistory l))
    end |}.

Lemma in_place_laws : @InPlaceDecode in_place.
Proof.
  split; [done| |done|]; intros s l; cbn; unfold or_local.
  - destruct (Z.eqb_spec (RollbackCount s) 0); by case_decide.
  - intros Hne. by rewrite decide_False.
Qed.

Definition au_spec : AutoUpdateSpec := mkAutoUpdate true "0" "" "" 0.

Definition au_sample (annotations : list (string * string)) (s : option AutoUpdateStatus) : Claw :=
  mkClaw (sample_meta annotations)
    (mkClawSpec RuntimeOpenClaw None None [] None None None None None None None (Some au_spec) None None)
    (mkClawStatus "" 0 [] s).

Definition day0 : Z := 1700000000 * 1000000000.

(** A check that finds [tags], and a look at a StatefulSet that is not there. *)
Definition check_at (h : Z) (tags : list string) : au_input :=
  (Some tags, None, at_time (day0 + h * 60 * minute)).

(** Two updates in a row that time out. *)
Definition two_failures : list au_input :=
  [check_at 0 ["1"; "2"]%string; check_at 1 []; check_at 3 ["1"; "2"; "3"]%string; check_at 4 []].

Definition outcome (s : AUState) : option (Z * bool * list string * string) :=
  (fun c => (RollbackCount (au_status c), CircuitOpen (au_status c), FailedVersions (au_status c),
             target_image c)) <$> au_claw s.

Example two_failures_kept :
  outcome (au_run (H3 := kept) two_failures (mkAU (Some (au_sample [] None)) None)) =
  Some (2, false, ["2"; "3"]%string, ""%string).
Proof. vm_compute. reflexivity. Qed.

(** Decoding in place, the second failure is forgotten: the failed version is
    not recorded and the next check chooses it again. *)
Example second_failure_forgotten :
  outcome (au_run (H3 := in_place) two_failures (mkAU (Some (au_sample [] None)) None)) =
  Some (1, false, ["2"]%string, ""%string) /\
  outcome (au_run (H3 := in_place) (two_failures ++ [check_at 6 ["1"; "2"; "3"]%string])
             (mkAU (Some (au_sample [] None)) None)) =
  Some (1, false, ["2"]%string, "ghcr.io/prismer-ai/k8s4claw-openclaw:3"%string).
Proof. split; vm_compute; reflexivity. Qed.

Definition failed_twice : AUState :=
  au_run (H3 := in_place) two_failures (mkAU (Some (au_sample [] None)) None).
Definition failed_claw : Claw := default (au_sample [] None) (au_claw failed_twice).

Lemma failed_twice_claw : au_claw failed_twice = Some failed_claw.
Proof.
  assert ((if au_claw failed_twice is Some _ then true else false) = true) as Hs by (vm_compute; reflexivity).
  unfold failed_claw. by destruct (au_claw failed_twice).
Qed.

Lemma failed_never_retried_witness :
  "2"%string ∈ FailedVersions (au_status failed_claw) /\
  exists c', au_claw (au_run (H3 := in_place) [check_at 6 ["2"; "4"]%string] failed_twice) = Some c' /\
    "2"%string ∈ FailedVersions (au_status c') /\
    target_image c' <> (ImageForRuntime (Runtime (Spec failed_claw)) +:+ ":" +:+ "2")%string.
Proof.
  assert (Hv : "2"%string ∈ FailedVersions (au_status failed_claw)).
  { apply (bool_decide_unpack ("2"%string ∈ FailedVersions (au_status failed_claw))).
    vm_compute. exact I. }
  split; [exact Hv|].
  apply (failed_never_retried (H3 := in_place) (H4 := in_place_laws) failed_twice _ failed_claw "2").
  - exact failed_twice_claw.
  - exact Hv.
  - intros Heq. by apply image_nonempty in Heq.
  - apply (au_run_rtc (H3 := in_place)).
Defined.

Lemma rollbacks_not_counted_witness :
  exists c', au_claw (au_run (H3 := in_place) two_failures (mkAU (Some (au_sample [] None)) None)) = Some c' /\
    RollbackCount (au_status c') <= 1 /\ CircuitOpen (au_status c') = false.
Proof.
  apply (rollbacks_not_counted (H3 := in_place) (H4 := in_place_laws)
    (mkAU (Some (au_sample [] None)) None) _ (au_sample [] None) au_spec).
  - reflexivity.
  - reflexivity.
  - reflexivity.
  - vm_compute. discriminate.
  - apply (au_run_rtc (H3 := in_place)).
Defined.

Definition updating : Claw :=
  au_sample [(annotationUpdatePhase, "HealthCheck");
             (annotationUpdateStart, "2023-11-14T22:13:20Z")]%string None.

Lemma health_check_ends_witness :
  exists k, (k <= 2)%nat /\
    out_of_health_check (au_claw (au_run (H3 := kept) (take k [check_at 0 []; check_at 1 []])
      (mkAU (Some updating) None))).
Proof.
  apply (health_check_ends (H3 := kept) [check_at 0 []] (Some []) None (at_time (day0 + 60 * minute))
    (mkAU (Some updating) None) updating au_spec).
  - reflexivity.
  - reflexivity.
  - reflexivity.
  - reflexivity.
  - intros n. vm_compute. reflexivity.
Defined.
End Sample.
