(* ===== verification/PodBuilder.v ===== *)
(** * Pod templates and runtime adapters (internal/runtime)

    [pod_builder.go] assembles the pod of a Claw from the runtime's own
    settings; each adapter supplies these settings, its defaults and its
    validation.  [resource.MustParse] panics on a malformed quantity: the
    builders return an [option], whose [None] is the panic. *)

From S2P Require Import Prelude.
From S2P Require Import GoStrings.
From S2P Require Import Api.
From S2P Require Import Kube.

Definition ConfigModeOverwrite : string := "overwrite".
Definition ConfigModeDeepMerge : string := "deepmerge".
Definition ConfigModePassthrough : string := "passthrough".

Definition InitContainerImage : string := "ghcr.io/prismer-ai/claw-init:latest".

Definition AnnotationPullPolicy : string := "claw.prismer.ai/image-pull-policy".

(** Reading a missing key of a map of strings gives the empty string. *)
Definition annotation_or_empty (m : ObjectMeta) (k : string) : string :=
  default ""%string (annotation m k).

Section Builder.
Context `{QuantityLib}.

Record RuntimeSpec := mkRuntimeSpec {
  rs_Image : string;
  rs_Command : list string;
  rs_Args : list string;
  rs_Ports : list ContainerPort;
  rs_Resources : ResourceRequirements;
  ExtraVolumeMounts : list VolumeMount;
  ExtraVolumes : list Volume;
  rs_Env : list EnvVar;
  rs_LivenessProbe : option Probe;
  rs_ReadinessProbe : option Probe;
  ConfigMode : string;
  WorkspacePath : string;
  rs_SecurityContext : option SecurityContext;
}.

(** ** Volumes *)

Definition emptyDirVolume (name : string) (sizeLimit : option Quantity) (medium : string) : Volume :=
  mkVol name (EmptyDir medium sizeLimit).
Definition configMapVolume (name cmName : string) : Volume := mkVol name (ConfigMapSource cmName (Some true)).
Definition pvcVolume (name claimName : string) : Volume := mkVol name (ClaimSource claimName).

Definition shared_volume_name (s : SharedVolumeRef) : string := ("shared-" +:+ sv_Name s)%string.

Definition cache_enabled (p : PersistenceSpec) : option CacheSpec :=
  match Cache p with Some c => if ca_Enabled c then Some c else None | None => None end.

Definition persistence_volumes (p : PersistenceSpec) : option (list Volume) :=
  cache ← match cache_enabled p with
          | Some c => q ← MustParse (ca_Size c); Some [emptyDirVolume "cache" (Some q) (Medium c)]
          | None => Some []
          end;
  Some (cache ++ map (fun s => pvcVolume (shared_volume_name s) (ClaimName s)) (Shared p)).

Definition buildVolumes (claw : Claw) (spec : RuntimeSpec) : option (list Volume) :=
  walSize ← MustParse "512Mi";
  vols ← from_option persistence_volumes (Some []) (Persistence (Spec claw));
  Some ([emptyDirVolume "ipc-socket" None ""; emptyDirVolume "wal-data" (Some walSize) "";
         configMapVolume "config-vol" (Name (Meta claw) +:+ "-config")%string;
         emptyDirVolume "tmp" None ""] ++ vols ++ ExtraVolumes spec).

(** ** Containers *)

Definition sharedEnvVars (claw : Claw) : list EnvVar :=
  [env "CLAW_NAME" (Name (Meta claw)); env "CLAW_NAMESPACE" (Namespace (Meta claw));
   env "IPC_SOCKET_PATH" "/var/run/claw/bus.sock"].

(** A volume that is configured and enabled. *)
Definition volume_enabled (v : option VolumeSpec) : option VolumeSpec :=
  match v with Some s => if v_Enabled s then Some s else None | None => None end.

Definition session_of (claw : Claw) : option VolumeSpec :=
  Persistence (Spec claw) ≫= fun p => volume_enabled (Session p).
Definition output_of (claw : Claw) : option VolumeSpec :=
  Persistence (Spec claw) ≫= fun p => volume_enabled (ov_VolumeSpec <$> Output p).
Definition workspace_of (claw : Claw) : option VolumeSpec :=
  Persistence (Spec claw) ≫= fun p => volume_enabled (Workspace p).

Definition hasWorkspacePVC (claw : Claw) : bool := bool_decide (is_Some (workspace_of claw)).

Definition resources (cpuReq memReq cpuLim memLim : string) : option ResourceRequirements :=
  cr ← MustParse cpuReq; mr ← MustParse memReq; cl ← MustParse cpuLim; ml ← MustParse memLim;
  Some (mkResources (Some (<[ResourceCPU := cl]> {[ResourceMemory := ml]}))
                    (Some (<[ResourceCPU := cr]> {[ResourceMemory := mr]}))).

Definition initContainerResources : option ResourceRequirements :=
  resources "100m" "128Mi" "500m" "256Mi".

Definition RuntimeDefault : string := "RuntimeDefault".

Definition containerSecurityContext (readOnlyRoot : bool) : SecurityContext :=
  mkSecurityContext (Some 1000) (Some 1000) (Some true) (Some readOnlyRoot) (Some false) ["ALL"%string]
    (Some RuntimeDefault).
Definition ContainerSecurityContext : SecurityContext := containerSecurityContext true.

Definition buildInitContainer (claw : Claw) (spec : RuntimeSpec) : option Container :=
  let configMode := if decide (ConfigMode spec = ""%string) then ConfigModeOverwrite else ConfigMode spec in
  let workspacePath :=
    if decide (WorkspacePath spec = ""%string) then "/workspace"%string else WorkspacePath spec in
  let mounts := [mount_ro "config-vol" "/etc/claw"; mount "tmp" "/tmp"] ++
    (if hasWorkspacePVC claw then [mount "workspace" workspacePath] else []) in
  res ← initContainerResources;
  Some (mkContainer "claw-init" InitContainerImage (annotation_or_empty (Meta claw) AnnotationPullPolicy)
    ["/claw-init"%string]
    ["--mode"; configMode; "--workspace"; workspacePath; "--runtime"; Runtime (Spec claw)]%string []
    (sharedEnvVars claw ++ [env "NPM_CONFIG_IGNORE_SCRIPTS" "true"]) [] mounts res None None
    (Some ContainerSecurityContext) None None).

Definition persistence_mounts (claw : Claw) (p : PersistenceSpec) : list VolumeMount :=
  from_option (fun c => [mount "cache" (ca_MountPath c)]) [] (cache_enabled p) ++
  from_option (fun v => [mount "session" (v_MountPath v)]) [] (session_of claw) ++
  from_option (fun v => [mount "output" (v_MountPath v)]) [] (output_of claw) ++
  from_option (fun v => [mount "workspace" (v_MountPath v)]) [] (workspace_of claw) ++
  map (fun s => mkMount (shared_volume_name s) (sv_MountPath s) "" (ReadOnly s)) (Shared p).

Definition buildRuntimeContainer (claw : Claw) (spec : RuntimeSpec) : Container :=
  let mounts :=
    [mount "ipc-socket" "/var/run/claw"; mount "wal-data" "/var/lib/claw/wal";
     mount_ro "config-vol" "/etc/claw"; mount "tmp" "/tmp"] ++
    from_option (persistence_mounts claw) [] (Persistence (Spec claw)) ++ ExtraVolumeMounts spec in
  mkContainer "runtime" (rs_Image spec) (annotation_or_empty (Meta claw) AnnotationPullPolicy)
    (rs_Command spec) (rs_Args spec) (rs_Ports spec) (sharedEnvVars claw ++ rs_Env spec) [] mounts
    (rs_Resources spec) (rs_LivenessProbe spec) (rs_ReadinessProbe spec)
    (Some (default ContainerSecurityContext (rs_SecurityContext spec)))
    (Some ["sh"; "-c"; "sleep 2"]%string) None.

Definition BuildPodTemplate (claw : Claw) (spec : RuntimeSpec) : option PodTemplate :=
  init ← buildInitContainer claw spec;
  vols ← buildVolumes claw spec;
  Some (mkTemplate None None [init] [buildRuntimeContainer claw spec] vols None "" None None).

(** ** Volume claim templates *)

Definition ReadWriteOnce : string := "ReadWriteOnce".

Definition pvcTemplate (name size storageClass : string) (labels : gmap string string)
    : option ClaimTemplate :=
  q ← MustParse size;
  Some (mkClaimTemplate name labels [ReadWriteOnce] q
          (if decide (storageClass = ""%string) then None else Some storageClass)).

Definition LabelInstance : string := "claw.prismer.ai/instance".

Definition claim_of (claw : Claw) (name : string) (v : option VolumeSpec) : option (list ClaimTemplate) :=
  match v with
  | Some v => t ← pvcTemplate name (v_Size v) (StorageClass v) {[LabelInstance := Name (Meta claw)]}; Some [t]
  | None => Some []
  end.

Definition BuildVolumeClaimTemplates (claw : Claw) : option (list ClaimTemplate) :=
  s ← claim_of claw "session" (session_of claw);
  o ← claim_of claw "output" (output_of claw);
  w ← claim_of claw "workspace" (workspace_of claw);
  Some (s ++ o ++ w).

(** ** Validation shared by the adapters *)

Definition hasCredentials (spec : ClawSpec) : bool :=
  match Credentials spec with
  | None => false
  | Some c => bool_decide (is_Some (SecretRef c)) || bool_decide (is_Some (ExternalSecret c)) ||
              negb (bool_decide (Keys c = []))
  end.

Definition validateVolumeUpdate (path : string) (oldVol newVol : option VolumeSpec) : list field_error :=
  match volume_enabled oldVol, volume_enabled newVol with
  | Some o, Some n =>
      (if negb (bool_decide (StorageClass o = ""%string)) && negb (bool_decide (StorageClass n = StorageClass o))
       then [Forbidden (path +:+ ".storageClass")%string] else []) ++
      match ParseQuantity (v_Size o), ParseQuantity (v_Size n) with
      | Some oldSize, Some newSize =>
          if bool_decide (Cmp newSize oldSize = Lt) then [Forbidden (path +:+ ".size")%string] else []
      | _, _ => []
      end
  | _, _ => []
  end.

Definition validatePersistenceUpdate (oldSpec newSpec : ClawSpec) : list field_error :=
  match Persistence oldSpec, Persistence newSpec with
  | Some o, Some n =>
      validateVolumeUpdate "spec.persistence.session" (Session o) (Session n) ++
      validateVolumeUpdate "spec.persistence.output" (ov_VolumeSpec <$> Output o) (ov_VolumeSpec <$> Output n) ++
      validateVolumeUpdate "spec.persistence.workspace" (Workspace o) (Workspace n)
  | _, _ => []
  end.

(** ** Adapters *)

Record RuntimeConfig := mkRuntimeConfig {
  GatewayPort : Z;
  rc_WorkspacePath : string;
  Environment : gmap string string;
}.

(** The interface [RuntimeAdapter]; every [PodTemplate] builds the pod of a
    [RuntimeSpec]. *)
Record RuntimeAdapter := mkAdapter {
  runtimeSpec : option RuntimeSpec;
  HealthProbe : Probe;
  ReadinessProbe : Probe;
  DefaultConfig : RuntimeConfig;
  GracefulShutdownSeconds : Z;
  Validate : ClawSpec -> list field_error;
  ValidateUpdate : ClawSpec -> ClawSpec -> list field_error;
}.

Definition adapter_PodTemplate (a : RuntimeAdapter) (claw : Claw) : option PodTemplate :=
  spec ← runtimeSpec a; BuildPodTemplate claw spec.

(** [Registry]: a map from runtime types to adapters. *)
Definition NewRegistry : gmap string RuntimeAdapter := ∅.
Definition Register (rt : string) (a : RuntimeAdapter) (r : gmap string RuntimeAdapter) : gmap string RuntimeAdapter := <[rt := a]> r.
Definition Get (r : gmap string RuntimeAdapter) (rt : string) : option RuntimeAdapter := r !! rt.
End Builder.

Abbreviation Registry_ := (gmap string RuntimeAdapter).

(** ** OpenClaw *)

Section Adapter.
Context `{QuantityLib}.

Definition OpenClaw_HealthProbe : Probe := mkProbe "/health" 18900 10 15 0.
Definition OpenClaw_ReadinessProbe : Probe := mkProbe "/ready" 18900 5 10 0.

Definition OpenClaw_runtimeSpec : option RuntimeSpec :=
  res ← resources "500m" "1Gi" "2000m" "4Gi";
  Some (mkRuntimeSpec "ghcr.io/prismer-ai/k8s4claw-openclaw:latest" ["/usr/bin/claw-entrypoint"%string] []
    [mkPort "gateway" 18900 "TCP"] res [] [] [env "OPENCLAW_MODE" "gateway"]
    (Some OpenClaw_HealthProbe) (Some OpenClaw_ReadinessProbe) ConfigModeDeepMerge "/workspace" None).

Definition OpenClaw_DefaultConfig : RuntimeConfig :=
  mkRuntimeConfig 18900 "/workspace" {["OPENCLAW_MODE"%string := "gateway"%string]}.

Definition OpenClaw_Validate (spec : ClawSpec) : list field_error :=
  if hasCredentials spec then [] else [Required "spec.credentials"].

Definition OpenClawAdapter : RuntimeAdapter :=
  mkAdapter OpenClaw_runtimeSpec OpenClaw_HealthProbe OpenClaw_ReadinessProbe OpenClaw_DefaultConfig 30 OpenClaw_Validate validatePersistenceUpdate.
End Adapter.

(** A volume that must be mounted at one place. *)
Definition must_mount_at (v : option VolumeSpec) (at_ path : string) : list field_error :=
  match volume_enabled v with
  | Some s => if decide (v_MountPath s = at_) then [] else [Invalid path]
  | None => []
  end.

Definition hermes_mounts `{QuantityLib} (spec : ClawSpec) (home skills : string) : list field_error :=
  match Persistence spec with
  | None => []
  | Some p =>
      must_mount_at (Session p) home "spec.persistence.session.mountPath" ++
      must_mount_at (Workspace p) skills "spec.persistence.workspace.mountPath"
  end.

Definition hermes_security : SecurityContext :=
  mkSecurityContext (Some 10000) (Some 10000) (Some true) (Some false) (Some false) ["ALL"%string]
    (Some RuntimeDefault).

(** ** HermesClaw *)

Definition hermesGatewayPort : Z := 8642.
Definition hermesHomePath : string := "/opt/data".
Definition hermesSkillsPath : string := "/opt/data/skills".
Definition hermesDefaultModelName : string := "hermes-agent".

Definition hermesRuntimeSecurityContext : SecurityContext := hermes_security.

Section Adapter.
Context `{QuantityLib}.

Definition HermesClaw_HealthProbe : Probe := mkProbe "/health" hermesGatewayPort 20 15 5.
Definition HermesClaw_ReadinessProbe : Probe := mkProbe "/health" hermesGatewayPort 10 10 5.

Definition HermesClaw_environment : list (string * string) :=
  [("HERMES_HOME", hermesHomePath); ("HOME", (hermesHomePath +:+ "/home")%string);
   ("API_SERVER_ENABLED", "true"); ("API_SERVER_HOST", "0.0.0.0"); ("API_SERVER_PORT", "8642");
   ("API_SERVER_MODEL_NAME", hermesDefaultModelName)]%string.

Definition HermesClaw_runtimeSpec : option RuntimeSpec :=
  res ← resources "500m" "1Gi" "2000m" "4Gi";
  Some (mkRuntimeSpec "ghcr.io/nousresearch/hermes-agent:latest" [] ["gateway"; "run"]%string
    [mkPort "gateway" hermesGatewayPort "TCP"] res
    [mkMount "config-vol" (hermesHomePath +:+ "/config.yaml")%string "config.json" true] []
    (map (fun kv => env (kv.1) (kv.2)) HermesClaw_environment) (Some HermesClaw_HealthProbe) (Some HermesClaw_ReadinessProbe)
    ConfigModeDeepMerge hermesSkillsPath (Some hermesRuntimeSecurityContext)).

Definition HermesClaw_DefaultConfig : RuntimeConfig :=
  mkRuntimeConfig hermesGatewayPort hermesSkillsPath (list_to_map HermesClaw_environment).

Definition HermesClaw_Validate (spec : ClawSpec) : list field_error :=
  (if hasCredentials spec then [] else [Required "spec.credentials"]) ++
  (if decide (Channels spec = []) then [] else [Forbidden "spec.channels"]) ++
  hermes_mounts spec hermesHomePath hermesSkillsPath.

Definition HermesClawAdapter : RuntimeAdapter :=
  mkAdapter HermesClaw_runtimeSpec HermesClaw_HealthProbe HermesClaw_ReadinessProbe HermesClaw_DefaultConfig 60 HermesClaw_Validate validatePersistenceUpdate.
End Adapter.

(** ** HermesRS *)

Definition hermesRSGatewayPort : Z := 8080.
Definition hermesRSHomePath : string := "/data".
Definition hermesRSSkillsPath : string := "/data/skills".

Definition hermesRSSecurityContext : SecurityContext := hermes_security.

Section Adapter.
Context `{QuantityLib}.

Definition HermesRS_HealthProbe : Probe := mkProbe "/health" hermesRSGatewayPort 5 10 3.
Definition HermesRS_ReadinessProbe : Probe := mkProbe "/health" hermesRSGatewayPort 3 5 3.

Definition HermesRS_environment : list (string * string) :=
  [("HERMES_HOME", hermesRSHomePath); ("HERMES_GATEWAY_API_SERVER_BIND_ADDR", "0.0.0.0:8080");
   ("HERMES_GATEWAY_API_SERVER_MODEL_NAME", "hermes-agent-rs"); ("RUST_LOG", "info")]%string.

Definition HermesRS_runtimeSpec : option RuntimeSpec :=
  res ← resources "250m" "512Mi" "2000m" "4Gi";
  Some (mkRuntimeSpec "ghcr.io/prismer-ai/hermes-agent-rs:latest" ["/usr/local/bin/hermes"%string]
    ["gateway"%string] [mkPort "gateway" hermesRSGatewayPort "TCP"] res [] []
    (map (fun kv => env (kv.1) (kv.2)) HermesRS_environment) (Some HermesRS_HealthProbe) (Some HermesRS_ReadinessProbe)
    ConfigModeDeepMerge hermesRSSkillsPath (Some hermesRSSecurityContext)).

Definition HermesRS_DefaultConfig : RuntimeConfig :=
  mkRuntimeConfig hermesRSGatewayPort hermesRSSkillsPath (list_to_map HermesRS_environment).

Definition HermesRS_Validate (spec : ClawSpec) : list field_error :=
  (if hasCredentials spec then [] else [Required "spec.credentials"]) ++
  hermes_mounts spec hermesRSHomePath hermesRSSkillsPath.

Definition HermesRSAdapter : RuntimeAdapter :=
  mkAdapter HermesRS_runtimeSpec HermesRS_HealthProbe HermesRS_ReadinessProbe HermesRS_DefaultConfig 30 HermesRS_Validate validatePersistenceUpdate.
End Adapter.

(** ** K8sOps *)

Section Adapter.
Context `{QuantityLib}.

Definition K8sOps_HealthProbe : Probe := mkProbe "/healthz" 18910 10 15 0.
Definition K8sOps_ReadinessProbe : Probe := mkProbe "/readyz" 18910 5 10 0.

Definition K8sOps_security : SecurityContext :=
  mkSecurityContext None None (Some true) (Some true) (Some false) ["ALL"%string] (Some RuntimeDefault).

Definition K8sOps_runtimeSpec : option RuntimeSpec :=
  res ← resources "100m" "256Mi" "500m" "512Mi";
  Some (mkRuntimeSpec "ghcr.io/prismer-ai/claw4k8s:latest" [] [] [mkPort "gateway" 18910 "TCP"] res [] [] []
    (Some K8sOps_HealthProbe) (Some K8sOps_ReadinessProbe) ConfigModeDeepMerge "/workspace" (Some K8sOps_security)).

Definition K8sOps_DefaultConfig : RuntimeConfig :=
  mkRuntimeConfig 18910 "/workspace"
    (list_to_map [("CLAW4K8S_ROLE", "companion"); ("CLAW4K8S_WATCH_NS", "");
                  ("CLAW4K8S_LLM_MODEL", "claude-sonnet-4-6")]%string).

Definition K8sOps_Validate (spec : ClawSpec) : list field_error :=
  match Security spec ≫= NetworkPolicy with
  | Some np => if np_Enabled np then [] else [Required "spec.security.networkPolicy.enabled"]
  | None => [Required "spec.security.networkPolicy.enabled"]
  end.

Definition K8sOpsAdapter : RuntimeAdapter :=
  mkAdapter K8sOps_runtimeSpec K8sOps_HealthProbe K8sOps_ReadinessProbe K8sOps_DefaultConfig 30 K8sOps_Validate
    (fun _ newSpec => K8sOps_Validate newSpec).
End Adapter.

(** The registry of the operator (cmd/operator/main.go). *)
Definition operator_registry `{QuantityLib} : Registry_ :=
  Register RuntimeK8sOps K8sOpsAdapter
    (Register RuntimeHermesRS HermesRSAdapter
      (Register RuntimeHermesClaw HermesClawAdapter
        (Register RuntimeOpenClaw OpenClawAdapter NewRegistry))).
