(* ===== verification/Validator.v ===== *)
(** * The admission webhooks (internal/webhook)

    The validator of Claws on creation and update, and the defaulter.  What a
    validator returns is the list of field errors; the request is admitted
    when there is none. *)

From S2P Require Import Prelude.
From S2P Require Import GoStrings.
From S2P Require Import GoDuration.
From S2P Require Import Api.
From S2P Require Import Samples.
From S2P Require Import Kube.
From S2P Require Import Registry.
From S2P Require Import PodBuilder.

Section Validator.
Context `{QuantityLib, SemverLib, CronLib}.

Definition validateRuntimeImmutability (oldObj newObj : Claw) : list field_error :=
  if decide (Runtime (Spec oldObj) = Runtime (Spec newObj)) then [] else [Forbidden "spec.runtime"].

Definition validateCredentialExclusivity (obj : Claw) : list field_error :=
  match Credentials (Spec obj) with
  | None => []
  | Some creds =>
      if bool_decide (is_Some (SecretRef creds)) && bool_decide (is_Some (ExternalSecret creds))
      then [Invalid "spec.credentials"] else []
  end.

Definition check_quantity (s path : string) : list field_error :=
  match ParseQuantity s with Some _ => [] | None => [Invalid path] end.

Definition validateVolumeSize (path : string) (vol : VolumeSpec) : list field_error :=
  check_quantity (v_Size vol) (path +:+ ".size")%string ++
  (if decide (MaxSize vol = ""%string) then [] else check_quantity (MaxSize vol) (path +:+ ".maxSize")%string).

Definition validate_enabled (path : string) (v : option VolumeSpec) : list field_error :=
  from_option (validateVolumeSize path) [] (volume_enabled v).

Definition validatePVCSizes (obj : Claw) : list field_error :=
  match Persistence (Spec obj) with
  | None => []
  | Some p =>
      validate_enabled "spec.persistence.session" (Session p) ++
      validate_enabled "spec.persistence.output" (ov_VolumeSpec <$> Output p) ++
      validate_enabled "spec.persistence.workspace" (Workspace p) ++
      from_option (fun c => check_quantity (ca_Size c) "spec.persistence.cache.size") [] (cache_enabled p)
  end.

Definition validate_timeout (s : string) : list field_error :=
  if decide (s = ""%string) then []
  else match parse_duration s with
       | None => [Invalid "spec.autoUpdate.healthTimeout"]
       | Some d => if (d <? 2 * minute) || (30 * minute <? d)
                   then [Invalid "spec.autoUpdate.healthTimeout"] else []
       end.

Definition validateAutoUpdate (obj : Claw) : list field_error :=
  match AutoUpdate (Spec obj) with
  | None => []
  | Some au =>
      if negb (au_Enabled au) then []
      else
        (if decide (VersionConstraint au = ""%string) then []
         else match NewConstraint (VersionConstraint au) with
              | Some _ => [] | None => [Invalid "spec.autoUpdate.versionConstraint"] end) ++
        (if decide (au_Schedule au = ""%string) then []
         else match ParseCron (au_Schedule au) with
              | Some _ => [] | None => [Invalid "spec.autoUpdate.schedule"] end) ++
        validate_timeout (HealthTimeout au) ++
        (if MaxRollbacks au <? 0 then [Invalid "spec.autoUpdate.maxRollbacks"] else [])
  end.

Definition validateRuntime (registry : Registry_) (obj : Claw) : list field_error :=
  match Get registry (Runtime (Spec obj)) with
  | None => [NotSupported "spec.runtime"]
  | Some adapter => Validate adapter (Spec obj)
  end.

Definition validateRuntimeUpdate (registry : Registry_) (oldObj newObj : Claw) : list field_error :=
  match Get registry (Runtime (Spec newObj)) with
  | None => []
  | Some adapter => ValidateUpdate adapter (Spec oldObj) (Spec newObj)
  end.

Definition ValidateCreate (registry : Registry_) (obj : Claw) : list field_error :=
  validateCredentialExclusivity obj ++ validatePVCSizes obj ++ validateAutoUpdate obj ++
  validateRuntime registry obj.

Definition ClawValidator_ValidateUpdate (registry : Registry_) (oldObj newObj : Claw) : list field_error :=
  validateRuntimeImmutability oldObj newObj ++ validateCredentialExclusivity newObj ++
  validatePVCSizes newObj ++ validateAutoUpdate newObj ++ validateRuntimeUpdate registry oldObj newObj.

Definition ValidateDelete (obj : Claw) : list field_error := [].

(** The defaulter. *)
Definition with_reclaim (r : string) (p : PersistenceSpec) : PersistenceSpec :=
  mkPersistence r (Session p) (Output p) (Workspace p) (Shared p) (Cache p).

Definition with_persistence (p : option PersistenceSpec) (s : ClawSpec) : ClawSpec :=
  mkClawSpec (Runtime s) (Config s) (Credentials s) (Channels s) p (Observability s)
    (Security s) (Ingress s) (Availability s) (ServiceAccount s) (SelfConfigure s) (AutoUpdate s)
    (Replicas s) (Resources s).

Definition Default (obj : Claw) : Claw :=
  match Persistence (Spec obj) with
  | Some p =>
      if decide (ReclaimPolicy p = ""%string)
      then set_spec (with_persistence (Some (with_reclaim ReclaimRetain p))) obj
      else obj
  | None => obj
  end.

(** ** Admitted Claws *)

(** What the API server stores: created or updated through the webhook. *)
Definition admitted (registry : Registry_) (c : Claw) : Prop :=
  ValidateCreate registry c = [] \/ exists old, ClawValidator_ValidateUpdate registry old c = [].

Lemma admitted_sizes registry c : admitted registry c -> validatePVCSizes c = [].
Proof.
  unfold ValidateCreate, ClawValidator_ValidateUpdate.
  intros [Hv|[old Hv]].
  - apply app_eq_nil in Hv as [_ Hv]. by apply app_eq_nil in Hv as [Hv _].
  - apply app_eq_nil in Hv as [_ Hv]. apply app_eq_nil in Hv as [_ Hv].
    by apply app_eq_nil in Hv as [Hv _].
Qed.

Lemma check_quantity_nil s path : check_quantity s path = [] <-> is_Some (ParseQuantity s).
Proof.
  unfold check_quantity. by destruct (ParseQuantity s) as [q|].
Qed.

Lemma validate_enabled_nil path v s :
  validate_enabled path v = [] -> volume_enabled v = Some s -> is_Some (MustParse (v_Size s)).
Proof.
  unfold validate_enabled. intros Hv Hs. rewrite Hs in Hv. cbn in Hv.
  apply app_eq_nil in Hv as [Hv _]. by eapply check_quantity_nil.
Qed.

(** The quantities that the sources write as literals. *)
Definition literal_quantities : list string :=
  ["512Mi"; "100m"; "128Mi"; "500m"; "256Mi"; "1Gi"; "2000m"; "4Gi"; "250m"; "50m"; "32Mi"; "200m";
   "64Mi"]%string.

Class LiteralQuantities := literals_parse : Forall (fun s => is_Some (ParseQuantity s)) literal_quantities.

Lemma literal_parses `{!LiteralQuantities} s : s ∈ literal_quantities -> exists q, MustParse s = Some q.
Proof. intros Hs. pose proof (proj1 (Forall_forall _ _) literals_parse s Hs) as [q Hq]. by exists q. Qed.

Lemma resources_parse `{!LiteralQuantities} a b c d :
  a ∈ literal_quantities -> b ∈ literal_quantities -> c ∈ literal_quantities -> d ∈ literal_quantities ->
  is_Some (resources a b c d).
Proof.
  intros Ha Hb Hc Hd. unfold resources.
  destruct (literal_parses a Ha) as [? ->], (literal_parses b Hb) as [? ->],
    (literal_parses c Hc) as [? ->], (literal_parses d Hd) as [? ->].
  by eexists.
Qed.

Lemma sizes_claim c name v path :
  validate_enabled path v = [] -> is_Some (claim_of c name (volume_enabled v)).
Proof.
  intros Hv. unfold claim_of, pvcTemplate. destruct (volume_enabled v) as [s|] eqn:Hs; [|by eexists].
  destruct (validate_enabled_nil _ _ _ Hv Hs) as [q ->]. by eexists.
Qed.

Lemma sizes_claims c : validatePVCSizes c = [] -> is_Some (BuildVolumeClaimTemplates c).
Proof.
  unfold validatePVCSizes, BuildVolumeClaimTemplates, session_of, output_of, workspace_of.
  destruct (Persistence (Spec c)) as [p|]; [|by eexists].
  intros Hv. apply app_eq_nil in Hv as [Hs Hv]. apply app_eq_nil in Hv as [Ho Hv].
  apply app_eq_nil in Hv as [Hw _]. cbn [base.mbind option_bind].
  destruct (sizes_claim c "session" _ _ Hs) as [? ->], (sizes_claim c "output" _ _ Ho) as [? ->],
    (sizes_claim c "workspace" _ _ Hw) as [? ->].
  by eexists.
Qed.

Lemma sizes_volumes `{!LiteralQuantities} c spec :
  validatePVCSizes c = [] -> is_Some (buildVolumes c spec).
Proof.
  intros Hv. unfold buildVolumes. destruct (literal_parses "512Mi") as [? ->]; [set_solver|].
  cbn [base.mbind option_bind]. unfold validatePVCSizes in Hv.
  destruct (Persistence (Spec c)) as [p|]; [|by eexists]. cbn [from_option].
  unfold persistence_volumes. destruct (cache_enabled p) as [ca|]; [|by eexists].
  apply app_eq_nil in Hv as [_ Hv]. apply app_eq_nil in Hv as [_ Hv].
  apply app_eq_nil in Hv as [_ Hv]. cbn in Hv. apply check_quantity_nil in Hv as [q Hq].
  unfold MustParse. rewrite Hq. by eexists.
Qed.

(** C15: an admitted Claw cannot make the reconciler panic: its pod
    template and its volume claims are built, whatever the adapter. *)
Theorem admitted_builds `{!LiteralQuantities} registry c spec :
  admitted registry c ->
  is_Some (BuildPodTemplate c spec) /\ is_Some (BuildVolumeClaimTemplates c).
Proof.
  intros Hv%admitted_sizes. split; [|by apply sizes_claims].
  unfold BuildPodTemplate, buildInitContainer, initContainerResources.
  destruct (resources_parse "100m" "128Mi" "500m" "256Mi") as [? ->]; [set_solver..|].
  destruct (sizes_volumes c spec Hv) as [? ->]. by eexists.
Qed.

(** ** Updates *)

(** What an update leaves of a volume that was and stays enabled. *)
Definition volume_kept (o n : option VolumeSpec) : Prop :=
  forall vo vn qo qn, volume_enabled o = Some vo -> volume_enabled n = Some vn ->
    (StorageClass vo <> ""%string -> StorageClass vn = StorageClass vo) /\
    (ParseQuantity (v_Size vo) = Some qo -> ParseQuantity (v_Size vn) = Some qn -> Cmp qn qo <> Lt).

Lemma validateVolumeUpdate_nil path o n : validateVolumeUpdate path o n = [] -> volume_kept o n.
Proof.
  unfold validateVolumeUpdate. intros Hv vo vn qo qn Ho Hn. rewrite Ho, Hn in Hv.
  apply app_eq_nil in Hv as [Hc Hq]. split.
  - intros Hne. do 2 case_bool_decide; done.
  - intros Hqo Hqn. rewrite Hqo, Hqn in Hq. by case_bool_decide.
Qed.

(** The runtimes whose adapter validates updates of the volumes. *)
Definition checks_volumes (a : RuntimeAdapter) : Prop := ValidateUpdate a = validatePersistenceUpdate.

(** Property: an update that is admitted keeps the runtime, and under an
    adapter that checks volumes no volume that stays enabled shrinks or changes
    a storage class that was set. *)
Theorem update_keeps_volumes registry oldObj newObj a po pn :
  ClawValidator_ValidateUpdate registry oldObj newObj = [] ->
  Get registry (Runtime (Spec newObj)) = Some a -> checks_volumes a ->
  Persistence (Spec oldObj) = Some po -> Persistence (Spec newObj) = Some pn ->
  Runtime (Spec newObj) = Runtime (Spec oldObj) /\
  volume_kept (Session po) (Session pn) /\ volume_kept (Workspace po) (Workspace pn) /\
  volume_kept (ov_VolumeSpec <$> Output po) (ov_VolumeSpec <$> Output pn).
Proof.
  unfold ClawValidator_ValidateUpdate. intros Hv Ha Hc Ho Hn.
  apply app_eq_nil in Hv as [Hr Hv]. apply app_eq_nil in Hv as [_ Hv].
  apply app_eq_nil in Hv as [_ Hv]. apply app_eq_nil in Hv as [_ Hv].
  unfold validateRuntimeUpdate in Hv. rewrite Ha, Hc in Hv.
  unfold validatePersistenceUpdate in Hv. rewrite Ho, Hn in Hv.
  apply app_eq_nil in Hv as [Hs Hv]. apply app_eq_nil in Hv as [Hou Hw].
  split; [|split; [|split]; by eapply validateVolumeUpdate_nil].
  unfold validateRuntimeImmutability in Hr. by case_decide.
Qed.
End Validator.

(** ** Evaluation *)

Module Sample.
#[local] Existing Instance int_semver.
#[local] Instance no_cron : CronLib := {|
  CronSchedule := unit; ParseCron _ := Some tt; CronNext _ t := t + 60 * minute;
|}.

#[local] Existing Instance suffix_quantities.

Lemma suffix_literals : LiteralQuantities.
Proof.
  unfold LiteralQuantities. apply (bool_decide_unpack (Forall _ literal_quantities)).
  vm_compute. exact I.
Qed.

Definition volume (size class : string) : VolumeSpec := mkVolume true class size "" "/session" None.

Definition claw_with (runtime : string) (creds : option CredentialSpec) (p : option PersistenceSpec) : Claw :=
  mkClaw (sample_meta [])
    (mkClawSpec runtime None creds [] p None None None None None None None None None)
    (mkClawStatus "" 0 [] None).

Definition session_only (v : VolumeSpec) : PersistenceSpec :=
  mkPersistence "" (Some v) None None [] None.

Definition with_secret : CredentialSpec := mkCredentials (Some "keys"%string) None [].

Definition small : Claw := claw_with RuntimeOpenClaw (Some with_secret) (Some (session_only (volume "1Gi" "fast"))).
Definition big : Claw := claw_with RuntimeOpenClaw (Some with_secret) (Some (session_only (volume "2Gi" "fast"))).

Lemma admitted_builds_witness :
  ValidateCreate operator_registry small = [] /\
  exists spec, is_Some (BuildPodTemplate small spec) /\ is_Some (BuildVolumeClaimTemplates small).
Proof.
  assert (Hv : ValidateCreate operator_registry small = []) by (vm_compute; reflexivity).
  split; [exact Hv|].
  exists (mkRuntimeSpec "image" [] [] [] (mkResources None None) [] [] [] None None "" "" None).
  apply (admitted_builds (H2 := suffix_literals) operator_registry). by left.
Defined.

Lemma update_keeps_volumes_witness :
  ClawValidator_ValidateUpdate operator_registry small big = [] /\
  volume_kept (Some (volume "1Gi" "fast")) (Some (volume "2Gi" "fast")).
Proof.
  assert (Hv : ClawValidator_ValidateUpdate operator_registry small big = []) by (vm_compute; reflexivity).
  split; [exact Hv|].
  apply (update_keeps_volumes operator_registry small big OpenClawAdapter
    (session_only (volume "1Gi" "fast")) (session_only (volume "2Gi" "fast")) Hv);
    reflexivity.
Defined.

(** Updates are not checked like creations: one that removes the credentials
    is admitted although no such Claw could be created. *)
Example update_drops_credentials :
  ClawValidator_ValidateUpdate operator_registry small (claw_with RuntimeOpenClaw None None) = [] /\
  ValidateCreate operator_registry (claw_with RuntimeOpenClaw None None) = [Required "spec.credentials"].
Proof. split; vm_compute; reflexivity. Qed.

(** A volume shrinks in two updates, disabled in between. *)
Example shrink_in_two_steps :
  let off := claw_with RuntimeOpenClaw (Some with_secret) None in
  ClawValidator_ValidateUpdate operator_registry big off = [] /\
  ClawValidator_ValidateUpdate operator_registry off small = [] /\
  ClawValidator_ValidateUpdate operator_registry big small = [Forbidden "spec.persistence.session.size"].
Proof. repeat split; vm_compute; reflexivity. Qed.
End Sample.
