(* ===== verification/Channel.v ===== *)
(** * Channels (api/v1alpha1/channel_types.go, internal/controller:
    channel_sidecar.go, channel_controller.go, channel_index.go)

    A ClawChannel describes a messaging channel; the reconciler of a Claw adds
    one sidecar container per channel the Claw refers to, and the reconciler
    of the channel counts the references and keeps a referenced channel from
    being deleted. *)

From stdpp Require Import sorting.
From S2P Require Import Prelude.
From S2P Require Import GoStrings.
From S2P Require Import Json.
From S2P Require Import Api.
From S2P Require Import Samples.
From S2P Require Import Kube.
From S2P Require Import PodBuilder.

(** ** Types *)

Definition ChannelTypeSlack : string := "slack".
Definition ChannelTypeTelegram : string := "telegram".
Definition ChannelTypeWhatsApp : string := "whatsapp".
Definition ChannelTypeDiscord : string := "discord".
Definition ChannelTypeMatrix : string := "matrix".
Definition ChannelTypeWebhook : string := "webhook".
Definition ChannelTypeCustom : string := "custom".

Record BackpressureSpec := mkBackpressure {
  bp_BufferSize : Z;
  bp_HighWatermark : string;
  bp_LowWatermark : string;
}.

Section Types.
Context `{QuantityLib}.

Record SidecarSpec := mkSidecar {
  sd_Image : string;
  sd_Resources : option ResourceRequirements;
  sd_Ports : list ContainerPort;
  sd_Env : list EnvVar;
  sd_LivenessProbe : option Probe;
  sd_ReadinessProbe : option Probe;
}.

Record ClawChannelSpec := mkChannelSpec {
  ch_Type : string;
  ch_Mode : string;
  ch_Credentials : option CredentialSpec;
  ch_Config : option raw_message;
  ch_Backpressure : option BackpressureSpec;
  ch_Resources : option ResourceRequirements;
  ch_Sidecar : option SidecarSpec;
}.

Record ClawChannelStatus := mkChannelStatus {
  chs_Conditions : list Condition;
  chs_ObservedGeneration : Z;
  ReferenceCount : Z;
  ReferencingClaws : list string;
}.

Record ClawChannel := mkChannel {
  ch_Meta : ObjectMeta;
  ch_Spec : ClawChannelSpec;
  ch_Status : ClawChannelStatus;
}.

(** ** channel_sidecar.go *)

Definition isModeCompatible (requested capability : string) : bool :=
  if decide (capability = ChannelModeBidirectional) then true
  else bool_decide (capability = requested).

Definition builtinChannelImage (channelType : string) : string :=
  ("ghcr.io/prismer-ai/claw-channel-" +:+ channelType +:+ ":latest")%string.

Definition channelDefaultResources : option ResourceRequirements :=
  resources "50m" "32Mi" "200m" "128Mi".

(** The sidecar of a custom channel. *)
Definition custom_sidecar (channel : ClawChannel) : option SidecarSpec :=
  if decide (ch_Type (ch_Spec channel) = ChannelTypeCustom) then ch_Sidecar (ch_Spec channel) else None.

(** [json.Marshal] of the configuration: an empty one is written as null. *)
Definition config_text (r : raw_message) : option string :=
  match r with
  | RawEmpty => Some "null"%string
  | RawDoc v => Some (String.string_of_list_ascii (print (escape_html v)))
  | RawBad _ => None
  end.

Definition ContainerRestartPolicyAlways : string := "Always".

Definition buildChannelContainer (channel : ClawChannel) (ref : ChannelRef) (nativeSidecar : bool)
    : option Container :=
  let spec := ch_Spec channel in
  let custom := custom_sidecar channel in
  let image := match custom with Some s => sd_Image s | None => builtinChannelImage (ch_Type spec) end in
  let env_vars :=
    [env "CHANNEL_NAME" (cr_Name ref); env "CHANNEL_TYPE" (ch_Type spec); env "CHANNEL_MODE" (cr_Mode ref)] ++
    match ch_Config spec ≫= config_text with Some raw => [env "CHANNEL_CONFIG" raw] | None => [] end ++
    from_option sd_Env [] custom in
  defaults ← channelDefaultResources;
  let res := default (default defaults (ch_Resources spec)) (custom ≫= sd_Resources) in
  let secret := ch_Credentials spec ≫= SecretRef in
  Some (mkContainer ("channel-" +:+ cr_Name ref)%string image "" [] []
    (from_option sd_Ports [] custom) env_vars (from_option (fun s => [s]) [] secret)
    [mount "ipc-socket" "/var/run/claw"] res (custom ≫= sd_LivenessProbe) (custom ≫= sd_ReadinessProbe)
    (Some ContainerSecurityContext) None
    (if nativeSidecar then Some ContainerRestartPolicyAlways else None)).

(** What fetching the channel of a reference comes back with. *)
Inductive fetched := Found (channel : ClawChannel) | Missing | FetchError.

(** [injectChannelSidecars]: the template and the skipped references; [Err]
    when a channel cannot be fetched, [None] for a panic. *)
Definition add_sidecar (native : bool) (c : Container) (p : PodTemplate) : PodTemplate :=
  if native then set_init (fun l => l ++ [c]) p else set_containers (fun l => l ++ [c]) p.

Fixpoint inject_channels (native : bool) (fetch : string -> fetched) (refs : list ChannelRef)
    (p : PodTemplate) (skipped : list string) : option (result string (PodTemplate * list string)) :=
  match refs with
  | [] => Some (Ok (p, skipped))
  | ref :: refs' =>
      match fetch (cr_Name ref) with
      | Missing => inject_channels native fetch refs' p (skipped ++ [cr_Name ref])
      | FetchError => Some (Err (cr_Name ref))
      | Found channel =>
          if negb (isModeCompatible (cr_Mode ref) (ch_Mode (ch_Spec channel)))
          then inject_channels native fetch refs' p (skipped ++ [cr_Name ref])
          else
            c ← buildChannelContainer channel ref native;
            inject_channels native fetch refs' (add_sidecar native c p) skipped
      end
  end.

Definition injectChannelSidecars (native : bool) (fetch : string -> fetched) (claw : Claw)
    (p : PodTemplate) : option (result string (PodTemplate * list string)) :=
  inject_channels native fetch (Channels (Spec claw)) p [].

(** ** channel_index.go *)

Definition channel_names (claw : Claw) : list string := map cr_Name (Channels (Spec claw)).

Definition string_le (a b : string) : Prop := string_lt b a = false.
#[export] Instance string_le_dec a b : Decision (string_le a b).
Proof. unfold string_le. apply _. Defined.

Definition clawsReferencingChannel (claws : list Claw) (namespace channelName : string) : list string :=
  merge_sort string_le
    (map (fun c => Name (Meta c))
       (filter (fun c => Namespace (Meta c) = namespace /\ channelName ∈ channel_names c) claws)).
End Types.
