(* ===== verification/StatefulSet.v ===== *)
(** * The StatefulSet of a Claw (internal/controller: claw_controller.go,
    claw_ipcbus.go, claw_archiver.go, claw_credentials.go, claw_service.go,
    claw_serviceaccount.go, claw_ops_intent_consumer.go)

    [buildStatefulSet] takes the adapter's pod template and adds what the Claw
    asks for: the target image, resource overrides, the IPC bus, a sidecar per
    channel, the archiver, credentials, and the pod-level settings. *)

From stdpp Require Import sorting.
From S2P Require Import Prelude.
From S2P Require Import GoStrings.
From S2P Require Import Json.
From S2P Require Import Api.
From S2P Require Import Samples.
From S2P Require Import Kube.
From S2P Require Import OpsIntent.
From S2P Require Import PodBuilder.
From S2P Require Import Channel.

Definition text (b : bytes) : string := String.string_of_list_ascii b.

Section Build.
Context `{QuantityLib}.

(** ** Labels, service account *)

Definition clawLabels (claw : Claw) : gmap string string :=
  list_to_map [("app.kubernetes.io/name", "claw"); ("app.kubernetes.io/instance", Name (Meta claw));
               ("claw.prismer.ai/runtime", Runtime (Spec claw));
               ("claw.prismer.ai/instance", Name (Meta claw))]%string.

Definition isUserManagedSA (claw : Claw) : bool :=
  match ServiceAccount (Spec claw) with
  | Some sa => negb (bool_decide (sa_Name sa = ""%string))
  | None => false
  end.

Definition serviceAccountName (claw : Claw) : string :=
  match ServiceAccount (Spec claw) with
  | Some sa => if decide (sa_Name sa = ""%string) then Name (Meta claw) else sa_Name sa
  | None => Name (Meta claw)
  end.

(** ** Overrides *)

Definition set_target_image (claw : Claw) (p : PodTemplate) : PodTemplate :=
  let targetImage := annotation_or_empty (Meta claw) "claw.prismer.ai/target-image" in
  if decide (targetImage = ""%string) then p
  else set_containers (on_container "runtime" (with_image targetImage)) p.

Definition set_pt_annotation (k v : string) (p : PodTemplate) : PodTemplate :=
  mkTemplate (pt_Labels p) (Some (<[k := v]> (default ∅ (pt_Annotations p)))) (InitContainers p)
    (Containers p) (Volumes p) (pt_SecurityContext p) (ServiceAccountName p)
    (AutomountServiceAccountToken p) (TerminationGracePeriodSeconds p).

Definition applyResourceOverrides (claw : Claw) (p : PodTemplate) : PodTemplate :=
  let p :=
    match Resources (Spec claw) with
    | Some src =>
        set_containers (on_container "runtime"
          (fun c => with_container_resources (mergeResourceRequirements (c_Resources c) src) c)) p
    | None => p
    end in
  match annotation (Meta claw) AnnotationRestartedAt with
  | Some stamp => if decide (stamp = ""%string) then p else set_pt_annotation AnnotationRestartedAt stamp p
  | None => p
  end.

Definition add_labels (l : gmap string string) (p : PodTemplate) : PodTemplate :=
  mkTemplate (Some (l ∪ default ∅ (pt_Labels p))) (pt_Annotations p) (InitContainers p)
    (Containers p) (Volumes p) (pt_SecurityContext p) (ServiceAccountName p)
    (AutomountServiceAccountToken p) (TerminationGracePeriodSeconds p).

(** ** The IPC bus *)

Definition IPCBusImage : string := "ghcr.io/prismer-ai/claw-ipcbus:latest".

Definition shouldInjectIPCBus (claw : Claw) : bool := negb (bool_decide (Channels (Spec claw) = [])).
Definition ipcBusSidecarName : string := "ipc-bus".

Definition ipc_bus_env (claw : Claw) (runtimeType : string) (gatewayPort : Z) : list EnvVar :=
  [env "CLAW_NAME" (Name (Meta claw)); env "CLAW_NAMESPACE" (Namespace (Meta claw));
   env "CLAW_RUNTIME" runtimeType; env "CLAW_GATEWAY_PORT" (text (format_int gatewayPort));
   env "IPC_SOCKET_PATH" "/var/run/claw"; env "WAL_DIR" "/var/run/claw/wal"] ++
  (if decide (runtimeType = "nanoclaw"%string)
   then [env "CLAW_RUNTIME_SOCKET" "/var/run/claw/runtime.sock"] else []).

Definition ipc_bus_container (claw : Claw) (runtimeType : string) (gatewayPort : Z)
    : option Container :=
  res ← resources "100m" "128Mi" "500m" "512Mi";
  Some (mkContainer ipcBusSidecarName IPCBusImage "" [] [] []
    (ipc_bus_env claw runtimeType gatewayPort) []
    [mount "ipc-socket" "/var/run/claw"; mount "wal-data" "/var/run/claw/wal"] res None None
    (Some ContainerSecurityContext) (Some ["/claw-ipcbus"; "shutdown"]%string)
    (Some ContainerRestartPolicyAlways)).

(** After the first init container. *)
Definition insert_second (c : Container) (l : list Container) : list Container :=
  match l with
  | i :: l' => i :: c :: l'
  | [] => [c]
  end.

Definition injectIPCBusSidecar (claw : Claw) (runtimeType : string) (gatewayPort : Z) (p : PodTemplate)
    : option PodTemplate :=
  sidecar ← ipc_bus_container claw runtimeType gatewayPort;
  Some (set_init (insert_second sidecar) p).

Definition has_init (name : string) (p : PodTemplate) : bool :=
  existsb (fun c => bool_decide (c_Name c = name)) (InitContainers p).

Definition injectIPCBusIfNeeded (claw : Claw) (runtimeType : string) (gatewayPort : Z)
    (p : PodTemplate) : option PodTemplate :=
  if negb (shouldInjectIPCBus claw) then Some p
  else if has_init ipcBusSidecarName p then Some p
  else injectIPCBusSidecar claw runtimeType gatewayPort p.

(** ** The archiver *)

Definition ArchiverImage : string := "ghcr.io/prismer-ai/claw-archiver:latest".
Definition archiverSidecarName : string := "archive-sidecar".

(** The archive that is configured and enabled, with the output volume. *)
Definition archive_of (claw : Claw) : option (OutputVolumeSpec * ArchiveSpec) :=
  p ← Persistence (Spec claw); o ← Output p; a ← Archive o;
  if ar_Enabled a then Some (o, a) else None.

Definition shouldInjectArchiver (claw : Claw) : bool := bool_decide (is_Some (archive_of claw)).

Definition archiver_args (a : ArchiveSpec) : list string :=
  ["--schedule"%string; at_Schedule (ar_Trigger a)] ++
  (if Inotify (ar_Trigger a) then ["--inotify"%string] else []) ++
  match Lifecycle a with
  | Some l =>
      (if decide (LocalRetention l = ""%string) then [] else ["--local-retention"%string; LocalRetention l]) ++
      (if Compress l then ["--compress"%string] else [])
  | None => []
  end.

Definition archiver_env (a : ArchiveSpec) : list EnvVar :=
  let d := Destination a in
  [env "ARCHIVE_TYPE" (ad_Type d); env "ARCHIVE_BUCKET" (Bucket d); env "ARCHIVE_PREFIX" (Prefix d);
   env "ARCHIVE_SCHEDULE" (at_Schedule (ar_Trigger a));
   mkEnv "AWS_ACCESS_KEY_ID" "" (Some (mkSecretKeySource (ad_SecretRef d) "access-key-id" (Some true)));
   mkEnv "AWS_SECRET_ACCESS_KEY" ""
     (Some (mkSecretKeySource (ad_SecretRef d) "secret-access-key" (Some true)))].

Definition archiver_container (o : OutputVolumeSpec) (a : ArchiveSpec) : option Container :=
  res ← resources "50m" "64Mi" "200m" "256Mi";
  Some (mkContainer archiverSidecarName ArchiverImage "" [] (archiver_args a) [] (archiver_env a) []
    [mount "output" (v_MountPath (ov_VolumeSpec o))] res None None (Some ContainerSecurityContext) None
    (Some ContainerRestartPolicyAlways)).

Definition injectArchiverIfNeeded (claw : Claw) (p : PodTemplate) : option PodTemplate :=
  match archive_of claw with
  | None => Some p
  | Some (o, a) =>
      if has_init archiverSidecarName p then Some p
      else c ← archiver_container o a; Some (set_init (fun l => l ++ [c]) p)
  end.

(** ** Credentials *)

Inductive build_error :=
| ErrChannels (name : string) | ErrSecret (name : string) | ErrNoRuntimeContainer | ErrPanic.

(** What the hash of a secret is taken of: the keys in order, each with its
    value. *)
Definition secret_text (data : gmap string bytes) : bytes :=
  flat_map (fun k => bytes_of k ++ bytes_of "=" ++ default [] (data !! k))
    (merge_sort string_le (map fst (map_to_list data))).

Definition key_env (km : KeyMapping) : EnvVar :=
  mkEnv (km_Name km) ""
    (Some (mkSecretKeySource (sk_Name (SecretKeyRef km)) (sk_Key (SecretKeyRef km)) None)).

Definition add_secret (sha256 : bytes -> string) (secrets : string -> option (gmap string bytes))
    (creds : CredentialSpec) (p : PodTemplate) : result build_error PodTemplate :=
  match SecretRef creds with
  | None => Ok p
  | Some name =>
      match secrets name with
      | None => Err (ErrSecret name)
      | Some data =>
          Ok (set_pt_annotation "claw.prismer.ai/secret-hash" (sha256 (secret_text data))
                (set_containers (on_container "runtime" (add_env_from name)) p))
      end
  end.

Definition injectCredentials (sha256 : bytes -> string) (secrets : string -> option (gmap string bytes))
    (claw : Claw) (p : PodTemplate) : result build_error PodTemplate :=
  match Credentials (Spec claw) with
  | None => Ok p
  | Some creds =>
      if negb (existsb (fun c => bool_decide (c_Name c = "runtime"%string)) (Containers p))
      then Err ErrNoRuntimeContainer
      else
        let? p := add_secret sha256 secrets creds p in
        Ok (set_containers (on_container "runtime" (add_env (map key_env (Keys creds)))) p)
  end.

(** ** The StatefulSet *)

Record StatefulSet := mkStatefulSet {
  ss_Name : string;
  ss_Namespace : string;
  ss_Labels : gmap string string;
  ss_Replicas : Z;
  ServiceName : string;
  ss_Selector : gmap string string;
  Template : PodTemplate;
  VolumeClaimTemplates : list ClaimTemplate;
}.

Definition pod_security : PodSecurityContext :=
  mkPodSecurity (Some true) (Some 1000) (Some RuntimeDefault).

Definition finish_template (claw : Claw) (gracePeriod : Z) (p : PodTemplate) : PodTemplate :=
  mkTemplate (pt_Labels p) (pt_Annotations p) (InitContainers p) (Containers p) (Volumes p)
    (Some pod_security) (serviceAccountName claw)
    (if isUserManagedSA claw then AutomountServiceAccountToken p else Some false) (Some gracePeriod).

Definition unpanic {A} (o : option A) : result build_error A :=
  match o with Some a => Ok a | None => Err ErrPanic end.

(** The environment of a build: the secrets' hash, what the API server returns
    for secrets and channels, and the operator's flag. *)
Record BuildEnv := mkBuildEnv {
  sha256 : bytes -> string;
  secrets : string -> option (gmap string bytes);
  channels : string -> fetched;
  NativeSidecarsEnabled : bool;
}.

Definition inject_all_channels (w : BuildEnv) (claw : Claw) (p : PodTemplate)
    : result build_error PodTemplate :=
  match injectChannelSidecars (NativeSidecarsEnabled w) (channels w) claw p with
  | None => Err ErrPanic
  | Some (Err name) => Err (ErrChannels name)
  | Some (Ok (p, _)) => Ok p
  end.

Definition build_template (w : BuildEnv) (claw : Claw) (adapter : RuntimeAdapter)
    : result build_error PodTemplate :=
  let? p := unpanic (adapter_PodTemplate adapter claw) in
  let p := add_labels (clawLabels claw) (applyResourceOverrides claw (set_target_image claw p)) in
  let? p := unpanic (injectIPCBusIfNeeded claw (Runtime (Spec claw)) (GatewayPort (DefaultConfig adapter)) p) in
  let? p := inject_all_channels w claw p in
  let? p := unpanic (injectArchiverIfNeeded claw p) in
  let? p := injectCredentials (sha256 w) (secrets w) claw p in
  Ok (finish_template claw (GracefulShutdownSeconds adapter + 15) p).

Definition buildStatefulSet (w : BuildEnv) (claw : Claw) (adapter : RuntimeAdapter)
    : result build_error StatefulSet :=
  let? p := build_template w claw adapter in
  let? claims := unpanic (BuildVolumeClaimTemplates claw) in
  Ok (mkStatefulSet (Name (Meta claw)) (Namespace (Meta claw)) (clawLabels claw)
        (default 1 (Replicas (Spec claw))) (Name (Meta claw)) (clawLabels claw) p claims).
End Build.

(** ** What holds of every container

    The steps of the build keep a property of the security context and the
    mounts of every container, if the containers they add have it. *)

Section Every.
Context `{QuantityLib} (Q : option SecurityContext -> list VolumeMount -> Prop).

Definition fine (c : Container) : Prop := Q (c_SecurityContext c) (VolumeMounts c).

Definition every (p : PodTemplate) : Prop := Forall fine (InitContainers p ++ Containers p).

Lemma every_app p : every p <-> Forall fine (InitContainers p) /\ Forall fine (Containers p).
Proof. apply Forall_app. Qed.

(** [p'] comes from [p] by such steps. *)
Definition grown (p p' : PodTemplate) : Prop :=
  Volumes p' = Volumes p /\ (every p -> every p').

#[export] Instance grown_refl : Reflexive grown.
Proof. by intros p. Qed.
#[export] Instance grown_trans : Transitive grown.
Proof. intros p q r [Hv He] [Hv' He']. split; [congruence|auto]. Qed.

Lemma on_container_fine name f l :
  (forall c, fine c -> fine (f c)) -> Forall fine l -> Forall fine (on_container name f l).
Proof.
  intros Hf. induction 1 as [|c l Hc Hl IH]; cbn; [done|].
  case_decide; constructor; auto.
Qed.

Lemma grown_on_container name f p :
  (forall c, fine c -> fine (f c)) -> grown p (set_containers (on_container name f) p).
Proof.
  intros Hf. split; [done|]. rewrite !every_app. cbn.
  intros [? ?]. split; [done|]. by apply on_container_fine.
Qed.

Lemma grown_same p p' :
  Volumes p' = Volumes p -> InitContainers p' = InitContainers p -> Containers p' = Containers p ->
  grown p p'.
Proof. intros Hv Hi Hc. split; [done|]. unfold every. by rewrite Hi, Hc. Qed.

Lemma grown_overrides claw p :
  grown p (add_labels (clawLabels claw) (applyResourceOverrides claw (set_target_image claw p))).
Proof.
  etrans; [|by apply grown_same].
  etrans; [|unfold applyResourceOverrides; instantiate (1 := match Resources (Spec claw) with
    | Some src => set_containers (on_container "runtime"
          (fun c => with_container_resources (mergeResourceRequirements (c_Resources c) src) c))
          (set_target_image claw p)
    | None => set_target_image claw p end)].
  - etrans; [|destruct (Resources (Spec claw)); [by apply grown_on_container|done]].
    unfold set_target_image. case_decide; [done|]. by apply grown_on_container.
  - destruct (annotation _ _) as [s|]; [|done]. case_decide; [done|]. by apply grown_same.
Qed.

Lemma grown_init f p :
  (Forall fine (InitContainers p) -> Forall fine (f (InitContainers p))) -> grown p (set_init f p).
Proof. intros Hf. split; [done|]. rewrite !every_app. cbn. intros [? ?]. auto. Qed.

Lemma grown_sidecar native c p : fine c -> grown p (add_sidecar native c p).
Proof.
  intros Hc. destruct native; cbn; [apply grown_init; intros; apply Forall_app; auto|].
  split; [done|]. rewrite !every_app. cbn. intros [? ?]. split; [done|]. apply Forall_app. auto.
Qed.

Hypothesis fine_bus :
  Q (Some ContainerSecurityContext) [mount "ipc-socket" "/var/run/claw"; mount "wal-data" "/var/run/claw/wal"].
Hypothesis fine_channel : Q (Some ContainerSecurityContext) [mount "ipc-socket" "/var/run/claw"].

Lemma grown_bus claw rt port p p' : injectIPCBusIfNeeded claw rt port p = Some p' -> grown p p'.
Proof.
  unfold injectIPCBusIfNeeded. case_if; [by intros [= ->]|]. case_if; [by intros [= ->]|].
  unfold injectIPCBusSidecar, ipc_bus_container. destruct (resources _ _ _ _) as [res|]; [|done].
  cbn. intros [= <-]. apply grown_init. intros Hl.
  destruct Hl as [|c l Hc Hl]; cbn; repeat constructor; done.
Qed.

Lemma grown_channels native fetch refs p skipped p' s :
  inject_channels native fetch refs p skipped = Some (Ok (p', s)) -> grown p p'.
Proof.
  revert p skipped. induction refs as [|ref refs IH]; cbn; intros p skipped; [by intros [= -> ->]|].
  destruct (fetch (cr_Name ref)) as [channel| |]; [|by apply IH|done].
  case_if; [by apply IH|].
  destruct (buildChannelContainer channel ref native) as [c|] eqn:Hb; [|done]. cbn.
  intros Hi%IH. etrans; [|exact Hi]. apply grown_sidecar.
  unfold buildChannelContainer in Hb. destruct channelDefaultResources; [|done]. cbn in Hb.
  simplify_eq. done.
Qed.

Lemma grown_archiver claw p p' :
  (forall o a, archive_of claw = Some (o, a) ->
     Q (Some ContainerSecurityContext) [mount "output" (v_MountPath (ov_VolumeSpec o))]) ->
  injectArchiverIfNeeded claw p = Some p' -> grown p p'.
Proof.
  intros Ha. unfold injectArchiverIfNeeded. destruct (archive_of claw) as [[o a]|]; [|by intros [= ->]].
  case_if; [by intros [= ->]|]. unfold archiver_container.
  destruct (resources _ _ _ _) as [res|]; [|done]. cbn. intros [= <-].
  apply grown_init. intros Hl. apply Forall_app. split; [done|]. repeat constructor. by eapply Ha.
Qed.

Lemma grown_credentials sha secrets claw p p' :
  injectCredentials sha secrets claw p = Ok p' -> grown p p'.
Proof.
  unfold injectCredentials. destruct (Credentials (Spec claw)) as [creds|]; [|by intros [= ->]].
  case_if; [done|]. unfold add_secret.
  destruct (SecretRef creds) as [name|]; cbn; [destruct (secrets name) as [data|]; [|done]; cbn|];
    intros [= <-]; (etrans; [|by apply grown_on_container]); [|done].
  etrans; [|by apply grown_same]. by apply grown_on_container.
Qed.

(** The built template, from the adapter's. *)
Lemma build_grown w claw adapter p :
  (forall o a, archive_of claw = Some (o, a) ->
     Q (Some ContainerSecurityContext) [mount "output" (v_MountPath (ov_VolumeSpec o))]) ->
  build_template w claw adapter = Ok p ->
  exists base, adapter_PodTemplate adapter claw = Some base /\ grown base p.
Proof.
  intros Ha. unfold build_template. destruct (adapter_PodTemplate adapter claw) as [base|]; [|done]. cbn.
  intros Hb. exists base. split; [done|].
  destruct (injectIPCBusIfNeeded _ _ _ _) as [p1|] eqn:H1; [|done]. cbn in Hb.
  destruct (inject_all_channels w claw p1) as [p2|] eqn:H2; [|done]. cbn in Hb.
  destruct (injectArchiverIfNeeded claw p2) as [p3|] eqn:H3; [|done]. cbn in Hb.
  destruct (injectCredentials _ _ claw p3) as [p4|] eqn:H4; [|done]. cbn in Hb. simplify_eq.
  etrans; [apply grown_overrides|]. etrans; [by eapply grown_bus|].
  etrans; [|etrans; [by eapply grown_archiver|etrans; [by eapply grown_credentials|by apply grown_same]]].
  unfold inject_all_channels, injectChannelSidecars in H2.
  destruct (inject_channels _ _ _ _ _) as [[[p' s]|]|] eqn:Hc; simplify_eq. by eapply grown_channels.
Qed.
End Every.

(** ** Hardening *)

(** What the restricted pod security standard asks of a container. *)
Definition restricted (sc : option SecurityContext) : Prop :=
  exists s, sc = Some s /\ RunAsNonRoot s = Some true /\ AllowPrivilegeEscalation s = Some false /\
    CapabilitiesDrop s = ["ALL"%string] /\ SeccompProfile s = Some RuntimeDefault.

Lemma restricted_default b : restricted (Some (containerSecurityContext b)).
Proof. by eexists. Qed.

Section Hardened.
Context `{QuantityLib}.

(** The four adapters of the operator. *)
Lemma registry_cases rt a :
  Get operator_registry rt = Some a ->
  (rt = RuntimeOpenClaw /\ a = OpenClawAdapter) \/ (rt = RuntimeHermesClaw /\ a = HermesClawAdapter) \/
  (rt = RuntimeHermesRS /\ a = HermesRSAdapter) \/ (rt = RuntimeK8sOps /\ a = K8sOpsAdapter).
Proof.
  unfold Get, operator_registry, Register, NewRegistry.
  rewrite !lookup_insert. repeat case_decide; intros; simplify_eq; auto.
Qed.

(** What the adapters of the operator add of their own. *)
Lemma registry_spec rt a spec :
  Get operator_registry rt = Some a -> runtimeSpec a = Some spec ->
  restricted (Some (default ContainerSecurityContext (rs_SecurityContext spec))) /\
  ExtraVolumes spec = [] /\
  Forall (fun m => vm_Name m = "config-vol"%string) (ExtraVolumeMounts spec).
Proof.
  intros Ha Hs. apply registry_cases in Ha as [[-> ->]|[[-> ->]|[[-> ->]|[-> ->]]]]; cbn in Hs;
    unfold OpenClaw_runtimeSpec, HermesClaw_runtimeSpec, HermesRS_runtimeSpec, K8sOps_runtimeSpec in Hs;
    (destruct (resources _ _ _ _) as [res|]; [|done]); cbn in Hs; simplify_eq; cbn;
    (split; [by eexists|split; [done|repeat constructor]]).
Qed.

Lemma base_template rt a claw base :
  Get operator_registry rt = Some a -> adapter_PodTemplate a claw = Some base ->
  exists spec, runtimeSpec a = Some spec /\ buildVolumes claw spec = Some (Volumes base) /\
    Containers base = [buildRuntimeContainer claw spec] /\
    exists init, buildInitContainer claw spec = Some init /\ InitContainers base = [init].
Proof.
  unfold adapter_PodTemplate, BuildPodTemplate. intros _.
  destruct (runtimeSpec a) as [spec|]; [|done]. cbn.
  destruct (buildInitContainer claw spec) as [init|] eqn:Hi; [|done]. cbn.
  destruct (buildVolumes claw spec) as [vols|] eqn:Hv; [|done]. cbn. intros [= <-].
  exists spec. split; [done|]. split; [done|]. split; [done|]. by exists init.
Qed.

(** C14: every container of the pod the operator builds - the init
    container, the runtime, the IPC bus, each channel sidecar and the
    archiver - runs as non-root, without privilege escalation, with all
    capabilities dropped and the default seccomp profile, and so does the pod. *)
Theorem statefulset_hardened w claw a ss :
  Get operator_registry (Runtime (Spec claw)) = Some a -> buildStatefulSet w claw a = Ok ss ->
  Forall (fun c => restricted (c_SecurityContext c))
    (InitContainers (Template ss) ++ Containers (Template ss)) /\
  pt_SecurityContext (Template ss) = Some pod_security.
Proof.
  unfold buildStatefulSet. intros Ha Hb.
  destruct (build_template w claw a) as [p|] eqn:Hp; [|done]. cbn in Hb.
  destruct (BuildVolumeClaimTemplates claw) as [claims|]; [|done]. cbn in Hb. simplify_eq. cbn.
  destruct (build_grown (fun sc _ => restricted sc) (restricted_default _) (restricted_default _)
    w claw a p (fun _ _ _ => restricted_default _) Hp) as (base & Hbase & _ & Hgrow).
  split.
  - apply Hgrow. destruct (base_template _ _ _ _ Ha Hbase) as (spec & Hs & _ & Hc & init & Hi & Hin).
    rewrite every_app, Hc, Hin. split; (constructor; [|constructor]); unfold fine.
    + unfold buildInitContainer in Hi. destruct initContainerResources; [|done]. cbn in Hi.
      simplify_eq. apply restricted_default.
    + apply (registry_spec _ _ _ Ha Hs).
  - unfold build_template in Hp. destruct (adapter_PodTemplate a claw); [|done]. cbn in Hp.
    destruct (injectIPCBusIfNeeded _ _ _ _); [|done]. cbn in Hp.
    destruct (inject_all_channels _ _ _); [|done]. cbn in Hp.
    destruct (injectArchiverIfNeeded _ _); [|done]. cbn in Hp.
    destruct (injectCredentials _ _ _ _); [|done]. cbn in Hp. by simplify_eq.
Qed.
End Hardened.

(** ** Mounts *)

Section Mounts.
Context `{QuantityLib}.

Definition volume_names (ss : StatefulSet) : list string :=
  map vol_Name (Volumes (Template ss)) ++ map ct_Name (VolumeClaimTemplates ss).

Lemma claim_of_name claw name v l :
  claim_of claw name v = Some l -> is_Some v -> name ∈ map ct_Name l.
Proof.
  unfold claim_of, pvcTemplate. intros Hc [s ->]. destruct (MustParse _); [|done]. cbn in Hc.
  simplify_eq. by left.
Qed.

Lemma claims_names claw claims :
  BuildVolumeClaimTemplates claw = Some claims ->
  (is_Some (session_of claw) -> "session"%string ∈ map ct_Name claims) /\
  (is_Some (output_of claw) -> "output"%string ∈ map ct_Name claims) /\
  (is_Some (workspace_of claw) -> "workspace"%string ∈ map ct_Name claims).
Proof.
  unfold BuildVolumeClaimTemplates.
  destruct (claim_of claw "session" _) as [s|] eqn:Hs; [|done]. cbn.
  destruct (claim_of claw "output" _) as [o|] eqn:Ho; [|done]. cbn.
  destruct (claim_of claw "workspace" _) as [w|] eqn:Hw; [|done]. cbn. intros [= <-].
  rewrite !map_app.
  repeat split; intros Hv; apply elem_of_app.
  - left. by eapply claim_of_name.
  - right. apply elem_of_app. left. by eapply claim_of_name.
  - right. apply elem_of_app. right. by eapply claim_of_name.
Qed.

Lemma volumes_names claw spec vols :
  buildVolumes claw spec = Some vols ->
  (forall n, n ∈ ["ipc-socket"; "wal-data"; "config-vol"; "tmp"]%string -> n ∈ map vol_Name vols) /\
  (forall p, Persistence (Spec claw) = Some p ->
     (is_Some (cache_enabled p) -> "cache"%string ∈ map vol_Name vols) /\
     (forall s, s ∈ Shared p -> shared_volume_name s ∈ map vol_Name vols)).
Proof.
  unfold buildVolumes. destruct (MustParse _); [|done]. cbn [base.mbind option_bind].
  destruct (from_option _ _ _) as [pv|] eqn:Hp; [|done]. cbn [base.mbind option_bind].
  intros Hv. apply Some_inj in Hv as <-. rewrite !map_app. split.
  - intros n Hn. apply elem_of_app. by left.
  - intros p Hper. rewrite Hper in Hp. cbn [from_option] in Hp. unfold persistence_volumes in Hp.
    destruct (cache_enabled p) as [c|] eqn:Hc; cbn in Hp.
    + destruct (MustParse (ca_Size c)); [|done]. cbn in Hp. simplify_eq. split.
      * intros _. apply elem_of_app. right. apply elem_of_app. left. by left.
      * intros s Hs. apply elem_of_app. right. apply elem_of_app. left. cbn. right.
        rewrite map_map. by apply (list_elem_of_fmap_2 shared_volume_name).
    + simplify_eq. split; [by intros [? ?]|].
      intros s Hs. apply elem_of_app. right. apply elem_of_app. left. cbn.
      rewrite map_map. by apply (list_elem_of_fmap_2 shared_volume_name).
Qed.

Definition mounted (names : list string) (ms : list VolumeMount) : Prop :=
  Forall (fun m => vm_Name m ∈ names) ms.

Lemma mounted_option {A} names (f : A -> VolumeMount) (o : option A) :
  (forall a, o = Some a -> vm_Name (f a) ∈ names) -> mounted names (from_option (fun a => [f a]) [] o).
Proof. intros Hf. destruct o; cbn; constructor; [by apply Hf|constructor]. Qed.

(** The mounts of the two containers of the adapter's template. *)
Lemma runtime_mounted claw spec vols claims names :
  buildVolumes claw spec = Some vols -> BuildVolumeClaimTemplates claw = Some claims ->
  names = map vol_Name vols ++ map ct_Name claims ->
  Forall (fun m => vm_Name m = "config-vol"%string) (ExtraVolumeMounts spec) ->
  mounted names (VolumeMounts (buildRuntimeContainer claw spec)).
Proof.
  intros Hv Hc -> Hx. apply volumes_names in Hv as [Hbase Hper]. apply claims_names in Hc as (Hs & Ho & Hw).
  cbn [VolumeMounts buildRuntimeContainer]. unfold mounted. rewrite !Forall_app. split; [|split].
  - repeat constructor; cbn; apply elem_of_app; left; apply Hbase; decide_now.
  - destruct (Persistence (Spec claw)) as [p|] eqn:Hp; [|constructor]. cbn [from_option].
    destruct (Hper p eq_refl) as [Hca Hsh]. unfold persistence_mounts. rewrite !Forall_app.
    split; [|split; [|split; [|split]]];
      try (apply mounted_option; intros a Ha; cbn; apply elem_of_app; eauto).
    apply Forall_map, Forall_forall. intros s Hin. cbn. apply elem_of_app. auto.
  - eapply Forall_impl; [exact Hx|]. intros m ->. apply elem_of_app. left. apply Hbase. decide_now.
Qed.

Lemma init_mounted claw spec vols claims names init :
  buildVolumes claw spec = Some vols -> BuildVolumeClaimTemplates claw = Some claims ->
  names = map vol_Name vols ++ map ct_Name claims ->
  buildInitContainer claw spec = Some init -> mounted names (VolumeMounts init).
Proof.
  intros Hv Hc -> Hi. apply volumes_names in Hv as [Hbase _]. apply claims_names in Hc as (_ & _ & Hw).
  unfold buildInitContainer in Hi. destruct initContainerResources; [|done]. cbn in Hi. simplify_eq.
  cbn [VolumeMounts]. unfold hasWorkspacePVC.
  repeat (constructor; [cbn; apply elem_of_app; left; apply Hbase; decide_now|]).
  case_bool_decide; [|constructor]. repeat constructor. cbn. apply elem_of_app. auto.
Qed.

(** C16: every volume mount of the StatefulSet - of the init container,
    the runtime, the IPC bus, the channel sidecars and the archiver - names a
    volume of the pod or a volume claim template, provided the archive is not
    enabled on a disabled output volume. *)
Theorem mounts_resolved w claw a ss :
  Get operator_registry (Runtime (Spec claw)) = Some a -> buildStatefulSet w claw a = Ok ss ->
  (forall o ar, archive_of claw = Some (o, ar) -> v_Enabled (ov_VolumeSpec o) = true) ->
  Forall (fun c => Forall (fun m => vm_Name m ∈ volume_names ss) (VolumeMounts c))
    (InitContainers (Template ss) ++ Containers (Template ss)).
Proof.
  unfold buildStatefulSet. intros Ha Hb Harch.
  destruct (build_template w claw a) as [p|] eqn:Hp; [|done]. cbn in Hb.
  destruct (BuildVolumeClaimTemplates claw) as [claims|] eqn:Hc; [|done]. cbn in Hb. simplify_eq.
  unfold volume_names. cbn [Template VolumeClaimTemplates].
  assert (Hbase : exists base, adapter_PodTemplate a claw = Some base).
  { unfold build_template in Hp. destruct (adapter_PodTemplate a claw); [eauto|done]. }
  destruct Hbase as [base Hbase].
  destruct (base_template _ _ _ _ Ha Hbase) as (spec & Hs & Hv & Hcs & init & Hi & Hin).
  destruct (volumes_names _ _ _ Hv) as [Hn _]. destruct (claims_names _ _ Hc) as (_ & Ho & _).
  set (names := map vol_Name (Volumes base) ++ map ct_Name claims).
  destruct (build_grown (fun _ => mounted names)) with (w := w) (claw := claw) (adapter := a) (p := p)
    as (base' & Hbase' & Hvol & Hgrow); [| | |exact Hp|].
  - repeat constructor; cbn; apply elem_of_app; left; apply Hn; decide_now.
  - repeat constructor; cbn; apply elem_of_app; left; apply Hn; decide_now.
  - intros o ar Har. repeat constructor. cbn. apply elem_of_app. right. apply Ho.
    pose proof (Harch _ _ Har) as He. unfold archive_of in Har. unfold output_of.
    destruct (Persistence (Spec claw)) as [pe|]; [|done]. cbn in Har |- *.
    destruct (Output pe) as [o'|]; [|done]. cbn in Har |- *.
    destruct (Archive o') as [ar'|]; [|done]. cbn in Har. case_match; [|done]. simplify_eq.
    by rewrite He.
  - rewrite Hbase in Hbase'. simplify_eq. rewrite Hvol. apply Hgrow. rewrite every_app, Hcs, Hin.
    split; (constructor; [|constructor]); unfold fine.
    + by eapply init_mounted.
    + eapply runtime_mounted; try done. apply (registry_spec _ _ _ Ha Hs).
Qed.
End Mounts.

(** ** The order of the init containers *)

Section Order.
Context `{QuantityLib}.

Definition init_extends (p p' : PodTemplate) : Prop :=
  exists l, InitContainers p' = InitContainers p ++ l.

#[export] Instance init_extends_refl : Reflexive init_extends.
Proof. intros p. exists []. by rewrite app_nil_r. Qed.
#[export] Instance init_extends_trans : Transitive init_extends.
Proof. intros p q r [l Hl] [l' Hl']. exists (l ++ l'). by rewrite Hl', Hl, app_assoc. Qed.

Lemma extends_channels native fetch refs p skipped p' s :
  inject_channels native fetch refs p skipped = Some (Ok (p', s)) -> init_extends p p'.
Proof.
  revert p skipped. induction refs as [|ref refs IH]; cbn; intros p skipped; [by intros [= -> ->]|].
  destruct (fetch (cr_Name ref)) as [channel| |]; [|by apply IH|done].
  case_if; [by apply IH|].
  destruct (buildChannelContainer channel ref native) as [c|]; [|done]. cbn.
  intros Hi%IH. etrans; [|exact Hi]. destruct native; [by exists [c]|by exists []; rewrite app_nil_r].
Qed.

Lemma extends_archiver claw p p' : injectArchiverIfNeeded claw p = Some p' -> init_extends p p'.
Proof.
  unfold injectArchiverIfNeeded. destruct (archive_of claw) as [[o a]|]; [|by intros [= ->]].
  case_if; [by intros [= ->]|]. destruct (archiver_container o a) as [c|]; [|done].
  cbn. intros [= <-]. by exists [c].
Qed.

Lemma credentials_init sha secrets claw p p' :
  injectCredentials sha secrets claw p = Ok p' -> InitContainers p' = InitContainers p.
Proof.
  unfold injectCredentials. destruct (Credentials (Spec claw)) as [creds|]; [|by intros [= ->]].
  case_if; [done|]. unfold add_secret.
  destruct (SecretRef creds) as [name|]; cbn; [destruct (secrets name); [|done]; cbn|]; by intros [= <-].
Qed.

Lemma overrides_init claw p :
  InitContainers (add_labels (clawLabels claw) (applyResourceOverrides claw (set_target_image claw p))) =
  InitContainers p.
Proof.
  unfold add_labels, applyResourceOverrides, set_target_image, set_pt_annotation, set_containers.
  cbn. by repeat case_match.
Qed.

(** With channels, the IPC bus is the second init container: after the
    preparation and before every channel sidecar and the archiver. *)
Theorem bus_second w claw a ss :
  Get operator_registry (Runtime (Spec claw)) = Some a -> Channels (Spec claw) <> [] ->
  buildStatefulSet w claw a = Ok ss ->
  exists init bus rest,
    InitContainers (Template ss) = init :: bus :: rest /\ c_Name init = "claw-init"%string /\
    ipc_bus_container claw (Runtime (Spec claw)) (GatewayPort (DefaultConfig a)) = Some bus.
Proof.
  unfold buildStatefulSet. intros Ha Hch Hb.
  destruct (build_template w claw a) as [p|] eqn:Hp; [|done]. cbn in Hb.
  destruct (BuildVolumeClaimTemplates claw) as [claims|]; [|done]. cbn in Hb. simplify_eq. cbn [Template].
  unfold build_template in Hp. destruct (adapter_PodTemplate a claw) as [base|] eqn:Hbase; [|done].
  cbn [unpanic rbind] in Hp.
  destruct (base_template _ _ _ _ Ha Hbase) as (spec & _ & _ & _ & init & Hi & Hin).
  set (p0 := add_labels _ _) in Hp.
  assert (InitContainers p0 = [init]) as Hp0 by (subst p0; by rewrite overrides_init).
  clearbody p0.
  destruct (injectIPCBusIfNeeded _ _ _ p0) as [p1|] eqn:H1; [|done]. cbn [unpanic rbind] in Hp.
  destruct (inject_all_channels w claw p1) as [p2|] eqn:H2; [|done]. cbn [unpanic rbind] in Hp.
  destruct (injectArchiverIfNeeded claw p2) as [p3|] eqn:H3; [|done]. cbn [unpanic rbind] in Hp.
  destruct (injectCredentials _ _ claw p3) as [p4|] eqn:H4; [|done]. cbn [unpanic rbind] in Hp. simplify_eq.
  assert (c_Name init = "claw-init"%string) as Hname.
  { unfold buildInitContainer in Hi. destruct initContainerResources; [|done]. cbn in Hi. by simplify_eq. }
  unfold injectIPCBusIfNeeded, shouldInjectIPCBus in H1. rewrite bool_decide_false in H1 by done.
  cbn [negb] in H1. unfold has_init in H1. rewrite Hp0 in H1. cbn [existsb] in H1.
  rewrite Hname in H1. cbn in H1. unfold injectIPCBusSidecar in H1.
  destruct (ipc_bus_container claw _ _) as [bus|]; [|done]. cbn [base.mbind option_bind] in H1.
  change (Some (set_init (insert_second bus) p0) = Some p1) in H1. simplify_eq.
  assert (init_extends (set_init (insert_second bus) p0) p4) as [rest Hrest].
  { etrans; [|etrans; [by eapply extends_archiver|]].
    2: { exists []. rewrite app_nil_r. exact (credentials_init _ _ _ _ _ H4). }
    unfold inject_all_channels, injectChannelSidecars in H2.
    destruct (inject_channels _ _ _ _ _) as [[[p' s]|]|] eqn:Hc; simplify_eq.
    exact (extends_channels _ _ _ _ _ _ _ Hc). }
  exists init, bus, rest. split; [|done]. cbn in Hrest |- *. by rewrite Hrest, Hp0.
Qed.
End Order.

(** ** Evaluation *)

Module Sample.
#[local] Existing Instance suffix_quantities.

Definition volume (name : string) : VolumeSpec := mkVolume true "" "1Gi" "" ("/" +:+ name)%string None.

(** An archive on an output volume that may be disabled. *)
Definition archive : ArchiveSpec :=
  mkArchive true (mkDestination "s3" "bucket" "" "aws") (mkTrigger "@daily" false) None.
Definition persistence (output_enabled : bool) : PersistenceSpec :=
  mkPersistence ReclaimRetain (Some (volume "session"))
    (Some (mkOutput (mkVolume output_enabled "" "1Gi" "" "/output" None) (Some archive)))
    (Some (volume "workspace")) [mkShared "models" "models-pvc" "/models" true]
    (Some (mkCache true "Memory" "256Mi" "/cache")).

Definition agent (runtime : string) (p : option PersistenceSpec) : Claw :=
  mkClaw (sample_meta [])
    (mkClawSpec runtime None (Some (mkCredentials (Some "keys"%string) None [])) [mkChannelRef "slack" "inbound"]
       p None None None None None None None None None)
    (mkClawStatus "" 0 [] None).

Definition slack : ClawChannel :=
  mkChannel (sample_meta []) (mkChannelSpec ChannelTypeSlack ChannelModeBidirectional None None None None None)
    (mkChannelStatus [] 0 0 []).

Definition build_env : BuildEnv :=
  mkBuildEnv (fun _ => "digest"%string) (fun _ => Some ∅) (fun _ => Found slack) true.

Definition built (runtime : string) (p : option PersistenceSpec) : result build_error StatefulSet :=
  match Get operator_registry runtime with
  | Some a => buildStatefulSet build_env (agent runtime p) a
  | None => Err ErrPanic
  end.

Lemma built_by runtime p a ss :
  Get operator_registry runtime = Some a -> built runtime p = Ok ss ->
  buildStatefulSet build_env (agent runtime p) a = Ok ss.
Proof. unfold built. by intros ->. Qed.

Lemma hermes_rs_registered : Get operator_registry RuntimeHermesRS = Some HermesRSAdapter.
Proof. reflexivity. Qed.

Lemma openclaw_registered : Get operator_registry RuntimeOpenClaw = Some OpenClawAdapter.
Proof. reflexivity. Qed.

Lemma statefulset_hardened_witness :
  match built RuntimeHermesRS (Some (persistence true)) with
  | Ok ss => Forall (fun c => restricted (c_SecurityContext c))
               (InitContainers (Template ss) ++ Containers (Template ss)) /\
             pt_SecurityContext (Template ss) = Some pod_security
  | Err _ => False
  end.
Proof.
  assert (Hok : is_ok (built RuntimeHermesRS (Some (persistence true))) = true) by (vm_compute; reflexivity).
  destruct (built RuntimeHermesRS (Some (persistence true))) as [ss|e] eqn:Hb; [|discriminate Hok].
  exact (statefulset_hardened build_env (agent RuntimeHermesRS (Some (persistence true)))
    HermesRSAdapter ss hermes_rs_registered (built_by _ _ _ _ hermes_rs_registered Hb)).
Defined.

Lemma mounts_resolved_witness :
  match built RuntimeOpenClaw (Some (persistence true)) with
  | Ok ss => Forall (fun c => Forall (fun m => vm_Name m ∈ volume_names ss) (VolumeMounts c))
               (InitContainers (Template ss) ++ Containers (Template ss))
  | Err _ => False
  end.
Proof.
  assert (Hok : is_ok (built RuntimeOpenClaw (Some (persistence true))) = true) by (vm_compute; reflexivity).
  destruct (built RuntimeOpenClaw (Some (persistence true))) as [ss|e] eqn:Hb; [|discriminate Hok].
  apply (mounts_resolved build_env (agent RuntimeOpenClaw (Some (persistence true))) OpenClawAdapter ss
    openclaw_registered (built_by _ _ _ _ openclaw_registered Hb)).
  intros o ar Har. apply Some_inj in Har. by injection Har as <- _.
Defined.

(** An archive on a disabled output volume: the archiver mounts a volume that
    does not exist, and the API server refuses the pods. *)
Example archive_without_output :
  match built RuntimeOpenClaw (Some (persistence false)) with
  | Ok ss => existsb (fun c => existsb (fun m => negb (bool_decide (vm_Name m ∈ volume_names ss))) (VolumeMounts c))
               (InitContainers (Template ss))
  | Err _ => false
  end = true.
Proof. vm_compute. reflexivity. Qed.

(** Secrets with different data can have one hash: the entries are joined
    without a separator, and the pods are not restarted. *)
Example secret_text_collides :
  secret_text {["a"%string := bytes_of "1b=2"]} =
  secret_text (<["a"%string := bytes_of "1"]> {["b"%string := bytes_of "2"]}).
Proof. vm_compute. reflexivity. Qed.

Example channel_sidecar_in_pod :
  match built RuntimeOpenClaw None with
  | Ok ss => map c_Name (InitContainers (Template ss)) = ["claw-init"; "ipc-bus"; "channel-slack"]%string
  | Err _ => False
  end.
Proof. vm_compute. reflexivity. Qed.
End Sample.
