(* ===== verification/Composition.v ===== *)
(** * The operator's pod and the programs that run in it

    What the operator writes into the environment of the IPC bus and of the
    channel sidecars, read the way [cmd/ipcbus] and the channel SDK read it. *)

From S2P Require Import Prelude.
From S2P Require Import GoStrings.
From S2P Require Import Api.
From S2P Require Import Samples.
From S2P Require Import Bridges.
From S2P Require Import Server.
From S2P Require Import Client.
From S2P Require Import Kube.
From S2P Require Import PodBuilder.
From S2P Require Import Channel.
From S2P Require Import StatefulSet.
From S2P Require AgentRuntime.

(** The environment of a container: of variables with one name the last
    counts, and a variable taken from a secret has an unknown value. *)
Definition container_getenv `{QuantityLib} (c : Container) (secret : SecretKeySource -> string)
    (name : string) : string :=
  foldl (fun v e => if decide (ev_Name e = name) then from_option secret (ev_Value e) (ev_From e) else v)
    ""%string (c_Env c).

(** [cmd/ipcbus/main.go]: the socket the bus listens on, and its bridge. *)
Definition bus_socket (getenv : string -> string) : string :=
  envOr getenv "IPC_SOCKET_PATH" "/var/run/claw/bus.sock".

Definition bus_bridge (getenv : string -> string) : option Bridge :=
  NewBridge (envOr getenv "CLAW_RUNTIME" "openclaw")
    (mkBridgeConfig (envOrInt getenv "CLAW_GATEWAY_PORT" 18900)
       (envOr getenv "CLAW_RUNTIME_SOCKET" "/var/run/claw/runtime.sock")).

Section Composition.
Context `{QuantityLib} (secret : SecretKeySource -> string).

Lemma bus_env claw rt port bus :
  ipc_bus_container claw rt port = Some bus ->
  c_Env bus = ipc_bus_env claw rt port /\
  map vm_MountPath (VolumeMounts bus) = ["/var/run/claw"; "/var/run/claw/wal"]%string.
Proof. unfold ipc_bus_container. destruct (resources _ _ _ _); [|done]. cbn. by intros [= <-]. Qed.

Lemma bus_getenv claw rt port bus :
  ipc_bus_container claw rt port = Some bus ->
  container_getenv bus secret "IPC_SOCKET_PATH" = "/var/run/claw"%string /\
  container_getenv bus secret "CLAW_RUNTIME" = rt.
Proof.
  intros [He _]%bus_env. unfold container_getenv. rewrite He. unfold ipc_bus_env.
  by destruct (decide (rt = "nanoclaw"%string)).
Qed.

Lemma builtin_channel_env channel ref native c :
  buildChannelContainer channel ref native = Some c -> custom_sidecar channel = None ->
  container_getenv c secret "IPC_SOCKET_PATH" = ""%string.
Proof.
  unfold buildChannelContainer. intros Hb Hc. rewrite Hc in Hb.
  destruct channelDefaultResources; [|done]. cbn in Hb. simplify_eq.
  unfold container_getenv. cbn. by destruct (ch_Config (ch_Spec channel) ≫= config_text).
Qed.

(** C35: in the pod the operator builds, the bus is told to listen on the
    directory where its socket volume is mounted, while every sidecar of a
    built-in channel type dials the socket file inside that directory: no
    sidecar reaches the bus. *)
Theorem bus_unreachable w claw a ss channel ref native c :
  Get operator_registry (Runtime (Spec claw)) = Some a -> Channels (Spec claw) <> [] ->
  buildStatefulSet w claw a = Ok ss ->
  buildChannelContainer channel ref native = Some c -> custom_sidecar channel = None ->
  exists bus, bus ∈ InitContainers (Template ss) /\ c_Name bus = ipcBusSidecarName /\
    bus_socket (container_getenv bus secret) ∈ map vm_MountPath (VolumeMounts bus) /\
    bus_socket (container_getenv bus secret) <> socketPath (defaultConfig (container_getenv c secret)).
Proof.
  intros Ha Hch Hb Hc Hcustom.
  destruct (bus_second w claw a ss Ha Hch Hb) as (init & bus & rest & Hin & _ & Hbus).
  exists bus. split; [rewrite Hin; set_solver|].
  destruct (bus_env _ _ _ _ Hbus) as [_ Hm]. destruct (bus_getenv _ _ _ _ Hbus) as [Hs _].
  unfold bus_socket, envOr, defaultConfig. rewrite Hs, Hm.
  rewrite (builtin_channel_env _ _ _ _ Hc Hcustom). cbn. split; [|by split; [left|]].
  unfold ipc_bus_container in Hbus. destruct (resources _ _ _ _); [|done]. cbn in Hbus. by simplify_eq.
Qed.

(** Of the operator's runtimes only OpenClaw has a bridge: with any other and
    at least one channel the bus exits at its start. *)
Theorem bus_bridge_openclaw_only w claw a ss :
  Get operator_registry (Runtime (Spec claw)) = Some a -> Channels (Spec claw) <> [] ->
  buildStatefulSet w claw a = Ok ss ->
  exists bus, bus ∈ InitContainers (Template ss) /\ c_Name bus = ipcBusSidecarName /\
    (is_Some (bus_bridge (container_getenv bus secret)) <-> Runtime (Spec claw) = Api.RuntimeOpenClaw).
Proof.
  intros Ha Hch Hb.
  destruct (bus_second w claw a ss Ha Hch Hb) as (init & bus & rest & Hin & _ & Hbus).
  exists bus. split; [rewrite Hin; set_solver|].
  destruct (bus_getenv _ _ _ _ Hbus) as [_ Hr].
  split.
  { unfold ipc_bus_container in Hbus. destruct (resources _ _ _ _); [|done]. cbn in Hbus. by simplify_eq. }
  unfold bus_bridge, envOr at 1. rewrite Hr.
  apply registry_cases in Ha as [[-> _]|[[-> _]|[[-> _]|[-> _]]]]; cbn; split; try done.
  all: by intros [? [=]].
Qed.
(** In the runtime container the operator builds for OpenClaw, the gateway
    listens on the adapter's gateway port, to which the bus's bridge connects
    with the upgrade the gateway asks for, and both probes ask that port for a
    path that the gateway answers.  Nothing in the container's own variables
    holds an API key: without the secret of the Claw's credentials the gateway
    is in mock mode. *)
Theorem openclaw_gateway claw spec rt bus :
  OpenClaw_runtimeSpec = Some spec -> ipc_bus_container claw rt (GatewayPort OpenClaw_DefaultConfig) = Some bus ->
  let c := buildRuntimeContainer claw spec in
  let cfg := AgentRuntime.gateway_config_of (container_getenv c secret) in
  let port := GatewayPort OpenClaw_DefaultConfig in
  AgentRuntime.gw_port cfg = sprint_int port /\
  envOrInt (container_getenv bus secret) "CLAW_GATEWAY_PORT" 0 = port /\
  AgentRuntime.gateway_serve "GET" "/" "websocket" = AgentRuntime.GwBridge /\
  Forall (fun p => exists pr, p = Some pr /\ pr_Port pr = port /\
    exists body, AgentRuntime.gateway_serve "GET" (pr_Path pr) "" = AgentRuntime.GwBody 200 body)
    [c_LivenessProbe c; c_ReadinessProbe c] /\
  AgentRuntime.gw_mock cfg = true.
Proof.
  unfold OpenClaw_runtimeSpec. destruct (resources _ _ _ _) as [res|]; [|done]. cbn [base.mbind option_bind].
  intros <-%Some_inj Hbus. apply bus_env in Hbus as [Henv _].
  split_and!; try reflexivity.
  - unfold envOrInt, container_getenv. rewrite Henv. unfold ipc_bus_env.
    destruct (decide (rt = "nanoclaw"%string)); reflexivity.
  - repeat constructor; eexists; (split; [reflexivity|]); (split; [reflexivity|]); eexists; reflexivity.
Qed.
End Composition.

Module Sample.
#[local] Existing Instance suffix_quantities.

Definition slack_sidecar : option Container :=
  buildChannelContainer StatefulSet.Sample.slack (mkChannelRef "slack" "inbound") true.

Lemma bus_unreachable_witness :
  match StatefulSet.Sample.built Api.RuntimeOpenClaw None, slack_sidecar with
  | Ok ss, Some c =>
      exists bus, bus ∈ InitContainers (Template ss) /\ c_Name bus = ipcBusSidecarName /\
        bus_socket (container_getenv bus (fun _ => ""%string)) ∈ map vm_MountPath (VolumeMounts bus) /\
        bus_socket (container_getenv bus (fun _ => ""%string)) <>
        socketPath (defaultConfig (container_getenv c (fun _ => ""%string)))
  | _, _ => False
  end.
Proof.
  assert (Hok : is_ok (StatefulSet.Sample.built Api.RuntimeOpenClaw None) = true) by (vm_compute; reflexivity).
  assert (Hsc : (if slack_sidecar is Some _ then true else false) = true) by (vm_compute; reflexivity).
  destruct (StatefulSet.Sample.built Api.RuntimeOpenClaw None) as [ss|e] eqn:Hb; [|discriminate Hok].
  destruct slack_sidecar as [c|] eqn:Hc; [|discriminate Hsc].
  refine (bus_unreachable (fun _ => ""%string) StatefulSet.Sample.build_env
    (StatefulSet.Sample.agent Api.RuntimeOpenClaw None) OpenClawAdapter ss
    StatefulSet.Sample.slack (mkChannelRef "slack" "inbound") true c eq_refl _ Hb Hc eq_refl).
  discriminate.
Defined.
End Sample.
