(* ===== verification/TestRuntime.v ===== *)
(** * The runtime of the integration tests (runtimes/mock)

    One program stands in for the init container and for every runtime; here
    it is put in the pod that the operator builds. *)

From S2P Require Import Prelude.
From S2P Require Import GoStrings.
From S2P Require Import GoText.
From S2P Require Import Api.
From S2P Require Import Samples.
From S2P Require Import Bridges.
From S2P Require Import Kube.
From S2P Require Import PodBuilder.
From S2P Require Import StatefulSet.
From S2P Require AgentRuntime.

(** [filepath.Base]. *)
Definition Base (path : string) : string :=
  if decide (path = ""%string) then "."%string
  else
    let p := trim_right "/" (bytes_of path) in
    match p with
    | [] => "/"%string
    | _ => str_of (match cut_last_byte "/" p with Some (_, b) => b | None => p end)
    end.

Definition knownPorts : list string := ["18900"; "19000"; "3000"; "8080"; "3001"; "8642"]%string.

Inductive mock_program :=
| MockExits
| MockServes (ports : list string) (name : string).

Definition mock_main (argv0 : string) (getenv : string -> string) : mock_program :=
  if decide (Base argv0 = "claw-init"%string) then MockExits
  else MockServes knownPorts
         (AgentRuntime.envOr getenv "MOCK_RUNTIME" (AgentRuntime.envOr getenv "CLAW_NAME" "mock")).

(** The answer to a request, if something listens on the port.  The pattern
    "/" takes every other path. *)
Definition mock_answer (p : mock_program) (port path : string) : option string :=
  match p with
  | MockExits => None
  | MockServes ports name =>
      if decide (port ∈ ports) then
        Some (if decide (path = "/health"%string) then "ok" +:+ AgentRuntime.eol
              else if decide (path = "/ready"%string) then "ready" +:+ AgentRuntime.eol
              else "k8s4claw mock: " +:+ name +:+ AgentRuntime.eol)%string
      else None
  end.

(** What a container runs of this image: its command or the entrypoint of
    the image, which must be a file of the image (Dockerfile). *)
Definition mock_files : list string :=
  ["/mock-runtime"; "/claw-init"; "/usr/bin/claw-entrypoint"; "/claw-ipcbus"; "/claw-channel-slack";
   "/claw-channel-discord"; "/claw-channel-webhook"]%string.

Definition mock_container `{QuantityLib} (c : Container) (getenv : string -> string) : option mock_program :=
  let path := match c_Command c with [] => "/mock-runtime"%string | p :: _ => p end in
  if decide (path ∈ mock_files) then Some (mock_main path getenv) else None.

Definition probe_passes (p : option mock_program) (pr : option Probe) : bool :=
  match p, pr with
  | Some m, Some pr => bool_decide (is_Some (mock_answer m (sprint_int (pr_Port pr)) (pr_Path pr)))
  | _, _ => false
  end.

Definition mocked_ready `{QuantityLib} (getenv : string -> string) (c : Container) : bool :=
  probe_passes (mock_container c getenv) (c_LivenessProbe c) && probe_passes (mock_container c getenv) (c_ReadinessProbe c).

Section Test.
Context `{QuantityLib}.

Lemma init_command claw spec init : buildInitContainer claw spec = Some init -> c_Command init = ["/claw-init"%string].
Proof. unfold buildInitContainer. destruct initContainerResources; [|done]. cbn [base.mbind option_bind]. by intros [= <-]. Qed.

(** Readiness from the parts of the specification that it depends on. *)
Definition ready_of (getenv : string -> string) (cmd : list string) (live ready : option Probe) : bool :=
  let path := match cmd with [] => "/mock-runtime"%string | p :: _ => p end in
  let m := if decide (path ∈ mock_files) then Some (mock_main path getenv) else None in
  probe_passes m live && probe_passes m ready.

Lemma mocked_ready_of getenv claw spec :
  mocked_ready getenv (buildRuntimeContainer claw spec) =
  ready_of getenv (rs_Command spec) (rs_LivenessProbe spec) (rs_ReadinessProbe spec).
Proof. reflexivity. Qed.

(** In the pod the operator builds, the test image's init container exits at
    once, and both probes of the runtime container pass exactly for OpenClaw
    and HermesClaw: the command of the Hermes runtime in Rust is no file of
    the image, and the port of the companion is none that it listens on. *)
Theorem mock_runtime_ready claw rt a spec init getenv :
  Get operator_registry rt = Some a -> runtimeSpec a = Some spec -> buildInitContainer claw spec = Some init ->
  mock_container init getenv = Some MockExits /\
  (mocked_ready getenv (buildRuntimeContainer claw spec) = true <-> rt ∈ [RuntimeOpenClaw; RuntimeHermesClaw]).
Proof.
  intros Ha Hs Hi. split.
  - unfold mock_container. rewrite (init_command _ _ _ Hi). reflexivity.
  - rewrite mocked_ready_of, list_elem_of_In.
    apply registry_cases in Ha as [[-> ->]|[[-> ->]|[[-> ->]|[-> ->]]]]; cbn in Hs;
      unfold OpenClaw_runtimeSpec, HermesClaw_runtimeSpec, HermesRS_runtimeSpec, K8sOps_runtimeSpec in Hs;
      (destruct (resources _ _ _ _) as [res|]; [|done]);
      cbn [base.mbind option_bind] in Hs; apply Some_inj in Hs as <-; clear;
      cbn [rs_Command rs_LivenessProbe rs_ReadinessProbe].
    1,2: split; [intros _; cbn; tauto|intros _; reflexivity].
    all: split; [intros E; lazy in E; discriminate E|intros [E|[E|[]]]; discriminate E].
Qed.
End Test.

Module Sample.
#[local] Existing Instance suffix_quantities.

Definition claw : Claw := StatefulSet.Sample.agent RuntimeOpenClaw None.

Lemma mock_runtime_ready_sample :
  match runtimeSpec OpenClawAdapter with
  | Some spec => mocked_ready (fun _ => ""%string) (buildRuntimeContainer claw spec) = true
  | None => False
  end.
Proof.
  assert (Hok : (if runtimeSpec OpenClawAdapter is Some _ then true else false) = true) by (vm_compute; reflexivity).
  assert (Hres : (if initContainerResources is Some _ then true else false) = true) by (vm_compute; reflexivity).
  destruct (runtimeSpec OpenClawAdapter) as [spec|] eqn:Hs; [|discriminate Hok].
  destruct (buildInitContainer claw spec) as [init|] eqn:Hi.
  - apply (mock_runtime_ready claw RuntimeOpenClaw OpenClawAdapter spec init); [reflexivity|exact Hs|exact Hi|].
    apply list_elem_of_In. by left.
  - unfold buildInitContainer in Hi. destruct initContainerResources; [discriminate Hi|discriminate Hres].
Qed.
End Sample.
