(* ===== verification/SubResources.v ===== *)
(** * The objects a Claw owns (internal/controller: claw_service.go,
    claw_serviceaccount.go, claw_rbac.go, claw_networkpolicy.go,
    claw_ingress.go, claw_pdb.go)

    One builder per kind of object.  An object is its metadata with the fields
    of its specification that the builders set. *)

From S2P Require Import Prelude.
From S2P Require Import GoStrings.
From S2P Require Import Api.
From S2P Require Import Samples.
From S2P Require Import Kube.
From S2P Require Import PodBuilder.
From S2P Require Import Channel.
From S2P Require Import StatefulSet.

Record Obj (A : Type) := mkObj { o_Meta : ObjectMeta; o_Body : A }.
Arguments mkObj {A} _ _.
Arguments o_Meta {A} _.
Arguments o_Body {A} _.

(** The metadata literals of the builders. *)
Definition new_meta (name namespace : string) (labels : gmap string string)
    (annotations : option (gmap string string)) : ObjectMeta :=
  mkMeta name "" namespace "" 0 labels annotations [] [] 0 None.

(** A Go conversion to [int32]. *)
Definition int32 (n : Z) : Z := (n + 2 ^ 31) mod 2 ^ 32 - 2 ^ 31.

Lemma int32_small n : - 2 ^ 31 <= n < 2 ^ 31 -> int32 n = n.
Proof. intros Hn. unfold int32. rewrite Z.mod_small by lia. lia. Qed.

(** ** Specifications *)

Record ServicePort := mkServicePort {
  svp_Name : string;
  svp_Port : Z;
  TargetPort : Z;
  svp_Protocol : string;
}.

Record Service := mkService {
  ClusterIP : string;
  svc_Selector : gmap string string;
  svc_Ports : list ServicePort;
}.

Record ServiceAccountBody := mkServiceAccountBody { sab_Automount : option bool }.

Record PolicyRule := mkPolicyRule {
  APIGroups : list string;
  pr_Resources : list string;
  Verbs : list string;
  ResourceNames : list string;
}.

Record Subject := mkSubject { su_Kind : string; su_Name : string; su_Namespace : string }.
Record RoleRef := mkRoleRef { rr_APIGroup : string; rr_Kind : string; rr_Name : string }.
Record RoleBinding := mkRoleBinding { rb_RoleRef : RoleRef; Subjects : list Subject }.

(** A peer is a selector of pods (of the policy's own namespace), a selector
    of namespaces, or a block of addresses. *)
Inductive NetworkPolicyPeer :=
| PodPeer (matchLabels : gmap string string)
| NamespacePeer (matchLabels : gmap string string)
| IPBlockPeer (cidr : string).

Record NetworkPolicyPort := mkPolicyPort { npp_Protocol : string; npp_Port : Z }.

(** An empty list of peers or of ports stands for all of them. *)
Record NetworkPolicyRule := mkPolicyPeers {
  Peers : list NetworkPolicyPeer;
  PolicyPorts : list NetworkPolicyPort;
}.

Record NetworkPolicyBody := mkNetworkPolicyBody {
  np_PodSelector : gmap string string;
  PolicyTypes : list string;
  np_Ingress : list NetworkPolicyRule;
  np_Egress : list NetworkPolicyRule;
}.

Record IngressPath := mkIngressPath {
  ip_Path : string;
  ip_PathType : string;
  BackendService : string;
  BackendPort : Z;
}.

Record IngressBody := mkIngressBody {
  ib_Rules : list (string * list IngressPath);
  IngressClassName : option string;
  (** The hosts and the secret of each TLS entry. *)
  ib_TLS : list (list string * string);
}.

Record PDBBody := mkPDBBody { pb_MinAvailable : Z; pdb_Selector : gmap string string }.

Section Builders.
Context `{QuantityLib}.

(** ** Service *)

Definition service_port (cp : ContainerPort) : ServicePort :=
  mkServicePort (cp_Name cp) (cp_Port cp) (cp_Port cp) (cp_Protocol cp).

Definition service_selector (claw : Claw) : gmap string string :=
  list_to_map [("app.kubernetes.io/name", "claw"); ("app.kubernetes.io/instance", Name (Meta claw))]%string.

(** [None] is a panic of [PodTemplate]. *)
Definition buildService (claw : Claw) (adapter : RuntimeAdapter) : option (Obj Service) :=
  podTemplate ← adapter_PodTemplate adapter claw;
  let servicePorts := flat_map (fun c => map service_port (c_Ports c)) (Containers podTemplate) in
  Some (mkObj (new_meta (Name (Meta claw)) (Namespace (Meta claw)) (clawLabels claw) None)
          (mkService "None" (service_selector claw) servicePorts)).

(** ** Service account *)

Definition buildServiceAccount (claw : Claw) : Obj ServiceAccountBody :=
  let annotations :=
    match ServiceAccount (Spec claw) ≫= sa_Annotations with
    | Some a => if decide (map_to_list a = []) then None else Some a
    | None => None
    end in
  mkObj (new_meta (Name (Meta claw)) (Namespace (Meta claw)) (clawLabels claw) annotations)
    (mkServiceAccountBody (Some false)).

(** ** Role and binding *)

Definition needsRBAC (claw : Claw) : bool :=
  match SelfConfigure (Spec claw) with Some sc => sc_Enabled sc | None => false end.

Definition buildRole (claw : Claw) : Obj (list PolicyRule) :=
  mkObj (new_meta (Name (Meta claw)) (Namespace (Meta claw)) (clawLabels claw) None)
    [mkPolicyRule ["claw.prismer.ai"] ["claws"] ["get"] [Name (Meta claw)];
     mkPolicyRule ["claw.prismer.ai"] ["clawselfconfigs"] ["create"; "get"; "list"] []]%string.

Definition buildRoleBinding (claw : Claw) : Obj RoleBinding :=
  mkObj (new_meta (Name (Meta claw)) (Namespace (Meta claw)) (clawLabels claw) None)
    (mkRoleBinding (mkRoleRef "rbac.authorization.k8s.io" "Role" (Name (Meta claw)))
       [mkSubject "ServiceAccount" (serviceAccountName claw) (Namespace (Meta claw))]).

(** ** Network policy *)

Definition policy_of (claw : Claw) : option NetworkPolicySpec := Security (Spec claw) ≫= NetworkPolicy.

Definition networkPolicyEnabled (claw : Claw) : bool :=
  match policy_of claw with Some np => np_Enabled np | None => false end.

Definition namespace_labels (ns : string) : gmap string string := {["kubernetes.io/metadata.name"%string := ns]}.

Definition egress_rules (claw : Claw) : list NetworkPolicyRule :=
  [mkPolicyPeers [] [mkPolicyPort "UDP" 53; mkPolicyPort "TCP" 53];
   mkPolicyPeers [] [mkPolicyPort "TCP" 443]] ++
  map (fun cidr => mkPolicyPeers [IPBlockPeer cidr] []) (from_option AllowedEgressCIDRs [] (policy_of claw)).

Definition ingressEnabled (claw : Claw) : bool :=
  match Ingress (Spec claw) with Some i => in_Enabled i | None => false end.

Definition ingress_rules (claw : Claw) (gatewayPort : Z) : list NetworkPolicyRule :=
  let gwPort := [mkPolicyPort "TCP" (int32 gatewayPort)] in
  [mkPolicyPeers [PodPeer ∅] gwPort] ++
  map (fun ns => mkPolicyPeers [NamespacePeer (namespace_labels ns)] gwPort)
    (from_option AllowedIngressNamespaces [] (policy_of claw)) ++
  (if ingressEnabled claw then [mkPolicyPeers [NamespacePeer (namespace_labels "ingress-nginx")] gwPort] else []).

Definition instance_selector (claw : Claw) : gmap string string := {[LabelInstance := Name (Meta claw)]}.

Definition netpol_name (claw : Claw) : string := (Name (Meta claw) +:+ "-netpol")%string.

Definition buildNetworkPolicy (claw : Claw) (gatewayPort : Z) : Obj NetworkPolicyBody :=
  mkObj (new_meta (netpol_name claw) (Namespace (Meta claw)) (clawLabels claw) None)
    (mkNetworkPolicyBody (instance_selector claw) ["Ingress"; "Egress"]%string
       (ingress_rules claw gatewayPort) (egress_rules claw)).

(** ** Ingress, for a Claw whose ingress is enabled *)

Definition auth_annotations (claw : Claw) (i : IngressSpec) : gmap string string :=
  match BasicAuth i with
  | Some ba =>
      if ba_Enabled ba then
        list_to_map
          [("nginx.ingress.kubernetes.io/auth-type", "basic");
           ("nginx.ingress.kubernetes.io/auth-secret", ba_SecretName ba);
           ("nginx.ingress.kubernetes.io/auth-realm", "Authentication Required - " +:+ Name (Meta claw))]%string
      else ∅
  | None => ∅
  end.

Definition buildIngress (claw : Claw) (i : IngressSpec) (gatewayPort : Z) : Obj IngressBody :=
  let annotations := default ∅ (in_Annotations i) ∪ auth_annotations claw i in
  mkObj (new_meta (Name (Meta claw)) (Namespace (Meta claw)) (clawLabels claw) (Some annotations))
    (mkIngressBody
       [(Host i, [mkIngressPath "/" "Prefix" (Name (Meta claw)) (int32 gatewayPort)])]
       (if decide (ClassName i = ""%string) then None else Some (ClassName i))
       (match TLS i with Some secret => [([Host i], secret)] | None => [] end)).

(** ** Disruption budget *)

Definition pdbEnabled (claw : Claw) : bool :=
  match Availability (Spec claw) ≫= PDB with Some p => pdb_Enabled p | None => true end.

Definition buildPDB (claw : Claw) : Obj PDBBody :=
  let minAvailable :=
    match Availability (Spec claw) ≫= PDB with
    | Some p => if 0 <? MinAvailable p then MinAvailable p else 1
    | None => 1
    end in
  mkObj (new_meta (Name (Meta claw)) (Namespace (Meta claw)) (clawLabels claw) None)
    (mkPDBBody (int32 minAvailable) (instance_selector claw)).
End Builders.

(** ** The objects fit together

    The Service, the network policy and the disruption budget select the pods
    of the StatefulSet; the port the Ingress and the policy name is a port of
    the Service. *)

Section Fit.
Context `{QuantityLib}.

Definition template_labels (ss : StatefulSet) : gmap string string := default ∅ (pt_Labels (Template ss)).

Lemma labels_channels native fetch refs p skipped p' s :
  inject_channels native fetch refs p skipped = Some (Ok (p', s)) -> pt_Labels p' = pt_Labels p.
Proof.
  revert p skipped. induction refs as [|ref refs IH]; cbn; intros p skipped; [by intros [= -> ->]|].
  destruct (fetch (cr_Name ref)) as [channel| |]; [|by apply IH|done].
  case_if; [by apply IH|].
  destruct (buildChannelContainer channel ref native) as [c|]; [|done]. cbn.
  intros ->%IH. by destruct native.
Qed.

Lemma labels_bus claw rt port p p' : injectIPCBusIfNeeded claw rt port p = Some p' -> pt_Labels p' = pt_Labels p.
Proof.
  unfold injectIPCBusIfNeeded, injectIPCBusSidecar. repeat case_if; try by intros [= ->].
  destruct (ipc_bus_container claw rt port); [|done]. cbn. by intros [= <-].
Qed.

Lemma labels_archiver claw p p' : injectArchiverIfNeeded claw p = Some p' -> pt_Labels p' = pt_Labels p.
Proof.
  unfold injectArchiverIfNeeded. destruct (archive_of claw) as [[o a]|]; [|by intros [= ->]].
  case_if; [by intros [= ->]|]. destruct (archiver_container o a); [|done]. cbn. by intros [= <-].
Qed.

Lemma labels_credentials sha secrets claw p p' :
  injectCredentials sha secrets claw p = Ok p' -> pt_Labels p' = pt_Labels p.
Proof.
  unfold injectCredentials. destruct (Credentials (Spec claw)) as [creds|]; [|by intros [= ->]].
  case_if; [done|]. unfold add_secret.
  destruct (SecretRef creds) as [name|]; cbn; [destruct (secrets name); [|done]; cbn|]; by intros [= <-].
Qed.

(** The template carries the labels of the Claw. *)
Lemma build_labels w claw a p :
  build_template w claw a = Ok p -> clawLabels claw ⊆ default ∅ (pt_Labels p).
Proof.
  unfold build_template. destruct (adapter_PodTemplate a claw) as [base|]; [|done]. cbn [unpanic rbind].
  set (p0 := add_labels _ _).
  assert (clawLabels claw ⊆ default ∅ (pt_Labels p0)) as Hp0 by apply map_union_subseteq_l.
  clearbody p0. intros Hp.
  destruct (injectIPCBusIfNeeded _ _ _ p0) as [p1|] eqn:H1; [|done]. cbn [unpanic rbind] in Hp.
  destruct (inject_all_channels w claw p1) as [p2|] eqn:H2; [|done]. cbn [unpanic rbind] in Hp.
  destruct (injectArchiverIfNeeded claw p2) as [p3|] eqn:H3; [|done]. cbn [unpanic rbind] in Hp.
  destruct (injectCredentials _ _ claw p3) as [p4|] eqn:H4; [|done]. cbn [unpanic rbind] in Hp. simplify_eq.
  cbn [finish_template pt_Labels].
  rewrite (labels_credentials _ _ _ _ _ H4), (labels_archiver _ _ _ H3).
  unfold inject_all_channels, injectChannelSidecars in H2.
  destruct (inject_channels _ _ _ _ _) as [[[p' s]|]|] eqn:Hc; simplify_eq.
  by rewrite (labels_channels _ _ _ _ _ _ _ Hc), (labels_bus _ _ _ _ _ H1).
Qed.

Lemma selector_labels claw :
  service_selector claw ⊆ clawLabels claw /\ instance_selector claw ⊆ clawLabels claw.
Proof.
  unfold service_selector, instance_selector, clawLabels, LabelInstance. cbn [list_to_map foldr curry fst snd].
  split; apply map_subseteq_spec; intros k v;
    rewrite ?lookup_insert, ?lookup_singleton, ?lookup_empty; repeat case_decide; by simplify_eq.
Qed.

(** The port every adapter of the operator serves. *)
Lemma registry_port rt a spec :
  Get operator_registry rt = Some a -> runtimeSpec a = Some spec ->
  rs_Ports spec = [mkPort "gateway" (GatewayPort (DefaultConfig a)) "TCP"] /\
  int32 (GatewayPort (DefaultConfig a)) = GatewayPort (DefaultConfig a).
Proof.
  intros Ha Hs. apply registry_cases in Ha as [[-> ->]|[[-> ->]|[[-> ->]|[-> ->]]]]; cbn in Hs;
    unfold OpenClaw_runtimeSpec, HermesClaw_runtimeSpec, HermesRS_runtimeSpec, K8sOps_runtimeSpec in Hs;
    (destruct (resources _ _ _ _) as [res|]; [|done]); cbn in Hs; by simplify_eq.
Qed.

Lemma service_ports claw a svc :
  Get operator_registry (Runtime (Spec claw)) = Some a -> buildService claw a = Some svc ->
  svc_Ports (o_Body svc) =
  [mkServicePort "gateway" (int32 (GatewayPort (DefaultConfig a))) (int32 (GatewayPort (DefaultConfig a))) "TCP"].
Proof.
  unfold buildService. intros Ha. destruct (adapter_PodTemplate a claw) as [base|] eqn:Hb; [|done].
  destruct (base_template _ _ _ _ Ha Hb) as (spec & Hs & _ & Hc & _).
  destruct (registry_port _ _ _ Ha Hs) as [Hp Hi]. cbn. rewrite Hc. cbn. rewrite Hp. cbn.
  intros [= <-]. by rewrite Hi.
Qed.

(** C29: the objects of a Claw fit together: the Service, the network
    policy, the disruption budget and the StatefulSet select the pods of the
    StatefulSet's template; the Ingress sends to the Claw's Service, on a port
    the Service has; and the network policy lets in that port and no other. *)
Theorem objects_fit w claw a ss svc i :
  Get operator_registry (Runtime (Spec claw)) = Some a -> buildStatefulSet w claw a = Ok ss ->
  buildService claw a = Some svc ->
  let port := GatewayPort (DefaultConfig a) in
  (svc_Selector (o_Body svc) ⊆ template_labels ss /\ ss_Selector ss ⊆ template_labels ss /\
   np_PodSelector (o_Body (buildNetworkPolicy claw port)) ⊆ template_labels ss /\
   pdb_Selector (o_Body (buildPDB claw)) ⊆ template_labels ss) /\
  Forall (fun rule => Forall (fun p => BackendService p = Name (o_Meta svc) /\
            BackendPort p ∈ map svp_Port (svc_Ports (o_Body svc))) (snd rule))
    (ib_Rules (o_Body (buildIngress claw i port))) /\
  Forall (fun rule => map npp_Port (PolicyPorts rule) = map TargetPort (svc_Ports (o_Body svc)))
    (np_Ingress (o_Body (buildNetworkPolicy claw port))).
Proof.
  intros Ha Hb Hs port. rewrite (service_ports claw a svc Ha Hs).
  assert (clawLabels claw ⊆ template_labels ss /\ ss_Selector ss = clawLabels claw) as [Hl Hsel].
  { unfold buildStatefulSet in Hb. destruct (build_template w claw a) as [p|] eqn:Hp; [|done]. cbn in Hb.
    destruct (BuildVolumeClaimTemplates claw); [|done]. cbn in Hb. simplify_eq.
    split; [by eapply build_labels|done]. }
  assert (svc_Selector (o_Body svc) = service_selector claw /\ Name (o_Meta svc) = Name (Meta claw)) as [Hsvc Hname].
  { unfold buildService in Hs. destruct (adapter_PodTemplate a claw); [|done]. cbn in Hs. by simplify_eq. }
  destruct (selector_labels claw) as [Hss Hi]. rewrite Hsel, Hsvc, Hname. split; [|split].
  - split; [|split; [|split]]; try done; by etrans.
  - cbn. repeat constructor; cbn; by left.
  - cbn [buildNetworkPolicy o_Body np_Ingress]. unfold ingress_rules.
    constructor; [done|]. apply Forall_app. split; [by apply Forall_map, Forall_true|].
    by destruct (ingressEnabled claw); repeat constructor.
Qed.

(** Without user-defined address blocks, pods reach only name servers and
    TLS ports, whatever else the Claw asks for. *)
Lemma egress_closed claw port :
  from_option AllowedEgressCIDRs [] (policy_of claw) = [] ->
  Forall (fun rule => Peers rule = [] /\ Forall (fun p => npp_Port p ∈ [53; 443]) (PolicyPorts rule))
    (np_Egress (o_Body (buildNetworkPolicy claw port))).
Proof.
  intros Hc. cbn [buildNetworkPolicy o_Body np_Egress]. unfold egress_rules. rewrite Hc. cbn.
  repeat constructor; cbn; set_solver.
Qed.
End Fit.

(** ** Evaluation *)

Module Sample.
#[local] Existing Instance suffix_quantities.

Definition agent : Claw := StatefulSet.Sample.agent RuntimeHermesRS None.

Lemma objects_fit_witness :
  match buildStatefulSet StatefulSet.Sample.build_env agent HermesRSAdapter, buildService agent HermesRSAdapter with
  | Ok ss, Some svc => svc_Selector (o_Body svc) ⊆ template_labels ss
  | _, _ => False
  end.
Proof.
  assert (Hok : is_ok (buildStatefulSet StatefulSet.Sample.build_env agent HermesRSAdapter) = true)
    by (vm_compute; reflexivity).
  assert (Hsvc : bool_decide (is_Some (buildService agent HermesRSAdapter)) = true) by (vm_compute; reflexivity).
  destruct (buildStatefulSet _ _ _) as [ss|e] eqn:Hb; [|discriminate Hok].
  destruct (buildService _ _) as [svc|] eqn:Hs; [|discriminate Hsvc].
  apply (objects_fit StatefulSet.Sample.build_env agent HermesRSAdapter ss svc
    (mkIngress true "agent.example" "" None None None) eq_refl Hb Hs).
Defined.

(** User annotations are merged on top: they replace the authentication. *)
Example annotations_replace_auth :
  Annotations (o_Meta (buildIngress agent
    (mkIngress true "agent.example" "" None (Some (mkBasicAuth true "users"))
       (Some {["nginx.ingress.kubernetes.io/auth-type"%string := "none"%string]})) 8080))
  ≫= (.!! "nginx.ingress.kubernetes.io/auth-type"%string) = Some "none"%string.
Proof. vm_compute. reflexivity. Qed.

(** [int32(minAvailable)] wraps around: a budget of 2^32 is a budget of 0. *)
Example budget_wraps :
  pb_MinAvailable (o_Body (buildPDB (mkClaw (sample_meta [])
    (mkClawSpec RuntimeOpenClaw None None [] None None None None
       (Some (mkAvailability (Some (mkPDB true (2 ^ 32))))) None None None None None)
    (mkClawStatus "" 0 [] None)))) = 0.
Proof. vm_compute. reflexivity. Qed.
End Sample.
