(* ===== verification/GoFloatText.v ===== *)
(** * Decimal text of a [float64] (packages strconv and encoding/json)

    Reading a JSON number rounds its decimal value to the nearest [float64];
    writing one gives the shortest digits that read back as the same number,
    in exponent form below 1e-6 and from 1e21 on. *)

From Stdlib Require Import SpecFloat.
From S2P Require Import Prelude.
From S2P Require Import GoStrings.
From S2P Require Import GoFloat.
From S2P Require Import Json.

(** ** Reading *)

(** [c * 10^e], rounded to nearest even. *)
Definition round_decimal (neg : bool) (c e : Z) : float64 :=
  match c with
  | Zpos p =>
      if 0 <=? e then
        match c * 10 ^ e with
        | Zpos q => binary_normalize 53 1024 (if neg then Zneg q else Zpos q) 0 neg
        | _ => S754_zero neg
        end
      else
        match 10 ^ (- e) with
        | Zpos q => SFdiv 53 1024 (S754_finite neg p 0) (S754_finite false q 0)
        | _ => S754_nan
        end
  | _ => S754_zero neg
  end.

Definition digits_number (l : bytes) : Z := default 0 (digits_value 0 l).

(** A literal of the JSON grammar; [None] is out of range.  Exponents so large
    or so small that the value overflows or vanishes are cut off first. *)
Definition parse_float (lit : bytes) : option float64 :=
  let '(sign, l1) := opt_byte (fun d => code d =? 45) lit in
  let '(i, l2) := take_digits l1 in
  let '(f, l3) :=
    match l2 with
    | c :: t => if code c =? 46 then take_digits t else ([], l2)
    | [] => ([], [])
    end in
  let exponent :=
    match l3 with
    | c :: t =>
        let '(s, ds) := opt_byte (fun d => (code d =? 43) || (code d =? 45)) t in
        if bool_decide (s = ["-"%char]) then - digits_number ds else digits_number ds
    | [] => 0
    end in
  let neg := negb (bool_decide (sign = [])) in
  let c := digits_number (i ++ f) in
  let e := exponent - Z.of_nat (length f) in
  let size := Z.of_nat (length (format_nat c)) + e in
  let x :=
    if c =? 0 then S754_zero neg
    else if 310 <? size then S754_infinity neg
    else if size <? -330 then S754_zero neg
    else round_decimal neg c e in
  match x with S754_infinity _ | S754_nan => None | _ => Some x end.

(** ** Writing *)

(** Digits without trailing zeros and the position of the decimal point: the
    value is 0.digits times ten to that power. *)
Fixpoint strip_zeros (l : bytes) : bytes :=
  match l with
  | [] => []
  | c :: l' => match strip_zeros l' with [] => if code c =? 48 then [] else [c] | r => c :: r end
  end.

(** The power [k] with [10^(k-1) <= num/den < 10^k]. *)
Fixpoint small_power (fuel : nat) (num den k : Z) : Z :=
  match fuel with
  | O => k
  | S fuel' => if den <=? 10 * num then k else small_power fuel' (10 * num) den (k - 1)
  end.

Definition decimal_power (num den : Z) : Z :=
  if den <=? num then Z.of_nat (length (format_nat (num / den))) else small_power 400 num den 0.

(** The [n]-digit decimal nearest to [num/den] among the two around it that
    read back as [x]. *)
Definition decimal_near (x : float64) (num den k : Z) (n : Z) : option (Z * Z) :=
  let s := n - k in
  let q := if 0 <=? s then num * 10 ^ s / den else num / (den * 10 ^ (- s)) in
  let reads c := bool_decide (SFeqb (round_decimal false c (- s)) x = true) in
  let below := if 0 <=? s then num * 10 ^ s - q * den else num - q * den * 10 ^ (- s) in
  let unit_ := if 0 <=? s then den else den * 10 ^ (- s) in
  match reads q, reads (q + 1) with
  | true, true => Some (if 2 * below <=? unit_ then q else q + 1, - s)
  | true, false => Some (q, - s)
  | false, true => Some (q + 1, - s)
  | false, false => None
  end.

Fixpoint shortest_from (fuel : nat) (x : float64) (num den k n : Z) : Z * Z :=
  match fuel with
  | O => (0, 0)
  | S fuel' =>
      match decimal_near x num den k n with
      | Some c => c
      | None => shortest_from fuel' x num den k (n + 1)
      end
  end.

(** Seventeen digits always read back. *)
Definition shortest (m : positive) (e : Z) : bytes * Z :=
  let num := Zpos m * 2 ^ Z.max e 0 in
  let den := 2 ^ Z.max (- e) 0 in
  let '(c, p) := shortest_from 17 (S754_finite false m e) num den (decimal_power num den) 1 in
  let ds := format_nat c in
  (strip_zeros ds, Z.of_nat (length ds) + p).

Definition zeros (n : Z) : bytes := repeat "0"%char (Z.to_nat n).

Definition fixed_text (ds : bytes) (dp : Z) : bytes :=
  if dp <=? 0 then bytes_of "0." ++ zeros (- dp) ++ ds
  else if Z.of_nat (length ds) <=? dp then ds ++ zeros (dp - Z.of_nat (length ds))
  else take (Z.to_nat dp) ds ++ "."%char :: drop (Z.to_nat dp) ds.

Definition exponent_text (ds : bytes) (dp : Z) : bytes :=
  let x := dp - 1 in
  let mantissa := match ds with d :: ((_ :: _) as r) => d :: "."%char :: r | r => r end in
  mantissa ++ "e"%char ::
  (if x <? 0 then "-"%char :: format_nat (- x)
   else "+"%char :: (if x <? 10 then "0"%char :: format_nat x else format_nat x)).

Definition format_float (x : float64) : bytes :=
  match x with
  | S754_zero false => bytes_of "0"
  | S754_zero true => bytes_of "-0"
  | S754_finite neg m e =>
      let '(ds, dp) := shortest m e in
      (if neg then ["-"%char] else []) ++
      (if (dp <=? -6) || (22 <=? dp) then exponent_text ds dp else fixed_text ds dp)
  | _ => []
  end.

(** Re-writing a literal through a [float64]. *)
Definition through_float (lit : string) : option string :=
  (fun x => String.string_of_list_ascii (format_float x)) <$> parse_float (bytes_of lit).

Example through_floats :
  map through_float ["0"; "-0"; "18900"; "0.1"; "2.50"; "1e2"; "1E-7"; "123456789012345678"; "1e21"; "1e400";
                     "5e-324"; "1.7976931348623157e308"; "0.000001"; "-12.75"; "9007199254740993"; "1e-400"]%string =
  [Some "0"; Some "-0"; Some "18900"; Some "0.1"; Some "2.5"; Some "100"; Some "1e-7"; Some "123456789012345680";
   Some "1e+21"; None; Some "5e-324"; Some "1.7976931348623157e+308"; Some "0.000001"; Some "-12.75";
   Some "9007199254740992"; Some "0"]%string.
Proof. vm_compute. reflexivity. Qed.

(** ** What is written is a number *)

Lemma take_digits_app ds rest :
  forallb is_digit ds = true -> match rest with [] => True | c :: _ => is_digit c = false end ->
  take_digits (ds ++ rest) = (ds, rest).
Proof.
  intros Hd Hr. induction ds as [|c ds IH]; cbn [app].
  - destruct rest as [|c rest]; [done|]. cbn [take_digits]. by rewrite Hr.
  - cbn in Hd. apply andb_true_iff in Hd as [Hc Hd]. cbn [take_digits]. by rewrite Hc, IH.
Qed.

(** The parts of a literal; an integer part without a leading zero. *)
Definition int_part (i : bytes) : Prop :=
  exists c t, i = c :: t /\ is_digit c = true /\ forallb is_digit t = true /\ (code c = 48 -> t = []).

Definition frac_part (f : bytes) : bytes := match f with [] => [] | _ => "."%char :: f end.

Lemma valid_num_parts (neg : bool) i f e :
  int_part i -> forallb is_digit f = true ->
  (e = [] \/ exists s ds, e = "e"%char :: s :: ds /\ (s = "+"%char \/ s = "-"%char) /\ ds <> [] /\
                          forallb is_digit ds = true) ->
  valid_num ((if neg then ["-"%char] else []) ++ i ++ frac_part f ++ e) = true.
Proof.
  intros (c & t & -> & Hc & Ht & Hz) Hf He. apply bool_decide_eq_true. unfold scan_num.
  assert (Hsign : opt_byte (fun d => code d =? 45) ((if neg then ["-"%char] else []) ++ (c :: t) ++ frac_part f ++ e) =
    ((if neg then ["-"%char] else []), (c :: t) ++ frac_part f ++ e)).
  { destruct neg; [done|]. cbn. unfold is_digit in Hc. apply between_spec in Hc.
    by replace (code c =? 45) with false by lia. }
  rewrite Hsign. clear Hsign.
  assert (He0 : match e with [] => True | x :: _ => is_digit x = false end) by (destruct He as [->|(s & ds & -> & _)]; done).
  assert (Hint : scan_int ((c :: t) ++ frac_part f ++ e) = Some (c :: t, frac_part f ++ e)).
  { cbn [scan_int app]. destruct (Z.eqb_spec (code c) 48) as [E|E].
    - by rewrite (Hz E).
    - rewrite Hc, take_digits_app; [done|done|]. by destruct f. }
  rewrite Hint.
  assert (Hfr : scan_frac (frac_part f ++ e) = Some (frac_part f, e)).
  { destruct f as [|d f]; cbn [frac_part app].
    - destruct He as [->|(s & ds & -> & _)]; done.
    - cbn [scan_frac]. change (code "." =? 46) with true. cbn iota.
      change (d :: f ++ e) with ((d :: f) ++ e). by rewrite take_digits_app. }
  rewrite Hfr.
  assert (Hex : scan_exp e = Some (e, [])).
  { destruct He as [->|(s & ds & -> & Hs & Hne & Hd)]; [done|]. cbn [scan_exp].
    change (code "e" =? 101) with true. cbn [orb].
    assert (opt_byte (fun d => (code d =? 43) || (code d =? 45)) (s :: ds) = ([s], ds)) as -> by (by destruct Hs as [->| ->]).
    rewrite take_digits_all by done. by destruct ds. }
  by rewrite Hex.
Qed.

Lemma strip_zeros_prefix l : exists z, l = strip_zeros l ++ z.
Proof.
  induction l as [|c l [z Hz]]; [by exists []|]. cbn [strip_zeros].
  destruct (strip_zeros l) as [|d r] eqn:E.
  - destruct (code c =? 48); [by exists (c :: l)|]. by exists l.
  - exists z. cbn [app]. by f_equal.
Qed.

(** Digits as [shortest] returns them: they begin with no zero; there are none
    only for the point after one place. *)
Definition shortest_ok (ds : bytes) (dp : Z) : Prop :=
  forallb is_digit ds = true /\
  match ds with [] => dp = 1 | c :: _ => code c <> 48 end.

Lemma round_decimal_zero x e : match x with S754_finite _ _ _ => SFeqb (round_decimal false 0 e) x = false | _ => True end.
Proof. by destruct x as [?|?| |[] ? ?]. Qed.

Lemma decimal_near_pos m e num den k n c p :
  0 <= num -> 0 < den ->
  decimal_near (S754_finite false m e) num den k n = Some (c, p) -> 0 < c.
Proof.
  intros Hnum Hden. unfold decimal_near. set (q := if 0 <=? n - k then _ else _).
  assert (Hq : 0 <= q).
  { assert (Hp : forall i, 0 <= 10 ^ i) by (intros i; apply Z.pow_nonneg; lia).
    unfold q. destruct (0 <=? n - k); apply Z_div_nonneg_nonneg; try done; try lia;
      apply Z.mul_nonneg_nonneg; try done; lia. }
  assert (H0 : bool_decide (SFeqb (round_decimal false q (- (n - k))) (S754_finite false m e) = true) = true -> 0 < q).
  { intros H%bool_decide_eq_true. destruct (decide (q = 0)) as [E|]; [|lia]. rewrite E in H.
    pose proof (round_decimal_zero (S754_finite false m e) (- (n - k))) as Hz. cbn iota in Hz.
    rewrite Hz in H. discriminate H. }
  destruct (bool_decide (SFeqb (round_decimal false q _) _ = true)), (bool_decide (SFeqb (round_decimal false (q + 1) _) _ = true));
    try done; intros [= <- _]; try (case_if; lia); try lia.
Qed.

Lemma format_nat_pos c : 0 < c -> exists d t, format_nat c = digit d :: t /\ 1 <= d <= 9.
Proof. intros H. apply dec_digits_head; [done|]. apply format_nat_fuel. lia. Qed.

Lemma shortest_shape m e : let '(ds, dp) := shortest m e in shortest_ok ds dp.
Proof.
  unfold shortest. set (num := Zpos m * _). set (den := 2 ^ _).
  assert (Hnum : 0 <= num) by (apply Z.mul_nonneg_nonneg; [lia|apply Z.pow_nonneg; lia]).
  assert (Hden : 0 < den) by (apply Z.pow_pos_nonneg; lia).
  assert (Hs : forall fuel k n, let '(c, p) := shortest_from fuel (S754_finite false m e) num den k n in
    c = 0 /\ p = 0 \/ 0 < c).
  { induction fuel as [|fuel IH]; intros k n; cbn [shortest_from]; [by left|].
    destruct (decimal_near _ num den k n) as [[c p]|] eqn:E; [|apply IH]. right. by eapply decimal_near_pos. }
  specialize (Hs 17%nat (decimal_power num den) 1). destruct (shortest_from _ _ _ _ _ _) as [c p].
  destruct Hs as [[-> ->]|Hc]; [by vm_compute|]. unfold shortest_ok.
  destruct (format_nat_pos c Hc) as (d & t & Hd & Hr). destruct (strip_zeros_prefix (format_nat c)) as [z Hz].
  assert (Hne : (code (digit d) =? 48) = false) by (unfold digit; rewrite code_chr; lia).
  split.
  - pose proof (format_nat_digits c ltac:(lia)) as Hf. rewrite Hz, forallb_app in Hf. by apply andb_true_iff in Hf as [? _].
  - rewrite Hd. cbn [strip_zeros]. destruct (strip_zeros t); [rewrite Hne|]; lia.
Qed.

Lemma zeros_digits n : forallb is_digit (zeros n) = true.
Proof. unfold zeros. induction (Z.to_nat n) as [|k IH]; [done|]. by cbn. Qed.

Lemma shortest_int ds : ds <> [] -> (exists dp, shortest_ok ds dp) -> int_part ds.
Proof.
  intros Hne (dp & Hd & Hh). destruct ds as [|c t]; [done|]. cbn in Hd. apply andb_true_iff in Hd as [Hc Ht].
  exists c, t. by split_and!.
Qed.

(** Both layouts of the digits are numbers. *)
Lemma fixed_text_valid (neg : bool) ds dp :
  shortest_ok ds dp -> valid_num ((if neg then ["-"%char] else []) ++ fixed_text ds dp) = true.
Proof.
  intros Hok. pose proof Hok as [Hd Hh]. unfold fixed_text. destruct (Z.leb_spec dp 0) as [H0|H0].
  - destruct ds as [|c t]; [lia|].
    change (bytes_of "0." ++ ?x) with (["0"%char] ++ "."%char :: x).
    assert (Hf : zeros (- dp) ++ c :: t <> []) by (by destruct (zeros (- dp))).
    replace ("."%char :: zeros (- dp) ++ c :: t) with (frac_part (zeros (- dp) ++ c :: t) ++ []).
    + apply valid_num_parts; [by exists "0"%char, []|by rewrite forallb_app, zeros_digits|by left].
    + rewrite app_nil_r. by destruct (zeros (- dp) ++ c :: t).
  - destruct (Z.leb_spec (Z.of_nat (length ds)) dp) as [H1|H1].
    + rewrite <- (app_nil_r (ds ++ zeros _)). change [] with (frac_part [] ++ []).
      apply valid_num_parts; [|done|by left]. destruct ds as [|c t].
      * subst dp. by exists "0"%char, [].
      * cbn in Hd. apply andb_true_iff in Hd as [Hc Ht]. exists c, (t ++ zeros (dp - Z.of_nat (length (c :: t)))).
        split_and!; [done|done|by rewrite forallb_app, Ht, zeros_digits|done].
    + rewrite <- (take_drop (Z.to_nat dp) ds), forallb_app in Hd. apply andb_true_iff in Hd as [Ha Hb].
      assert (Hl : (0 < Z.to_nat dp < length ds)%nat) by lia.
      replace ("."%char :: drop (Z.to_nat dp) ds) with (frac_part (drop (Z.to_nat dp) ds) ++ []).
      * apply valid_num_parts; [|done|by left]. destruct ds as [|c t]; [cbn in Hl; lia|].
        destruct (Z.to_nat dp) as [|k]; [lia|]. cbn [firstn forallb] in *. apply andb_true_iff in Ha as [Hc Ht].
        exists c, (take k t). by split_and!.
      * rewrite app_nil_r. destruct (drop (Z.to_nat dp) ds) eqn:E; [|done].
        apply (f_equal length) in E. rewrite length_drop in E. cbn in E. lia.
Qed.

Lemma exponent_text_valid (neg : bool) ds dp :
  shortest_ok ds dp -> dp <> 1 -> valid_num ((if neg then ["-"%char] else []) ++ exponent_text ds dp) = true.
Proof.
  intros [Hd Hh] Hdp. unfold exponent_text. destruct ds as [|c t]; [done|].
  set (e := "e"%char :: _).
  assert (He : exists s l, e = "e"%char :: s :: l /\ (s = "+"%char \/ s = "-"%char) /\ l <> [] /\
                           forallb is_digit l = true).
  { unfold e. destruct (Z.ltb_spec (dp - 1) 0).
    - eexists _, _. split; [reflexivity|]. split_and!; [by right|apply format_nat_nonempty|apply format_nat_digits; lia].
    - eexists _, _. split; [reflexivity|]. split_and!; [by left|by case_if; [|apply format_nat_nonempty]|].
      pose proof (format_nat_digits (dp - 1) ltac:(lia)). by case_if. }
  clearbody e. cbn in Hd. apply andb_true_iff in Hd as [Hc Ht].
  replace (match t with [] => c :: t | _ :: _ => c :: "."%char :: t end) with ([c] ++ frac_part t) by (by destruct t).
  rewrite <- app_assoc. apply valid_num_parts; [by exists c, []|done|by right].
Qed.

Definition finite_float (x : float64) : bool :=
  match x with S754_zero _ | S754_finite _ _ _ => true | _ => false end.

Lemma format_float_valid x : finite_float x = true -> valid_num (format_float x) = true.
Proof.
  destruct x as [[]|?| |neg m e]; intros H; try done. cbn [format_float].
  pose proof (shortest_shape m e) as Hs. destruct (shortest m e) as [ds dp].
  destruct (Z.leb_spec dp (-6)), (Z.leb_spec 22 dp); cbn [orb];
    (apply exponent_text_valid; [done|lia]) || by apply fixed_text_valid.
Qed.

Lemma parse_float_finite lit x : parse_float lit = Some x -> finite_float x = true.
Proof.
  unfold parse_float. destruct (opt_byte _ lit) as [sign l1]. destruct (take_digits l1) as [i l2].
  destruct (match l2 with [] => _ | _ => _ end) as [f l3]. cbv zeta.
  match goal with |- match ?y with _ => _ end = _ -> _ => destruct y end; by intros [= <-].
Qed.
