(* ===== verification/ConfigMerge.v ===== *)
(** * The configuration of a Claw (internal/controller/claw_configmap.go and
    DefaultConfigJSON of internal/runtime/adapter.go)

    The user's JSON is merged into the adapter's defaults.  The merge works on
    decoded values ([map[string]interface{}]): objects are lists of distinct
    keys, numbers are [float64]. *)

From stdpp Require Import sorting.
From S2P Require Import Prelude.
From S2P Require Import GoStrings.
From S2P Require Import GoFloat.
From S2P Require Import GoFloatText.
From S2P Require Import Json.
From S2P Require Import Message.
From S2P Require Import OpsIntent.
From S2P Require Import Api.
From S2P Require Import PodBuilder.
From S2P Require Import Channel.

(** ** Decoded values *)

#[warnings="-register-all"]
Inductive any :=
| ANull
| ABool (b : bool)
| ANum (f : float64)
| AStr (s : string)
| AArr (l : list any)
| AObj (m : list (string * any)).

(** A map as a list of entries with distinct keys. *)
Section Entries.
Context {V : Type}.

Fixpoint get (k : string) (m : list (string * V)) : option V :=
  match m with
  | [] => None
  | (k', v) :: m' => if decide (k = k') then Some v else get k m'
  end.

Fixpoint put (k : string) (v : V) (m : list (string * V)) : list (string * V) :=
  match m with
  | [] => [(k, v)]
  | (k', v') :: m' => if decide (k = k') then (k, v) :: m' else (k', v') :: put k v m'
  end.

Lemma get_put k k' v m : get k' (put k v m) = if decide (k' = k) then Some v else get k' m.
Proof.
  induction m as [|[k0 v0] m IH]; cbn; [done|].
  destruct (decide (k = k0)) as [->|Hne]; cbn; repeat case_decide; simplify_eq; try done.
Qed.

Lemma get_None k m : get k m = None <-> k ∉ m.*1.
Proof.
  induction m as [|[k0 v0] m IH]; cbn; [split; [intros _ ?%not_elem_of_nil|]; done|].
  rewrite not_elem_of_cons. case_decide; naive_solver.
Qed.

Lemma get_in k v m : NoDup m.*1 -> get k m = Some v <-> (k, v) ∈ m.
Proof.
  induction m as [|[k0 v0] m IH]; cbn; intros Hn; [split; [done|intros ?%not_elem_of_nil; done]|].
  apply NoDup_cons in Hn as [Hk Hn]. rewrite elem_of_cons. case_decide as E.
  - subst k0. split; [intros [= ->]; auto|]. intros [[= ->]|Hin]; [done|].
    destruct Hk. by apply (list_elem_of_fmap_2 fst) in Hin.
  - rewrite IH by done. naive_solver.
Qed.
End Entries.

(** ** Decoding and encoding *)

Fixpoint dec_any (v : json) : option any :=
  match v with
  | JNull => Some ANull
  | JBool b => Some (ABool b)
  | JNum l => ANum <$> parse_float l
  | JStr r => (fun s => AStr (String.string_of_list_ascii s)) <$> unquote r
  | JArr l =>
      AArr <$> (fix go l := match l with
                | [] => Some []
                | v :: l' => a ← dec_any v; r ← go l'; Some (a :: r)
                end) l
  | JObj l =>
      AObj <$> (fix go l m := match l with
                | [] => Some m
                | (k, v) :: l' =>
                    k ← unquote k; a ← dec_any v; go l' (put (String.string_of_list_ascii k) a m)
                end) l []
  end.

(** [json.Marshal] writes the keys in increasing order. *)
Definition entry_le {V} (a b : string * V) : Prop := string_le (a.1) (b.1).
#[export] Instance entry_le_dec {V} (a b : string * V) : Decision (entry_le a b).
Proof. unfold entry_le. apply _. Defined.

Fixpoint enc_any (a : any) : json :=
  match a with
  | ANull => JNull
  | ABool b => JBool b
  | ANum f => JNum (format_float f)
  | AStr s => str_json s
  | AArr l => JArr (map enc_any l)
  | AObj m =>
      JObj (map (fun kv => (quote (bytes_of (kv.1)), kv.2))
              (merge_sort entry_le (map (fun kv => (kv.1, enc_any (kv.2))) m)))
  end.

(** [json.Unmarshal] into a [map[string]interface{}]: null leaves it nil. *)
Definition unmarshal_map (text : bytes) : option (list (string * any)) :=
  v ← parse text;
  match v with
  | JNull => Some []
  | JObj _ => match dec_any v with Some (AObj m) => Some m | _ => None end
  | _ => None
  end.

(** ** deepMerge

    [merge_value src dst] is what a key of the result holds when [src] is the
    source's value and [dst] what the destination holds. *)

Fixpoint merge_value (src : any) (dst : option any) : any :=
  match dst, src with
  | Some (AObj d), AObj s =>
      AObj ((fix go s d := match s with
             | [] => d
             | (k, v) :: s' => go s' (put k (merge_value v (get k d)) d)
             end) s d)
  | _, _ => src
  end.

Fixpoint deepMerge (dst src : list (string * any)) : list (string * any) :=
  match src with
  | [] => dst
  | (k, v) :: src' => deepMerge (put k (merge_value v (get k dst)) dst) src'
  end.

Inductive config_error := ErrDefaultConfig | ErrUserConfig.

Definition mergeConfig (defaultJSON : string) (userJSON : bytes) : result config_error string :=
  if decide (userJSON = []) then Ok defaultJSON
  else
    match unmarshal_map (bytes_of defaultJSON) with
    | None => Err ErrDefaultConfig
    | Some dst =>
        match unmarshal_map userJSON with
        | None => Err ErrUserConfig
        | Some src => Ok (String.string_of_list_ascii (print (enc_any (AObj (deepMerge dst src)))))
        end
    end.

(** ** The defaults *)

Definition enc_config (c : RuntimeConfig) : json :=
  JObj [field "gatewayPort" (JNum (format_int (GatewayPort c)));
        field "workspacePath" (str_json (rc_WorkspacePath c));
        field "environment" (enc_params (Some (Environment c)))].

Section Default.
Context `{QuantityLib}.

(** The adapters' [DefaultConfig] is never nil. *)
Definition DefaultConfigJSON (adapter : RuntimeAdapter) : string :=
  String.string_of_list_ascii (print (enc_config (DefaultConfig adapter))).

Definition defaultConfigJSON (claw : Claw) (adapter : RuntimeAdapter) : string :=
  if decide (Runtime (Spec claw) = RuntimeHermesClaw) then "{}"%string else DefaultConfigJSON adapter.

Definition config_text_of (claw : Claw) (adapter : RuntimeAdapter) : result config_error string :=
  mergeConfig (defaultConfigJSON claw adapter) (default [] (Config (Spec claw))).
End Default.

(** ** What the merge keeps *)

Lemma merge_value_obj s d : merge_value (AObj s) (Some (AObj d)) = AObj (deepMerge d s).
Proof.
  cbn. f_equal. revert d. induction s as [|[k v] s IH]; intros d; [done|]. cbn [deepMerge]. by rewrite IH.
Qed.

(** A key of the result: the destination's where the source has none, the
    merge of both otherwise. *)
Lemma get_deepMerge s d k :
  NoDup s.*1 ->
  get k (deepMerge d s) = match get k s with Some v => Some (merge_value v (get k d)) | None => get k d end.
Proof.
  revert d. induction s as [|[k0 v0] s IH]; intros d Hn; [done|]. cbn in Hn.
  apply NoDup_cons in Hn as [Hk Hn]. cbn [deepMerge get]. rewrite IH, !get_put by done.
  destruct (decide (k = k0)) as [->|Hne].
  - apply get_None in Hk. by rewrite Hk.
  - done.
Qed.

(** Values with distinct keys at every level: what decoding gives. *)
Inductive distinct : any -> Prop :=
| DistinctNull : distinct ANull
| DistinctBool b : distinct (ABool b)
| DistinctNum f : distinct (ANum f)
| DistinctStr s : distinct (AStr s)
| DistinctArr l : Forall distinct l -> distinct (AArr l)
| DistinctObj m : NoDup m.*1 -> Forall (fun kv => distinct (kv.2)) m -> distinct (AObj m).

(** The value at a path of keys. *)
Fixpoint at_path (p : list string) (a : any) : option any :=
  match p with
  | [] => Some a
  | k :: p' => match a with AObj m => get k m ≫= at_path p' | _ => None end
  end.

Definition is_obj (a : any) : bool := match a with AObj _ => true | _ => false end.

(** The source says nothing about a path: it is an object down to a key that
    it lacks. *)
Fixpoint silent (p : list string) (a : any) : bool :=
  match p, a with
  | k :: p', AObj m => match get k m with None => true | Some v => silent p' v end
  | _, _ => false
  end.

Lemma silent_None p a : silent p a = true -> at_path p a = None.
Proof.
  revert a. induction p as [|k p IH]; intros [| | | | |m]; try done. cbn.
  destruct (get k m) as [v|]; [apply IH|done].
Qed.

Lemma merge_value_path p v d x :
  distinct v -> at_path p v = Some x -> is_obj x = false -> at_path p (merge_value v d) = Some x.
Proof.
  revert v d. induction p as [|k p IH]; intros v d Hv Hp Hx.
  { cbn in *. simplify_eq. destruct x, d as [[]|]; done. }
  cbn in Hp. destruct v as [| | | | |s]; try done.
  destruct d as [[| | | | |d]|]; try done. rewrite merge_value_obj. cbn [at_path].
  inversion Hv as [| | | | |? Hn Hall]; subst. rewrite get_deepMerge by done.
  destruct (get k s) as [v|] eqn:Hk; [|done]. cbn in Hp |- *. apply IH; [|done|done].
  apply get_in in Hk; [|done]. rewrite Forall_forall in Hall. exact (Hall _ Hk).
Qed.

Lemma merge_value_silent p v d :
  distinct v -> silent p v = true -> at_path p (merge_value v (Some d)) = at_path p d.
Proof.
  revert v d. induction p as [|k p IH]; intros v d Hv Hp; [done|].
  destruct v as [| | | | |s]; try done.
  destruct d as [| | | | |d]; try by rewrite (silent_None (k :: p)).
  rewrite merge_value_obj. cbn [at_path]. inversion Hv as [| | | | |? Hn Hall]; subst.
  rewrite get_deepMerge by done. cbn in Hp. destruct (get k s) as [v|] eqn:Hk; [|done].
  assert (distinct v) as Hd.
  { apply get_in in Hk; [|done]. rewrite Forall_forall in Hall. exact (Hall _ Hk). }
  cbn [base.mbind option_bind]. destruct (get k d) as [dv|]; cbn; [by apply IH|].
  destruct v; by apply silent_None.
Qed.

(** Decoding gives distinct keys. *)
Lemma put_fst {V} k (v : V) m : NoDup m.*1 -> NoDup (put k v m).*1.
Proof.
  induction m as [|[k' v'] m IH]; cbn; intros Hn; [repeat constructor; set_solver|].
  apply NoDup_cons in Hn as [Hk Hn]. case_decide as E; cbn; [subst; by constructor|].
  constructor; [|by apply IH]. apply get_None. rewrite get_put. case_decide; [congruence|]. by apply get_None.
Qed.

Lemma put_all {V} (P : V -> Prop) k v m :
  P v -> Forall (fun kv => P (kv.2)) m -> Forall (fun kv => P (kv.2)) (put k v m).
Proof.
  intros Hv. induction 1 as [|[k' v'] m Hv' Hm IH]; cbn; [by repeat constructor|].
  case_decide; by constructor.
Qed.

(** What decoding gives, by induction: distinct keys and finite numbers. *)
Lemma dec_any_ind (P : any -> Prop) v a :
  P ANull -> (forall b, P (ABool b)) -> (forall f, finite_float f = true -> P (ANum f)) ->
  (forall s, P (AStr s)) -> (forall l, Forall P l -> P (AArr l)) ->
  (forall m, NoDup m.*1 -> Forall (fun kv => P (kv.2)) m -> P (AObj m)) ->
  dec_any v = Some a -> P a.
Proof.
  intros HNull HBool HNum HStr HArr HObj. revert a.
  induction v as [|b|l|r|l IH|l IH] using json_ind'; intros a.
  - by intros [= <-].
  - by intros [= <-].
  - cbn. destruct (parse_float l) eqn:E; [|done]. intros [= <-]. by eapply HNum, parse_float_finite.
  - cbn. destruct (unquote r); [|done]. by intros [= <-].
  - cbn. intros (r & Hr & ->)%fmap_Some. apply HArr. revert r Hr.
    induction IH as [|v l Hv _ IHl]; intros r; [by intros [= <-]|].
    destruct (dec_any v) as [a|] eqn:Ha; [|done]. cbn.
    destruct (_ l) as [r'|] eqn:Hr'; [|done]. cbn. intros [= <-]. constructor; [by apply Hv|]. by apply IHl.
  - cbn. intros (r & Hr & ->)%fmap_Some.
    assert (forall m, NoDup m.*1 -> Forall (fun kv => P (kv.2)) m ->
      (fix go l m := match l with
                | [] => Some m
                | (k, v) :: l' =>
                    k ← unquote k; a ← dec_any v; go l' (put (String.string_of_list_ascii k) a m)
                end) l m = Some r -> P (AObj r)) as Hgo.
    { clear Hr. induction IH as [|[k v] l Hv _ IHl]; intros m Hn Hm; [intros [= <-]; by apply HObj|].
      destruct (unquote k) as [k'|]; [|done]. cbn. destruct (dec_any v) as [a|] eqn:Ha; [|done]. cbn.
      apply IHl; [by apply put_fst|]. apply (put_all P); [by apply Hv|done]. }
    exact (Hgo [] (NoDup_nil_2) (@List.Forall_nil _ _) Hr).
Qed.

Lemma dec_any_distinct v a : dec_any v = Some a -> distinct a.
Proof. apply dec_any_ind; by constructor. Qed.

(** A decoded value is encoded as a document. *)
Lemma dec_enc_any_wf v a : dec_any v = Some a -> wf_json (enc_any a) = true.
Proof.
  apply (dec_any_ind (fun a => wf_json (enc_any a) = true)); try done.
  - intros f. apply format_float_valid.
  - intros s. apply str_json_wf.
  - intros l Hl. cbn [enc_any wf_json]. rewrite Forall_forall in Hl.
    apply forallb_forall. intros x (y & <- & Hy)%in_map_iff. by apply Hl, list_elem_of_In.
  - intros m _ Hm. cbn [enc_any wf_json]. rewrite Forall_forall in Hm.
    apply forallb_forall. intros x (kv & <- & Hkv)%in_map_iff. rewrite quote_valid. cbn [andb].
    apply list_elem_of_In in Hkv. rewrite merge_sort_Permutation in Hkv.
    apply list_elem_of_In, in_map_iff in Hkv as (kv' & <- & Hin). by apply (Hm kv'), list_elem_of_In.
Qed.

Lemma unmarshal_map_distinct text m : unmarshal_map text = Some m -> distinct (AObj m).
Proof.
  unfold unmarshal_map. destruct (parse text) as [[| | | | |l]|]; cbn [base.mbind option_bind]; try done.
  - intros [= <-]. constructor; constructor.
  - destruct (dec_any (JObj l)) as [[| | | | |m']|] eqn:Hd; try done. intros [= <-].
    by apply dec_any_distinct in Hd.
Qed.

(** Property: merging the user's configuration [src] into the defaults [dst]:
    every value of the user's that is not an object is in the result at its
    path; at every path the user says nothing about, the result is the
    defaults'; and the order in which the keys are visited does not matter. *)
Theorem merge_paths text dst src :
  unmarshal_map text = Some src ->
  (forall p v, at_path p (AObj src) = Some v -> is_obj v = false ->
     at_path p (AObj (deepMerge dst src)) = Some v) /\
  (forall p, silent p (AObj src) = true ->
     at_path p (AObj (deepMerge dst src)) = at_path p (AObj dst)) /\
  (forall src' k, src' ≡ₚ src -> get k (deepMerge dst src') = get k (deepMerge dst src)).
Proof.
  intros Hs%unmarshal_map_distinct. split; [|split].
  - intros p v Hp Hv. rewrite <- merge_value_obj. by apply merge_value_path.
  - intros p Hp. rewrite <- merge_value_obj. by apply merge_value_silent.
  - intros src' k Hperm. inversion Hs as [| | | | |? Hn _]; subst.
    assert (NoDup src'.*1) as Hn' by by rewrite Hperm.
    rewrite !get_deepMerge by done. assert (get k src' = get k src) as ->; [|done].
    destruct (get k src') as [v|] eqn:E.
    + apply get_in in E; [|done]. rewrite Hperm in E. symmetry. by apply get_in.
    + apply get_None in E. symmetry. apply get_None. by rewrite <- Hperm.
Qed.

Lemma merge_paths_witness :
  let src := [("environment", AObj [("LOG", AStr "debug")]); ("gatewayPort", ANum (of_int 9000))]%string in
  let dst := [("gatewayPort", ANum (of_int 18900));
              ("environment", AObj [("OPENCLAW_MODE", AStr "gateway")])]%string in
  at_path ["environment"; "LOG"]%string (AObj (deepMerge dst src)) = Some (AStr "debug") /\
  at_path ["environment"; "OPENCLAW_MODE"]%string (AObj (deepMerge dst src)) = Some (AStr "gateway").
Proof.
  intros src dst.
  destruct (merge_paths (print (JObj [field "environment" (JObj [field "LOG" (str_json "debug")]);
                                      field "gatewayPort" (JNum (bytes_of "9000"))])) dst src)
    as (Hleaf & Hsilent & _); [vm_compute; reflexivity|].
  split; [by apply (Hleaf ["environment"; "LOG"]%string)|].
  by rewrite (Hsilent ["environment"; "OPENCLAW_MODE"]%string).
Defined.

(** Numbers pass through [float64]: an identifier of seventeen digits comes out
    as another one, while without defaults to merge it would be kept. *)
Definition config_with_id (n : Z) : bytes := print (JObj [field "guildId" (JNum (format_int n))]).

Example config_rounds_ids :
  mergeConfig "{}" (config_with_id 9007199254740993) =
  Ok (String.string_of_list_ascii (config_with_id 9007199254740992)).
Proof. vm_compute. reflexivity. Qed.
