(* ===== verification/SdkClient.v ===== *)
(** * The Go SDK (sdk: client.go, convert.go, options.go, types.go)

    A client for claws over the dynamic client: objects are maps of JSON
    values.  What the API server answers to each request is a parameter, so
    admission, pruning and concurrent writers are covered by it. *)

From S2P Require Import Prelude.
From S2P Require Import GoStrings.
From S2P Require Import GoFloat.
From S2P Require Import GoTime.
From S2P Require Import Message.
From S2P Require Import Api.
From S2P Require Import OpsIntent.
From S2P Require Import ConfigMerge.

(** ** Unstructured objects

    Unlike package json, the API machinery keeps integers as [int64]. *)

#[warnings="-register-all"]
Inductive value :=
| VNull
| VBool (b : bool)
| VInt (n : Z)
| VFloat (f : float64)
| VStr (s : string)
| VArr (l : list value)
| VObj (m : list (string * value)).

Abbreviation object := (list (string * value)).

Definition as_obj (v : value) : option object := match v with VObj m => Some m | _ => None end.
Definition as_str (v : value) : option string := match v with VStr s => Some s | _ => None end.
Definition as_arr (v : value) : option (list value) := match v with VArr l => Some l | _ => None end.

(** [unstructured.NestedFieldNoCopy]: [None] when a step is missing or is no
    object. *)
Fixpoint nested (path : list string) (v : value) : option value :=
  match path with
  | [] => Some v
  | k :: path' => m ← as_obj v; v' ← get k m; nested path' v'
  end.

Definition NestedMap (path : list string) (o : object) : option object := nested path (VObj o) ≫= as_obj.
Definition NestedString (path : list string) (o : object) : option string := nested path (VObj o) ≫= as_str.
Definition NestedSlice (path : list string) (o : object) : option (list value) := nested path (VObj o) ≫= as_arr.

(** ** types.go, options.go *)

Record sdkRuntimeConfig := mkSdkConfig { sdk_Environment : option (gmap string string) }.

Record sdkClawSpec := mkSdkSpec {
  sp_Name : string;
  sp_Runtime : string;
  sp_Config : option sdkRuntimeConfig;
  sp_Namespace : string;
  sp_Labels : option (gmap string string);
  sp_Replicas : Z;
}.

Record sdkCondition := mkSdkCondition {
  cd_Type : string;
  cd_Status : string;
  cd_Message : string;
  cd_LastTransitionTime : Z;
}.

Record ClawInstance := mkInstance {
  ci_Name : string;
  ci_Namespace : string;
  ci_Runtime : string;
  ci_Phase : string;
  ci_Conditions : list sdkCondition;
  ci_CreatedAt : Z;
}.

Record UpdateSpec := mkUpdate { up_Environment : option (gmap string string); up_Replicas : option Z }.

Record ListOptions := mkListOptions { LabelSelector : string; Limit : Z }.

Definition sdk_runtimes : list string := ["openclaw"; "nanoclaw"; "zeroclaw"; "picoclaw"; "custom"]%string.

Record sdkConfig := mkSdkClientConfig { kubeconfig : string; cfg_namespace : string }.
Definition SdkOption := sdkConfig -> sdkConfig.
Definition WithKubeconfig (path : string) : SdkOption := fun c => mkSdkClientConfig path (cfg_namespace c).
Definition WithNamespace (ns : string) : SdkOption := fun c => mkSdkClientConfig (kubeconfig c) ns.

(** ** convert.go *)

Definition string_members (m : gmap string string) : object :=
  map (fun kv => (kv.1, VStr (kv.2))) (sorted_members m).

(** A nil map and an empty one are both skipped. *)
Definition nonempty_members (m : option (gmap string string)) : option object :=
  match m with
  | Some m => if decide (m = ∅) then None else Some (string_members m)
  | None => None
  end.

(** [SetName] and its like remove the field when the value is empty. *)
Definition str_member (k s : string) : object := if decide (s = ""%string) then [] else [(k, VStr s)].

Definition spec_object (spec : sdkClawSpec) : object :=
  [("runtime"%string, VStr (sp_Runtime spec))] ++
  (if 0 <? sp_Replicas spec then [("replicas"%string, VInt (sp_Replicas spec))] else []) ++
  match sp_Config spec ≫= fun c => nonempty_members (sdk_Environment c) with
  | Some env => [("config"%string, VObj [("environment"%string, VObj env)])]
  | None => []
  end.

Definition toUnstructured (spec : sdkClawSpec) : object :=
  let labels := match nonempty_members (sp_Labels spec) with
                | Some l => [("labels"%string, VObj l)]
                | None => []
                end in
  let meta := str_member "name" (sp_Name spec) ++ str_member "namespace" (sp_Namespace spec) ++ labels in
  [("apiVersion"%string, VStr "claw.prismer.ai/v1alpha1"); ("kind"%string, VStr "Claw")] ++
  (if decide (meta = []) then [] else [("metadata"%string, VObj meta)]) ++
  [("spec"%string, VObj (spec_object spec))].

Definition parse_time (s : string) : Z := default zero_time (parse_rfc3339 (bytes_of s)).

Definition condition_of (v : value) : option sdkCondition :=
  m ← as_obj v;
  let str k := default ""%string (get k m ≫= as_str) in
  Some (mkSdkCondition (str "type") (str "status") (str "message") (parse_time (str "lastTransitionTime"))).

Definition fromUnstructured (o : object) : ClawInstance :=
  let str path := default ""%string (NestedString path o) in
  mkInstance (str ["metadata"; "name"]) (str ["metadata"; "namespace"]) (str ["spec"; "runtime"])
    (str ["status"; "phase"])
    (omap condition_of (default [] (NestedSlice ["status"; "conditions"] o)))
    (parse_time (str ["metadata"; "creationTimestamp"])).

(** ** client.go *)

Inductive sdk_request :=
| RqCreate (ns : string) (o : object)
| RqGet (ns name : string)
| RqList (ns selector : string) (limit : Z)
| RqUpdate (ns : string) (o : object)
| RqDelete (ns name : string)
| RqWatch (ns fieldSelector : string).

(** What a watch delivers, in order: an event with its object, if it is an
    unstructured one, or the end of the context; the end of the list is the
    closing of the channel. *)
Inductive watch_type := Added | Modified | Deleted | Bookmark | WatchError.
Inductive watch_item := WEvent (t : watch_type) (o : option object) | WCancelled.

(** The answers, by the number of the request. *)
Record Server := mkServer {
  answer_create : nat -> string -> object -> option object;
  answer_get : nat -> string -> string -> option object;
  answer_list : nat -> string -> string -> Z -> option (list object);
  answer_update : nat -> string -> object -> option object;
  answer_delete : nat -> string -> string -> bool;
  answer_watch : nat -> string -> string -> option (list watch_item);
}.

Inductive sdk_error :=
| ErrNilSpec | ErrNoRuntime | ErrCreateClaw | ErrGetClaw | ErrListClaws | ErrNilInstance | ErrNilUpdate
| ErrGetForUpdate | ErrUpdateClaw | ErrDeleteClaw | ErrWatch | ErrTimeout | ErrClosedWatch
| ErrFailedPhase | ErrKubeconfig | ErrDynamic.

Abbreviation KM := (M unit sdk_request).

Record SdkClient := mkSdkClient { defaultNamespace : string }.

(** [NewClient] with the outcomes of building the configuration and the
    dynamic client. *)
Definition NewClient (build : string -> bool) (dynamic : bool) (opts : list SdkOption)
    : result sdk_error SdkClient :=
  let cfg := foldl (fun c (o : SdkOption) => o c) (mkSdkClientConfig "" "default") opts in
  if build (kubeconfig cfg) then
    if dynamic then Ok (mkSdkClient (cfg_namespace cfg)) else Err ErrDynamic
  else Err ErrKubeconfig.

Section Operations.
Context (server : Server) (c : SdkClient).

Definition namespace (ns : string) : string :=
  if decide (ns = ""%string) then defaultNamespace c else ns.

Definition sdk_ask {A} (rq : sdk_request) (answer : nat -> A) : KM A := fun w r =>
  (answer (run_tick r), mkRun (run_st r) (S (run_tick r)) (run_trace r ++ [rq])).

(** [spec] is changed in place: the caller sees its namespace and name. *)
Definition named_spec (ms : Z) (spec : sdkClawSpec) : sdkClawSpec :=
  mkSdkSpec
    (if decide (sp_Name spec = ""%string) then ("claw-" +:+ str_of (format_int ms))%string else sp_Name spec)
    (sp_Runtime spec) (sp_Config spec) (namespace (sp_Namespace spec)) (sp_Labels spec) (sp_Replicas spec).

Definition Create_claw (spec : option sdkClawSpec) : KM (result sdk_error ClawInstance * option sdkClawSpec) :=
  match spec with
  | None => mret (Err ErrNilSpec, None)
  | Some spec =>
      if decide (sp_Runtime spec = ""%string) then mret (Err ErrNoRuntime, Some spec)
      else
        let* t := (if decide (sp_Name spec = ""%string) then now else mret 0) in
        let spec := named_spec (t / 1000000) spec in
        let o := toUnstructured spec in
        let* created := sdk_ask (RqCreate (sp_Namespace spec) o)
                          (fun n => answer_create server n (sp_Namespace spec) o) in
        mret (match created with Some o' => Ok (fromUnstructured o') | None => Err ErrCreateClaw end, Some spec)
  end.

Definition Get_claw_sdk (ns name : string) : KM (result sdk_error ClawInstance) :=
  let ns := namespace ns in
  let* got := sdk_ask (RqGet ns name) (fun n => answer_get server n ns name) in
  mret (match got with Some o => Ok (fromUnstructured o) | None => Err ErrGetClaw end).

Definition List_claws (ns : string) (opts : option ListOptions) : KM (result sdk_error (list ClawInstance)) :=
  let ns := namespace ns in
  let selector := default ""%string (LabelSelector <$> opts) in
  let limit := Z.max 0 (default 0 (Limit <$> opts)) in
  let* got := sdk_ask (RqList ns selector limit) (fun n => answer_list server n ns selector limit) in
  mret (match got with Some l => Ok (map fromUnstructured l) | None => Err ErrListClaws end).

(** The object that is sent back; setting one field of an object never
    fails. *)
Definition updated_spec (update : UpdateSpec) (o : object) : object :=
  let spec := default [] (NestedMap ["spec"%string] o) in
  let spec := match up_Environment update with
              | Some env =>
                  let config := default [] (NestedMap ["spec"; "config"]%string o) in
                  put "config" (VObj (put "environment" (VObj (string_members env)) config)) spec
              | None => spec
              end in
  match up_Replicas update with
  | Some n => put "replicas" (VInt n) spec
  | None => spec
  end.

Definition apply_update (update : UpdateSpec) (o : object) : object :=
  put "spec" (VObj (updated_spec update o)) o.

Definition Update_claw_sdk (instance : option ClawInstance) (update : option UpdateSpec)
    : KM (result sdk_error ClawInstance) :=
  match instance, update with
  | None, _ => mret (Err ErrNilInstance)
  | _, None => mret (Err ErrNilUpdate)
  | Some inst, Some up =>
      let ns := namespace (ci_Namespace inst) in
      let* got := sdk_ask (RqGet ns (ci_Name inst)) (fun n => answer_get server n ns (ci_Name inst)) in
      match got with
      | None => mret (Err ErrGetForUpdate)
      | Some o =>
          let o' := apply_update up o in
          let* res := sdk_ask (RqUpdate ns o') (fun n => answer_update server n ns o') in
          mret (match res with Some o'' => Ok (fromUnstructured o'') | None => Err ErrUpdateClaw end)
      end
  end.

Definition Delete_claw_sdk (ns name : string) : KM (result sdk_error unit) :=
  let ns := namespace ns in
  let* ok := sdk_ask (RqDelete ns name) (fun n => answer_delete server n ns name) in
  mret (if ok then Ok tt else Err ErrDeleteClaw).

(** The loop of [WaitForReady] over what the watch delivers. *)
Fixpoint wait_loop (items : list watch_item) : result sdk_error unit :=
  match items with
  | [] => Err ErrClosedWatch
  | WCancelled :: _ => Err ErrTimeout
  | WEvent t o :: rest =>
      match t, o with
      | (Modified | Added), Some o =>
          let phase := default ""%string (NestedString ["status"; "phase"] o) in
          if decide (phase = "Running"%string) then Ok tt
          else if decide (phase = "Failed"%string) then Err ErrFailedPhase
          else wait_loop rest
      | _, _ => wait_loop rest
      end
  end.

Definition WaitForReady (instance : option ClawInstance) : KM (result sdk_error unit) :=
  match instance with
  | None => mret (Err ErrNilInstance)
  | Some inst =>
      let ns := namespace (ci_Namespace inst) in
      let* current := Get_claw_sdk ns (ci_Name inst) in
      match current with
      | Err e => mret (Err e)
      | Ok cur =>
          if decide (ci_Phase cur = "Running"%string) then mret (Ok tt)
          else
            let selector := ("metadata.name=" +:+ ci_Name inst)%string in
            let* watch := sdk_ask (RqWatch ns selector) (fun n => answer_watch server n ns selector) in
            mret (match watch with None => Err ErrWatch | Some items => wait_loop items end)
      end
  end.
End Operations.

(** ** Properties *)

Lemma nested_put_ne k path k' v m :
  k <> k' -> nested (k :: path) (VObj (put k' v m)) = nested (k :: path) (VObj m).
Proof. intros Hk. cbn [nested as_obj base.mbind option_bind]. by rewrite get_put, decide_False. Qed.

Lemma nested_put_eq k path v m : nested (k :: path) (VObj (put k v m)) = nested path v.
Proof. cbn [nested as_obj base.mbind option_bind]. by rewrite get_put, decide_True. Qed.

Lemma nested_app p q v : nested (p ++ q) v = nested p v ≫= nested q.
Proof.
  revert v. induction p as [|k p IH]; intros v; [done|]. cbn [nested app].
  destruct (as_obj v) as [m|]; [|done]. cbn [base.mbind option_bind]. destruct (get k m); [apply IH|done].
Qed.

(** Below an object that was replaced by an empty one there was nothing. *)
Lemma nested_default k path path0 o :
  nested (k :: path) (VObj (default [] (NestedMap path0 o))) = nested (path0 ++ k :: path) (VObj o).
Proof. unfold NestedMap. rewrite nested_app. by destruct (nested path0 (VObj o)) as [[]|]. Qed.

(** The paths that an update leaves alone. *)
Definition untouched (up : UpdateSpec) (path : list string) : bool :=
  match path with
  | [] => false
  | k :: rest =>
      negb (bool_decide (k = "spec"%string)) ||
      match rest with
      | [] => false
      | k2 :: rest2 =>
          if decide (k2 = "replicas"%string) then negb (bool_decide (is_Some (up_Replicas up)))
          else if decide (k2 = "config"%string) then
            match up_Environment up, rest2 with
            | None, _ => true
            | Some _, k3 :: _ => negb (bool_decide (k3 = "environment"%string))
            | Some _, [] => false
            end
          else true
      end
  end.

Lemma apply_update_frame up o path :
  untouched up path = true -> nested path (VObj (apply_update up o)) = nested path (VObj o).
Proof.
  unfold untouched, apply_update. destruct path as [|k rest]; [done|].
  destruct (decide (k = "spec"%string)) as [->|Hk]; [|intros _; by apply nested_put_ne].
  rewrite bool_decide_true by done. cbn [negb orb]. destruct rest as [|k2 rest2]; [done|]. intros Hu.
  rewrite nested_put_eq. change ("spec"%string :: k2 :: rest2) with (["spec"%string] ++ k2 :: rest2).
  rewrite <- nested_default. unfold updated_spec. set (spec := default [] (NestedMap ["spec"%string] o)).
  assert (Henv : forall m, k2 <> "replicas"%string ->
    nested (k2 :: rest2) (VObj match up_Replicas up with Some n => put "replicas" (VInt n) m | None => m end) =
    nested (k2 :: rest2) (VObj m)).
  { intros m Hr. destruct (up_Replicas up); [by apply nested_put_ne|done]. }
  destruct (decide (k2 = "replicas"%string)) as [->|Hr].
  { destruct (up_Replicas up) as [n|]; [done|]. destruct (up_Environment up); [by apply nested_put_ne|done]. }
  rewrite Henv by done. destruct (up_Environment up) as [env|]; [|done].
  destruct (decide (k2 = "config"%string)) as [->|Hc]; [|by apply nested_put_ne].
  destruct rest2 as [|k3 rest3]; [done|].
  apply negb_true_iff, bool_decide_eq_false in Hu. rewrite nested_put_eq, nested_put_ne by done.
  unfold spec. by rewrite !nested_default.
Qed.

(** C26: an update changes the environment and the replicas and nothing
    else.  The SDK reads the object, sends it back once, and every other path
    of it, whatever it leads to, is as it was read; the given environment
    replaces the whole old one. *)
Theorem sdk_update_frame (w : Oracle) (server : Server) (c : SdkClient) (inst : ClawInstance)
    (up : UpdateSpec) (o : object) :
  let ns := namespace c (ci_Namespace inst) in
  answer_get server 0 ns (ci_Name inst) = Some o ->
  exists o', run_trace (snd (exec (Update_claw_sdk server c (Some inst) (Some up)) w tt)) =
      [RqGet ns (ci_Name inst); RqUpdate ns o'] /\
    (forall path, untouched up path = true -> nested path (VObj o') = nested path (VObj o)) /\
    (forall env, up_Environment up = Some env ->
       nested ["spec"; "config"; "environment"]%string (VObj o') = Some (VObj (string_members env))) /\
    (forall n, up_Replicas up = Some n -> nested ["spec"; "replicas"]%string (VObj o') = Some (VInt n)).
Proof.
  intros ns Hget. exists (apply_update up o). split_and!.
  - unfold exec, Update_claw_sdk, mbind, sdk_ask. fold ns. cbn [run_tick]. by rewrite Hget.
  - intros path. apply apply_update_frame.
  - intros env He. unfold apply_update, updated_spec. rewrite He, nested_put_eq.
    destruct (up_Replicas up); rewrite ?nested_put_ne by done; by rewrite !nested_put_eq.
  - intros n Hn. unfold apply_update, updated_spec. by rewrite Hn, !nested_put_eq.
Qed.

(** Property: creating a claw sends one object, which reads back as the
    request: its name, namespace and runtime, no phase and no conditions; its
    configuration holds the environment unless that is empty, its replicas
    the number unless that is not positive. *)
Theorem sdk_create_roundtrip (w : Oracle) (server : Server) (c : SdkClient) (spec : sdkClawSpec) :
  sp_Runtime spec <> ""%string -> defaultNamespace c <> ""%string ->
  exists o spec', fst (exec (Create_claw server c (Some spec)) w tt) =
      (match answer_create server (if decide (sp_Name spec = ""%string) then 1 else 0)%nat (sp_Namespace spec') o with
       | Some o' => Ok (fromUnstructured o')
       | None => Err ErrCreateClaw
       end, Some spec') /\
    run_trace (snd (exec (Create_claw server c (Some spec)) w tt)) = [RqCreate (sp_Namespace spec') o] /\
    fromUnstructured o = mkInstance (sp_Name spec') (sp_Namespace spec') (sp_Runtime spec) "" [] zero_time /\
    sp_Name spec' <> ""%string /\ (sp_Name spec <> ""%string -> sp_Name spec' = sp_Name spec) /\
    sp_Namespace spec' = namespace c (sp_Namespace spec) /\
    nested ["spec"; "config"; "environment"]%string (VObj o) =
      VObj <$> (sp_Config spec ≫= fun cf => nonempty_members (sdk_Environment cf)) /\
    nested ["spec"; "replicas"]%string (VObj o) =
      (if 0 <? sp_Replicas spec then Some (VInt (sp_Replicas spec)) else None).
Proof.
  intros Hr Hd. set (ms := o_now w 0 / 1000000).
  set (spec' := named_spec c (if decide (sp_Name spec = ""%string) then ms else 0) spec).
  assert (Hn : sp_Name spec' <> ""%string).
  { unfold spec', named_spec. cbn [sp_Name]. by case_decide. }
  assert (Hns : sp_Namespace spec' <> ""%string).
  { unfold spec', named_spec, namespace. cbn [sp_Namespace]. by case_decide. }
  exists (toUnstructured spec'), spec'.
  assert (He : exec (Create_claw server c (Some spec)) w tt =
    ((match answer_create server (if decide (sp_Name spec = ""%string) then 1 else 0)%nat (sp_Namespace spec')
        (toUnstructured spec') with Some o' => Ok (fromUnstructured o') | None => Err ErrCreateClaw end, Some spec'),
     mkRun tt (if decide (sp_Name spec = ""%string) then 2 else 1)%nat
       [RqCreate (sp_Namespace spec') (toUnstructured spec')])).
  { unfold exec, Create_claw, spec', mbind, sdk_ask, mret, now. rewrite decide_False by done.
    case_decide; cbn [run_tick run_st run_trace]; reflexivity. }
  rewrite He. cbn [fst snd run_trace]. split_and!; [done|done| |done| |done| |].
  - unfold fromUnstructured, toUnstructured, str_member.
    rewrite (decide_False (P := sp_Name spec' = ""%string)), (decide_False (P := sp_Namespace spec' = ""%string)) by done.
    by destruct (nonempty_members (sp_Labels spec')).
  - intros Hne. unfold spec', named_spec. cbn [sp_Name]. by rewrite decide_False.
  - change (sp_Config spec) with (sp_Config spec'). unfold toUnstructured, spec_object.
    destruct (decide (_ = [])), (0 <? sp_Replicas spec'), (sp_Config spec' ≫= _); reflexivity.
  - change (sp_Replicas spec) with (sp_Replicas spec'). unfold toUnstructured, spec_object.
    destruct (decide (_ = [])), (0 <? sp_Replicas spec'), (sp_Config spec' ≫= _); reflexivity.
Qed.

(** What an item of a watch decides. *)
Definition verdict_of (i : watch_item) : option (result sdk_error unit) :=
  match i with
  | WCancelled => Some (Err ErrTimeout)
  | WEvent (Modified | Added) (Some o) =>
      let phase := default ""%string (NestedString ["status"; "phase"]%string o) in
      if decide (phase = "Running"%string) then Some (Ok tt)
      else if decide (phase = "Failed"%string) then Some (Err ErrFailedPhase)
      else None
  | WEvent _ _ => None
  end.

Lemma wait_loop_first items :
  wait_loop items = default (Err ErrClosedWatch) (hd_error (omap verdict_of items)).
Proof.
  induction items as [|i items IH]; [done|]. destruct i as [t o|]; [|done].
  cbn [wait_loop omap list_omap verdict_of].
  destruct t, o as [o|]; try exact IH; repeat case_decide; done || exact IH.
Qed.

(** Property: waiting ends with the first decision.  [WaitForReady] reports
    the claw as ready exactly if it was running when asked for, or the watch
    shows it running before it shows it failed, the context ends or the
    channel closes; events that decide nothing, a deletion among them, are
    waited through. *)
Theorem wait_for_ready (w : Oracle) (server : Server) (c : SdkClient) (inst : ClawInstance) :
  let ns := namespace c (ci_Namespace inst) in
  namespace c ns = ns ->
  fst (exec (WaitForReady server c (Some inst)) w tt) =
  match answer_get server 0 ns (ci_Name inst) with
  | None => Err ErrGetClaw
  | Some o =>
      if decide (ci_Phase (fromUnstructured o) = "Running"%string) then Ok tt
      else match answer_watch server 1 ns ("metadata.name=" +:+ ci_Name inst)%string with
           | None => Err ErrWatch
           | Some items => default (Err ErrClosedWatch) (hd_error (omap verdict_of items))
           end
  end.
Proof.
  intros ns Hns. unfold exec, WaitForReady, Get_claw_sdk, mbind, sdk_ask. fold ns. rewrite Hns. cbn [run_tick].
  destruct (answer_get server 0 ns (ci_Name inst)) as [o|]; [|done]. cbn [mret].
  case_decide; [done|]. cbn [run_tick].
  destruct (answer_watch server 1 ns _) as [items|]; [|done]. cbn [mret fst]. apply wait_loop_first.
Qed.

(** ** Samples *)

Module Sample.

Definition stored : object :=
  [("apiVersion"%string, VStr "claw.prismer.ai/v1alpha1");
   ("metadata"%string, VObj [("name"%string, VStr "ada"); ("resourceVersion"%string, VStr "7")]);
   ("spec"%string, VObj [("runtime"%string, VStr "openclaw"); ("replicas"%string, VInt 1);
     ("config"%string, VObj [("environment"%string, VObj [("OLD"%string, VStr "1")]);
                             ("model"%string, VStr "m")])])].

Definition pending : object := stored.
Definition with_phase (p : string) : object := put "status" (VObj [("phase"%string, VStr p)]) stored.

Definition ada : ClawInstance := mkInstance "ada" "" "" "" [] 0.

Definition api (items : list watch_item) : Server := {|
  answer_create _ _ o := Some o;
  answer_get _ _ _ := Some stored;
  answer_list _ _ _ _ := Some [stored];
  answer_update _ _ o := Some o;
  answer_delete _ _ _ := true;
  answer_watch _ _ _ := Some items;
|}.

Definition client : SdkClient := mkSdkClient "default".

Lemma sdk_update_frame_witness :
  exists o', run_trace (snd (exec (Update_claw_sdk (api []) client (Some ada)
      (Some (mkUpdate (Some {["NEW"%string := "2"%string]}) None))) all_ok tt)) =
      [RqGet "default" "ada"; RqUpdate "default" o'] /\
    nested ["spec"; "config"; "model"]%string (VObj o') = Some (VStr "m") /\
    nested ["spec"; "replicas"]%string (VObj o') = Some (VInt 1) /\
    nested ["spec"; "config"; "environment"; "OLD"]%string (VObj o') = None.
Proof.
  destruct (sdk_update_frame all_ok (api []) client ada (mkUpdate (Some {["NEW"%string := "2"%string]}) None) stored)
    as (o' & Ht & Hf & He & _).
  - reflexivity.
  - exists o'. split; [exact Ht|]. split; [rewrite Hf; reflexivity|]. split; [rewrite Hf; reflexivity|].
    change (nested (["spec"; "config"; "environment"]%string ++ ["OLD"%string]) (VObj o') = None).
    rewrite nested_app, (He _ eq_refl). vm_compute. reflexivity.
Defined.

Definition wanted : sdkClawSpec :=
  mkSdkSpec "" "openclaw" (Some (mkSdkConfig (Some {["KEY"%string := "v"%string]}))) "" None 0.

Lemma sdk_create_roundtrip_witness :
  exists o spec', run_trace (snd (exec (Create_claw (api []) client (Some wanted)) all_ok tt)) =
      [RqCreate (sp_Namespace spec') o] /\
    sp_Namespace spec' = "default"%string /\ nested ["spec"; "replicas"]%string (VObj o) = None.
Proof.
  destruct (sdk_create_roundtrip all_ok (api []) client wanted) as (o & spec' & _ & Ht & _ & _ & _ & Hns & _ & Hr).
  - discriminate.
  - discriminate.
  - exists o, spec'. split; [exact Ht|]. split; [exact Hns|exact Hr].
Defined.

Definition seen (t : watch_type) (p : string) : watch_item := WEvent t (Some (with_phase p)).

(** A deletion does not end the wait; the context does. *)
Lemma wait_for_ready_witness :
  fst (exec (WaitForReady (api [seen Added "Pending"; seen Modified "Running"; WCancelled]) client (Some ada)) all_ok tt) = Ok tt /\
  fst (exec (WaitForReady (api [seen Deleted "Running"; WCancelled]) client (Some ada)) all_ok tt) = Err ErrTimeout.
Proof.
  split.
  - rewrite (wait_for_ready all_ok (api [seen Added "Pending"; seen Modified "Running"; WCancelled]) client ada eq_refl).
    vm_compute. reflexivity.
  - rewrite (wait_for_ready all_ok (api [seen Deleted "Running"; WCancelled]) client ada eq_refl). vm_compute. reflexivity.
Defined.

(** Three of the runtimes the SDK offers are none of the operator's. *)
Example unknown_runtimes :
  filter (fun rt => rt ∉ [RuntimeOpenClaw; RuntimeHermesClaw; RuntimeHermesRS; RuntimeK8sOps; RuntimeCustom]) sdk_runtimes =
  ["nanoclaw"; "zeroclaw"; "picoclaw"]%string.
Proof. vm_compute. reflexivity. Qed.

End Sample.
