(* ===== verification/ClawInit.v ===== *)
(** * The init container (cmd/claw-init/main.go)

    Before the runtime starts, the configuration that the ConfigMap volume
    holds is checked and copied, indented, to the data volume.  The file
    system is a map from paths to contents; any call to it may fail, and a
    failed write may leave a part of the new contents. *)

From S2P Require Import Prelude.
From S2P Require Import GoStrings.
From S2P Require Import GoFloat.
From S2P Require Import GoFloatText.
From S2P Require Import Json.
From S2P Require Import GoText.
From S2P Require Import ConfigMerge.

(** ** Paths ([filepath.Join]) *)

Definition slash : ascii := "/".

(** The elements of a cleaned path, the last one first. *)
Fixpoint clean_elems (rooted : bool) (elems : list bytes) (acc : list bytes) : list bytes :=
  match elems with
  | [] => acc
  | e :: rest =>
      if bool_decide (e = []) || bool_decide (e = bytes_of ".") then clean_elems rooted rest acc
      else if bool_decide (e = bytes_of "..") then
        match acc with
        | top :: acc' =>
            if bool_decide (top = bytes_of "..") then clean_elems rooted rest (e :: acc)
            else clean_elems rooted rest acc'
        | [] => clean_elems rooted rest (if rooted then [] else [e])
        end
      else clean_elems rooted rest (e :: acc)
  end.

Fixpoint join_elems (elems : list bytes) : bytes :=
  match elems with
  | [] => []
  | [e] => e
  | e :: rest => e ++ slash :: join_elems rest
  end.

Definition clean_path (p : bytes) : bytes :=
  let rooted := match p with c :: _ => ascii_eqb c slash | [] => false end in
  let body := join_elems (rev (clean_elems rooted (split_byte slash p) [])) in
  if rooted then slash :: body else match body with [] => bytes_of "." | _ => body end.

(** [filepath.Join] of two elements: empty ones are ignored. *)
Definition path_join (a b : string) : string :=
  match bytes_of a, bytes_of b with
  | [], [] => ""
  | [], b' => str_of (clean_path b')
  | a', [] => str_of (clean_path a')
  | a', b' => str_of (clean_path (a' ++ slash :: b'))
  end.

(** ** [json.MarshalIndent] with two spaces *)

Definition newline_at (d : nat) : bytes := chr 10 :: flat_map (fun _ => [" "%char; " "%char]) (seq 0 d).
Definition indent (v : json) : bytes := render newline_at [" "%char] 0 v.

Lemma newline_at_ws d : forallb is_ws (newline_at d) = true.
Proof. unfold newline_at. cbn [forallb]. generalize 0%nat. induction d as [|d IH]; intros n; [done|]. apply IH. Qed.

Lemma parse_indent v : wf_json v = true -> parse (indent v) = Some v.
Proof. apply parse_render; [apply newline_at_ws|done]. Qed.

(** ** The program *)

Abbreviation FileSystem := (gmap string bytes).

Inductive init_event := EvMkdir (path : string) | EvWrote (path : string) (ok : bool).

Inductive init_error := ErrRead | ErrInvalidJSON | ErrWrite.

Abbreviation IM := (M FileSystem init_event).

Definition envOr (getenv : string -> string) (key fallback : string) : string :=
  if decide (getenv key = ""%string) then fallback else getenv key.

(** [os.ReadFile]. *)
Inductive read_outcome := NotExist | ReadFailed | ReadData (data : bytes).

Definition ReadFile (path : string) : IM read_outcome :=
  let* ok := io in
  let* fs := mget in
  mret (if ok then match fs !! path with Some data => ReadData data | None => NotExist end else ReadFailed).

(** [os.WriteFile]: truncation, then the write. *)
Definition WriteFile (path : string) (data : bytes) : IM bool :=
  let* opened := io in
  if opened then
    let* ok := io in
    let* n := partial in
    mmodify (<[path := if ok then data else take n data]>) ;;;
    emit (EvWrote path ok) ;;; mret ok
  else mret false.

Definition MkdirAll (path : string) : IM bool :=
  let* ok := io in
  if ok then emit (EvMkdir path) ;;; mret true else mret false.

(** Decoding into a [map[string]any], which null leaves nil. *)
Definition parse_config (data : bytes) : option any :=
  v ← parse data;
  match v with
  | JNull => Some ANull
  | JObj _ => dec_any v
  | _ => None
  end.

Definition mergeConfigFile (srcPath dstPath : string) : IM (result init_error unit) :=
  let* src := ReadFile srcPath in
  match src with
  | NotExist =>
      let* ok := WriteFile dstPath (bytes_of "{}") in
      mret (if ok then Ok tt else Err ErrWrite)
  | ReadFailed => mret (Err ErrRead)
  | ReadData data =>
      match parse_config data with
      | None => mret (Err ErrInvalidJSON)
      | Some parsed =>
          let* ok := WriteFile dstPath (indent (enc_any parsed)) in
          mret (if ok then Ok tt else Err ErrWrite)
      end
  end.

Definition src_file (getenv : string -> string) : string :=
  path_join (envOr getenv "CONFIG_SOURCE" "/etc/claw/config") "config.json".
Definition dst_file (getenv : string -> string) : string :=
  path_join (envOr getenv "CONFIG_DEST" "/data/config") "config.json".

(** [main]: the exit code. *)
Definition main_init (getenv : string -> string) : IM Z :=
  let* ok := MkdirAll (envOr getenv "CONFIG_DEST" "/data/config") in
  if ok then
    let* ok := MkdirAll (envOr getenv "WORKSPACE_PATH" "/workspace") in
    if ok then
      let* res := mergeConfigFile (src_file getenv) (dst_file getenv) in
      mret (match res with Ok _ => 0 | Err _ => 1 end)
    else mret 1
  else mret 1.

(** ** Properties *)

(** What the runtime is to find at the destination. *)
Definition installed (fs : FileSystem) (src : string) (text : bytes) : Prop :=
  match fs !! src with
  | None => text = bytes_of "{}"
  | Some data => exists parsed, parse_config data = Some parsed /\ parse text = Some (enc_any parsed)
  end.

Lemma WriteFile_spec w path data (r : Run FileSystem init_event) :
  wp w (WriteFile path data) (fun ok r' =>
    (forall p, p <> path -> run_st r' !! p = run_st r !! p) /\
    (ok = true -> run_st r' !! path = Some data)) r.
Proof.
  unfold WriteFile. wp_step. destruct (o_ok w _); wp_step; [|by split].
  split; [intros p Hp; by rewrite lookup_insert_ne|]. intros Hok. rewrite Hok. by rewrite lookup_insert_eq.
Qed.

Lemma parse_config_wf data a : parse_config data = Some a -> wf_json (enc_any a) = true.
Proof.
  unfold parse_config. destruct (parse data) as [[| | | | |l]|]; cbn [base.mbind option_bind]; try done.
  - by intros [= <-].
  - apply dec_enc_any_wf.
Qed.


(** ** Samples *)

Module Sample.

Definition getenv (k : string) : string := "".

Definition source (text : string) : FileSystem := {["/etc/claw/config/config.json"%string := bytes_of text]}.

Definition result_of (text : string) : option string :=
  let '(code, r) := exec (main_init getenv) all_ok (source text) in
  if code =? 0 then str_of <$> run_st r !! dst_file getenv else None.

Example paths :
  dst_file getenv = "/data/config/config.json"%string /\
  path_join "/etc//claw/../x/." "config.json" = "/etc/x/config.json"%string /\
  path_join "../a" "../b" = "../b"%string.
Proof. vm_compute. done. Qed.


Example array_refused : result_of "[1]" = None.
Proof. vm_compute. reflexivity. Qed.

(** A source that says null is installed as null, not as an empty object. *)
Example null_installed : result_of "null" = Some "null"%string.
Proof. vm_compute. reflexivity. Qed.

(** An object with an array, on six lines. *)
Example indented :
  result_of "{ }" = Some "{}"%string /\
  (fun t => map (fun l => length l) (split_byte (chr 10) (bytes_of t))) <$>
    result_of (str_of (print (JObj [field "a" (JArr [JNum ["1"%char]; JNull])]))) =
  Some [1; 8; 6; 8; 3; 1]%nat.
Proof. vm_compute. done. Qed.

End Sample.
