(* ===== verification/Companion.v ===== *)
(** * The companion (cmd/claw4k8s: watcher.go, pipeline.go, llm_client.go,
    notifier.go, main.go)

    The companion looks for Pending escalations, asks a language model for an
    analysis and an action, records both for a human to approve, and notifies
    channels.  What the gateway and the webhooks answer is a parameter; the
    rest of the cluster acts between any two requests. *)

From stdpp Require Import sorting.
From S2P Require Import Prelude.
From S2P Require Import GoStrings.
From S2P Require Import Json.
From S2P Require Import GoText.
From S2P Require Import GoHttp.
From S2P Require Import Message.
From S2P Require Import Api.
From S2P Require Import OpsIntent.
From S2P Require Import ConfigMerge.
From S2P Require Import Escalations.

Definition second : Z := 1000000000.
Definition UnixMilli (t : Z) : Z := t / 1000000.
Definition text (s : string) : bytes := bytes_of s.

(** ** llm_client.go: the action in a model's answer *)

(** [stripFences]. *)
Definition stripFences (s : bytes) : bytes :=
  let s := trim_space s in
  let s := trim_prefix (text "```json") s in
  let s := trim_prefix (text "```") s in
  let s := trim_suffix (text "```") s in
  trim_space s.

(** [isValidJSONObject]: decoding into a map succeeds, as it does for null. *)
Definition isValidJSONObject (s : bytes) : bool := bool_decide (is_Some (unmarshal_map s)).

Definition extractAction (content : bytes) : bytes * bytes :=
  match cut (text "ACTION:") content with
  | Some (before, after) =>
      let analysis := trim_space before in
      let raw := stripFences (trim_space after) in
      if isValidJSONObject raw then (analysis, raw) else (analysis, [])
  | None =>
      match cut (text "```json") content with
      | Some (before, after) =>
          match cut (text "```") after with
          | Some (inner, _) =>
              let raw := trim_space inner in
              if isValidJSONObject raw then (trim_space before, raw) else (content, [])
          | None => (content, [])
          end
      | None => (content, [])
      end
  end.

(** [validateAndStampAction], at time [t]. *)
Definition validateAndStampAction (t : Z) (raw : string) : option string :=
  match ValidateIntent raw with
  | Err _ => None
  | Ok i =>
      let source := if decide (in_Source i = ""%string) then "companion-claw"%string else in_Source i in
      str_of <$> marshal (mkIntent (Action i) (Params i) (UnixMilli t) source (EscalationRef i))
  end.

(** *** The chat completion types *)

Record chatMessage := mkChat { Role : string; Content : string }.

Definition enc_chat (m : chatMessage) : json :=
  JObj [field "role" (str_json (Role m)); field "content" (str_json (Content m))].

(** [chatCompletionRequest], not streamed. *)
Definition enc_request (model : string) (messages : list chatMessage) : json :=
  JObj [field "model" (str_json model); field "messages" (JArr (map enc_chat messages));
        field "stream" (JBool false)].

Definition dec_chat (v : json) (old : chatMessage) : option chatMessage :=
  dec_struct ["role"; "content"]%string
    (fun k v m => if decide (k = "role"%string)
                  then (fun r => mkChat r (Content m)) <$> dec_str v (Role m)
                  else (fun c => mkChat (Role m) c) <$> dec_str v (Content m)) v old.

(** [chatChoice] has one field. *)
Definition dec_choice (v : json) (old : chatMessage) : option chatMessage :=
  dec_struct ["message"%string] (fun _ v m => dec_chat v m) v old.

(** The slice of choices: what its array holds, and its length.  Decoding an
    array writes over the elements that are there. *)
Fixpoint dec_choice_list (l : list json) (old : list chatMessage) : option (list chatMessage) :=
  match l with
  | [] => Some old
  | v :: l' =>
      m ← dec_choice v (hd (mkChat "" "") old);
      r ← dec_choice_list l' (tl old);
      Some (m :: r)
  end.

Definition dec_choices (v : json) (old : list chatMessage * nat) : option (list chatMessage * nat) :=
  match v with
  | JNull | JArr [] => Some ([], 0%nat)
  | JArr l => (fun r => (r, length l)) <$> dec_choice_list l old.1
  | _ => None
  end.

(** [json.Unmarshal] into [chatCompletionResponse]. *)
Definition unmarshal_choices (b : bytes) : option (list chatMessage) :=
  v ← parse b;
  r ← dec_struct ["choices"%string] (fun _ v old => dec_choices v old) v ([], 0%nat);
  Some (take r.2 r.1).

(** *** The clients *)

Inductive llm_error :=
| ErrNoHTTPClient | ErrBuildRequest | ErrGateway | ErrReadResponse
| ErrGatewayStatus (code : Z) | ErrDecodeResponse | ErrNoChoices | ErrContextDone.

(** The interface [LLMClient]. *)
Record LLMClient := mkLLM { Analyze : string -> EM (result llm_error (string * string)) }.

Definition noopLLMClient : LLMClient := mkLLM (fun _ => mret (Ok ("", "")%string)).

Record HermesGatewayClient := mkHermes {
  BaseURL : string;
  Model : string;
  APIKey : string;
  hasHTTPClient : bool;
}.

Definition completions_url (BaseURL : string) : string :=
  let base := trim_right "/" (text BaseURL) in
  str_of (if has_suffix (text "/v1") base then base ++ text "/chat/completions"
          else base ++ text "/v1/chat/completions").

Definition hermes_header (APIKey : string) : gmap string string :=
  let h : gmap string string := {["Content-Type"%string := "application/json"%string]} in
  if decide (APIKey = ""%string) then h else <["Authorization"%string := ("Bearer " +:+ APIKey)%string]> h.

Section Companion.
Context (others : nat -> World -> World).
(** What the peer of an HTTP request answers at that moment; the constant
    text of the system prompt. *)
Context (serve : nat -> http_request -> option http_response) (companionSystemPrompt : string).

(** [http.Client.Do]: fails when the context is done. *)
Definition do_http (rq : http_request) : EM (option http_response) :=
  let* alive := request others in
  fun w r => (if alive then serve (run_tick r) rq else None, r).

(** The answer of the gateway, read. *)
Definition read_answer (a : option http_response) : result llm_error bytes :=
  match a with
  | None => Err ErrGateway
  | Some resp =>
      match Body resp with
      | None => Err ErrReadResponse
      | Some body =>
          if 400 <=? StatusCode resp then Err (ErrGatewayStatus (StatusCode resp))
          else match unmarshal_choices body with
               | None => Err ErrDecodeResponse
               | Some [] => Err ErrNoChoices
               | Some (m :: _) => Ok (text (Content m))
               end
      end
  end.

Definition Hermes_Analyze (c : HermesGatewayClient) (prompt : string)
    : EM (result llm_error (string * string)) :=
  if negb (hasHTTPClient c) then mret (Err ErrNoHTTPClient)
  else
    let body := print (enc_request (Model c)
                  [mkChat "system" companionSystemPrompt; mkChat "user" prompt]) in
    let* made := io in
    if made then
      let* a := do_http (mkRequest "POST" (completions_url (BaseURL c)) (hermes_header (APIKey c)) body) in
      match read_answer a with
      | Err e => mret (Err e)
      | Ok content =>
          let '(analysis, raw) := extractAction content in
          match raw with
          | [] => mret (Ok (str_of analysis, ""%string))
          | _ =>
              let* t := now in
              mret (Ok (str_of analysis, default ""%string (validateAndStampAction t (str_of raw))))
          end
      end
    else mret (Err ErrBuildRequest).

Definition hermes (c : HermesGatewayClient) : LLMClient := mkLLM (Hermes_Analyze c).

(** ** pipeline.go *)

Record Pipeline := mkPipeline { LLM : LLMClient; MaxRetries : Z }.

Definition dec (n : Z) : string := str_of (format_int n).

Definition buildPrompt (e : ClawOpsEscalation) : string :=
  let tr := Trigger (es_Spec e) in
  ("Analyze this Kubernetes issue and propose a remediation.
Trigger: " +:+ tr_Type tr +:+ "
Message: " +:+ tr_Message tr +:+ "
Count: " +:+ dec (tr_Count tr) +:+ "
Severity: " +:+ es_Severity (es_Spec e) +:+ "
")%string.

Definition fallback_analysis (retries : Z) (e : ClawOpsEscalation) : string :=
  let tr := Trigger (es_Spec e) in
  ("LLM analysis unavailable after " +:+ dec retries +:+ " retries. Trigger: " +:+ tr_Type tr +:+
   " (" +:+ tr_Message tr +:+ "). Count: " +:+ dec (tr_Count tr) +:+ ". Severity: " +:+
   es_Severity (es_Spec e) +:+ ".")%string.

Definition delays : list Z := [5 * second; 15 * second; 45 * second].

(** The select between the timer and the context. *)
Definition wait (d : Z) : EM bool :=
  interfere others ;;;
  let* s := mget in
  if Cancelled s then mret false else emit (EvWaited d) ;;; mret true.

(** The attempts from the [i]-th on, [n] of them: the analysis, or [None] to
    fall back. *)
Fixpoint attempts (llm : LLMClient) (prompt : string) (i n : nat)
    : EM (result llm_error (option (string * string))) :=
  match n with
  | O => mret (Ok None)
  | S n' =>
      emit (EvAsked prompt) ;;;
      let* res := Analyze llm prompt in
      match res with
      | Ok (analysis, action) =>
          if decide (analysis = ""%string /\ action = ""%string) then mret (Ok None)
          else mret (Ok (Some (analysis, action)))
      | Err _ =>
          match delays !! i, n' with
          | Some d, S _ =>
              let* alive := wait d in
              if alive then attempts llm prompt (S i) n' else mret (Err ErrContextDone)
          | _, _ => attempts llm prompt (S i) n'
          end
      end
  end.

Definition retry_count (p : Pipeline) : Z := if MaxRetries p <=? 0 then 3 else MaxRetries p.

Definition analyze (p : Pipeline) (e : ClawOpsEscalation) : EM (result llm_error (string * string)) :=
  let retries := retry_count p in
  let* res := attempts (LLM p) (buildPrompt e) 0 (Z.to_nat retries) in
  mret (match res with
        | Err err => Err err
        | Ok (Some x) => Ok x
        | Ok None => Ok (fallback_analysis retries e, ""%string)
        end).

(** ** notifier.go *)

Definition truncate (s : string) (n : nat) : string :=
  if decide (String.length s <= n)%nat then s
  else (str_of (take n (text s)) +:+ str_of (map chr [226; 128; 166]))%string.

Definition emdash : string := str_of (map chr [226; 128; 148]).

Definition formatNotification (e : ClawOpsEscalation) (emoji title code : string) : string :=
  let st := es_Status e in
  let tr := Trigger (es_Spec e) in
  let analysis := if decide (Analysis st = ""%string) then "(no analysis)"%string else Analysis st in
  let name := Name (es_Meta e) in
  let ns := Namespace (es_Meta e) in
  let '(proposedLine, actionLine) :=
    if decide (ProposedAction st = ""%string) then
      (""%string,
       ("No proposed action " +:+ emdash +:+ " inspect manually: " +:+ code +:+
        "kubectl describe clawopsescalation " +:+ name +:+ " -n " +:+ ns +:+ code)%string)
    else
      (("Proposed action: " +:+ code +:+ truncate (ProposedAction st) 240 +:+ code +:+ "
")%string,
       ("Approve: " +:+ code +:+ "kubectl claw approve " +:+ name +:+ " -n " +:+ ns +:+ code)%string) in
  (emoji +:+ " " +:+ title +:+ "
Claw: " +:+ code +:+ ClawRef (es_Spec e) +:+ code +:+ " in " +:+ code +:+ ns +:+ code +:+ "
Trigger: " +:+ code +:+ tr_Type tr +:+ code +:+ " " +:+ emdash +:+ " " +:+ tr_Message tr +:+
   " (count=" +:+ dec (tr_Count tr) +:+ ", severity=" +:+ es_Severity (es_Spec e) +:+ ")
Analysis: " +:+ truncate analysis 480 +:+ "
" +:+ proposedLine +:+ actionLine)%string.

Definition formatSlackText (e : ClawOpsEscalation) : string :=
  formatNotification e ":warning:" "*Claw escalation awaiting approval*" "`".
Definition formatDiscordText (e : ClawOpsEscalation) : string :=
  formatNotification e ":warning:" "**Claw escalation awaiting approval**" "`".

(** The implementations of [Notifier]; a composite joins the errors. *)
#[warnings="-register-all"]
Inductive Notifier :=
| noopNotifier
| SlackNotifier (WebhookURL : string)
| DiscordNotifier (WebhookURL : string)
| CompositeNotifier (Notifiers : list Notifier).

(** [postJSON] of an object with one field: [true] without an error. *)
Definition postJSON (url k v : string) : EM bool :=
  if decide (url = ""%string) then mret false
  else
    let body := print (JObj [field k (str_json v)]) in
    let* made := io in
    if made then
      emit (EvPosted url body) ;;;
      let* a := do_http (mkRequest "POST" url {["Content-Type"%string := "application/json"%string]} body) in
      mret (match a with
            | None => false
            | Some resp => (200 <=? StatusCode resp) && (StatusCode resp <? 300)
            end)
    else mret false.

Fixpoint NotifyAwaitingApproval (n : Notifier) (e : ClawOpsEscalation) : EM bool :=
  match n with
  | noopNotifier => mret true
  | SlackNotifier url => postJSON url "text" (formatSlackText e)
  | DiscordNotifier url => postJSON url "content" (formatDiscordText e)
  | CompositeNotifier l =>
      (fix all (l : list Notifier) : EM bool :=
         match l with
         | [] => mret true
         | n :: l' =>
             let* ok := NotifyAwaitingApproval n e in
             let* ok' := all l' in
             mret (ok && ok')
         end) l
  end.

(** ** watcher.go *)

Record Watcher := mkWatcher {
  pipeline : Pipeline;
  w_Notifier : option Notifier;
  Namespaces : list string;
  w_Namespace : string;
  Interval : Z;
}.

Definition defaultPollInterval : Z := 10 * second.

Definition pollInterval (w : Watcher) : Z :=
  if 0 <? Interval w then Interval w else defaultPollInterval.

(** The namespaces after [normalizeNamespaces]. *)
Definition normalizeNamespaces (w : Watcher) : list string :=
  if decide (w_Namespace w = ""%string) then Namespaces w
  else if decide (w_Namespace w ∈ Namespaces w) then Namespaces w
  else Namespaces w ++ [w_Namespace w].

Definition notifier (w : Watcher) : Notifier := default noopNotifier (w_Notifier w).

Definition phase_status (p : string) (st : ClawOpsEscalationStatus) : ClawOpsEscalationStatus :=
  mkEscStatus p (MatchedRule st) (Analysis st) (ProposedAction st) (ExecutedAction st) (ExecutedAt st)
    (es_Result st) (SignetReceipt st) (ApprovedBy st) (ApprovedAt st) (RejectionReason st).

Definition analysis_status (p analysis action : string) (st : ClawOpsEscalationStatus)
    : ClawOpsEscalationStatus :=
  mkEscStatus p (MatchedRule st) analysis action (ExecutedAction st) (ExecutedAt st)
    (es_Result st) (SignetReceipt st) (ApprovedBy st) (ApprovedAt st) (RejectionReason st).

Inductive watcher_error := ErrSetAnalyzing | ErrPipeline (e : llm_error) | ErrSetAwaiting.

Definition updatePhase (v : Versioned) (p : string) : EM (option Versioned) :=
  Status_Update others (set_status (phase_status p) v).

Definition setFailed (v : Versioned) (reason : string) : EM (option Versioned) :=
  Status_Update others
    (set_status (fun st => analysis_status EscalationPhaseFailed reason (ProposedAction st) st) v).

Definition processEscalation (w : Watcher) (v : Versioned) : EM (result watcher_error unit) :=
  if negb (bool_decide (es_Phase (es_Status (v_Object v)) = EscalationPhasePending)) then mret (Ok tt)
  else
    let* started := updatePhase v EscalationPhaseAnalyzing in
    match started with
    | None => mret (Err ErrSetAnalyzing)
    | Some v1 =>
        let* res := analyze (pipeline w) (v_Object v1) in
        match res with
        | Err e =>
            let* _ := setFailed v1 "pipeline error: context canceled" in
            mret (Err (ErrPipeline e))
        | Ok (analysis, action) =>
            let* done := Status_Update others
              (set_status (analysis_status EscalationPhaseAwaitingApproval analysis action) v1) in
            match done with
            | None => mret (Err ErrSetAwaiting)
            | Some v2 => let* _ := NotifyAwaitingApproval (notifier w) (v_Object v2) in mret (Ok tt)
            end
        end
    end.

(** The answer to a list request is ordered by namespace and name. *)
Definition key_lt_b (a b : key) : bool :=
  string_lt (a.1) (b.1) || (bool_decide (a.1 = b.1) && string_lt (a.2) (b.2)).
Definition listed_before (a b : key * Versioned) : Prop := key_lt_b (b.1) (a.1) = false.
#[export] Instance listed_before_dec a b : Decision (listed_before a b).
Proof. unfold listed_before. apply _. Defined.

Definition in_namespace (ns : string) (k : key) : Prop := ns = ""%string \/ k.1 = ns.
#[export] Instance in_namespace_dec ns k : Decision (in_namespace ns k).
Proof. unfold in_namespace. apply _. Defined.

Definition List_escalations (ns : string) : EM (option (list Versioned)) :=
  let* ok := request others in
  let* s := mget in
  mret (if ok then
          Some (map snd (filter (fun kv => in_namespace ns (kv.1))
                  (merge_sort listed_before (map_to_list (store s)))))
        else None).

Fixpoint process_all (w : Watcher) (l : list Versioned) : EM Z :=
  match l with
  | [] => mret 0
  | v :: l' =>
      if negb (bool_decide (es_Phase (es_Status (v_Object v)) = EscalationPhasePending))
      then process_all w l'
      else
        let* res := processEscalation w v in
        let* n := process_all w l' in
        mret (match res with Ok _ => 1 + n | Err _ => n end)
  end.

Definition reconcileNamespace (w : Watcher) (ns : string) : EM Z :=
  let* l := List_escalations ns in
  match l with None => mret 0 | Some l => process_all w l end.

Fixpoint reconcile_namespaces (w : Watcher) (l : list string) : EM Z :=
  match l with
  | [] => mret 0
  | ns :: l' =>
      let* n := reconcileNamespace w ns in
      let* m := reconcile_namespaces w l' in
      mret (n + m)
  end.

Definition reconcilePending (w : Watcher) : EM Z :=
  match normalizeNamespaces w with
  | [] => reconcileNamespace w ""
  | l => reconcile_namespaces w l
  end.

(** [Run]: once at the start and at every tick, as long as the context is
    alive; [ticks] of them happen. *)
Fixpoint run_ticks (w : Watcher) (ticks : nat) : EM unit :=
  match ticks with
  | O => mret tt
  | S n =>
      let* alive := wait (pollInterval w) in
      if alive then let* _ := reconcilePending w in run_ticks w n else mret tt
  end.

Definition Run_watcher (w : Watcher) (ticks : nat) : EM unit :=
  let* _ := reconcilePending w in run_ticks w ticks.

(** ** main.go *)

Definition firstEnv (env : string -> string) (keys : list string) : string :=
  default ""%string (env <$> find_first (fun k => negb (bool_decide (env k = ""%string))) keys).

Definition buildLLMClient (env : string -> string) : LLMClient :=
  let url := firstEnv env ["CLAW4K8S_LLM_GATEWAY_URL"; "LLM_GATEWAY_URL"]%string in
  if decide (url = ""%string) then noopLLMClient
  else
    let model := firstEnv env ["CLAW4K8S_LLM_MODEL"; "LLM_MODEL"]%string in
    hermes (mkHermes url
      (if decide (model = ""%string) then "anthropic/claude-sonnet-4-20250514"%string else model)
      (firstEnv env ["CLAW4K8S_LLM_API_KEY"; "LLM_API_KEY"]%string) true).

Definition buildNotifier (env : string -> string) : Notifier :=
  let slack := env "CLAW4K8S_SLACK_WEBHOOK_URL"%string in
  let discord := env "CLAW4K8S_DISCORD_WEBHOOK_URL"%string in
  let l := (if decide (slack = ""%string) then [] else [SlackNotifier slack]) ++
           (if decide (discord = ""%string) then [] else [DiscordNotifier discord]) in
  match l with
  | [] => noopNotifier
  | [n] => n
  | l => CompositeNotifier l
  end.

(** [resolveWatchNamespaces]: [lookup] is [os.LookupEnv]; [None] is the
    cluster-wide watch. *)
Definition resolveWatchNamespaces (lookup : string -> option string) : option (list string) :=
  let raw := match lookup "CLAW4K8S_WATCH_NAMESPACES"%string with
             | Some v => trim_space (text v)
             | None => match lookup "CLAW4K8S_WATCH_NS"%string with
                       | Some v => trim_space (text v)
                       | None => []
                       end
             end in
  let podNS := default ""%string (lookup "POD_NAMESPACE"%string) in
  let own := [if decide (podNS = ""%string) then "default"%string else podNS] in
  if decide (raw = text "*") then None
  else match raw with
       | [] => Some own
       | _ =>
           match filter (fun p => p <> []) (map trim_space (split_byte "," raw)) with
           | [] => Some own
           | l => Some (map str_of l)
           end
       end.

(** The watcher [main] runs. *)
Definition main_watcher (lookup : string -> option string) : Watcher :=
  let env k := default ""%string (lookup k) in
  mkWatcher (mkPipeline (buildLLMClient env) 3) (Some (buildNotifier env))
    (default [] (resolveWatchNamespaces lookup)) "" 0.
End Companion.

(** ** What a validated action contains *)

(** The strings of a decoded intent are UTF-8. *)
Definition utf8_intent (i : OpsIntent) : Prop :=
  utf8_str (Action i) = true /\ utf8_str (in_Source i) = true /\ utf8_str (EscalationRef i) = true /\
  map_Forall (fun k v => utf8_str k = true /\ utf8_str v = true) (default ∅ (Params i)).

Lemma dec_map_utf8 l m m' :
  map_Forall (fun k v => utf8_str k = true /\ utf8_str v = true) m -> dec_map l m = Some m' ->
  map_Forall (fun k v => utf8_str k = true /\ utf8_str v = true) m'.
Proof.
  revert m. induction l as [|[k v] l IH]; intros m Hm; cbn [dec_map]; [by intros [= <-]|].
  destruct (unquote k) as [k'|] eqn:Ek; cbn [base.mbind option_bind]; [|done].
  destruct (dec_str v "") as [v'|] eqn:Ev; cbn [base.mbind option_bind]; [|done].
  apply IH. apply map_Forall_insert_2; [|done]. split.
  - unfold utf8_str. change (String.string_of_list_ascii k') with (str_of k').
    rewrite bytes_of_str_of. by apply unquote_valid in Ek.
  - by eapply dec_str_valid, Ev.
Qed.

Lemma unmarshal_utf8 b (i : OpsIntent) : unmarshal b = Some i -> utf8_intent i.
Proof.
  cbn [unmarshal OpsIntent_codec struct_codec]. destruct (parse b) as [v|]; [|done].
  cbn [base.mbind option_bind]. apply dec_struct_inv; [|by split_and!].
  intros k u [a p g s e] i' (Ha & Hs & He & Hp) Hset. unfold set_intent in Hset.
  cbn [Action in_Source EscalationRef Params] in *.
  repeat case_decide;
    match type of Hset with ?f <$> ?x = _ => destruct x eqn:E; [|done] end;
    injection Hset as <-; unfold utf8_intent; cbn [Action in_Source EscalationRef Params];
    split_and!; try done; try (by eapply dec_str_valid, E).
  destruct u; try done; cbn [dec_params] in E.
  - by injection E as <-.
  - destruct (dec_map _ _) eqn:Em; [|done]. injection E as <-. by eapply dec_map_utf8, Em.
Qed.

(** The proposals of the companion: intents the operator accepts, stamped
    with a reading of the clock. *)
Definition proposal_ok (w : Oracle) (raw : string) : Prop :=
  raw = ""%string \/
  exists i, ValidateIntent raw = Ok i /\ Action i ∈ allowedIntentActions /\
    in_Source i <> ""%string /\ exists n, Generation i = UnixMilli (o_now w n).

Definition clock_ok (w : Oracle) : Prop := forall n, 0 <= o_now w n < 2 ^ 63.

Lemma validated_ok w n raw :
  clock_ok w -> proposal_ok w (default ""%string (validateAndStampAction (o_now w n) raw)).
Proof.
  intros Hclock. unfold validateAndStampAction. destruct (ValidateIntent raw) as [i|] eqn:Ev; [|by left].
  unfold ValidateIntent in Ev. destruct (unmarshal (bytes_of raw)) as [i'|] eqn:Eu; [|done].
  case_decide as Hne; [done|]. destruct (negb _) eqn:Ea; [done|]. injection Ev as ->.
  apply negb_false_iff, bool_decide_eq_true in Ea. apply unmarshal_utf8 in Eu as (U1 & U2 & U3 & U4).
  set (i2 := mkIntent _ _ _ _ _).
  assert (Hok : json_ok i2).
  { split.
    - unfold i2. cbn [Action in_Source EscalationRef Generation]. rewrite U1, U3.
      assert (utf8_str (if decide (in_Source i = ""%string) then "companion-claw"%string else in_Source i) = true)
        as -> by (by case_decide).
      cbn [andb]. apply between_spec. unfold UnixMilli. specialize (Hclock n). div_lia.
    - unfold i2. cbn [Params]. destruct (Params i) as [m|]; [exact U4|done]. }
  destruct (marshal i2) as [b|] eqn:Em; [|by left]. cbn [fmap option_fmap option_map default from_option id].
  right. exists i2. split_and!.
  - unfold ValidateIntent. rewrite bytes_of_str_of, (marshal_unmarshal i2 b Hok Em).
    change (json_norm i2) with i2. change (Action i2) with (Action i).
    rewrite decide_False by done. by rewrite bool_decide_true by done.
  - done.
  - unfold i2. cbn [in_Source]. by case_decide.
  - by exists n.
Qed.

(** ** What the companion does to escalations *)

(** Its two transitions; an action satisfies [P]. *)
Definition companion_move (P : string -> Prop) (old new : ClawOpsEscalation) : Prop :=
  new = with_es_status (es_Status new) old /\
  (es_Phase (es_Status old) = EscalationPhasePending /\
     es_Status new = phase_status EscalationPhaseAnalyzing (es_Status old) \/
   es_Phase (es_Status old) = EscalationPhaseAnalyzing /\
     exists analysis action, P action /\ (analysis <> ""%string \/ action <> ""%string) /\
       es_Status new = analysis_status EscalationPhaseAwaitingApproval analysis action (es_Status old)).

Section Moves.
Context (w : Oracle) (others : nat -> World -> World) (Hothers : well_behaved others).
Context (serve : nat -> http_request -> option http_response) (sys : string).
Context (P : string -> Prop) (Pempty : P ""%string).
Implicit Types r : Run World escalation_event.

Abbreviation G := (guarantees w (companion_move P)).
Abbreviation F := (from w (companion_move P)).

(** What the pipeline asks of a client. *)
Definition client_ok (llm : LLMClient) : Prop :=
  forall prompt, G (Analyze llm prompt)
    (fun res _ => match res with Ok (_, action) => P action | Err _ => True end).

Lemma noop_ok : client_ok noopLLMClient.
Proof using Pempty. intros prompt. by apply guarantees_ret. Qed.

Lemma do_http_ok rq : G (do_http others serve rq) (fun _ _ => True).
Proof using Hothers.
  unfold do_http. eapply guarantees_bind; [by apply guarantees_request|].
  intros alive r Hr _. unfold wp. split; [by apply progress_refl|done].
Qed.

Lemma hermes_ok c :
  (forall n raw, P (default ""%string (validateAndStampAction (o_now w n) raw))) ->
  client_ok (hermes others serve sys c).
Proof using Hothers Pempty.
  intros HP prompt. cbn [Analyze hermes]. unfold Hermes_Analyze.
  destruct (negb _); [by apply guarantees_ret|].
  apply guarantees_then; [apply guarantees_io|]. intros []; [|by apply guarantees_ret].
  apply guarantees_then; [apply do_http_ok|]. intros a.
  destruct (read_answer a) as [content|e]; [|by apply guarantees_ret].
  destruct (extractAction content) as [analysis raw]. destruct raw as [|c0 raw]; [by apply guarantees_ret|].
  intros r Hr. wp_step. split; [|apply HP].
  split; [by apply evolves_refl|]. exists []. split; [by rewrite app_nil_r|apply moves_nil].
Qed.

Lemma wait_ok d : G (wait others d) (fun alive s => alive = false -> Cancelled s = true).
Proof using Hothers.
  unfold wait. apply guarantees_then; [by apply guarantees_interfere|]. intros [].
  intros r Hr. wp_step. destruct (Cancelled (run_st r)) eqn:E; wp_step.
  - split; [by apply progress_refl|done].
  - split; [|done]. split; [by apply evolves_refl|]. eexists. split; [reflexivity|].
    constructor; [done|constructor].
Qed.

Definition outcome_ok (res : result llm_error (option (string * string))) (s : World) : Prop :=
  match res with
  | Ok (Some (analysis, action)) => P action /\ (analysis <> ""%string \/ action <> ""%string)
  | Ok None => True
  | Err _ => Cancelled s = true
  end.

Lemma attempts_ok llm prompt n i : client_ok llm -> G (attempts others llm prompt i n) outcome_ok.
Proof using Hothers.
  intros Hllm. revert i. induction n as [|n IH]; intros i; cbn [attempts]; [by apply guarantees_ret|].
  apply guarantees_then; [by apply guarantees_emit|]. intros [].
  eapply guarantees_bind; [apply Hllm|]. intros [[analysis action]|e].
  - intros r Hr HP. case_decide as Hd; wp_step; (split; [by apply progress_refl|]); [done|].
    split; [done|]. destruct (decide (analysis = ""%string)); [right|by left]. intros ->. by apply Hd.
  - apply from_guarantees. destruct (delays !! i) as [d|]; [destruct n as [|n]|]; try apply IH.
    eapply guarantees_bind; [apply wait_ok|]. intros []; [by apply from_guarantees, IH|].
    apply from_ret. cbn. auto.
Qed.

Lemma analyze_ok p e : client_ok (LLM p) ->
  G (analyze others p e) (fun res s =>
    match res with
    | Ok (analysis, action) => P action /\ (analysis <> ""%string \/ action <> ""%string)
    | Err _ => Cancelled s = true
    end).
Proof using Hothers Pempty.
  intros Hp. unfold analyze. eapply guarantees_bind; [by apply attempts_ok|].
  intros [[[analysis action]|]|err]; apply from_ret; cbn; auto.
Qed.

(** With a done context no request succeeds. *)
Lemma update_cancelled v :
  F (fun s => Cancelled s = true) (Status_Update others v) (fun res _ => res = None).
Proof using Hothers.
  unfold Status_Update. eapply from_bind.
  { apply from_frame; [|by apply guarantees_request]. intros s s' (_ & Hc & _). exact Hc. }
  intros ok r Hr [Hc Hok]. destruct ok; [by rewrite Hc in Hok; discriminate Hok|].
  wp_step. by split; [apply progress_refl|].
Qed.

Lemma postJSON_ok url k v : G (postJSON others serve url k v) (fun _ _ => True).
Proof using Hothers.
  unfold postJSON. case_decide; [by apply guarantees_ret|].
  apply guarantees_then; [apply guarantees_io|]. intros []; [|by apply guarantees_ret].
  apply guarantees_then; [by apply guarantees_emit|]. intros [].
  apply guarantees_then; [apply do_http_ok|]. intros a. by apply guarantees_ret.
Qed.

Lemma notify_ok n e : G (NotifyAwaitingApproval others serve n e) (fun _ _ => True).
Proof using Hothers.
  revert n. fix IH 1. intros [|url|url|l]; cbn [NotifyAwaitingApproval];
    [by apply guarantees_ret|apply postJSON_ok|apply postJSON_ok|].
  induction l as [|n l IHl]; [by apply guarantees_ret|].
  apply guarantees_then; [apply IH|]. intros ok.
  apply guarantees_then; [apply IHl|]. intros ok'. by apply guarantees_ret.
Qed.

Lemma process_ok wt v : client_ok (LLM (pipeline wt)) ->
  F (true_copy v) (processEscalation others serve wt v) (fun _ _ => True).
Proof using Hothers Pempty.
  intros Hllm. unfold processEscalation. destruct (negb _) eqn:Eph; [by apply from_ret|].
  apply negb_false_iff, bool_decide_eq_true in Eph.
  eapply from_bind; [apply from_update; [done|]|].
  { split; [done|]. left. split; [exact Eph|done]. }
  intros [v1|]; [|by apply from_ret].
  eapply from_conseq with (P := fun s => true_copy v1 s /\ es_Phase (es_Status (v_Object v1)) = EscalationPhaseAnalyzing);
    [|intros s0 _ [Ht ->]; by split|intros a s _ Ha; exact Ha].
  eapply from_bind; [apply from_frame; [|by apply analyze_ok]|].
  { intros s s' He [Ht Hph]. split; [by eapply true_copy_evolves|done]. }
  intros [[analysis action]|err]; cbn beta.
  - eapply from_conseq with (P := fun s => true_copy v1 s /\ (es_Phase (es_Status (v_Object v1)) = EscalationPhaseAnalyzing /\
      P action /\ (analysis <> ""%string \/ action <> ""%string))); 
      [|intros s0 _ [[Ht Hph] [HP Hne]]; by split_and!|intros a s _ Ha; exact Ha].
    intros r Hr [Ht (Hph & HP & Hne)]. revert r Hr Ht.
    change (F (true_copy v1) (let* done := Status_Update others
        (set_status (analysis_status EscalationPhaseAwaitingApproval analysis action) v1) in
      match done with
      | None => mret (Err ErrSetAwaiting)
      | Some v2 => let* _ := NotifyAwaitingApproval others serve (notifier wt) (v_Object v2) in mret (Ok tt)
      end) (fun _ _ => True)).
    eapply from_bind; [apply from_update; [done|]|].
    + split; [done|]. right. split; [done|]. by exists analysis, action.
    + intros [v2|]; [|by apply from_ret]. apply from_guarantees.
      apply guarantees_then; [apply notify_ok|]. intros ok. by apply guarantees_ret.
  - eapply from_conseq; [|intros s _ [_ Hc]; exact Hc|intros a s _ Ha; exact Ha].
    eapply from_bind; [apply update_cancelled|]. intros res. by apply from_ret.
Qed.

Lemma process_all_ok wt l : client_ok (LLM (pipeline wt)) ->
  F (fun s => Forall (fun v => true_copy v s) l) (process_all others serve wt l) (fun _ _ => True).
Proof using Hothers Pempty.
  intros Hllm. induction l as [|v l IH]; cbn [process_all]; [by apply from_ret|].
  destruct (negb _).
  { eapply from_conseq; [exact IH|intros s _ Hl; by inversion Hl|done]. }
  eapply from_bind with (P' := fun _ s => Forall (fun v => true_copy v s) l).
  - intros r Hr Hl. inversion Hl as [|?? Hv Hl']; subst.
    eapply wp_conseq; [|by apply (process_ok wt v Hllm)]. cbn. intros a r' [Hp _]. split; [done|].
    eapply Forall_impl; [exact Hl'|]. cbn. intros x Hx. by eapply true_copy_evolves; [apply Hp|].
  - intros res. eapply from_bind; [exact IH|]. intros n. by apply from_ret.
Qed.

Lemma list_ok ns : G (List_escalations others ns)
  (fun res s => match res with Some l => Forall (fun v => true_copy v s) l | None => True end).
Proof using Hothers.
  unfold List_escalations. eapply guarantees_bind; [by apply guarantees_request|].
  intros ok r Hr _. wp_step. split; [by apply progress_refl|]. destruct ok; [|done].
  apply Forall_map, Forall_forall. intros [k v] [_ Hin]%list_elem_of_filter. cbn.
  rewrite merge_sort_Permutation in Hin. apply elem_of_map_to_list in Hin.
  by eapply true_copy_stored.
Qed.

Lemma reconcileNamespace_ok wt ns : client_ok (LLM (pipeline wt)) ->
  G (reconcileNamespace others serve wt ns) (fun _ _ => True).
Proof using Hothers Pempty.
  intros Hllm. unfold reconcileNamespace. eapply guarantees_bind; [apply list_ok|].
  intros [l|]; [by apply process_all_ok|by apply from_ret].
Qed.

Lemma reconcilePending_ok wt : client_ok (LLM (pipeline wt)) ->
  G (reconcilePending others serve wt) (fun _ _ => True).
Proof using Hothers Pempty.
  intros Hllm. unfold reconcilePending.
  assert (Hl : forall l, G (reconcile_namespaces others serve wt l) (fun _ _ => True)).
  { induction l as [|ns l IH]; cbn [reconcile_namespaces]; [by apply guarantees_ret|].
    apply guarantees_then; [by apply reconcileNamespace_ok|]. intros n.
    apply guarantees_then; [exact IH|]. intros m. by apply guarantees_ret. }
  destruct (normalizeNamespaces wt); [by apply reconcileNamespace_ok|apply Hl].
Qed.

Lemma Run_ok wt ticks : client_ok (LLM (pipeline wt)) ->
  G (Run_watcher others serve wt ticks) (fun _ _ => True).
Proof using Hothers Pempty.
  intros Hllm. unfold Run_watcher. apply guarantees_then; [by apply reconcilePending_ok|]. intros _.
  induction ticks as [|n IH]; cbn [run_ticks]; [by apply guarantees_ret|].
  eapply guarantees_bind; [apply wait_ok|]. intros []; [|by apply from_ret].
  apply from_guarantees, guarantees_then; [by apply reconcilePending_ok|]. intros _. exact IH.
Qed.
End Moves.

(** ** How long an analysis takes *)

(** A client that neither asks nor waits on the pipeline's behalf. *)
Definition quiet (w : Oracle) (llm : LLMClient) : Prop :=
  forall prompt r, wp w (Analyze llm prompt) (fun _ r' => run_trace r' = run_trace r) r.

Fixpoint asked (tr : list escalation_event) : Z :=
  match tr with
  | [] => 0
  | EvAsked _ :: tr' => 1 + asked tr'
  | _ :: tr' => asked tr'
  end.

Fixpoint waited (tr : list escalation_event) : Z :=
  match tr with
  | [] => 0
  | EvWaited d :: tr' => d + waited tr'
  | _ :: tr' => waited tr'
  end.

Lemma asked_app t1 t2 : asked (t1 ++ t2) = asked t1 + asked t2.
Proof. induction t1 as [|[] t1 IH]; cbn [app asked]; lia. Qed.

Lemma waited_app t1 t2 : waited (t1 ++ t2) = waited t1 + waited t2.
Proof. induction t1 as [|[] t1 IH]; cbn [app waited]; lia. Qed.

Lemma noop_quiet w : quiet w noopLLMClient.
Proof. intros prompt r. done. Qed.

Lemma do_http_quiet w others serve rq (r : Run World escalation_event) :
  wp w (do_http others serve rq) (fun _ r' => run_trace r' = run_trace r) r.
Proof. unfold do_http, request. by wp_step. Qed.

Lemma hermes_quiet w others serve sys c : quiet w (hermes others serve sys c).
Proof.
  intros prompt r. cbn [Analyze hermes]. unfold Hermes_Analyze. destruct (negb _); [by wp_step|].
  wp_step. destruct (o_ok w _); [|by wp_step]. rewrite wp_bind.
  eapply wp_conseq; [|apply do_http_quiet]. cbn. intros a r' Hr'.
  destruct (read_answer a) as [content|e]; [|by wp_step].
  destruct (extractAction content) as [analysis [|c0 raw]]; by wp_step.
Qed.

(** The waits from the [i]-th attempt on, when [n] attempts are left. *)
Definition wait_budget (i n : nat) : Z := foldr Z.add 0 (take (n - 1) (drop i delays)).

Lemma wait_budget_nonneg i n : 0 <= wait_budget i n.
Proof.
  unfold wait_budget, delays, second.
  destruct i as [|[|[|i]]], (n - 1)%nat as [|[|[|m]]]; cbn;
    rewrite ?drop_nil, ?take_nil; cbn; lia.
Qed.

Lemma attempts_bounded w others llm prompt n i (r : Run World escalation_event) :
  quiet w llm ->
  wp w (attempts others llm prompt i n) (fun _ r' => exists l, run_trace r' = run_trace r ++ l /\
    asked l <= Z.of_nat n /\ waited l <= wait_budget i n) r.
Proof.
  intros Hq. revert i r. induction n as [|n IH]; intros i r; cbn [attempts].
  { wp_step. exists []. rewrite app_nil_r. split; [done|]. split; [done|]. apply wait_budget_nonneg. }
  rewrite wp_bind, wp_emit, wp_bind. eapply wp_conseq; [|apply Hq]. cbn [run_st run_tick run_trace].
  pose proof (wait_budget_nonneg i (S n)) as Hnn.
  assert (Hone : asked [EvAsked prompt] = 1) by done.
  intros [[analysis action]|e] r1 H1.
  { case_decide; wp_step; exists [EvAsked prompt]; rewrite H1, Hone; (split; [done|]);
    cbn [waited]; lia. }
  assert (Hgo : forall d0 r2, run_trace r2 = run_trace r ++ EvAsked prompt :: d0 -> asked d0 = 0 ->
    waited d0 + wait_budget (S i) n <= wait_budget i (S n) ->
    wp w (attempts others llm prompt (S i) n) (fun _ r' => exists l, run_trace r' = run_trace r ++ l /\
      asked l <= Z.of_nat (S n) /\ waited l <= wait_budget i (S n)) r2).
  { intros d0 r2 H2 Ha Hw. eapply wp_conseq; [|apply IH]. cbn beta. intros _ r' (l & Hl & Hal & Hwl).
    exists (EvAsked prompt :: d0 ++ l). rewrite Hl, H2, <- app_assoc. split; [done|].
    assert (asked (EvAsked prompt :: d0 ++ l) = 1 + asked (d0 ++ l)) as -> by done.
    assert (waited (EvAsked prompt :: d0 ++ l) = waited (d0 ++ l)) as -> by done.
    rewrite asked_app, waited_app. lia. }
  assert (Hstep : forall d, delays !! i = Some d -> (0 < n)%nat -> d + wait_budget (S i) n = wait_budget i (S n)).
  { intros d Hd Hn. unfold wait_budget. rewrite (drop_S delays d i) by done.
    replace (S n - 1)%nat with (S (n - 1)) by lia. done. }
  assert (Hskip : delays !! i = None \/ n = 0%nat -> wait_budget (S i) n <= wait_budget i (S n)).
  { intros [Hd| ->]; [|done]. unfold wait_budget. apply lookup_ge_None in Hd.
    rewrite !drop_ge by lia. by rewrite !take_nil. }
  destruct (delays !! i) as [d|] eqn:Ed.
  - destruct n as [|n]; [apply (Hgo []); [done..|]; cbn [waited]; apply Hskip; by right|].
    unfold wait. wp_step. destruct (Cancelled _); wp_step.
    + exists [EvAsked prompt]. rewrite H1, Hone. split; [done|]. cbn [waited]. lia.
    + eapply wp_conseq; [|apply (Hgo [EvWaited d])]; [done| |done|].
      * cbn [run_trace]. by rewrite H1, <- app_assoc.
      * cbn [waited]. rewrite <- (Hstep d) by (done || lia). lia.
  - apply (Hgo []); [done..|]. cbn [waited]. apply Hskip. by left.
Qed.

(** ** Escalations left in phase Analyzing *)

Section Orphan.
Context (w : Oracle) (others : nat -> World -> World) (Hothers : well_behaved others).
Context (serve : nat -> http_request -> option http_response).
Context (k : key) (v : Versioned).
Context (Hleave : forall n s, store s !! k = Some v -> store (others n s) !! k = Some v).
Context (Hphase : es_Phase (es_Status (v_Object v)) = EscalationPhaseAnalyzing).

Definition kept (r : Run World escalation_event) : Prop :=
  well_formed (run_st r) /\ store (run_st r) !! k = Some v.

Abbreviation keeps m := (preserves w kept m).

Lemma kept_io : keeps io. Proof using Type. by intros r Hr. Qed.
Lemma kept_now : keeps now. Proof using Type. by intros r Hr. Qed.
Lemma kept_emit e : keeps (emit e). Proof using Type. by intros r Hr. Qed.
Lemma kept_interfere : keeps (interfere others).
Proof using Hothers Hleave. intros r [Hwf Hk]. split; [by apply Hothers|by apply Hleave]. Qed.
#[local] Hint Resolve kept_io kept_now kept_emit kept_interfere : preserves.

Lemma kept_request : keeps (request others).
Proof using Hothers Hleave. unfold request. preserve. Qed.
#[local] Hint Resolve kept_request : preserves.

Lemma kept_do_http rq : keeps (do_http others serve rq).
Proof using Hothers Hleave.
  unfold do_http. apply preserves_bind; [preserve|]. intros alive. by intros r Hr.
Qed.
#[local] Hint Resolve kept_do_http : preserves.

Lemma kept_wait d : keeps (wait others d).
Proof using Hothers Hleave. unfold wait. preserve. Qed.
#[local] Hint Resolve kept_wait : preserves.

Lemma kept_hermes sys c prompt : keeps (Analyze (hermes others serve sys c) prompt).
Proof using Hothers Hleave. cbn [Analyze hermes]. unfold Hermes_Analyze. preserve. Qed.

Lemma kept_client sys env prompt : keeps (Analyze (buildLLMClient others serve sys env) prompt).
Proof using Hothers Hleave.
  unfold buildLLMClient. case_decide; [by intros r Hr|apply kept_hermes].
Qed.

Lemma kept_attempts llm prompt n i :
  (forall prompt, keeps (Analyze llm prompt)) -> keeps (attempts others llm prompt i n).
Proof using Hothers Hleave.
  intros Hllm. revert i. induction n as [|n IH]; intros i; cbn [attempts]; [preserve|].
  apply preserves_bind; [preserve|]. intros []. apply preserves_bind; [apply Hllm|]. intros res. preserve.
Qed.

Lemma kept_postJSON url key val : keeps (postJSON others serve url key val).
Proof using Hothers Hleave. unfold postJSON. preserve. Qed.
#[local] Hint Resolve kept_postJSON : preserves.

Lemma kept_notify n e : keeps (NotifyAwaitingApproval others serve n e).
Proof using Hothers Hleave.
  revert n. fix IH 1. intros [|url|url|l]; cbn [NotifyAwaitingApproval]; [preserve..|].
  induction l as [|n l IHl]; [preserve|]. apply preserves_bind; [apply IH|]. intros ok.
  apply preserves_bind; [apply IHl|]. intros ok'. preserve.
Qed.

(** Updates of other objects. *)
Lemma kept_update c (r : Run World escalation_event) :
  kept r -> key_of (v_Object c) <> k ->
  wp w (Status_Update others c)
    (fun res r' => kept r' /\ match res with Some v' => key_of (v_Object v') <> k | None => True end) r.
Proof using Hothers Hleave.
  intros Hr Hc. unfold Status_Update. rewrite wp_bind.
  eapply wp_conseq; [|by apply kept_request]. cbn beta. intros ok r1 [Hwf Hk]. wp_step.
  destruct (if ok then _ else None) as [cur|] eqn:E; [|wp_step; by split].
  destruct ok; [|done]. case_decide; wp_step; [|by split].
  assert (Hcur : key_of (v_Object cur) = key_of (v_Object c)) by apply (Hwf _ _ E).
  set (new := with_es_status _ _). assert (Hnew : key_of new = key_of (v_Object c)) by exact Hcur.
  split; [|cbn [v_Object]; by rewrite Hnew]. split; cbn [run_st store NextVersion].
  - intros k' v'. cbn [store NextVersion]. destruct (decide (key_of (v_Object c) = k')) as [<-|Hne].
    + rewrite lookup_insert_eq. intros [= <-]. cbn [v_Version v_Object]. split; [lia|done].
    + rewrite lookup_insert_ne by done. intros Hv'. apply Hwf in Hv' as [? ?]. split; [lia|done].
  - by rewrite lookup_insert_ne.
Qed.

Lemma kept_process sys lookup c :
  key_of (v_Object c) <> k ->
  keeps (processEscalation others serve (main_watcher others serve sys lookup) c).
Proof using Hothers Hleave.
  intros Hc r Hr. unfold processEscalation, updatePhase, setFailed. destruct (negb _); [by wp_step|].
  rewrite wp_bind. eapply wp_conseq; [|apply kept_update; [done|exact Hc]]. cbn beta.
  intros [v1|] r1 [H1 Hv1]; [|by wp_step]. rewrite wp_bind.
  assert (Han : keeps (analyze others (pipeline (main_watcher others serve sys lookup)) (v_Object v1))).
  { unfold analyze. apply preserves_bind; [apply kept_attempts, kept_client|]. intros res. preserve. }
  eapply wp_conseq; [|by apply Han]. cbn beta. intros [[analysis action]|e] r2 H2; rewrite wp_bind.
  - eapply wp_conseq; [|apply kept_update; [done|exact Hv1]]. cbn beta.
    intros [v2|] r3 [H3 Hv2]; [|by wp_step]. rewrite wp_bind.
    eapply wp_conseq; [|by apply kept_notify]. cbn beta. intros ok r4 H4. by wp_step.
  - eapply wp_conseq; [|apply kept_update; [done|exact Hv1]]. cbn beta. intros res r3 [H3 _]. by wp_step.
Qed.

Lemma kept_process_all sys lookup l :
  Forall (fun c => es_Phase (es_Status (v_Object c)) = EscalationPhasePending -> key_of (v_Object c) <> k) l ->
  keeps (process_all others serve (main_watcher others serve sys lookup) l).
Proof using Hothers Hleave.
  induction 1 as [|c l Hc _ IH]; cbn [process_all]; [preserve|].
  destruct (negb _) eqn:E; [exact IH|]. apply negb_false_iff, bool_decide_eq_true in E.
  apply preserves_bind; [by apply kept_process, Hc|]. intros res.
  apply preserves_bind; [exact IH|]. intros n. preserve.
Qed.

Lemma kept_reconcileNamespace sys lookup ns :
  keeps (reconcileNamespace others serve (main_watcher others serve sys lookup) ns).
Proof using Hothers Hleave Hphase.
  intros r Hr. unfold reconcileNamespace, List_escalations. rewrite !wp_bind.
  eapply wp_conseq; [|by apply kept_request]. cbn beta. intros ok r1 H1. wp_step.
  destruct ok; [|by wp_step]. apply kept_process_all; [|done]. destruct H1 as [Hwf Hk].
  apply Forall_map, Forall_forall. intros [k' c] [_ Hin]%list_elem_of_filter. cbn.
  rewrite merge_sort_Permutation in Hin. apply elem_of_map_to_list in Hin. intros Hp <-.
  destruct (Hwf _ _ Hin) as [_ Hkey]. rewrite Hkey in Hk. rewrite Hin in Hk. injection Hk as ->.
  by rewrite Hphase in Hp.
Qed.

Lemma kept_reconcilePending sys lookup :
  keeps (reconcilePending others serve (main_watcher others serve sys lookup)).
Proof using Hothers Hleave Hphase.
  unfold reconcilePending. destruct (normalizeNamespaces _) as [|ns l]; [apply kept_reconcileNamespace|].
  generalize (ns :: l). induction l0 as [|a l0 IH]; cbn [reconcile_namespaces]; [preserve|].
  apply preserves_bind; [apply kept_reconcileNamespace|]. intros n.
  apply preserves_bind; [exact IH|]. intros m. preserve.
Qed.
End Orphan.

(** ** Properties *)


(** C20: an analysis ends.  It asks the model at most as often as it is
    configured to and waits at most 65 seconds in between; unless the
    companion is being stopped it yields an analysis or an action. *)
Theorem analysis_ends (w : Oracle) (others : nat -> World -> World)
    (serve : nat -> http_request -> option http_response) (sys : string) (env : string -> string)
    (retries : Z) (e : ClawOpsEscalation) (s : World) :
  well_behaved others -> well_formed s ->
  let p := mkPipeline (buildLLMClient others serve sys env) retries in
  let '(res, r) := exec (analyze others p e) w s in
  asked (run_trace r) <= retry_count p /\ waited (run_trace r) <= 65 * second /\
  match res with
  | Ok (analysis, action) => analysis <> ""%string \/ action <> ""%string
  | Err _ => Cancelled (run_st r) = true
  end.
Proof.
  intros Hothers Hwf p.
  assert (Hq : quiet w (LLM p)).
  { cbn [LLM p]. unfold buildLLMClient. case_decide; [apply noop_quiet|apply hermes_quiet]. }
  assert (Hc : client_ok w (fun _ => True) (LLM p)).
  { cbn [LLM p]. unfold buildLLMClient. case_decide; [by apply noop_ok|by apply hermes_ok]. }
  pose proof (analyze_ok w others Hothers (fun _ => True) I p e Hc (mkRun s 0 []) Hwf) as H1.
  assert (H2 : wp w (analyze others p e) (fun _ r' => exists l, run_trace r' = [] ++ l /\
    asked l <= Z.of_nat (Z.to_nat (retry_count p)) /\ waited l <= wait_budget 0 (Z.to_nat (retry_count p)))
    (mkRun s 0 [])).
  { unfold analyze. rewrite wp_bind. eapply wp_conseq; [|by apply attempts_bounded]. cbn beta.
    intros res r' Hr'. by wp_step. }
  unfold exec, wp in *. destruct (analyze others p e w _) as [res r].
  destruct H1 as [_ H1], H2 as (l & -> & Ha & Hw). cbn [app].
  assert (0 < retry_count p) by (unfold retry_count; destruct (Z.leb_spec (MaxRetries p) 0); lia).
  split; [lia|]. split.
  - etrans; [exact Hw|]. unfold wait_budget, delays, second.
    destruct (Z.to_nat (retry_count p) - 1)%nat as [|[|[|m]]]; cbn;
    rewrite ?take_nil; cbn; lia.
  - destruct res as [[analysis action]|]; [exact (proj2 H1)|exact H1].
Qed.

(** Property: an escalation that is in phase Analyzing when the companion
    starts stays as it is for as long as the companion runs, if nobody else
    touches it: only Pending escalations are taken up, so an analysis that
    was interrupted is never resumed. *)
Theorem interrupted_analysis_orphaned (w : Oracle) (others : nat -> World -> World)
    (serve : nat -> http_request -> option http_response) (sys : string)
    (lookup : string -> option string) (ticks : nat) (s : World) (k : key) (v : Versioned) :
  well_behaved others -> well_formed s -> store s !! k = Some v ->
  (forall n s, store s !! k = Some v -> store (others n s) !! k = Some v) ->
  es_Phase (es_Status (v_Object v)) = EscalationPhaseAnalyzing ->
  let r := snd (exec (Run_watcher others serve (main_watcher others serve sys lookup) ticks) w s) in
  store (run_st r) !! k = Some v.
Proof.
  intros Hothers Hwf Hv Hleave Hph r.
  assert (Hk : preserves w (kept k v) (Run_watcher others serve (main_watcher others serve sys lookup) ticks)).
  { unfold Run_watcher. apply preserves_bind; [by apply kept_reconcilePending|]. intros _.
    induction ticks as [|n IH]; cbn [run_ticks]; [apply preserves_ret|].
    apply preserves_bind; [by apply kept_wait|]. intros []; [|apply preserves_ret].
    apply preserves_bind; [by apply kept_reconcilePending|]. intros _. exact IH. }
  specialize (Hk (mkRun s 0 []) (conj Hwf Hv)). unfold r, exec, wp in *.
  destruct (Run_watcher _ _ _ _ _ _) as [u r']. apply Hk.
Qed.

(** ** Samples *)

Module Sample.

Definition escalation (ns name phase action : string) : ClawOpsEscalation :=
  mkEsc (mkMeta name "" ns name 1 ∅ None [] [] 1700000000000000000 None)
    (mkEscSpec "agent" (mkTriggerInfo "OOMKilled" "container runtime" None 3) "high" None)
    (mkEscStatus phase "" "" action "" None "" "" "" None "").

Definition cluster (l : list ClawOpsEscalation) : World :=
  mkWorld (list_to_map (map (fun e => (key_of e, mkVersioned 1 e)) l)) 2 false.

Definition phases (s : World) : list (string * string) :=
  map (fun kv => (kv.1.2, es_Phase (es_Status (v_Object (kv.2))))) (map_to_list (store s)).

(** The gateway answers with an action in a fenced block; every webhook
    accepts. *)
Definition answer : bytes :=
  print (JObj [field "choices" (JArr [JObj [field "message" (JObj [
    field "content" (str_json ("Out of memory. ACTION: ```json" +:+
      str_of (print (JObj [field "action" (str_json "restart-pod")])) +:+ "```")%string)])]])]).

Definition serve (n : nat) (rq : http_request) : option http_response :=
  Some (mkResponse 200 ∅ (Some answer)).

Definition lookup (k : string) : option string :=
  if decide (k = "LLM_GATEWAY_URL"%string) then Some "http://gw/v1/"%string else None.

(** The context ends with the [t]-th effect; nobody else writes. *)
Definition stop_at (t : nat) (n : nat) (s : World) : World :=
  mkWorld (store s) (NextVersion s) (Cancelled s || (t <=? n)%nat).

Lemma stop_at_ok t : well_behaved (stop_at t).
Proof.
  intros n s Hwf. split; [done|]. split; [|by split]. cbn [Cancelled stop_at]. by intros ->.
Qed.

Definition well_formedb (s : World) : bool :=
  forallb (fun kv => bool_decide (v_Version (kv.2) < NextVersion s)%nat &&
                     bool_decide (key_of (v_Object (kv.2)) = kv.1)) (map_to_list (store s)).

Lemma well_formedb_ok s : well_formedb s = true -> well_formed s.
Proof.
  intros H k v Hv. apply elem_of_map_to_list in Hv. unfold well_formedb in H.
  rewrite forallb_forall in H. apply list_elem_of_In in Hv. apply H in Hv. cbn in Hv.
  apply andb_true_iff in Hv as [H1 H2]. split; by eapply bool_decide_unpack, Is_true_true.
Qed.

Definition pending : World := cluster [escalation "default" "e1" EscalationPhasePending ""].

Definition companion (others : nat -> World -> World) (ticks : nat) (s : World) : Run World escalation_event :=
  snd (exec (Run_watcher others serve (main_watcher others serve "" lookup) ticks) all_ok s).

Definition proposals (s : World) : list string :=
  map (fun kv => ProposedAction (es_Status (v_Object (kv.2)))) (map_to_list (store s)).


(** The proposal is the intent of the answer with the stamp and the default
    source. *)
Example proposal_stamped :
  map (fun raw => match ValidateIntent raw with
                  | Ok i => Some (Action i, Generation i, in_Source i)
                  | Err _ => None
                  end) (proposals (run_st (companion (stop_at 100) 1 pending))) =
  [Some ("restart-pod"%string, 1700000000000, "companion-claw"%string)].
Proof. vm_compute. reflexivity. Qed.

(** A person rejects the escalation while the model is at work: the
    companion's result is refused. *)
Definition reject_meanwhile (n : nat) (s : World) : World :=
  if decide (n = 5%nat) then
    match store s !! ("default", "e1")%string with
    | Some v => mkWorld (<[("default", "e1")%string :=
                  mkVersioned (NextVersion s) (v_Object (set_status (rejected_status "no") v))]> (store s))
                  (S (NextVersion s)) (Cancelled s)
    | None => s
    end
  else s.

Example rejection_stands :
  phases (run_st (companion reject_meanwhile 1 pending)) = [("e1"%string, EscalationPhaseRejected)].
Proof. vm_compute. reflexivity. Qed.

(** The companion is stopped during an analysis: the escalation stays in
    phase Analyzing, since the update to Failed uses the context that is
    done. *)
Definition no_answer (n : nat) (rq : http_request) : option http_response := None.

Example stopped_during_analysis :
  let r := snd (exec (Run_watcher (stop_at 6) no_answer (main_watcher (stop_at 6) no_answer "" lookup) 0)
                  all_ok pending) in
  phases (run_st r) = [("e1"%string, EscalationPhaseAnalyzing)] /\ Cancelled (run_st r) = true.
Proof. vm_compute. done. Qed.

Definition analyzing : World := cluster [escalation "default" "e1" EscalationPhaseAnalyzing ""].

Lemma interrupted_analysis_orphaned_witness :
  store (run_st (companion (stop_at 100) 3 analyzing)) !! ("default", "e1")%string =
  Some (mkVersioned 1 (escalation "default" "e1" EscalationPhaseAnalyzing "")).
Proof.
  apply (interrupted_analysis_orphaned all_ok (stop_at 100) serve "" lookup 3 analyzing).
  - apply stop_at_ok.
  - apply well_formedb_ok. vm_compute. reflexivity.
  - vm_compute. reflexivity.
  - done.
  - reflexivity.
Defined.

Lemma analysis_ends_witness :
  let p := mkPipeline (buildLLMClient (stop_at 100) no_answer "" (fun k => default ""%string (lookup k))) 0 in
  let '(res, r) := exec (analyze (stop_at 100) p (escalation "default" "e1" EscalationPhaseAnalyzing ""))
                     all_ok analyzing in
  asked (run_trace r) <= retry_count p /\ waited (run_trace r) <= 65 * second /\
  match res with
  | Ok (analysis, action) => analysis <> ""%string \/ action <> ""%string
  | Err _ => Cancelled (run_st r) = true
  end.
Proof.
  apply (analysis_ends all_ok (stop_at 100) no_answer "" (fun k => default ""%string (lookup k)) 0).
  - apply stop_at_ok.
  - apply well_formedb_ok. vm_compute. reflexivity.
Defined.

(** The notification cuts a long text after a number of bytes, which may be
    inside a character. *)
Example notification_cuts_runes :
  valid_utf8 (text (truncate (str_of (map chr [195; 169; 195; 169])) 3)) = false.
Proof. vm_compute. reflexivity. Qed.

(** A document that is null passes for an action and is then discarded. *)
Example null_is_discarded :
  extractAction (text "all is well. ACTION: null") = (text "all is well.", text "null") /\
  validateAndStampAction 0 "null" = None.
Proof. vm_compute. done. Qed.

Example namespaces_resolved :
  resolveWatchNamespaces (fun k => if decide (k = "CLAW4K8S_WATCH_NAMESPACES"%string)
                                   then Some " a , ,b"%string else None) = Some ["a"; "b"]%string /\
  resolveWatchNamespaces (fun k => if decide (k = "CLAW4K8S_WATCH_NAMESPACES"%string)
                                   then Some ""%string else Some "x"%string) = Some ["x"]%string.
Proof. vm_compute. done. Qed.

End Sample.
