(* ===== verification/ClawStore.v ===== *)
(** * The cluster of the claw reconciler

    The objects of one namespace, by kind and name, as the API server keeps
    them, with the requests of the controllers: Get, List, Create, Update,
    Patch, Delete.  Requests fail as the oracle says; nothing else writes to
    the cluster while a reconciliation runs.

    [ensure] is what the ensure functions of the reconciler share: get the
    object, create it if there is none, check its owner if the kind is
    guarded, and update it; [delete_owned] is what the deleteOwned functions
    share. *)

From S2P Require Import Prelude.
From S2P Require Import GoStrings.
From S2P Require Import Api.
From S2P Require Import Samples.
From S2P Require Import Kube.
From S2P Require Import OpsIntent.
From S2P Require Import PodBuilder.
From S2P Require Import Channel.
From S2P Require Import StatefulSet.
From S2P Require Import SubResources.

(** ** Kinds of objects *)

Inductive kind :=
| KService | KConfigMap | KServiceAccount | KRole | KRoleBinding | KNetworkPolicy | KIngress | KPDB
| KStatefulSet | KPVC | KSnapshot.

#[export] Instance kind_eq_dec : EqDecision kind.
Proof. solve_decision. Defined.

Record SnapshotBody := mkSnapshotBody {
  PersistentVolumeClaimName : string;
  VolumeSnapshotClassName : option string;
}.

Section World.
Context `{QuantityLib}.

(** A stored StatefulSet, with the ready replicas of its status. *)
Record StsBody := mkStsBody { sts_Spec : StatefulSet; sts_Ready : Z }.

(** What is tracked of each kind besides its metadata; of a claim, nothing. *)
Definition body (k : kind) : Type :=
  match k with
  | KService => Service
  | KConfigMap => gmap string string
  | KServiceAccount => ServiceAccountBody
  | KRole => list PolicyRule
  | KRoleBinding => RoleBinding
  | KNetworkPolicy => NetworkPolicyBody
  | KIngress => IngressBody
  | KPDB => PDBBody
  | KStatefulSet => StsBody
  | KPVC => unit
  | KSnapshot => SnapshotBody
  end.

Abbreviation Objects k := (gmap string (Obj (body k))).

Record World := mkWorld {
  w_claw : option Claw;
  w_objs : forall k, Objects k;
  w_pods : list Pod;
}.

Definition put_objs (k : kind) (m : Objects k) (f : forall k, Objects k) : forall k, Objects k :=
  fun k' => match decide (k = k') with
            | left e => eq_rect k (fun k => Objects k) m k' e
            | right _ => f k'
            end.

Definition set_objs (k : kind) (m : Objects k) (w : World) : World :=
  mkWorld (w_claw w) (put_objs k m (w_objs w)) (w_pods w).

Definition set_claw (c : option Claw) (w : World) : World := mkWorld c (w_objs w) (w_pods w).

Lemma put_objs_eq k m f : put_objs k m f k = m.
Proof.
  unfold put_objs. destruct (decide (k = k)) as [e|]; [|done].
  by rewrite (Eqdep_dec.UIP_dec kind_eq_dec e eq_refl).
Qed.

Lemma put_objs_ne k k' m f : k <> k' -> put_objs k m f k' = f k'.
Proof. intros Hk. unfold put_objs. by destruct (decide (k = k')). Qed.

(** ** Events and errors *)

Inductive store_event :=
| EvCreate (k : kind) (name : string)
| EvUpdate (k : kind) (name : string)
| EvPatch (k : kind) (name : string)
| EvDelete (k : kind) (name : string)
| EvClawPatch
| EvClawUpdate
| EvClawStatus (phase : string)
| EvEvent (reason : string)
| EvOps (e : ops_event).

Inductive store_error :=
| StGet (k : kind) | StCreate (k : kind) | StUpdate (k : kind) | StDelete (k : kind) (name : string)
| StList (k : kind) | StPatch (k : kind) (name : string) | StNotOwned (k : kind)
| StBuild (e : build_error) | StConfig | StPanic
| StGetClaw | StClawPatch | StClawUpdate | StClawStatus | StIntent | StRuntime.

Abbreviation KM := (M World store_event).
Abbreviation R := (result store_error).

(** ** Requests *)

Definition get_objs (k : kind) : KM (Objects k) := mgets (fun w => w_objs w k).

(** [Get]: [Ok None] is the not-found answer. *)
Definition Get_obj (k : kind) (name : string) : KM (R (option (Obj (body k)))) :=
  let* ok := io in
  if ok then let* m := get_objs k in mret (Ok (m !! name)) else mret (Err (StGet k)).

Definition put_obj (k : kind) (name : string) (o : Obj (body k)) : KM unit :=
  mmodify (fun w => set_objs k (<[name := o]> (w_objs w k)) w).

(** [Create]; [Ok false] is the already-exists answer. *)
Definition Create_obj (k : kind) (o : Obj (body k)) : KM (R bool) :=
  let* ok := io in
  let* m := get_objs k in
  if ok then
    match m !! Name (o_Meta o) with
    | Some _ => mret (Ok false)
    | None => put_obj k (Name (o_Meta o)) o ;;; emit (EvCreate k (Name (o_Meta o))) ;;; mret (Ok true)
    end
  else mret (Err (StCreate k)).

(** [Update] of the object that was read under [name]. *)
Definition Update_obj (k : kind) (name : string) (o : Obj (body k)) : KM (R unit) :=
  let* ok := io in
  if ok then put_obj k name o ;;; emit (EvUpdate k name) ;;; mret (Ok tt)
  else mret (Err (StUpdate k)).

Definition set_deleted (t : Z) (m : ObjectMeta) : ObjectMeta :=
  mkMeta (Name m) (GenerateName m) (Namespace m) (UID m) (ObjGeneration m) (Labels m) (Annotations m)
    (OwnerReferences m) (Finalizers m) (CreationTimestamp m)
    (match DeletionTimestamp m with Some t0 => Some t0 | None => Some t end).

Definition with_meta {A} (f : ObjectMeta -> ObjectMeta) (o : Obj A) : Obj A := mkObj (f (o_Meta o)) (o_Body o).

(** [Delete]: an object with finalizers is only marked; [Ok false] is the
    not-found answer. *)
Definition Delete_obj (k : kind) (name : string) : KM (R bool) :=
  let* ok := io in
  let* m := get_objs k in
  let* t := now in
  if ok then
    match m !! name with
    | None => mret (Ok false)
    | Some o =>
        mmodify (set_objs k (if decide (Finalizers (o_Meta o) = []) then delete name m
                             else <[name := with_meta (set_deleted t) o]> m)) ;;;
        emit (EvDelete k name) ;;; mret (Ok true)
    end
  else mret (Err (StDelete k name)).

(** ** Owners *)

Definition set_owners (l : list OwnerReference) (m : ObjectMeta) : ObjectMeta :=
  mkMeta (Name m) (GenerateName m) (Namespace m) (UID m) (ObjGeneration m) (Labels m) (Annotations m)
    l (Finalizers m) (CreationTimestamp m) (DeletionTimestamp m).
Definition set_labels (l : gmap string string) (m : ObjectMeta) : ObjectMeta :=
  mkMeta (Name m) (GenerateName m) (Namespace m) (UID m) (ObjGeneration m) l (Annotations m)
    (OwnerReferences m) (Finalizers m) (CreationTimestamp m) (DeletionTimestamp m).

(** [controllerutil.SetControllerReference] on an object without owners. *)
Definition SetControllerReference {A} (claw : Claw) (o : Obj A) : Obj A :=
  with_meta (set_owners [mkOwnerRef "Claw" (Name (Meta claw)) (UID (Meta claw)) (Some true)]) o.

(** [metav1.IsControlledBy]: the first controller reference has the owner's
    UID. *)
Definition controlled_by (m : ObjectMeta) (uid : string) : bool :=
  match find_first (fun r => bool_decide (or_Controller r = Some true)) (OwnerReferences m) with
  | Some r => bool_decide (or_UID r = uid)
  | None => false
  end.

Definition IsControlledBy (m : ObjectMeta) (owner : ObjectMeta) : bool := controlled_by m (UID owner).

(** The kinds whose objects the reconciler checks the owner of. *)
Definition guarded (k : kind) : bool :=
  match k with
  | KServiceAccount | KRole | KRoleBinding | KNetworkPolicy | KIngress | KPDB => true
  | _ => false
  end.

(** ** The shared shape of the reconciler's functions *)

(** [merge existing desired] is what is sent when the object exists. *)
Definition ensure (k : kind) (guarded : bool) (claw : Claw)
    (merge : Obj (body k) -> Obj (body k) -> Obj (body k)) (built : Obj (body k)) : KM (R unit) :=
  let desired := SetControllerReference claw built in
  let* g := Get_obj k (Name (o_Meta desired)) in
  match g with
  | Err e => mret (Err e)
  | Ok None =>
      let* c := Create_obj k desired in
      mret (match c with Ok true => Ok tt | Ok false => Err (StCreate k) | Err e => Err e end)
  | Ok (Some existing) =>
      if guarded && negb (IsControlledBy (o_Meta existing) (Meta claw)) then mret (Err (StNotOwned k))
      else Update_obj k (Name (o_Meta desired)) (merge existing desired)
  end.

Definition delete_owned (k : kind) (claw : Claw) (name : string) : KM (R unit) :=
  let* g := Get_obj k name in
  match g with
  | Err e => mret (Err e)
  | Ok None => mret (Ok tt)
  | Ok (Some existing) =>
      if negb (IsControlledBy (o_Meta existing) (Meta claw)) then mret (Ok tt)
      else
        let* d := Delete_obj k name in
        mret (match d with Ok true => Ok tt | Ok false => Err (StDelete k name) | Err e => Err e end)
  end.

(** [if err := ...; err != nil { return err }]. *)
Definition andthen {A B} (m : KM (R A)) (f : A -> KM (R B)) : KM (R B) :=
  let* r := m in
  match r with Ok a => f a | Err e => mret (Err e) end.
End World.

Abbreviation KM := (M World store_event).
Abbreviation R := (result store_error).
Abbreviation Objects k := (gmap string (Obj (body k))).

Notation "'do*' x ':=' c 'in' k" := (andthen c (fun x => k))
  (at level 10, x pattern, c at level 100, k at level 200) : claw_scope.
Notation "c ';;?' k" := (andthen c (fun _ => k))
  (at level 100, k at level 200, right associativity) : claw_scope.

(** ** What a request changes *)

Section Frame.
Context `{QuantityLib} (w : Oracle).
Implicit Types r : Run World store_event.

(** Only objects of kind [k]. *)
Definition only (k : kind) (s s' : World) : Prop :=
  w_claw s' = w_claw s /\ w_pods s' = w_pods s /\ forall k', k <> k' -> w_objs s' k' = w_objs s k'.

#[export] Instance only_refl k : Reflexive (only k).
Proof. by intros s. Qed.
#[export] Instance only_trans k : Transitive (only k).
Proof. intros s t u (? & ? & Hst) (? & ? & Htu). split; [congruence|]. split; [congruence|].
  intros k' Hk. by rewrite Htu, Hst. Qed.

Lemma only_set_objs k m s : only k s (set_objs k m s).
Proof. split; [done|]. split; [done|]. intros k' Hk. cbn. by apply put_objs_ne. Qed.

Lemma set_objs_eq k m s : w_objs (set_objs k m s) k = m.
Proof. apply put_objs_eq. Qed.

(** An object that is absent, or marked as deleted while its finalizers keep
    it. *)
Definition gone {A} (o : option (Obj A)) : Prop :=
  match o with
  | None => True
  | Some o => DeletionTimestamp (o_Meta o) <> None /\ Finalizers (o_Meta o) <> []
  end.

Definition objs_of k r : Objects k := w_objs (run_st r) k.

Lemma objs_of_set k m s t tr : objs_of k (mkRun (set_objs k m s) t tr) = m.
Proof. apply set_objs_eq. Qed.

Lemma Get_obj_spec k name r :
  wp w (Get_obj k name) (fun res r' => run_st r' = run_st r /\
    match res with Ok o => o = objs_of k r !! name | Err _ => True end) r.
Proof. unfold Get_obj, get_objs. wp_step. case_if; by wp_step. Qed.

Lemma Create_obj_spec k o r :
  wp w (Create_obj k o) (fun res r' => only k (run_st r) (run_st r') /\
    match res with
    | Ok true => objs_of k r !! Name (o_Meta o) = None /\ objs_of k r' = <[Name (o_Meta o) := o]> (objs_of k r)
    | Ok false => is_Some (objs_of k r !! Name (o_Meta o)) /\ objs_of k r' = objs_of k r
    | Err _ => objs_of k r' = objs_of k r
    end) r.
Proof.
  unfold Create_obj, get_objs, put_obj. wp_step. case_if; [|by wp_step].
  fold (objs_of k r). destruct (objs_of k r !! _) as [o'|] eqn:Ho; wp_step; [by split; [|split; [eexists|]]|].
  split; [apply only_set_objs|]. split; [done|]. by rewrite objs_of_set.
Qed.

Lemma Update_obj_spec k name o r :
  wp w (Update_obj k name o) (fun res r' => only k (run_st r) (run_st r') /\
    objs_of k r' = match res with Ok _ => <[name := o]> (objs_of k r) | Err _ => objs_of k r end) r.
Proof.
  unfold Update_obj, put_obj. wp_step. case_if; wp_step; [|done].
  split; [apply only_set_objs|]. by rewrite objs_of_set.
Qed.

Lemma Delete_obj_spec k name r :
  wp w (Delete_obj k name) (fun res r' => only k (run_st r) (run_st r') /\
    (forall n, n <> name -> objs_of k r' !! n = objs_of k r !! n) /\
    match res with Ok _ => gone (objs_of k r' !! name) | Err _ => objs_of k r' = objs_of k r end) r.
Proof.
  unfold Delete_obj, get_objs. wp_step. case_if; [|by wp_step]. fold (objs_of k r).
  destruct (objs_of k r !! name) as [o|] eqn:Ho; wp_step.
  - split; [apply only_set_objs|]. rewrite objs_of_set.
    case_decide; split; intros.
    + by apply lookup_delete_ne.
    + by rewrite lookup_delete_eq.
    + by apply lookup_insert_ne.
    + rewrite lookup_insert_eq. cbn. by split; [destruct (DeletionTimestamp _)|].
  - split; [done|]. split; [done|]. unfold objs_of in Ho |- *. cbn [run_st]. by rewrite Ho.
Qed.

Lemma wp_andthen {A B} (m : KM (R A)) (f : A -> KM (R B)) Q r :
  wp w (andthen m f) Q r =
  wp w m (fun res r' => match res with Ok a => wp w (f a) Q r' | Err e => Q (Err e) r' end) r.
Proof. unfold andthen. rewrite wp_bind. unfold wp. destruct (m w r) as [[a|e] r']; done. Qed.

(** [ensure]: on success the object is what it must be; a guarded object of
    another owner is an error and stays. *)
Lemma ensure_spec k guarded claw merge built r :
  let name := Name (o_Meta built) in
  let desired := SetControllerReference claw built in
  wp w (ensure k guarded claw merge built) (fun res r' => only k (run_st r) (run_st r') /\
    ((is_ok res = false /\ objs_of k r' = objs_of k r) \/
     res = Ok tt /\
     match objs_of k r !! name with
     | None => objs_of k r' = <[name := desired]> (objs_of k r)
     | Some e =>
         (guarded = true -> IsControlledBy (o_Meta e) (Meta claw) = true) /\
         objs_of k r' = <[name := merge e desired]> (objs_of k r)
     end)) r.
Proof.
  intros name desired. unfold ensure. fold desired. rewrite wp_bind.
  eapply wp_conseq; [|apply Get_obj_spec]. change (Name (o_Meta desired)) with name.
  intros [[e|]|err] r1 [Hst Hget]; assert (objs_of k r1 = objs_of k r) as Hr1 by (unfold objs_of; by rewrite Hst);
    [rewrite <- Hget..|wp_step; rewrite Hst, Hr1; by split; [|left]].
  - destruct (guarded && negb (IsControlledBy (o_Meta e) (Meta claw))) eqn:Hg.
    { wp_step. rewrite Hst, Hr1. by split; [|left]. }
    eapply wp_conseq; [|apply Update_obj_spec]. rewrite Hst, Hr1. intros [[]|err] r2 [Honly Hm]; [|by auto].
    split; [done|]. right. split; [done|]. split; [|done]. intros ->. by apply negb_false_iff.
  - rewrite wp_bind. eapply wp_conseq; [|apply Create_obj_spec]. rewrite Hst, Hr1.
    change (Name (o_Meta desired)) with name. intros [[]|err] r2 [Honly Hc]; wp_step; (split; [done|]).
    + right. by destruct Hc.
    + left. by destruct Hc.
    + by left.
Qed.

(** [delete_owned]: an object of another owner stays. *)
Lemma delete_owned_spec k claw name r :
  wp w (delete_owned k claw name) (fun res r' => only k (run_st r) (run_st r') /\
    (forall n, n <> name -> objs_of k r' !! n = objs_of k r !! n) /\
    ((forall e, objs_of k r !! name = Some e -> IsControlledBy (o_Meta e) (Meta claw) = false) ->
     objs_of k r' = objs_of k r) /\
    (res = Ok tt -> gone (objs_of k r' !! name) \/
       exists e, objs_of k r' !! name = Some e /\ IsControlledBy (o_Meta e) (Meta claw) = false)) r.
Proof.
  unfold delete_owned. rewrite wp_bind. eapply wp_conseq; [|apply Get_obj_spec].
  intros [[e|]|err] r1 [Hst Hget]; assert (objs_of k r1 = objs_of k r) as Hr1 by (unfold objs_of; by rewrite Hst).
  - destruct (IsControlledBy (o_Meta e) (Meta claw)) eqn:Hc; cbn [negb].
    + rewrite wp_bind. eapply wp_conseq; [|apply Delete_obj_spec]. rewrite Hst, Hr1.
      intros [[]|err] r2 (Honly & Hne & Hd); wp_step; (split; [done|]; split; [done|]; split; [|naive_solver]);
        intros Hf; specialize (Hf e (eq_sym Hget)); congruence.
    + wp_step. rewrite Hst, Hr1. split; [done|]. split; [done|]. split; [done|]. intros _. right. by exists e.
  - wp_step. rewrite Hst, Hr1. split; [done|]. split; [done|]. split; [done|]. intros _. left. by rewrite <- Hget.
  - wp_step. rewrite Hst, Hr1. by split.
Qed.
End Frame.

(** ** Events are never lost *)

Section Events.
Context `{QuantityLib} (w : Oracle) (e : store_event).

Definition happened (r : Run World store_event) : Prop := e ∈ run_trace r.

Lemma happened_io : preserves w happened io.
Proof. by intros r Hr. Qed.
Lemma happened_now : preserves w happened now.
Proof. by intros r Hr. Qed.
Lemma happened_mput s : preserves w happened (mput s).
Proof. by intros r Hr. Qed.
Lemma happened_mmodify f : preserves w happened (mmodify f).
Proof. by intros r Hr. Qed.
Lemma happened_emit e' : preserves w happened (emit e').
Proof. intros r Hr. rewrite wp_emit. apply elem_of_app. by left. Qed.
#[local] Hint Resolve happened_io happened_now happened_mput happened_mmodify happened_emit : preserves.

Lemma happened_Delete k name : preserves w happened (Delete_obj k name).
Proof. unfold Delete_obj, get_objs. preserve. Qed.
End Events.

#[export] Hint Resolve happened_io happened_now happened_mput happened_mmodify happened_emit
  happened_Delete : preserves.
