(* ===== verification/Snapshots.v ===== *)
(** * Volume snapshots (internal/controller/claw_snapshot.go)

    Each volume with snapshots enabled gets a snapshot when its cron schedule
    says so; the time of the last one is an annotation of the Claw, and the
    oldest snapshots beyond the retained number are deleted. *)

From stdpp Require Import sorting.
From S2P Require Import Prelude.
From S2P Require Import GoStrings.
From S2P Require Import GoTime.
From S2P Require Import Api.
From S2P Require Import Samples.
From S2P Require Import Kube.
From S2P Require Import OpsIntent.
From S2P Require Import PodBuilder.
From S2P Require Import StatefulSet.
From S2P Require Import SubResources.
From S2P Require Import ClawStore.

(** [sort.Slice]: some permutation in which no element is less than an earlier
    one. *)
Class SortSlice := {
  sort_slice {A : Type} (less : A -> A -> bool) : list A -> list A;
}.

Class SortSliceLaws `{SortSlice} := {
  sort_slice_perm {A} (less : A -> A -> bool) l : sort_slice less l ≡ₚ l;
  sort_slice_sorted {A} (key : A -> Z) l :
    Sorted (fun a b => key a <= key b) (sort_slice (fun a b => key a <? key b) l);
}.

Definition lastSnapshotTimeAnnotation : string := "claw.prismer.ai/last-snapshot-time".

(** The zero [time.Time], and what parsing an annotation gives. *)
Definition zero_time : Z := days_of 1 1 1 * ns_per_day.

Definition last_time (lastTimeStr : option string) : Z :=
  match lastTimeStr with
  | None => zero_time
  | Some s => default zero_time (parse_rfc3339 (bytes_of s))
  end.

(** [now.Format("20060102-150405")] is the RFC 3339 text without its
    punctuation. *)
Definition compact_time (t : Z) : string :=
  let l := format_rfc3339 t in
  let keep := filter (fun c => c <> "-"%char /\ c <> ":"%char /\ c <> "Z"%char) l in
  text (map (fun c => if ascii_eqb c "T" then "-"%char else c) keep).

Record vol_snap := mkVolSnap { vs_volumeName : string; vs_spec : SnapshotSpec; vs_pvcName : string }.

(** A duration of zero stands for none. *)
Definition sooner (nextRequeue untilNext : Z) : Z :=
  if (nextRequeue =? 0) || (untilNext <? nextRequeue) then untilNext else nextRequeue.

Section Snapshots.
Context `{QuantityLib, CronLib, RangeOrder, SortSlice}.

Definition volume_snap (claw : Claw) (name : string) (v : option VolumeSpec) : list vol_snap :=
  match v ≫= Snapshot with
  | Some s =>
      if sn_Enabled s then [mkVolSnap name s (name +:+ "-" +:+ Name (Meta claw) +:+ "-0")%string] else []
  | None => []
  end.

Definition snap_configs (claw : Claw) (p : PersistenceSpec) : list vol_snap :=
  volume_snap claw "session" (Session p) ++ volume_snap claw "output" (ov_VolumeSpec <$> Output p) ++
  volume_snap claw "workspace" (Workspace p).

Definition buildVolumeSnapshot (claw : Claw) (name pvcName snapshotClass : string) : Obj SnapshotBody :=
  mkObj (new_meta name (Namespace (Meta claw)) {[LabelInstance := Name (Meta claw)]} None)
    (mkSnapshotBody pvcName (if decide (snapshotClass = ""%string) then None else Some snapshotClass)).

(** [List] with the instance label, in any order. *)
Definition labelled {A} (claw : Claw) (l : list (string * Obj A)) : list (string * Obj A) :=
  filter (fun x => Labels (o_Meta (x.2)) !! LabelInstance = Some (Name (Meta claw))) l.

Definition List_labelled (k : kind) (claw : Claw) : KM (R (list (string * Obj (body k)))) :=
  let* ok := io in
  if ok then let* m := get_objs k in mret (Ok (labelled claw (range m))) else mret (Err (StList k)).

(** ** pruneSnapshots *)

Definition snap_prefix (claw : Claw) (volumeName : string) : string :=
  (Name (Meta claw) +:+ "-" +:+ volumeName +:+ "-")%string.

Definition named_with (prefix name : string) : bool :=
  (String.length prefix <? String.length name)%nat && String.prefix prefix name.

Definition created {A} (x : string * Obj A) : Z := CreationTimestamp (o_Meta (x.2)).

Definition retained (retain : Z) : Z := if retain <=? 0 then 5 else retain.

Fixpoint delete_all {A} (k : kind) (l : list (string * A)) : KM (R unit) :=
  match l with
  | [] => mret (Ok tt)
  | (name, _) :: l' => Delete_obj k name ;;? delete_all k l'
  end.

Definition pruneSnapshots (claw : Claw) (volumeName : string) (retain : Z) : KM (R unit) :=
  do* items := List_labelled KSnapshot claw in
  let matching := filter (fun x => named_with (snap_prefix claw volumeName) (x.1) = true) items in
  if Z.of_nat (length matching) <=? retained retain then mret (Ok tt)
  else
    let sorted := sort_slice (fun a b => created a <? created b) matching in
    delete_all KSnapshot (take (length matching - Z.to_nat (retained retain)) sorted).

(** ** reconcileSnapshots *)

(** [Update] of the Claw: the main endpoint ignores the status. *)
Definition Update_claw (claw : Claw) : KM (R Claw) :=
  let* ok := io in
  let* w := mget in
  match ok, w_claw w with
  | true, Some st =>
      let new := mkClaw (Meta claw) (Spec claw) (Status st) in
      mput (set_claw (Some new) w) ;;; emit EvClawUpdate ;;; mret (Ok new)
  | _, _ => mret (Err StClawUpdate)
  end.

Definition snap_name (claw : Claw) (volumeName : string) (t : Z) : string :=
  (snap_prefix claw volumeName +:+ compact_time t)%string.

Definition snap_key (volumeName : string) : string :=
  (lastSnapshotTimeAnnotation +:+ "-" +:+ volumeName)%string.

(** One volume: the Claw and the next wake-up, as the loop carries them. *)
Definition snapshot_volume (vs : vol_snap) (claw : Claw) (nextRequeue : Z) : KM (R (Claw * Z)) :=
  match ParseCron (sn_Schedule (vs_spec vs)) with
  | None => mret (Ok (claw, nextRequeue))
  | Some schedule =>
      let* t := now in
      let lastStr := annotation (Meta claw) (snap_key (vs_volumeName vs)) in
      let lastStr := if bool_decide (lastStr = Some ""%string) then None else lastStr in
      let nextTime := CronNext schedule (last_time lastStr) in
      if t <? nextTime then mret (Ok (claw, sooner nextRequeue (time_sub nextTime t)))
      else
        Create_obj KSnapshot (buildVolumeSnapshot claw (snap_name claw (vs_volumeName vs) t)
          (vs_pvcName vs) (VolumeSnapshotClass (vs_spec vs))) ;;?
        (do* claw := Update_claw
           (set_meta (put_annotation (snap_key (vs_volumeName vs)) (text (format_rfc3339 t))) claw) in
         (let* _ := pruneSnapshots claw (vs_volumeName vs) (Retain (vs_spec vs)) in
          mret (Ok (claw, sooner nextRequeue (time_sub (CronNext schedule t) t)))))
  end.

Fixpoint snapshot_volumes (l : list vol_snap) (claw : Claw) (nextRequeue : Z) : KM (R Z) :=
  match l with
  | [] => mret (Ok (if 0 <? nextRequeue then nextRequeue else 0))
  | vs :: l' =>
      do* cn := snapshot_volume vs claw nextRequeue in
      snapshot_volumes l' (cn.1) (cn.2)
  end.

(** The result is the wake-up; 0 is none. *)
Definition reconcileSnapshots (claw : Claw) : KM (R Z) :=
  match Persistence (Spec claw) with
  | None => mret (Ok 0)
  | Some p =>
      match snap_configs claw p with
      | [] => mret (Ok 0)
      | l => snapshot_volumes l claw 0
      end
  end.
End Snapshots.

(** ** Pruning *)

Section Prune.
Context `{QuantityLib, CronLib, RangeOrder, SortSlice} (w : Oracle).
Implicit Types r : Run World store_event.

(** The requests of a run of deletions: a prefix of the names is gone, the
    whole list if the run succeeds. *)
Lemma delete_all_spec {A} k (l : list (string * A)) r :
  wp w (delete_all k l) (fun res r' => exists l1 l2, l = l1 ++ l2 /\ (is_ok res = true -> l2 = []) /\
    only k (run_st r) (run_st r') /\
    (forall n, n ∉ l1.*1 -> objs_of k r' !! n = objs_of k r !! n) /\
    (forall n, n ∈ l1.*1 -> gone (objs_of k r' !! n))) r.
Proof.
  revert r. induction l as [|[name a] l IH]; intros r; cbn [delete_all].
  { wp_step. exists [], []. do 4 (split; [done|]). by intros n ?%not_elem_of_nil. }
  rewrite wp_andthen. eapply wp_conseq; [|apply Delete_obj_spec].
  intros [b|e] r1 (Honly & Hne & Hg).
  - eapply wp_conseq; [|apply IH]. intros res r2 (l1 & l2 & -> & Hok & Honly2 & Hsame & Hgone).
    exists ((name, a) :: l1), l2. split; [done|]. split; [done|]. split; [by etrans|]. cbn. split.
    + intros n [Hn Hl]%not_elem_of_cons. by rewrite Hsame, Hne.
    + intros n [->|Hl]%elem_of_cons; [|by apply Hgone].
      destruct (decide (name ∈ l1.*1)); [by apply Hgone|]. by rewrite Hsame.
  - exists [], ((name, a) :: l). do 3 (split; [done|]). cbn. rewrite Hg. split; [done|].
    by intros n ?%not_elem_of_nil.
Qed.

(** The snapshots of one volume of a Claw. *)
Definition snapshot_of (claw : Claw) (volumeName : string) (x : string * Obj (body KSnapshot)) : Prop :=
  Labels (o_Meta (x.2)) !! LabelInstance = Some (Name (Meta claw)) /\
  named_with (snap_prefix claw volumeName) (x.1) = true.

#[export] Instance snapshot_of_dec claw v x : Decision (snapshot_of claw v x).
Proof. unfold snapshot_of. apply _. Defined.

Definition live {A} (x : string * Obj A) : bool := bool_decide (DeletionTimestamp (o_Meta (x.2)) = None).

Definition snapshots_of (claw : Claw) (volumeName : string) r : gmap string (Obj (body KSnapshot)) :=
  filter (fun x => snapshot_of claw volumeName x /\ live x = true) (objs_of KSnapshot r).

(** The listed and filtered snapshots. *)
Definition matching_of (claw : Claw) (volumeName : string) r : list (string * Obj (body KSnapshot)) :=
  filter (fun x => named_with (snap_prefix claw volumeName) (x.1) = true)
    (labelled claw (range (objs_of KSnapshot r))).

Lemma matching_in claw v r n o :
  (n, o) ∈ matching_of claw v r <-> objs_of KSnapshot r !! n = Some o /\ snapshot_of claw v (n, o).
Proof.
  unfold matching_of, labelled, snapshot_of. rewrite !list_elem_of_filter, range_perm, elem_of_map_to_list.
  cbn. tauto.
Qed.

Lemma matching_nodup claw v r : NoDup (matching_of claw v r).*1.
Proof.
  unfold matching_of, labelled. eapply sublist_NoDup;
    [|apply fmap_sublist; etrans; apply sublist_filter].
  rewrite range_perm. apply NoDup_fst_map_to_list.
Qed.
End Prune.

Section Retention.
Context `{QuantityLib, CronLib, RangeOrder, SortSliceLaws} (w : Oracle).
Implicit Types r : Run World store_event.

Lemma sorted_split {A} (key : A -> Z) (l1 l2 : list A) a b :
  Sorted (fun a b => key a <= key b) (l1 ++ l2) -> a ∈ l1 -> b ∈ l2 -> key a <= key b.
Proof.
  intros Hs Ha Hb. apply Sorted_StronglySorted in Hs; [|by intros x y z; lia].
  induction l1 as [|x l1 IH]; [by apply not_elem_of_nil in Ha|].
  inversion Hs as [|?? Hs' Hall]; subst. apply elem_of_cons in Ha as [->|Ha]; [|by apply IH].
  rewrite Forall_forall in Hall. apply Hall. apply elem_of_app. by right.
Qed.

Lemma size_names {A} (m : gmap string A) (names : list string) :
  NoDup names -> (forall n, is_Some (m !! n) -> n ∈ names) -> (size m <= length names)%nat.
Proof.
  intros Hn Hin. rewrite <- (size_dom (D := gset string)), <- (size_list_to_set (C := gset string) names) by done.
  apply subseteq_size. intros n Hm%elem_of_dom. apply elem_of_list_to_set. auto.
Qed.

Lemma snapshots_of_lookup claw v r n o :
  snapshots_of claw v r !! n = Some o <->
  objs_of KSnapshot r !! n = Some o /\ snapshot_of claw v (n, o) /\ DeletionTimestamp (o_Meta o) = None.
Proof.
  unfold snapshots_of. rewrite map_lookup_filter_Some. unfold live. cbn. by rewrite bool_decide_eq_true.
Qed.

(** What a run of deletions over a sorted list of the snapshots leaves. *)
Lemma deleted_oldest claw v r r' l1 l2 :
  Sorted (fun a b => created a <= created b) (l1 ++ l2) -> l1 ++ l2 ≡ₚ matching_of claw v r ->
  (forall n, n ∉ l1.*1 -> objs_of KSnapshot r' !! n = objs_of KSnapshot r !! n) ->
  (forall n, n ∈ l1.*1 -> gone (objs_of KSnapshot r' !! n)) ->
  (forall n, objs_of KSnapshot r' !! n <> objs_of KSnapshot r !! n ->
     exists o, objs_of KSnapshot r !! n = Some o /\ snapshot_of claw v (n, o) /\
       map_Forall (fun _ o' => CreationTimestamp (o_Meta o) <= CreationTimestamp (o_Meta o'))
         (snapshots_of claw v r')) /\
  (size (snapshots_of claw v r') <= length l2)%nat.
Proof.
  intros Hsorted Hperm Hsame Hgone.
  assert (forall n o, snapshots_of claw v r' !! n = Some o -> (n, o) ∈ l2) as Hleft.
  { intros n o (Ho & Hsn & Hlive)%snapshots_of_lookup.
    destruct (decide (n ∈ l1.*1)) as [Hin|Hin]; [apply Hgone in Hin; rewrite Ho in Hin; by destruct Hin|].
    assert ((n, o) ∈ l1 ++ l2) as [Hl|Hl]%elem_of_app; [|by destruct Hin; apply (list_elem_of_fmap_2 fst) in Hl|done].
    rewrite Hperm. apply matching_in. by rewrite <- Hsame. }
  split.
  - intros n Hn. destruct (decide (n ∈ l1.*1)) as [Hin|Hin]; [|by destruct Hn; apply Hsame].
    apply list_elem_of_fmap in Hin as ([n' o] & -> & Hin). exists o.
    assert ((n', o) ∈ matching_of claw v r) as [Ho Hsn]%matching_in
      by (rewrite <- Hperm; apply elem_of_app; by left).
    split; [done|]. split; [done|]. intros n2 o2 Hn2%Hleft.
    exact (sorted_split created l1 l2 (n', o) (n2, o2) Hsorted Hin Hn2).
  - assert (NoDup (l1 ++ l2).*1) as Hnd by (rewrite Hperm; apply matching_nodup).
    rewrite fmap_app in Hnd. apply NoDup_app in Hnd as (_ & _ & Hnd).
    rewrite <- (length_fmap fst l2). apply size_names; [done|].
    intros n [o Ho]. by apply Hleft, (list_elem_of_fmap_2 fst) in Ho.
Qed.

(** Property: pruning deletes only snapshots of the volume, and none newer
    than one that stays; when it succeeds, at most [retain] (five if the
    specification says none) snapshots of the volume are left that are not
    being deleted. *)
Theorem prune_retains claw v retain r :
  wp w (pruneSnapshots claw v retain) (fun res r' =>
    only KSnapshot (run_st r) (run_st r') /\
    (forall n, objs_of KSnapshot r' !! n <> objs_of KSnapshot r !! n ->
       exists o, objs_of KSnapshot r !! n = Some o /\ snapshot_of claw v (n, o) /\
         map_Forall (fun _ o' => CreationTimestamp (o_Meta o) <= CreationTimestamp (o_Meta o'))
           (snapshots_of claw v r')) /\
    (res = Ok tt -> Z.of_nat (size (snapshots_of claw v r')) <= retained retain)) r.
Proof.
  unfold pruneSnapshots. rewrite wp_andthen. unfold List_labelled, get_objs. wp_step. case_if; wp_step.
  2: { split; [done|]. split; [|done]. intros n Hn. by destruct Hn. }
  fold (objs_of KSnapshot r) (matching_of claw v r). set (r1 := mkRun _ _ _).
  change (objs_of KSnapshot r) with (objs_of KSnapshot r1).
  change (matching_of claw v r) with (matching_of claw v r1).
  set (keep := retained retain). assert (0 < keep) as Hkeep by (unfold keep, retained; case_if; lia).
  set (l := sort_slice _ (matching_of claw v r1)).
  assert (l ≡ₚ matching_of claw v r1) as Hperm by apply sort_slice_perm.
  assert (Sorted (fun a b => created a <= created b) l) as Hsort by apply sort_slice_sorted.
  case_if; [wp_step|].
  - split; [done|].
    destruct (deleted_oldest claw v r1 r1 [] l) as [Hold Hsize]; try done; [by intros n ?%not_elem_of_nil|].
    split; [done|]. intros _. rewrite Hperm in Hsize. change (snapshots_of claw v r) with (snapshots_of claw v r1). lia.
  - eapply wp_conseq; [|apply delete_all_spec].
    intros res r' (l1 & l2 & Hl & Hok & Honly & Hsame & Hgone). split; [done|].
    rewrite <- (take_drop (length (matching_of claw v r1) - Z.to_nat keep) l), Hl, <- app_assoc in Hperm, Hsort.
    destruct (deleted_oldest claw v r1 r' l1 _ Hsort Hperm Hsame Hgone) as [Hold Hsize].
    split; [done|]. intros ->. rewrite (Hok eq_refl) in Hsize. cbn [app] in Hsize.
    rewrite length_drop in Hsize. unfold l in Hsize. rewrite sort_slice_perm in Hsize. lia.
Qed.
End Retention.

(** ** The schedule *)

Section Schedule.
Context `{QuantityLib, CronLib, RangeOrder, SortSlice}.

(** What the annotation of the Claw says. *)
Definition last_snapshot (claw : Claw) (volumeName : string) : Z :=
  let s := annotation (Meta claw) (snap_key volumeName) in
  last_time (if bool_decide (s = Some ""%string) then None else s).

Lemma trunc_day t : trunc_s t / ns_per_day = t / ns_per_day.
Proof.
  unfold trunc_s, ns_per_day, ns_per_s. rewrite (Z.mul_comm 86400), <- !Z.div_div by lia.
  by rewrite Z.div_mul.
Qed.

(** Stamping the Claw at [t] makes [t], in whole seconds, the last time. *)
Lemma last_snapshot_stamped claw v t :
  year_ok t = true ->
  last_snapshot (set_meta (put_annotation (snap_key v) (text (format_rfc3339 t))) claw) v = trunc_s t.
Proof.
  intros Hy. assert (parse_rfc3339 (format_rfc3339 t) = Some (trunc_s t)) as Hp.
  { apply parse_format_nano. unfold year_ok in *. by rewrite trunc_day. }
  unfold last_snapshot. cbn [Meta set_meta]. rewrite annotation_put, decide_True by done.
  rewrite bool_decide_false.
  - cbn [last_time]. unfold text, bytes_of. by rewrite String.list_ascii_of_string_of_list_ascii, Hp.
  - done.
Qed.

Lemma happened_prune w e claw v n : preserves w (happened e) (pruneSnapshots claw v n).
Proof.
  assert (forall {A} k (l : list (string * A)), preserves w (happened e) (delete_all k l)) as Hall.
  { intros A k l. induction l as [|[name a] l IH]; cbn [delete_all]; unfold andthen; preserve. }
  unfold pruneSnapshots, List_labelled, get_objs, andthen. preserve.
Qed.

(** Before its time: nothing is done. *)
Lemma snapshot_not_due w vs claw n sched r :
  ParseCron (sn_Schedule (vs_spec vs)) = Some sched ->
  o_now w (run_tick r) < CronNext sched (last_snapshot claw (vs_volumeName vs)) ->
  wp w (snapshot_volume vs claw n) (fun res r' => run_st r' = run_st r /\ exists n', res = Ok (claw, n')) r.
Proof.
  intros Hs Ht. unfold snapshot_volume. rewrite Hs. rewrite wp_bind, wp_now.
  fold (last_snapshot claw (vs_volumeName vs)). rewrite (proj2 (Z.ltb_lt _ _)) by done.
  wp_step. eauto.
Qed.

(** When it is due: a snapshot of the volume's claim is requested and the Claw
    is stamped with the time. *)
Lemma snapshot_due w vs claw n sched r :
  ParseCron (sn_Schedule (vs_spec vs)) = Some sched ->
  let t := o_now w (run_tick r) in
  CronNext sched (last_snapshot claw (vs_volumeName vs)) <= t ->
  wp w (snapshot_volume vs claw n) (fun res r' =>
    is_ok res = true -> happened EvClawUpdate r' /\
      (happened (EvCreate KSnapshot (snap_name claw (vs_volumeName vs) t)) r' \/
       is_Some (objs_of KSnapshot r !! snap_name claw (vs_volumeName vs) t)) /\
      exists n' st, res = Ok (mkClaw
        (put_annotation (snap_key (vs_volumeName vs)) (text (format_rfc3339 t)) (Meta claw))
        (Spec claw) st, n')) r.
Proof.
  intros Hs t Ht. unfold snapshot_volume. rewrite Hs. rewrite wp_bind, wp_now. fold t.
  fold (last_snapshot claw (vs_volumeName vs)). rewrite (proj2 (Z.ltb_ge _ _)) by done.
  set (built := buildVolumeSnapshot _ _ _ _). rewrite wp_andthen.
  set (r1 := mkRun _ _ _).
  assert (objs_of KSnapshot r1 = objs_of KSnapshot r) as Hr1 by done. clearbody r1.
  set (made := fun r' => happened (EvCreate KSnapshot (snap_name claw (vs_volumeName vs) t)) r' \/
    is_Some (objs_of KSnapshot r !! snap_name claw (vs_volumeName vs) t)).
  assert (forall m : KM (R (Claw * Z)), wp w m (fun _ _ => True) r1) by (intros; apply wp_true).
  eapply (wp_conseq _ _ (fun res r' => is_ok res = true -> made r')).
  2: { unfold Create_obj, get_objs, put_obj. wp_step. case_if; [|by wp_step].
       destruct (w_objs (run_st r1) KSnapshot !! _) as [o|] eqn:Ho; wp_step; intros _.
       - right. rewrite <- Hr1. by exists o.
       - left. unfold happened. cbn [run_trace]. apply elem_of_app. right. by left. }
  intros [b|e] r2 Hmade; [|done]. specialize (Hmade eq_refl).
  rewrite wp_andthen. unfold Update_claw. wp_step. case_match; [|by wp_step].
  destruct (w_claw (run_st r2)) as [st|]; wp_step; [|done].
  set (r3 := mkRun _ _ _).
  assert (made r3 /\ happened EvClawUpdate r3) as [Hm Hu].
  { split; [destruct Hmade as [Hc|Hc]; [left|by right]|]; unfold happened in *; cbn [run_trace r3];
      apply elem_of_app; [by left|right; by left]. }
  clearbody r3.
  eapply (wp_conseq _ _ (fun _ r' => made r' /\ happened EvClawUpdate r')).
  { intros _ r4 [Hm4 Hu4] _. split; [done|]. split; [exact Hm4|]. eauto. }
  apply wp_and; [|by apply happened_prune].
  destruct Hm as [Hc|Hc].
  - eapply wp_conseq; [|by apply (happened_prune w _ _ _ _ _ Hc)]. intros a r4 Hr4. by left.
  - eapply wp_conseq; [|apply wp_true]. intros a r4 Hr4. by right.
Qed.

(** Property: a volume gets at most one snapshot per scheduled time: once a
    due snapshot has been taken at [t] and the Claw stamped, every later check
    before the next scheduled time after [t] does nothing; and a due check
    that succeeds has requested the snapshot and stamped the Claw. *)
Theorem snapshot_once_per_slot w vs claw n sched r :
  ParseCron (sn_Schedule (vs_spec vs)) = Some sched ->
  let t := o_now w (run_tick r) in
  year_ok t = true -> CronNext sched (last_snapshot claw (vs_volumeName vs)) <= t ->
  wp w (snapshot_volume vs claw n) (fun res r' => forall claw' n', res = Ok (claw', n') ->
    (happened (EvCreate KSnapshot (snap_name claw (vs_volumeName vs) t)) r' \/
     is_Some (objs_of KSnapshot r !! snap_name claw (vs_volumeName vs) t)) /\
    happened EvClawUpdate r' /\
    forall w2 r2 n2, o_now w2 (run_tick r2) < CronNext sched (trunc_s t) ->
      wp w2 (snapshot_volume vs claw' n2)
        (fun res2 r3 => run_st r3 = run_st r2 /\ exists n3, res2 = Ok (claw', n3)) r2) r.
Proof.
  intros Hs t Hy Hdue. eapply wp_conseq; [|by apply (snapshot_due w vs claw n sched r)].
  intros res r' Hok claw' n' ->. destruct (Hok eq_refl) as (Hu & Hm & n1 & st & Heq). simplify_eq.
  split; [done|]. split; [done|]. intros w2 r2 n2 Ht2. apply (snapshot_not_due w2 vs _ n2 sched r2 Hs).
  by rewrite <- (last_snapshot_stamped claw (vs_volumeName vs) t Hy) in Ht2.
Qed.

(** A schedule that names no date, such as the 30th of February: the cron
    library answers the zero time, every check is due, and every successful
    reconciliation takes a snapshot and writes the Claw, which starts the next
    reconciliation. *)
Lemma impossible_schedule w vs claw n sched r :
  ParseCron (sn_Schedule (vs_spec vs)) = Some sched -> (forall t, CronNext sched t = zero_time) ->
  zero_time <= o_now w (run_tick r) ->
  wp w (snapshot_volume vs claw n) (fun res r' => is_ok res = true -> happened EvClawUpdate r') r.
Proof.
  intros Hs Hz Ht. eapply wp_conseq; [|by apply (snapshot_due w vs claw n sched r Hs); rewrite Hz].
  intros res r' Hok Hres. by apply Hok.
Qed.
End Schedule.

(** ** Insertion sort, an instance of [sort.Slice] *)

Section Insertion.
Context {A : Type} (less : A -> A -> bool).

Fixpoint insert_slice (x : A) (l : list A) : list A :=
  match l with
  | [] => [x]
  | y :: l' => if less x y then x :: l else y :: insert_slice x l'
  end.

Definition insertion_sort (l : list A) : list A := foldr insert_slice [] l.

Lemma insert_slice_perm x l : insert_slice x l ≡ₚ x :: l.
Proof.
  induction l as [|y l IH]; cbn; [done|]. case_if; [done|]. rewrite IH. apply Permutation_swap.
Qed.

Lemma insertion_sort_perm l : insertion_sort l ≡ₚ l.
Proof. induction l as [|x l IH]; cbn; [done|]. rewrite insert_slice_perm. by f_equiv. Qed.
End Insertion.

Lemma insert_slice_sorted {A} (key : A -> Z) x l :
  Sorted (fun a b => key a <= key b) l ->
  Sorted (fun a b => key a <= key b) (insert_slice (fun a b => key a <? key b) x l).
Proof.
  induction 1 as [|y l Hl IH Hhd]; cbn; [by repeat constructor|].
  destruct (key x <? key y) eqn:E; [apply Z.ltb_lt in E|apply Z.ltb_ge in E].
  - repeat constructor; try done. lia.
  - constructor; [done|]. destruct l as [|z l']; cbn; [by constructor|].
    inversion Hhd; subst. case_if; by constructor.
Qed.

Lemma insertion_sort_sorted {A} (key : A -> Z) l :
  Sorted (fun a b => key a <= key b) (insertion_sort (fun a b => key a <? key b) l).
Proof. induction l as [|x l IH]; cbn; [constructor|]. by apply insert_slice_sorted. Qed.

Definition insertion_slice : SortSlice := {| sort_slice A := insertion_sort |}.
Lemma insertion_slice_laws : SortSliceLaws (H := insertion_slice).
Proof. constructor; intros; [apply insertion_sort_perm|apply insertion_sort_sorted]. Qed.

(** ** Evaluation *)

Module Sample.
#[local] Existing Instance suffix_quantities.
#[local] Existing Instance sorted_range.
#[local] Existing Instance insertion_slice.
#[local] Existing Instance insertion_slice_laws.

(** A schedule given by a number of hours: the next multiple of them. *)
Definition hourly : CronLib := {|
  CronSchedule := Z;
  ParseCron s := n ← parse_int 64 (bytes_of s); if 0 <? n then Some n else None;
  CronNext n t := (t / (n * 3600 * ns_per_s) + 1) * (n * 3600 * ns_per_s);
|}.
#[local] Existing Instance hourly.

Definition snapshot (hours : string) (retain : Z) : SnapshotSpec := mkSnapshot true hours retain "".
Definition session_snap : vol_snap := mkVolSnap "session" (snapshot "24" 2) "session-agent-0".

Definition agent : Claw := StatefulSet.Sample.agent RuntimeOpenClaw None.

Definition stored_snapshot (name : string) (created : Z) : string * Obj (body KSnapshot) :=
  (name, mkObj (mkMeta name "" "default" "" 0 {[LabelInstance := "agent"%string]} None [] [] created None)
           (mkSnapshotBody "session-agent-0" None)).

Definition no_objects : forall k, Objects k := fun _ => ∅.

Definition world (snapshots : list (string * Obj (body KSnapshot))) : World :=
  mkWorld (Some agent) (put_objs KSnapshot (list_to_map snapshots) no_objects) [].

Definition four : list (string * Obj (body KSnapshot)) :=
  [stored_snapshot "agent-session-c" 3; stored_snapshot "agent-session-a" 1;
   stored_snapshot "agent-session-d" 4; stored_snapshot "agent-session-b" 2].

Definition pruned : Run World store_event := snd (exec (pruneSnapshots agent "session" 2) all_ok (world four)).

Lemma prune_retains_witness :
  Z.of_nat (size (snapshots_of agent "session" pruned)) <= 2.
Proof.
  pose proof (prune_retains all_ok agent "session" 2 (mkRun (world four) 0 [])) as Hp. unfold wp in Hp.
  destruct (pruneSnapshots agent "session" 2 all_ok (mkRun (world four) 0 [])) as [res r'] eqn:E.
  assert (is_ok res = true) as Hok.
  { change res with (fst (res, r')). rewrite <- E. vm_compute. reflexivity. }
  destruct Hp as (_ & _ & Hsize). destruct res as [[]|e]; [|discriminate Hok].
  replace pruned with r' by (unfold pruned, exec; by rewrite E). exact (Hsize eq_refl).
Defined.

Example two_newest_stay : (map_to_list (objs_of KSnapshot pruned)).*1 ≡ₚ ["agent-session-c"; "agent-session-d"]%string.
Proof. vm_compute. reflexivity. Qed.

Lemma snapshot_once_per_slot_witness :
  let t := 1700000000000000000 in
  wp (at_time t) (snapshot_volume session_snap agent 0) (fun res r' => forall claw' n', res = Ok (claw', n') ->
    happened (EvCreate KSnapshot (snap_name agent "session" t)) r') (mkRun (world four) 0 []).
Proof.
  intros t.
  eapply wp_conseq; [|apply (snapshot_once_per_slot (at_time t) session_snap agent 0 (24 : CronSchedule (CronLib := hourly)) (mkRun (world four) 0 []));
    [vm_compute; reflexivity|vm_compute; reflexivity|apply Z.leb_le; vm_compute; reflexivity]].
  intros res r' Hs claw' n' ->. destruct (Hs claw' n' eq_refl) as [[Hc|[o Ho]] _]; [exact Hc|].
  vm_compute in Ho. discriminate Ho.
Defined.
End Sample.
