(* ===== verification/ClawController.v ===== *)
(** * The claw reconciler (internal/controller: claw_controller.go,
    claw_pvc.go and the ensure functions of claw_service.go,
    claw_configmap.go, claw_serviceaccount.go, claw_rbac.go,
    claw_networkpolicy.go, claw_ingress.go, claw_pdb.go)

    One reconciliation of a Claw: deletion with its reclaim policy, the
    finalizer, ops intents, every object the Claw owns, the owner references
    of its volume claims, its status and its snapshots. *)

From S2P Require Import Prelude.
From S2P Require Import GoStrings.
From S2P Require Import GoTime.
From S2P Require Import Json.
From S2P Require Import Api.
From S2P Require Import Samples.
From S2P Require Import Kube.
From S2P Require Import OpsIntent.
From S2P Require Import PodBuilder.
From S2P Require Import Channel.
From S2P Require Import StatefulSet.
From S2P Require Import SubResources.
From S2P Require Import ConfigMerge.
From S2P Require Import ClawStore.
From S2P Require Import Snapshots.

Definition clawFinalizer : string := "claw.prismer.ai/cleanup".

Definition ContainsFinalizer (m : ObjectMeta) (f : string) : bool := bool_decide (f ∈ Finalizers m).

Definition set_finalizers (l : list string) (m : ObjectMeta) : ObjectMeta :=
  mkMeta (Name m) (GenerateName m) (Namespace m) (UID m) (ObjGeneration m) (Labels m) (Annotations m)
    (OwnerReferences m) l (CreationTimestamp m) (DeletionTimestamp m).

(** [EventClawProvisioning] and the other reasons of events.go. *)
Definition EventClawProvisioning : string := "ClawProvisioning".
Definition EventClawRunning : string := "ClawRunning".
Definition EventClawDegraded : string := "ClawDegraded".

Section Controller.
Context `{QuantityLib, ConditionLib, CronLib, RangeOrder, SortSlice}.

(** ** Requests on the Claw *)

Definition Get_claw : KM (R (option Claw)) :=
  let* ok := io in
  if ok then let* w := mget in mret (Ok (w_claw w)) else mret (Err StGetClaw).

(** A merge patch that replaces the finalizers.  An object that is being
    deleted goes when its last finalizer does. *)
Definition patch_finalizers (l : list string) : KM (R Claw) :=
  let* ok := io in
  let* w := mget in
  match ok, w_claw w with
  | true, Some st =>
      let new := set_meta (set_finalizers l) st in
      let deleted := bool_decide (l = []) && bool_decide (is_Some (DeletionTimestamp (Meta st))) in
      mput (set_claw (if deleted then None else Some new) w) ;;;
      emit EvClawPatch ;;; mret (Ok new)
  | _, _ => mret (Err StClawPatch)
  end.

(** [Status().Update] ignores everything but the status. *)
Definition Update_status (claw : Claw) : KM (R Claw) :=
  let* ok := io in
  let* w := mget in
  match ok, w_claw w with
  | true, Some st =>
      let new := mkClaw (Meta st) (Spec st) (Status claw) in
      mput (set_claw (Some new) w) ;;; emit (EvClawStatus (Phase (Status claw))) ;;; mret (Ok new)
  | _, _ => mret (Err StClawStatus)
  end.

(** ** The volume claims *)

Definition hasOwnerReference (m : ObjectMeta) (claw : Claw) : bool :=
  existsb (fun ref => bool_decide (or_UID ref = UID (Meta claw))) (OwnerReferences m).

Definition removeOwnerRef (refs : list OwnerReference) (uid : string) : list OwnerReference :=
  filter (fun ref => or_UID ref <> uid) refs.

(** A merge patch that replaces the owner references. *)
Definition Patch_owners (k : kind) (name : string) (l : list OwnerReference) : KM (R unit) :=
  let* ok := io in
  let* m := get_objs k in
  match ok, m !! name with
  | true, Some o => put_obj k name (with_meta (set_owners l) o) ;;; emit (EvPatch k name) ;;; mret (Ok tt)
  | _, _ => mret (Err (StPatch k name))
  end.

Fixpoint for_each {A} (f : A -> KM (R unit)) (l : list A) : KM (R unit) :=
  match l with
  | [] => mret (Ok tt)
  | a :: l' => f a ;;? for_each f l'
  end.

Definition claw_ref (claw : Claw) : OwnerReference :=
  mkOwnerRef "Claw" (Name (Meta claw)) (UID (Meta claw)) (Some false).

Definition add_owner (claw : Claw) (x : string * Obj (body KPVC)) : KM (R unit) :=
  let refs := OwnerReferences (o_Meta (x.2)) in
  if hasOwnerReference (o_Meta (x.2)) claw then mret (Ok tt)
  else Patch_owners KPVC (x.1) (refs ++ [claw_ref claw]).

Definition ensurePVCOwnerReferences (claw : Claw) : KM (R unit) :=
  do* items := List_labelled KPVC claw in for_each (add_owner claw) items.

Definition remove_owner (claw : Claw) (x : string * Obj (body KPVC)) : KM (R unit) :=
  let refs := OwnerReferences (o_Meta (x.2)) in
  if negb (hasOwnerReference (o_Meta (x.2)) claw) then mret (Ok tt)
  else Patch_owners KPVC (x.1) (removeOwnerRef refs (UID (Meta claw))).

Definition removePVCOwnerReferences (claw : Claw) : KM (R unit) :=
  do* items := List_labelled KPVC claw in for_each (remove_owner claw) items.

(** Not-found answers are ignored. *)
Definition deleteClawPVCs (claw : Claw) : KM (R unit) :=
  do* items := List_labelled KPVC claw in delete_all KPVC items.

(** ** Deletion and the finalizer *)

Definition reclaim_policy (claw : Claw) : string :=
  match Persistence (Spec claw) with
  | Some p => if decide (ReclaimPolicy p = ""%string) then ReclaimRetain else ReclaimPolicy p
  | None => ReclaimRetain
  end.

Definition archive_condition (claw : Claw) : Condition :=
  mkCondition "ArchivePending" "True" "ArchiveRequested"
    "PVCs retained pending archival; archiver sidecar will handle upload" (ObjGeneration (Meta claw)).

Definition with_condition (c : Condition) (claw : Claw) : Claw :=
  set_status (fun s => mkClawStatus (Phase s) (ObservedGeneration s) (SetStatusCondition c (Conditions s))
                         (AutoUpdate_ s)) claw.

(** The cleanup that the reclaim policy asks for. *)
Definition reclaim (claw : Claw) : KM (R Claw) :=
  let policy := reclaim_policy claw in
  if decide (policy = ReclaimDelete) then deleteClawPVCs claw ;;? mret (Ok claw)
  else if decide (policy = ReclaimRetain) then removePVCOwnerReferences claw ;;? mret (Ok claw)
  else if decide (policy = ReclaimArchive) then
    do* claw := Update_status (with_condition (archive_condition claw) claw) in
    (emit (EvEvent "ArchiveRequested") ;;; removePVCOwnerReferences claw) ;;? mret (Ok claw)
  else mret (Ok claw).

Definition handleDeletion (claw : Claw) : KM (R Z) :=
  if negb (ContainsFinalizer (Meta claw) clawFinalizer) then mret (Ok 0)
  else
    do* claw := reclaim claw in
    (patch_finalizers (filter (fun f => f <> clawFinalizer) (Finalizers (Meta claw))) ;;? mret (Ok 0)).

Definition ensureFinalizer (claw : Claw) : KM (R Claw) :=
  if ContainsFinalizer (Meta claw) clawFinalizer then mret (Ok claw)
  else patch_finalizers (Finalizers (Meta claw) ++ [clawFinalizer]).

(** ** Ops intents *)

Definition intent_cluster (claw : Claw) (w : World) : Cluster :=
  mkCluster claw (default claw (w_claw w)) (w_pods w).

Definition from_cluster (c : Cluster) (w : World) : World :=
  mkWorld ((fun _ => stored c) <$> w_claw w) (w_objs w) (pods c).

Definition consume_intent (claw : Claw) : KM (R Claw) :=
  let* x := zoom (intent_cluster claw) from_cluster EvOps
              (let* r := consumeAndExecuteOpsIntent in let* s := mget in
               mret (r, OpsIntent.claw s)) in
  mret (match x.1 with Ok _ => Ok (x.2) | Err _ => Err StIntent end).

(** ** The owned objects *)

Definition ensureService (claw : Claw) (adapter : RuntimeAdapter) : KM (R unit) :=
  match buildService claw adapter with
  | None => mret (Err StPanic)
  | Some desired =>
      ensure KService false claw (fun e d =>
        mkObj (set_labels (Labels (o_Meta d)) (o_Meta e))
          (mkService (ClusterIP (o_Body e)) (svc_Selector (o_Body e)) (svc_Ports (o_Body d)))) desired
  end.

Definition config_name (claw : Claw) : string := (Name (Meta claw) +:+ "-config")%string.

Definition buildConfigMap (claw : Claw) (adapter : RuntimeAdapter)
    : result config_error (Obj (gmap string string)) :=
  let? merged := config_text_of claw adapter in
  Ok (mkObj (new_meta (config_name claw) (Namespace (Meta claw)) (clawLabels claw) None)
        {["config.json"%string := merged]}).

Definition ensureConfigMap (claw : Claw) (adapter : RuntimeAdapter) : KM (R unit) :=
  match buildConfigMap claw adapter with
  | Err _ => mret (Err StConfig)
  | Ok desired =>
      ensure KConfigMap false claw (fun e d =>
        mkObj (set_labels (Labels (o_Meta d)) (o_Meta e)) (o_Body d)) desired
  end.

Definition ensureServiceAccount (claw : Claw) : KM (R unit) :=
  if isUserManagedSA claw then mret (Ok tt)
  else ensure KServiceAccount true claw (fun e d =>
         mkObj (set_annotations (Annotations (o_Meta d)) (set_labels (Labels (o_Meta d)) (o_Meta e))) (o_Body d))
         (buildServiceAccount claw).

Definition relabel {A} (e d : Obj A) : Obj A := mkObj (set_labels (Labels (o_Meta d)) (o_Meta e)) (o_Body d).

Definition deleteOwnedRole (claw : Claw) (name : string) : KM (R unit) := delete_owned KRole claw name.
Definition deleteOwnedRoleBinding (claw : Claw) (name : string) : KM (R unit) :=
  delete_owned KRoleBinding claw name.

Definition ensureRole (claw : Claw) : KM (R unit) :=
  if negb (needsRBAC claw) then deleteOwnedRole claw (Name (Meta claw))
  else ensure KRole true claw relabel (buildRole claw).

Definition ensureRoleBinding (claw : Claw) : KM (R unit) :=
  if negb (needsRBAC claw) then deleteOwnedRoleBinding claw (Name (Meta claw))
  else ensure KRoleBinding true claw relabel (buildRoleBinding claw).

Definition deleteOwnedNetworkPolicy (claw : Claw) (name : string) : KM (R unit) :=
  delete_owned KNetworkPolicy claw name.

Definition ensureNetworkPolicy (claw : Claw) (gatewayPort : Z) : KM (R unit) :=
  if negb (networkPolicyEnabled claw) then deleteOwnedNetworkPolicy claw (netpol_name claw)
  else ensure KNetworkPolicy true claw relabel (buildNetworkPolicy claw gatewayPort).

Definition deleteOwnedIngress (claw : Claw) (name : string) : KM (R unit) := delete_owned KIngress claw name.

Definition ensureIngress (claw : Claw) (gatewayPort : Z) : KM (R unit) :=
  match Ingress (Spec claw) with
  | Some i =>
      if in_Enabled i then
        ensure KIngress true claw (fun e d =>
          mkObj (set_annotations (Annotations (o_Meta d)) (set_labels (Labels (o_Meta d)) (o_Meta e))) (o_Body d))
          (buildIngress claw i gatewayPort)
      else deleteOwnedIngress claw (Name (Meta claw))
  | None => deleteOwnedIngress claw (Name (Meta claw))
  end.

Definition deleteOwnedPDB (claw : Claw) (name : string) : KM (R unit) := delete_owned KPDB claw name.

Definition ensurePDB (claw : Claw) : KM (R unit) :=
  if negb (pdbEnabled claw) then deleteOwnedPDB claw (Name (Meta claw))
  else ensure KPDB true claw relabel (buildPDB claw).

(** The object a built StatefulSet is created as. *)
Definition sts_obj (ss : StatefulSet) : Obj (body KStatefulSet) :=
  mkObj (new_meta (ss_Name ss) (ss_Namespace ss) (ss_Labels ss) None) (mkStsBody ss 0).

(** The template and the replicas of [d], the rest of [e]. *)
Definition update_sts (e d : StatefulSet) : StatefulSet :=
  mkStatefulSet (ss_Name e) (ss_Namespace e) (ss_Labels e) (ss_Replicas d) (ServiceName e)
    (ss_Selector e) (Template d) (VolumeClaimTemplates e).

Definition ensureStatefulSet (env : BuildEnv) (claw : Claw) (adapter : RuntimeAdapter) : KM (R unit) :=
  match buildStatefulSet env claw adapter with
  | Err e => mret (Err (StBuild e))
  | Ok ss =>
      ensure KStatefulSet false claw (fun e d =>
        mkObj (o_Meta e)
          (mkStsBody (update_sts (sts_Spec (o_Body e)) (sts_Spec (o_Body d))) (sts_Ready (o_Body e))))
        (sts_obj ss)
  end.

(** Everything between the intent and the status. *)
Definition ensure_objects (env : BuildEnv) (claw : Claw) (adapter : RuntimeAdapter) : KM (R unit) :=
  let gatewayPort := GatewayPort (DefaultConfig adapter) in
  ensureService claw adapter ;;?
  ensureConfigMap claw adapter ;;?
  ensureServiceAccount claw ;;?
  ensureRole claw ;;?
  ensureRoleBinding claw ;;?
  ensureNetworkPolicy claw gatewayPort ;;?
  ensureIngress claw gatewayPort ;;?
  ensurePDB claw ;;?
  ensureStatefulSet env claw adapter ;;?
  ensurePVCOwnerReferences claw.

(** ** Status *)

Definition runtime_condition (claw : Claw) (runtimeReady : bool) : Condition :=
  if runtimeReady
  then mkCondition "RuntimeReady" "True" "StatefulSetReady" "StatefulSet has ready replicas"
         (ObjGeneration (Meta claw))
  else mkCondition "RuntimeReady" "False" "StatefulSetNotReady"
         "Waiting for StatefulSet to become ready" (ObjGeneration (Meta claw)).

Definition phase_of (sts : option (Obj (body KStatefulSet))) : string * bool :=
  match sts with
  | None => (ClawPhasePending, false)
  | Some o => if 1 <=? sts_Ready (o_Body o) then (ClawPhaseRunning, true) else (ClawPhaseProvisioning, false)
  end.

Definition phase_event (phase : string) : option string :=
  if decide (phase = ClawPhaseProvisioning) then Some EventClawProvisioning
  else if decide (phase = ClawPhaseRunning) then Some EventClawRunning
  else if decide (phase = ClawPhaseDegraded \/ phase = ClawPhaseFailed) then Some EventClawDegraded
  else None.

Definition updateStatus (claw : Claw) : KM (R Claw) :=
  do* sts := Get_obj KStatefulSet (Name (Meta claw)) in
  (let '(phase, runtimeReady) := phase_of sts in
   (match phase_event phase with
    | Some reason =>
        if decide (Phase (Status claw) = phase) then mret tt else emit (EvEvent reason)
    | None => mret tt
    end) ;;;
   Update_status (with_condition (runtime_condition claw runtimeReady)
     (set_status (fun s => mkClawStatus phase (ObjGeneration (Meta claw)) (Conditions s) (AutoUpdate_ s)) claw))).

(** ** Reconcile *)

Definition reconcile_live (env : BuildEnv) (claw : Claw) (adapter : RuntimeAdapter) : KM (R Z) :=
  do* claw := ensureFinalizer claw in
  do* claw := consume_intent claw in
  (ensure_objects env claw adapter ;;?
   (do* fetched := Get_claw in
    match fetched with
    | None => mret (Ok 0)
    | Some claw =>
        do* claw := updateStatus claw in
        reconcileSnapshots claw
    end)).

Definition Reconcile (env : BuildEnv) (registry : Registry_) : KM (R Z) :=
  do* fetched := Get_claw in
  match fetched with
  | None => mret (Ok 0)
  | Some claw =>
      match Get registry (Runtime (Spec claw)) with
      | None => mret (Err StRuntime)
      | Some adapter =>
          if bool_decide (is_Some (DeletionTimestamp (Meta claw))) then handleDeletion claw
          else reconcile_live env claw adapter
      end
  end.
End Controller.

(** ** Deletion *)

Section Deletion.
Context `{QuantityLib, ConditionLib, CronLib, RangeOrder, SortSlice} (w : Oracle).
Implicit Types r : Run World store_event.

(** What is listed are stored objects, under distinct names. *)
Lemma List_labelled_spec k claw r :
  wp w (List_labelled k claw) (fun res r' => run_st r' = run_st r /\
    match res with
    | Ok l => NoDup l.*1 /\ forall n o, (n, o) ∈ l <->
        objs_of k r !! n = Some o /\ Labels (o_Meta o) !! LabelInstance = Some (Name (Meta claw))
    | Err _ => True
    end) r.
Proof.
  unfold List_labelled, get_objs. wp_step. case_if; wp_step; [|done]. split; [done|].
  unfold labelled. fold (objs_of k r). split.
  - eapply sublist_NoDup; [|apply fmap_sublist, sublist_filter]. rewrite range_perm. apply NoDup_fst_map_to_list.
  - intros n o. rewrite list_elem_of_filter, range_perm, elem_of_map_to_list. cbn. tauto.
Qed.

Lemma Patch_owners_spec k n l o r :
  objs_of k r !! n = Some o ->
  wp w (Patch_owners k n l) (fun res r' => only k (run_st r) (run_st r') /\
    objs_of k r' = if is_ok res then <[n := with_meta (set_owners l) o]> (objs_of k r) else objs_of k r) r.
Proof.
  intros Ho. unfold Patch_owners, get_objs, put_obj. wp_step. fold (objs_of k r). rewrite Ho.
  case_match; wp_step; [|done]. split; [apply only_set_objs|]. apply objs_of_set.
Qed.

(** A loop whose body replaces the object it is given. *)
Definition replaces k (f : string * Obj (body k) -> KM (R unit)) (g : Obj (body k) -> Obj (body k)) : Prop :=
  forall n o r, objs_of k r !! n = Some o ->
    wp w (f (n, o)) (fun res r' => only k (run_st r) (run_st r') /\
      objs_of k r' = if is_ok res then <[n := g o]> (objs_of k r) else objs_of k r) r.

Lemma for_each_spec k f g l r :
  replaces k f g -> NoDup l.*1 -> (forall n o, (n, o) ∈ l -> objs_of k r !! n = Some o) ->
  wp w (for_each f l) (fun res r' => only k (run_st r) (run_st r') /\
    (forall n, n ∉ l.*1 -> objs_of k r' !! n = objs_of k r !! n) /\
    (forall n o, (n, o) ∈ l -> objs_of k r' !! n = Some (g o) \/
       is_ok res = false /\ objs_of k r' !! n = Some o)) r.
Proof.
  intros Hf. revert r. induction l as [|[n0 o0] l IH]; intros r Hn Hl; cbn [for_each].
  { wp_step. split; [done|]. split; [done|]. by intros n o ?%not_elem_of_nil. }
  cbn in Hn. apply NoDup_cons in Hn as [Hn0 Hn].
  rewrite wp_andthen. eapply wp_conseq; [|apply Hf, Hl; by left].
  intros [[]|e] r1 [Honly Hr1]; cbn [is_ok] in Hr1.
  - eapply wp_conseq; [|apply IH; [done|]].
    2: { intros n o Hin. rewrite Hr1, lookup_insert_ne; [apply Hl; by right|].
         intros <-. by apply (list_elem_of_fmap_2 fst) in Hin. }
    intros res r2 (Honly2 & Hsame & Hdone). split; [by etrans|]. cbn. split.
    + intros n [Hne Hin]%not_elem_of_cons. by rewrite Hsame, Hr1, lookup_insert_ne.
    + intros n o [[= -> ->]|Hin]%elem_of_cons; [|by apply Hdone].
      left. by rewrite Hsame, Hr1, lookup_insert_eq.
  - split; [done|]. rewrite Hr1. split; [done|]. intros n o Hin. right. split; [done|]. by apply Hl.
Qed.

Definition disowned (claw : Claw) {A} (o : Obj A) : Obj A :=
  if hasOwnerReference (o_Meta o) claw
  then with_meta (set_owners (removeOwnerRef (OwnerReferences (o_Meta o)) (UID (Meta claw)))) o else o.

Lemma remove_owner_replaces claw : replaces KPVC (remove_owner claw) (disowned claw).
Proof.
  intros n o r Ho. unfold remove_owner, disowned. cbn [fst snd].
  destruct (hasOwnerReference (o_Meta o) claw); cbn [negb].
  - eapply wp_conseq; [|by apply (Patch_owners_spec _ _ _ o)]. auto.
  - wp_step. cbn [is_ok]. by rewrite insert_id.
Qed.

Lemma hasOwner_false m claw : hasOwnerReference m claw = false -> forall ref, ref ∈ OwnerReferences m -> or_UID ref <> UID (Meta claw).
Proof.
  unfold hasOwnerReference. intros Hf ref Hin Hu. apply not_true_iff_false in Hf. apply Hf, existsb_exists.
  exists ref. split; [by apply list_elem_of_In|]. by apply bool_decide_eq_true.
Qed.

Lemma with_own_owners {A} (o : Obj A) : with_meta (set_owners (OwnerReferences (o_Meta o))) o = o.
Proof. by destruct o as [[] ?]. Qed.

(** Up to its owner references. *)
Lemma disowned_spec claw {A} (o : Obj A) :
  exists l, disowned claw o = with_meta (set_owners l) o /\ forall ref, ref ∈ l -> or_UID ref <> UID (Meta claw).
Proof.
  unfold disowned. destruct (hasOwnerReference (o_Meta o) claw) eqn:Hh.
  - eexists. split; [done|]. by intros ref [? _]%list_elem_of_filter.
  - exists (OwnerReferences (o_Meta o)). split; [by rewrite with_own_owners|]. by apply hasOwner_false.
Qed.

Definition labelled_pvc (claw : Claw) {A} (o : Obj A) : Prop :=
  Labels (o_Meta o) !! LabelInstance = Some (Name (Meta claw)).

#[export] Instance labelled_pvc_dec claw {A} (o : Obj A) : Decision (labelled_pvc claw o).
Proof. unfold labelled_pvc. apply _. Defined.

(** Every claim kept, the labelled ones without the owner if [ok]. *)
Definition retained_pvcs (claw : Claw) (ok : bool) r r' : Prop :=
  forall n o, objs_of KPVC r !! n = Some o ->
    exists l, objs_of KPVC r' !! n = Some (with_meta (set_owners l) o) /\
      (ok = true -> labelled_pvc claw o -> forall ref, ref ∈ l -> or_UID ref <> UID (Meta claw)).

Lemma retained_same claw r r' : objs_of KPVC r' = objs_of KPVC r -> retained_pvcs claw false r r'.
Proof. intros Hs n o Ho. rewrite Hs. exists (OwnerReferences (o_Meta o)). by rewrite with_own_owners. Qed.

Lemma removePVC_spec claw r :
  wp w (removePVCOwnerReferences claw) (fun res r' => only KPVC (run_st r) (run_st r') /\
    retained_pvcs claw (is_ok res) r r') r.
Proof.
  unfold removePVCOwnerReferences. rewrite wp_andthen. eapply wp_conseq; [|apply List_labelled_spec].
  intros [l|e] r1 [Hst Hl]; (assert (objs_of KPVC r1 = objs_of KPVC r) as Hr1 by (unfold objs_of; by rewrite Hst)).
  2: { rewrite Hst. split; [done|]. by apply retained_same. }
  destruct Hl as [Hn Hl].
  eapply wp_conseq; [|apply (for_each_spec KPVC _ _ _ _ (remove_owner_replaces claw) Hn)].
  2: { intros n o [? _]%Hl. by rewrite Hr1. }
  intros res r2 (Honly & Hsame & Hdone). rewrite Hst in Honly. split; [done|]. intros n o Ho.
  destruct (decide (labelled_pvc claw o)) as [Hlab|Hlab].
  - destruct (disowned_spec claw o) as (refs & Hrefs & Hne).
    destruct (Hdone n o) as [Hd|[Hf Hd]]; [by apply Hl| |]; rewrite Hd.
    + exists refs. by rewrite Hrefs.
    + exists (OwnerReferences (o_Meta o)). rewrite with_own_owners. split; [done|]. by rewrite Hf.
  - exists (OwnerReferences (o_Meta o)). rewrite with_own_owners. split; [|done].
    rewrite Hsame, Hr1; [done|]. intros ([n' o'] & -> & Hin)%list_elem_of_fmap. cbn [fst] in Ho.
    apply Hl in Hin as [Ho' Hlab'].
    rewrite Ho in Ho'. by simplify_eq.
Qed.

Lemma deletePVC_spec claw r :
  wp w (deleteClawPVCs claw) (fun res r' => only KPVC (run_st r) (run_st r') /\
    (is_ok res = true -> forall n o, objs_of KPVC r !! n = Some o -> labelled_pvc claw o -> gone (objs_of KPVC r' !! n))) r.
Proof.
  unfold deleteClawPVCs. rewrite wp_andthen. eapply wp_conseq; [|apply List_labelled_spec].
  intros [l|e] r1 [Hst Hl]; [|by rewrite Hst]. destruct Hl as [_ Hl].
  eapply wp_conseq; [|apply delete_all_spec].
  intros res r2 (l1 & l2 & -> & Hok & Honly & _ & Hgone). rewrite Hst in Honly. split; [done|].
  intros Hres n o Ho Hlab. apply Hgone. rewrite (Hok Hres), app_nil_r in Hl.
  apply (list_elem_of_fmap_2 fst _ (n, o)). by apply Hl.
Qed.

Definition same_others k r r' : Prop := forall k', k <> k' -> objs_of k' r' = objs_of k' r.

Definition has_finalizer r : Prop :=
  exists c, w_claw (run_st r) = Some c /\ clawFinalizer ∈ Finalizers (Meta c).

Lemma Update_status_spec claw st r :
  w_claw (run_st r) = Some st ->
  wp w (Update_status claw) (fun res r' => (forall k, objs_of k r' = objs_of k r) /\
    exists st', w_claw (run_st r') = Some st' /\ Meta st' = Meta st /\ Spec st' = Spec st /\
      match res with Ok c => c = st' | Err _ => st' = st end) r.
Proof.
  intros Hst. unfold Update_status. wp_step. rewrite Hst. case_match; wp_step; (split; [done|]).
  - eexists. by cbn.
  - by exists st.
Qed.

(** The cleanup: what it does to the claims, and that the Claw stays. *)
Definition reclaimed (claw : Claw) (ok : bool) r r' : Prop :=
  same_others KPVC r r' /\ has_finalizer r' /\
  (reclaim_policy claw ∈ [ReclaimRetain; ReclaimArchive] -> retained_pvcs claw ok r r') /\
  (reclaim_policy claw = ReclaimDelete -> ok = true ->
     forall n o, objs_of KPVC r !! n = Some o -> labelled_pvc claw o -> gone (objs_of KPVC r' !! n)).

Lemma reclaim_spec claw r :
  w_claw (run_st r) = Some claw -> clawFinalizer ∈ Finalizers (Meta claw) ->
  wp w (reclaim claw) (fun res r' => reclaimed claw (is_ok res) r r' /\
    match res with Ok c => Finalizers (Meta c) = Finalizers (Meta claw) | Err _ => True end) r.
Proof.
  intros Hst Hfin. unfold reclaim.
  assert (forall r', only KPVC (run_st r) (run_st r') -> same_others KPVC r r' /\ has_finalizer r') as Honly.
  { intros r' (Hc & _ & Hk). split; [exact Hk|]. exists claw. by rewrite Hc. }
  case_decide as HD; [|case_decide as HR; [|case_decide as HA]].
  - rewrite wp_andthen. eapply wp_conseq; [|apply deletePVC_spec].
    intros [[]|e] r1 [Ho Hg]; wp_step; (split; [|done]); (split; [by apply Honly|split; [by apply Honly|split]]);
      try (rewrite HD; intros Hin; exfalso; revert Hin; apply (bool_decide_unpack _); vm_compute; done).
    + intros _ Hok. exact (Hg Hok).
    + intros _ [=].
  - rewrite wp_andthen. eapply wp_conseq; [|apply removePVC_spec].
    intros [[]|e] r1 [Ho Hg]; wp_step; (split; [|done]); (split; [by apply Honly|split; [by apply Honly|split]]);
      try done; by rewrite HR.
  - rewrite wp_andthen. eapply wp_conseq; [|by apply (Update_status_spec _ claw)].
    intros [c|e] r1 (Hsame & st' & Hc & Hmeta & _ & Hres).
    + subst st'. wp_step. rewrite wp_andthen, wp_bind, wp_emit.
      set (r2 := mkRun _ _ _). eapply wp_conseq; [|apply removePVC_spec].
      intros res r3 [(Hc3 & _ & Hk3) Hg].
      assert (reclaimed claw (is_ok res) r r3) as Hrec.
      { split; [intros k Hk; rewrite <- (Hsame k); by apply Hk3|].
        split; [exists c; rewrite Hc3, Hmeta; done|]. split; [|by rewrite HA].
        intros _ n o Ho. rewrite <- Hsame in Ho. destruct (Hg n o Ho) as (l & Hl & Hne). exists l.
        split; [done|]. unfold labelled_pvc in *. by rewrite Hmeta in Hne. }
      destruct res as [[]|e]; wp_step; (split; [done|]); [by rewrite Hmeta|done].
    + subst st'. split; [|done]. split; [intros k _; apply Hsame|].
      split; [by exists claw|]. split; [intros _; by apply retained_same, Hsame|by rewrite HA].
  - wp_step. split; [|done]. split; [done|]. split; [by exists claw|]. split; [|done].
    by intros [?|[?|?%not_elem_of_nil]%elem_of_cons]%elem_of_cons.
Qed.

(** C8: deleting a Claw keeps its data as the reclaim policy says,
    whatever requests fail.  The finalizer goes exactly when the deletion
    succeeds.  Under Retain and Archive no volume claim is deleted or changed
    but for its owner references, and when the finalizer is gone no claim of
    the Claw refers to it any more, so the garbage collector leaves them;
    under Delete every claim of the Claw has been deleted by then. *)
Theorem deletion_keeps_data claw r :
  w_claw (run_st r) = Some claw -> clawFinalizer ∈ Finalizers (Meta claw) ->
  wp w (handleDeletion claw) (fun res r' =>
    (is_ok res = false -> has_finalizer r') /\ (is_ok res = true -> ~ has_finalizer r') /\
    same_others KPVC r r' /\
    (reclaim_policy claw ∈ [ReclaimRetain; ReclaimArchive] -> retained_pvcs claw (is_ok res) r r') /\
    (reclaim_policy claw = ReclaimDelete -> is_ok res = true ->
       forall n o, objs_of KPVC r !! n = Some o -> labelled_pvc claw o -> gone (objs_of KPVC r' !! n))) r.
Proof.
  intros Hst Hfin. unfold handleDeletion, ContainsFinalizer. rewrite bool_decide_true by done. cbn [negb].
  rewrite wp_andthen. eapply wp_conseq; [|by apply reclaim_spec].
  intros [c|e] r1 [(Hsame & Hhas & Hret & Hdel) Hc].
  2: { by split; [|split; [|split; [|split]]]. }
  rewrite wp_andthen. unfold patch_finalizers. destruct Hhas as (st & Hst1 & Hfin1). wp_step. rewrite Hst1.
  case_match; wp_step.
  - split; [done|]. split; [|split; [exact Hsame|split; [exact Hret|exact Hdel]]].
    intros _ (c' & Hc' & Hin). cbn [run_st set_claw w_claw] in Hc'. case_match; [done|].
    apply Some_inj in Hc' as <-. cbn in Hin. by apply list_elem_of_filter in Hin as [? _].
  - split; [intros _; by exists st|]. split; [done|]. split; [done|]. split; [|done].
    intros Hp n o Ho. destruct (Hret Hp n o Ho) as (l & Hl & _). by exists l.
Qed.
End Deletion.

(** ** Objects of others

    The invariant of a live reconciliation: the objects of guarded kinds that
    something else controls are as they were, and the stored Claw is the one
    that was read, with its finalizer. *)

Section Walk.
Context `{QuantityLib, ConditionLib, CronLib, RangeOrder, SortSlice} (w : Oracle).
Context (uid : string) (s0 : World).
Implicit Types r : Run World store_event.

Definition mine (m : ObjectMeta) : Prop := UID m = uid /\ clawFinalizer ∈ Finalizers m.

Definition foreign_kept (s : World) : Prop :=
  forall k n o, guarded k = true -> w_objs s0 k !! n = Some o -> controlled_by (o_Meta o) uid = false ->
    w_objs s k !! n = Some o.

Definition live_inv r : Prop :=
  foreign_kept (run_st r) /\ exists c, w_claw (run_st r) = Some c /\ mine (Meta c).

(** A result that carries the Claw on. *)
Definition carries (m : KM (R Claw)) : Prop :=
  forall r, live_inv r -> wp w m (fun res r' => live_inv r' /\ forall c, res = Ok c -> mine (Meta c)) r.

Lemma inv_only k r r' :
  only k (run_st r) (run_st r') ->
  (guarded k = true -> forall n o, objs_of k r !! n = Some o -> controlled_by (o_Meta o) uid = false ->
     objs_of k r' !! n = Some o) ->
  live_inv r -> live_inv r'.
Proof.
  intros (Hc & _ & Hne) Hk [Hf Hm]. split; [|by rewrite Hc].
  intros k' n o Hg Ho Hu. destruct (decide (k = k')) as [<-|Hkk].
  - apply (Hk Hg n o); [by apply Hf|done].
  - rewrite Hne by done. by apply Hf.
Qed.

Lemma inv_same r t tr : live_inv r -> live_inv (mkRun (run_st r) t tr).
Proof. done. Qed.

Lemma ensure_inv k claw merge built :
  mine (Meta claw) -> preserves w live_inv (ensure k (guarded k) claw merge built).
Proof.
  intros [Hu _] r Hr. eapply wp_conseq; [|apply ensure_spec].
  intros res r' [Honly [[_ Hs]|[_ Hs]]]; (eapply (inv_only k); [exact Honly| |exact Hr]); intros Hg n o Ho Hf.
  - by rewrite Hs.
  - destruct (objs_of k r !! Name (o_Meta built)) as [e|] eqn:He; [destruct Hs as [Hown Hs]|]; rewrite Hs;
      rewrite lookup_insert_ne; try done; intros <-; rewrite Ho in He; simplify_eq.
    specialize (Hown Hg). unfold IsControlledBy in Hown. congruence.
Qed.

Lemma delete_owned_inv k claw name : mine (Meta claw) -> preserves w live_inv (delete_owned k claw name).
Proof.
  intros [Hu _] r Hr. eapply wp_conseq; [|apply delete_owned_spec].
  intros res r' (Honly & Hne & Hf & _). eapply (inv_only k); [exact Honly| |exact Hr].
  intros Hg n o Ho Hc. destruct (decide (n = name)) as [->|Hn]; [|by rewrite Hne].
  rewrite Hf; [done|]. intros e He. unfold IsControlledBy. rewrite Hu. congruence.
Qed.

Lemma inv_get_objs k : preserves w live_inv (get_objs k).
Proof. by intros r Hr. Qed.

#[local] Hint Extern 1 (preserves _ live_inv (ensure ?k true _ _ _)) =>
  (change true with (guarded k); apply ensure_inv; assumption) : preserves.
#[local] Hint Extern 1 (preserves _ live_inv (ensure ?k false _ _ _)) =>
  (change false with (guarded k); apply ensure_inv; assumption) : preserves.
#[local] Hint Resolve delete_owned_inv inv_get_objs : preserves.

Lemma add_owner_replaces claw :
  replaces w KPVC (add_owner claw)
    (fun o => if hasOwnerReference (o_Meta o) claw then o
              else with_meta (set_owners (OwnerReferences (o_Meta o) ++ [claw_ref claw])) o).
Proof.
  intros n o r Ho. unfold add_owner. cbn [fst snd]. destruct (hasOwnerReference (o_Meta o) claw).
  - wp_step. cbn [is_ok]. by rewrite insert_id.
  - eapply wp_conseq; [|by apply (Patch_owners_spec w _ _ _ o)]. auto.
Qed.

Lemma ensurePVC_inv claw : preserves w live_inv (ensurePVCOwnerReferences claw).
Proof.
  intros r Hr. unfold ensurePVCOwnerReferences. rewrite wp_andthen.
  eapply wp_conseq; [|apply List_labelled_spec]. intros [l|e] r1 [Hst Hl].
  2: { unfold live_inv. by rewrite Hst. }
  destruct Hl as [Hn Hl]. eapply wp_conseq; [|apply (for_each_spec w KPVC _ _ _ _ (add_owner_replaces claw) Hn)].
  2: { intros n o [? _]%Hl. unfold objs_of. by rewrite Hst. }
  intros res r2 (Honly & _). eapply inv_only; [by rewrite <- Hst|done|done].
Qed.

Lemma ensure_objects_inv env claw adapter :
  mine (Meta claw) -> preserves w live_inv (ensure_objects env claw adapter).
Proof.
  intros Hc. pose proof (ensurePVC_inv claw). unfold ensure_objects, andthen.
  unfold ensureService, ensureConfigMap, ensureServiceAccount, ensureRole, ensureRoleBinding,
    ensureNetworkPolicy, ensureIngress, ensurePDB, ensureStatefulSet, deleteOwnedRole, deleteOwnedRoleBinding,
    deleteOwnedNetworkPolicy, deleteOwnedIngress, deleteOwnedPDB.
  preserve.
Qed.

(** Ops intents change neither identity nor finalizers. *)
Definition both_mine (r : Run Cluster ops_event) : Prop :=
  mine (Meta (OpsIntent.claw (run_st r))) /\ mine (Meta (stored (run_st r))).

Lemma mine_clear m g : mine m -> mine (clearOpsIntentAnnotations g m).
Proof. unfold clearOpsIntentAnnotations. by case_if. Qed.

Lemma commit_mine base g reason i (r : Run Cluster ops_event) :
  both_mine r -> wp w (commit base g reason i) (fun _ => both_mine) r.
Proof.
  intros [Hc Hs]. unfold commit, put_claw, Patch. wp_step. case_if; wp_step; split; try done.
  by apply mine_clear.
Qed.

Lemma applyIntentPatch_mine p (r : Run Cluster ops_event) : both_mine r -> wp w (applyIntentPatch p) (fun _ => both_mine) r.
Proof.
  intros [Hc Hs]. unfold applyIntentPatch, put_claw. wp_step.
  repeat case_decide; wp_step; try done.
  unfold applyRestartPod. wp_step. case_if; wp_step; [|done].
  destruct (claw_pods _ _) as [|p0 l]; wp_step; [done|]. case_if; wp_step; done.
Qed.

Lemma consume_mine (r : Run Cluster ops_event) : both_mine r -> wp w consumeAndExecuteOpsIntent (fun _ => both_mine) r.
Proof.
  intros Hr. unfold consumeAndExecuteOpsIntent. rewrite wp_bind, wp_mget.
  destruct (parseOpsIntent _) as [[i|]|e]; [|by wp_step|by apply commit_mine].
  destruct (buildIntentPatch i) as [p|e]; [|by apply commit_mine].
  rewrite wp_bind. eapply wp_conseq; [|by apply applyIntentPatch_mine].
  intros [a|e] r1 Hr1; by apply commit_mine.
Qed.

Lemma consume_intent_carries claw : mine (Meta claw) -> carries (consume_intent claw).
Proof.
  intros Hc r [Hf (st & Hst & Hm)]. unfold consume_intent. rewrite wp_bind, wp_zoom, wp_bind.
  eapply wp_conseq; [|apply consume_mine].
  2: { split; cbn; [done|]. by rewrite Hst. }
  intros res r1 [Hc1 Hs1]. wp_step. split.
  - split; [exact Hf|]. cbn. rewrite Hst. cbn. eauto.
  - intros c Hres. cbn in Hres. destruct res; [|done]. by simplify_eq.
Qed.

Lemma Update_status_carries claw : carries (Update_status claw).
Proof.
  intros r [Hf (st & Hst & Hm)]. unfold Update_status. wp_step. rewrite Hst.
  case_match; wp_step; (split; [split; [exact Hf|]|]); cbn; eauto; intros c [= <-]; done.
Qed.

Lemma updateStatus_carries claw : carries (updateStatus claw).
Proof.
  intros r Hr. unfold updateStatus. rewrite wp_andthen. eapply wp_conseq; [|apply Get_obj_spec].
  intros [sts|e] r1 [Hst _].
  2: { split; [|done]. unfold live_inv. by rewrite Hst. }
  assert (live_inv r1) as Hr1 by (unfold live_inv; by rewrite Hst). clear Hst Hr r.
  destruct (phase_of sts) as [phase ready]. rewrite wp_bind.
  eapply (wp_conseq _ _ (fun _ => live_inv)).
  { intros _ r2 Hr2. by apply Update_status_carries. }
  destruct (phase_event phase); [case_decide|]; wp_step; done.
Qed.

Lemma Update_claw_carries claw : mine (Meta claw) -> carries (Update_claw claw).
Proof.
  intros Hc r [Hf (st & Hst & Hm)]. unfold Update_claw. wp_step. rewrite Hst.
  case_match; wp_step; (split; [split; [exact Hf|]|]); cbn; eauto; intros c [= <-]; done.
Qed.

Lemma snapshots_only_inv r r' : only KSnapshot (run_st r) (run_st r') -> live_inv r -> live_inv r'.
Proof. intros Ho. by apply (inv_only KSnapshot). Qed.

Lemma prune_only claw v n r :
  wp w (pruneSnapshots claw v n) (fun _ r' => only KSnapshot (run_st r) (run_st r')) r.
Proof.
  unfold pruneSnapshots. rewrite wp_andthen. eapply wp_conseq; [|apply List_labelled_spec].
  intros [l|e] r1 [Hst _]; [|by rewrite Hst]. case_if; [wp_step; by rewrite Hst|].
  eapply wp_conseq; [|apply delete_all_spec]. intros res r2 (? & ? & _ & _ & Ho & _). by rewrite <- Hst.
Qed.

Lemma snapshot_volume_inv vs claw n r :
  mine (Meta claw) -> live_inv r ->
  wp w (snapshot_volume vs claw n)
    (fun res r' => live_inv r' /\ forall cn, res = Ok cn -> mine (Meta (cn.1))) r.
Proof.
  intros Hc Hr. unfold snapshot_volume. destruct (ParseCron _) as [sched|].
  2: { wp_step. split; [done|]. by intros cn [= <-]. }
  rewrite wp_bind, wp_now. case_if; [wp_step; split; [done|]; by intros cn [= <-]|].
  rewrite wp_andthen. eapply wp_conseq; [|apply Create_obj_spec].
  intros [b|e] r1 [Ho _]; (assert (live_inv r1) as Hr1 by (by eapply snapshots_only_inv)); [|by split].
  rewrite wp_andthen. eapply wp_conseq; [|by apply Update_claw_carries].
  intros [c|e] r2 [Hr2 Hc2]; [|by split].
  rewrite wp_bind. eapply wp_conseq; [|apply prune_only]. intros ? r3 Ho3. wp_step.
  split; [exact (snapshots_only_inv r2 r3 Ho3 Hr2)|]. intros cn [= <-]. by apply Hc2.
Qed.

Lemma snapshots_inv claw : mine (Meta claw) -> preserves w live_inv (reconcileSnapshots claw).
Proof.
  intros Hc. unfold reconcileSnapshots. destruct (Persistence (Spec claw)) as [p|]; [|by intros r Hr].
  assert (forall l c n, mine (Meta c) -> preserves w live_inv (snapshot_volumes l c n)) as Hall.
  { intros l. induction l as [|vs l IH]; intros c n Hm r Hr; cbn [snapshot_volumes]; [done|].
    rewrite wp_andthen. eapply wp_conseq; [|by apply snapshot_volume_inv].
    intros [cn|e] r1 [Hr1 Hcn]; [|done]. apply IH; [|done]. by apply Hcn. }
  destruct (snap_configs claw p) as [|vs l]; [by intros r Hr|]. by apply Hall.
Qed.

Lemma Get_claw_spec r :
  wp w Get_claw (fun res r' => run_st r' = run_st r /\ run_trace r' = run_trace r /\
    match res with Ok c => c = w_claw (run_st r) | Err _ => True end) r.
Proof. unfold Get_claw. wp_step. case_if; by wp_step. Qed.

(** After the finalizer, the invariant holds to the end. *)
Lemma live_rest env claw adapter r :
  mine (Meta claw) -> live_inv r ->
  wp w (do* claw := consume_intent claw in
        (ensure_objects env claw adapter ;;?
         (do* fetched := Get_claw in
          match fetched with
          | None => mret (Ok 0)
          | Some claw => do* claw := updateStatus claw in reconcileSnapshots claw
          end))) (fun _ => live_inv) r.
Proof.
  intros Hc Hr. rewrite wp_andthen. eapply wp_conseq; [|by apply consume_intent_carries].
  intros [c1|e] r1 [Hr1 Hc1]; [|done].
  rewrite wp_andthen. eapply wp_conseq; [|apply ensure_objects_inv; [by apply Hc1|done]].
  intros [[]|e] r2 Hr2; [|done].
  rewrite wp_andthen. eapply wp_conseq; [|apply Get_claw_spec].
  intros [fetched|e] r3 (Hst & _ & Hf); (assert (live_inv r3) as Hr3 by (unfold live_inv; by rewrite Hst)); [|done].
  destruct fetched as [c3|]; [|by wp_step].
  rewrite wp_andthen. eapply wp_conseq; [|by apply updateStatus_carries].
  intros [c4|e] r4 [Hr4 Hc4]; [|done]. apply snapshots_inv; [by apply Hc4|done].
Qed.
End Walk.

Section Theorems.
Context `{QuantityLib, ConditionLib, CronLib, RangeOrder, SortSlice} (w : Oracle).
Implicit Types r : Run World store_event.

Lemma ensureFinalizer_spec claw r :
  w_claw (run_st r) = Some claw ->
  wp w (ensureFinalizer claw) (fun res r' => (forall k, objs_of k r' = objs_of k r) /\
    (forall k n, happened (EvCreate k n) r' -> happened (EvCreate k n) r) /\
    match res with
    | Ok c => w_claw (run_st r') = Some c \/ is_Some (DeletionTimestamp (Meta claw))
    | Err _ => w_claw (run_st r') = Some claw
    end /\
    forall c, res = Ok c -> UID (Meta c) = UID (Meta claw) /\ clawFinalizer ∈ Finalizers (Meta c)) r.
Proof.
  intros Hst. unfold ensureFinalizer, ContainsFinalizer. case_bool_decide as Hf.
  - wp_step. split; [done|]. split; [done|]. split; [by left|]. by intros c [= <-].
  - unfold patch_finalizers. wp_step. rewrite Hst. case_match; wp_step.
    2: { by split; [|split; [|split]]. }
    rewrite (bool_decide_false (_ ++ _ = [])) by (by destruct (Finalizers (Meta claw))). cbn [andb].
    split; [done|]. split.
    { intros k n [Hin|Hin]%elem_of_app; [done|]. by apply list_elem_of_singleton in Hin. }
    split; [by left|]. intros c [= <-]. cbn. split; [done|]. apply elem_of_app. right. by left.
Qed.

(** C9: whatever requests fail, reconciling a Claw neither changes nor
    deletes a ServiceAccount, Role, RoleBinding, NetworkPolicy, Ingress or
    PodDisruptionBudget that something else controls, even under the name the
    Claw would use. *)
Theorem foreign_objects_kept env registry uid r :
  (forall c, w_claw (run_st r) = Some c -> UID (Meta c) = uid) ->
  wp w (Reconcile env registry) (fun _ r' => forall k n o,
    guarded k = true -> objs_of k r !! n = Some o -> controlled_by (o_Meta o) uid = false ->
    objs_of k r' !! n = Some o) r.
Proof.
  intros Huid. unfold Reconcile. rewrite wp_andthen. eapply wp_conseq; [|apply Get_claw_spec].
  intros [fetched|e] r1 (Hst & _ & Hf).
  2: { intros k n o _ Ho _. unfold objs_of. by rewrite Hst. }
  rewrite <- Hst in Huid, Hf. assert (forall k, objs_of k r1 = objs_of k r) as Hr1
    by (intros k; unfold objs_of; by rewrite Hst).
  eapply (wp_conseq _ _ (fun _ r' => forall k n o, guarded k = true -> objs_of k r1 !! n = Some o ->
    controlled_by (o_Meta o) uid = false -> objs_of k r' !! n = Some o)).
  { intros _ r' Hk k n o Hg Ho. rewrite <- Hr1 in Ho. by apply Hk. }
  destruct fetched as [claw|]; [|by wp_step]. destruct (Get registry _) as [adapter|]; [|by wp_step].
  case_bool_decide.
  - destruct (decide (clawFinalizer ∈ Finalizers (Meta claw))) as [Hfin|Hfin].
    + eapply wp_conseq; [|by apply deletion_keeps_data].
      intros res r2 (_ & _ & Hs & _) k n o Hg Ho _. rewrite Hs; [done|]. by intros <-.
    + unfold handleDeletion, ContainsFinalizer. rewrite bool_decide_false by done. cbn [negb]. by wp_step.
  - unfold reconcile_live. rewrite wp_andthen. eapply wp_conseq; [|by apply (ensureFinalizer_spec claw)].
    intros [c|e] r2 (Hs & _ & Hc & Hm).
    2: { intros k n o _ Ho _. by rewrite Hs. }
    destruct (Hm c eq_refl) as [Hu Hfin]. destruct Hc as [Hc|Hd]; [|done].
    eapply wp_conseq; [|apply (live_rest w uid (run_st r1) env c adapter r2)].
    + intros _ r3 [Hkept _] k n o Hg Ho Hcb. exact (Hkept k n o Hg Ho Hcb).
    + split; [rewrite Hu; by apply Huid|done].
    + split; [|exists c; split; [done|split; [rewrite Hu; by apply Huid|done]]].
      intros k n o _ Ho _. change (objs_of k r2 !! n = Some o). by rewrite Hs.
Qed.

(** ** The finalizer comes first *)

Definition no_create (r : Run World store_event) : Prop := forall k n, ~ happened (EvCreate k n) r.

Lemma no_create_emit e : (forall k n, e <> EvCreate k n) -> preserves w no_create (emit e).
Proof.
  intros He r Hr k n Hin. unfold happened in Hin. cbn in Hin.
  apply elem_of_app in Hin as [Hin|Hin%list_elem_of_singleton]; [by eapply Hr|by eapply He].
Qed.

Lemma no_create_io : preserves w no_create io.
Proof. by intros r Hr. Qed.
Lemma no_create_now : preserves w no_create now.
Proof. by intros r Hr. Qed.
Lemma no_create_mput s : preserves w no_create (mput s).
Proof. by intros r Hr. Qed.
Lemma no_create_mmodify f : preserves w no_create (mmodify f).
Proof. by intros r Hr. Qed.
#[local] Hint Resolve no_create_io no_create_now no_create_mput no_create_mmodify : preserves.
#[local] Hint Extern 1 (preserves _ no_create (emit _)) => (apply no_create_emit; discriminate) : preserves.

Lemma deletion_creates_nothing claw : preserves w no_create (handleDeletion claw).
Proof.
  assert (forall {A} k (l : list (string * A)), preserves w no_create (delete_all k l)) as Hall.
  { intros A k l. induction l as [|[name a] l IH]; cbn [delete_all]; unfold andthen, Delete_obj, get_objs; preserve. }
  assert (forall c l, preserves w no_create (for_each (remove_owner c) l)) as Heach.
  { intros c l. induction l as [|a l IH]; cbn [for_each]; unfold andthen, remove_owner, Patch_owners, get_objs, put_obj;
      preserve. }
  unfold handleDeletion, reclaim, deleteClawPVCs, removePVCOwnerReferences, List_labelled, get_objs,
    Update_status, patch_finalizers, andthen. preserve.
Qed.

(** C11: a reconciliation creates objects only for a Claw that carries the
    finalizer by then, whatever requests fail: nothing is left behind when the
    Claw is deleted. *)
Theorem finalizer_first env registry r :
  no_create r ->
  wp w (Reconcile env registry) (fun _ r' => (exists k n, happened (EvCreate k n) r') -> has_finalizer r') r.
Proof.
  intros Hr. unfold Reconcile. rewrite wp_andthen. eapply wp_conseq; [|apply Get_claw_spec].
  intros [fetched|e] r1 (Hst & Htr & Hf).
  2: { intros (k & n & Hh). unfold happened in Hh. rewrite Htr in Hh. by destruct (Hr k n). }
  assert (no_create r1) as Hr1 by (intros k n; unfold happened; rewrite Htr; apply Hr). clear Hr Htr.
  assert (forall m : KM (R Z), preserves w no_create m ->
    wp w m (fun _ r' => (exists k n, happened (EvCreate k n) r') -> has_finalizer r') r1) as Hnone.
  { intros m Hm. eapply wp_conseq; [|by apply Hm]. intros res r2 Hr2 (k & n & Hh). by destruct (Hr2 k n). }
  destruct fetched as [claw|]; [|apply Hnone; auto with preserves].
  destruct (Get registry _) as [adapter|]; [|apply Hnone; auto with preserves].
  case_bool_decide; [apply Hnone, deletion_creates_nothing|].
  unfold reconcile_live. rewrite wp_andthen. eapply wp_conseq; [|apply (ensureFinalizer_spec claw); by rewrite Hst].
  intros [c|e] r2 (_ & Hev & Hc & Hm).
  2: { intros (k & n & Hh%Hev). by destruct (Hr1 k n). }
  destruct (Hm c eq_refl) as [Hu Hfin]. destruct Hc as [Hc|Hd]; [|done].
  eapply wp_conseq; [|apply (live_rest w (UID (Meta c)) (run_st r2) env c adapter r2)].
  - intros _ r3 (_ & c3 & Hc3 & _ & Hfin3) _. by exists c3.
  - done.
  - split; [by intros k n o|]. by exists c.
Qed.
End Theorems.

(** ** Evaluation *)

Module Sample.
#[local] Existing Instance suffix_quantities.
#[local] Existing Instance sorted_range.
#[local] Existing Instance insertion_slice.
#[local] Existing Instance Snapshots.Sample.hourly.

Definition replace_condition : ConditionLib := {|
  SetStatusCondition c l := c :: filter (fun d => co_Type d <> co_Type c) l;
|}.
#[local] Existing Instance replace_condition.

Definition agent_meta (deleted : option Z) (finalizers : list string) : ObjectMeta :=
  mkMeta "agent" "" "default" "u1" 1 ∅ None [] finalizers 0 deleted.

Definition agent (deleted : option Z) (finalizers : list string) (policy : string) : Claw :=
  mkClaw (agent_meta deleted finalizers)
    (mkClawSpec RuntimeOpenClaw None (Some (mkCredentials (Some "keys"%string) None [])) []
       (Some (mkPersistence policy (Some (StatefulSet.Sample.volume "session")) None None [] None))
       None None None None None None None None None)
    (mkClawStatus "" 0 [] None).

Definition claim (name : string) (owners : list OwnerReference) : string * Obj (body KPVC) :=
  (name, mkObj (mkMeta name "" "default" "" 0 {[LabelInstance := "agent"%string]} None owners
                 ["kubernetes.io/pvc-protection"%string] 0 None) tt).

Definition by_agent : OwnerReference := mkOwnerRef "Claw" "agent" "u1" (Some false).

Definition world (c : Claw) : World :=
  mkWorld (Some c)
    (put_objs KPVC (list_to_map [claim "session-agent-0" [by_agent]]) Snapshots.Sample.no_objects) [].

Definition deleted_agent : Claw := agent (Some 5) [clawFinalizer] ReclaimRetain.

Lemma deletion_keeps_data_witness :
  wp all_ok (handleDeletion deleted_agent) (fun res r' => is_ok res = true /\
    exists l, objs_of KPVC r' !! "session-agent-0"%string =
      Some (with_meta (set_owners l) (snd (claim "session-agent-0" [by_agent]))) /\ Forall (fun ref => or_UID ref <> "u1"%string) l)
    (mkRun (world deleted_agent) 0 []).
Proof.
  pose proof (deletion_keeps_data all_ok deleted_agent (mkRun (world deleted_agent) 0 []) eq_refl
    ltac:(decide_now)) as Hd.
  unfold wp in *.
  assert (Hok : is_ok (fst (handleDeletion deleted_agent all_ok (mkRun (world deleted_agent) 0 []))) = true)
    by (vm_compute; reflexivity).
  destruct (handleDeletion deleted_agent all_ok (mkRun (world deleted_agent) 0 [])) as [res r'].
  cbn [fst] in Hok. split; [exact Hok|].
  destruct Hd as (_ & _ & _ & Hret & _).
  destruct (Hret ltac:(decide_now) "session-agent-0"%string _ eq_refl) as (l & Hl & Hne).
  exists l. split; [exact Hl|]. apply Forall_forall. intros ref Hin. by apply (Hne Hok eq_refl).
Defined.

(** A service account of the Claw's name that someone else controls. *)
Definition foreign_account : Obj (body KServiceAccount) :=
  mkObj (mkMeta "agent" "" "default" "" 0 ∅ None [mkOwnerRef "Team" "ops" "u2" (Some true)] [] 0 None)
    (mkServiceAccountBody (Some true)).

Definition shared_world : World :=
  set_objs KServiceAccount {["agent"%string := foreign_account]} (world (agent None [] ReclaimRetain)).

Lemma foreign_objects_kept_witness :
  wp all_ok (Reconcile StatefulSet.Sample.build_env operator_registry)
    (fun _ r' => objs_of KServiceAccount r' !! "agent"%string = Some foreign_account) (mkRun shared_world 0 []).
Proof.
  eapply wp_conseq; [|apply (foreign_objects_kept all_ok StatefulSet.Sample.build_env operator_registry "u1"
    (mkRun shared_world 0 []))].
  - intros res r' Hk. by apply (Hk KServiceAccount "agent"%string).
  - intros c Hc. apply Some_inj in Hc as <-. reflexivity.
Defined.

Definition reconciled : Run World store_event :=
  snd (exec (Reconcile StatefulSet.Sample.build_env operator_registry) all_ok (world (agent None [] ReclaimRetain))).

Lemma finalizer_first_witness :
  has_finalizer reconciled.
Proof.
  pose proof (finalizer_first all_ok StatefulSet.Sample.build_env operator_registry
    (mkRun (world (agent None [] ReclaimRetain)) 0 [])) as Hf.
  unfold wp, reconciled, exec in *.
  assert (Hev : existsb (fun e => match e with EvCreate KService _ => true | _ => false end)
    (run_trace (snd (Reconcile StatefulSet.Sample.build_env operator_registry all_ok
      (mkRun (world (agent None [] ReclaimRetain)) 0 [])))) = true) by (vm_compute; reflexivity).
  destruct (Reconcile _ _ all_ok _) as [res r']. cbn [snd] in Hev |- *. apply Hf.
  - intros k n Hin. by apply not_elem_of_nil in Hin.
  - apply existsb_exists in Hev as ([[] n| | | | | | | |] & Hin & He); try discriminate He.
    exists KService, n. by apply list_elem_of_In.
Defined.

(** A Service is not checked: one that someone else controls gets the ports
    and the labels of the Claw. *)
Definition foreign_service : Obj (body KService) :=
  mkObj (mkMeta "agent" "" "default" "" 0 ∅ None [mkOwnerRef "Team" "ops" "u2" (Some true)] [] 0 None)
    (mkService "10.0.0.7" {["app"%string := "shop"%string]} [mkServicePort "http" 80 8080 "TCP"]).

Example service_overwritten :
  svc_Ports ∘ o_Body <$>
    objs_of KService (snd (exec (Reconcile StatefulSet.Sample.build_env operator_registry) all_ok
      (set_objs KService {["agent"%string := foreign_service]} (world (agent None [] ReclaimRetain)))))
      !! "agent"%string
  = Some [mkServicePort "gateway" 18900 18900 "TCP"].
Proof. vm_compute. reflexivity. Qed.
End Sample.
