(* ===== verification/Repair.v ===== *)
(** * From an approval to the repaired claw (cmd/kubectl-claw,
    internal/controller)

    Three programs repair a claw: a person approves an escalation with kubectl
    claw, the ops controller writes the approved action into the annotation of
    the claw and closes the escalation, and the claw reconciler executes the
    action.  They meet only in the cluster's objects.  The runs are those of
    the whole [kubectl_main], [ClawOps.Reconcile] and
    [ClawController.Reconcile]. *)

From S2P Require Import Prelude.
From S2P Require Import GoStrings.
From S2P Require Import GoTime.
From S2P Require Import Api.
From S2P Require Import Escalations.
From S2P Require Import Kubectl.
From S2P Require Import Samples.
From S2P Require Import Rules.
From S2P Require Import Kube.
From S2P Require Import PodBuilder.
From S2P Require Import Channel.
From S2P Require Import StatefulSet.
From S2P Require Import ConfigMerge.
From S2P Require Import ClawStore.
From S2P Require Import Snapshots.
From S2P Require Import ClawController.
From S2P Require Import OpsIntent.
From S2P Require Import ClawOps.

(** What the claw reconciler finds after a run of the ops controller, beside
    the objects [objs] of the namespace. *)
Definition claw_world `{QuantityLib} (objs : forall k, Objects k) (s : World) : ClawStore.World :=
  ClawStore.mkWorld (Some (stored (cluster s))) objs (pods (cluster s)).

Section Remediation.
Context `{QuantityLib} (w : Oracle) (Hok : forall n, o_ok w n = true).
Implicit Types r : Run World clawops_event.

(** ** The ops controller *)

(** What it makes of the claw: the action is in the annotation. *)
Definition asked (raw : string) (c : Claw) : Claw :=
  apply_patch c (set_meta (put_annotation AnnotationOpsIntent raw) c) c.

Lemma asked_intent raw c : annotation (Meta (asked raw c)) AnnotationOpsIntent = Some raw.
Proof.
  unfold asked. rewrite annotation_patch. cbn [set_meta Meta].
  rewrite annotation_put, (decide_True (P := AnnotationOpsIntent = _)) by done. by case_decide.
Qed.

Lemma asked_other raw c k :
  k <> AnnotationOpsIntent -> annotation (Meta (asked raw c)) k = annotation (Meta c) k.
Proof.
  intros Hk. unfold asked. rewrite annotation_patch. cbn [set_meta Meta].
  rewrite annotation_put, (decide_False (P := AnnotationOpsIntent = _)) by congruence. by case_decide.
Qed.

Lemma asked_spec raw c : Spec (asked raw c) = Spec c.
Proof.
  unfold asked, apply_patch. cbn [Spec set_meta]. unfold merge_field, merge_resources.
  rewrite !decide_True by done. by destruct (Spec c).
Qed.

Lemma asked_name raw c : Name (Meta (asked raw c)) = Name (Meta c).
Proof. reflexivity. Qed.

Lemma write_intent_fresh raw r :
  claw (cluster (run_st r)) = stored (cluster (run_st r)) ->
  wp w (write_intent raw) (fun ok r' => ok = true /\
    let k := cluster (run_st r) in
    run_st r' = set_cluster (mkCluster (asked raw (stored k)) (asked raw (stored k)) (pods k)) (run_st r)) r.
Proof using Hok.
  intros Hf. unfold write_intent, on_cluster, put_claw, Patch. wp_step. cbn [cluster stored claw].
  rewrite Hok. wp_step. split; [done|]. unfold asked. cbn [claw stored pods set_cluster]. by rewrite Hf.
Qed.

(** Only the name of the claw tells which escalations are its own. *)
Lemma is_approved_name c c' e : Name (Meta c) = Name (Meta c') -> is_approved c e = is_approved c' e.
Proof. unfold is_approved. by intros ->. Qed.

Definition none_approved (c : Claw) (l : list ClawOpsEscalation) : Prop :=
  Forall (fun e => is_approved c e = false) l.

Lemma process_none l r :
  none_approved (the_claw (run_st r)) l ->
  wp w (process_approved l) (fun res r' => res = Ok tt /\ r' = r) r.
Proof.
  induction 1 as [|e l He _ IH]; cbn [process_approved]; wp_step; [done|]. by rewrite He.
Qed.

Lemma process_skips l1 l2 Q r :
  none_approved (the_claw (run_st r)) l1 ->
  wp w (process_approved l2) Q r -> wp w (process_approved (l1 ++ l2)) Q r.
Proof.
  intros Hl HQ. induction Hl as [|e l He _ IH]; cbn [process_approved app]; [exact HQ|].
  wp_step. by rewrite He.
Qed.

Lemma executed_alone e st l1 l2 :
  Forall (fun x => same_object x e = false) (l1 ++ l2) ->
  map (fun x => if same_object x (with_es_status st e) then with_es_status st x else x) (l1 ++ e :: l2) =
  l1 ++ with_es_status st e :: l2.
Proof.
  intros [H1 H2]%Forall_app. rewrite map_app. cbn [map].
  assert (Hmap : forall l, Forall (fun x => same_object x e = false) l ->
    map (fun x => if same_object x (with_es_status st e) then with_es_status st x else x) l = l).
  { induction 1 as [|x l Hx _ IH]; [done|]. cbn [map]. rewrite IH.
    change (same_object x (with_es_status st e)) with (same_object x e). by rewrite Hx. }
  rewrite !Hmap by done. change (same_object e (with_es_status st e)) with (same_object e e).
  unfold same_object. by rewrite !bool_decide_true.
Qed.

(** The only escalation of the claw that is approved. *)
Definition no_other_approved (c : Claw) (e : ClawOpsEscalation) (l : list ClawOpsEscalation) : Prop :=
  Forall (fun x => same_object x e = false /\
            (Namespace (es_Meta x) = Namespace (Meta c) -> is_approved c x = false)) l.

Definition only_approved (c : Claw) (e : ClawOpsEscalation) (l : list ClawOpsEscalation) : Prop :=
  Namespace (es_Meta e) = Namespace (Meta c) /\ is_approved c e = true /\ no_other_approved c e l.

Lemma is_approved_spec c e :
  is_approved c e = true <->
  ClawRef (es_Spec e) = Name (Meta c) /\ es_Phase (es_Status e) = EscalationPhaseApproved /\
  ProposedAction (es_Status e) <> ""%string.
Proof.
  unfold is_approved. rewrite !andb_true_iff, negb_true_iff, bool_decide_eq_false, !bool_decide_eq_true. tauto.
Qed.

Lemma only_approved_listed c e l1 l2 :
  only_approved c e (l1 ++ l2) ->
  exists k1 k2, none_approved c k1 /\ none_approved c k2 /\
    filter (fun x => Namespace (es_Meta x) = Namespace (Meta c)) (l1 ++ e :: l2) = k1 ++ e :: k2.
Proof.
  intros (Hns & _ & [H1 H2]%Forall_app). eexists _, _. split; [|split].
  3:{ rewrite filter_app, filter_cons, decide_True by done. reflexivity. }
  all: unfold none_approved; rewrite Forall_forall; intros x [Hx Hin]%list_elem_of_filter.
  - rewrite Forall_forall in H1. by apply H1.
  - rewrite Forall_forall in H2. by apply H2.
Qed.

Lemma hand_over e l1 l2 r :
  let c := stored (cluster (run_st r)) in
  claw (cluster (run_st r)) = c -> escalations (run_st r) = l1 ++ e :: l2 ->
  only_approved c e (l1 ++ l2) ->
  let c' := asked (ProposedAction (es_Status e)) c in
  wp w processApprovedEscalations (fun res r' => res = Ok tt /\ exists t,
    run_st r' = mkWorld (mkCluster c' c' (pods (cluster (run_st r))))
                  (l1 ++ with_es_status (executed_status (es_Status e) t) e :: l2)
                  (RuleEngine (run_st r)) (actionCounts (run_st r)) /\
    EvStatus (with_es_status (executed_status (es_Status e) t) e) ∈ run_trace r') r.
Proof using Hok.
  intros c Hf Hl Ho c'. destruct (only_approved_listed _ _ _ _ Ho) as (k1 & k2 & Hk1 & Hk2 & Hk).
  destruct Ho as (_ & Ha & Hne).
  unfold processApprovedEscalations, list_escalations. wp_step. rewrite Hok. wp_step.
  unfold the_claw. rewrite Hl, Hf. fold c. rewrite Hk.
  apply process_skips; [unfold the_claw; cbn [run_st]; by rewrite Hf|].
  cbn [process_approved]. wp_step. unfold the_claw at 1. rewrite Hf. fold c. rewrite Ha.
  rewrite wp_bind. eapply wp_conseq; [|apply write_intent_fresh; exact Hf].
  cbn [run_st]. intros ok r1 [-> Hr1]. wp_step. unfold update_status, set_escalations. wp_step.
  rewrite Hok. wp_step. eapply wp_conseq; [|apply process_none].
  - intros res r2 [-> ->]. split; [done|]. eexists. cbn [run_st]. rewrite Hr1.
    cbn [cluster set_cluster escalations RuleEngine actionCounts]. rewrite Hl, executed_alone by (eapply Forall_impl; [exact Hne|by intros x []]).
    split; [reflexivity|]. cbn [run_trace]. apply elem_of_app. left. apply elem_of_app. right. by left.
  - unfold none_approved in *. cbn [run_st]. rewrite Hr1. unfold the_claw. cbn [cluster set_cluster claw].
    eapply Forall_impl; [exact Hk2|]. cbn. intros x <-. by apply is_approved_name.
Qed.

(** *** The rest of the run *)

(** The signals that the pods of the claw [c] give. *)
Definition claw_signals (c : Claw) (l : list Pod) : list Signal :=
  flat_map ExtractPodSignals
    (filter (fun p => Namespace (pod_Meta p) = Namespace (Meta c) /\
               Labels (pod_Meta p) !! "claw.prismer.ai/instance"%string = Some (Name (Meta c))) l).

(** No rule answers any of them, at any time. *)
Definition no_rule_matches (e : Engine) (c : Claw) (l : list Pod) : Prop :=
  forall t sig, sig ∈ claw_signals c l -> Match e t (Name (Meta c)) sig = None.

Section Settled.
Context (cfg : ClawOpsConfig) (k : Cluster) (e : Engine) (ev : clawops_event).
Context (Hquiet : no_rule_matches e (claw k) (pods k)).

(** Nothing touches the claw and the rules any more. *)
Definition settled r : Prop :=
  cluster (run_st r) = k /\ RuleEngine (run_st r) = e /\ ev ∈ run_trace r.
Abbreviation keeps m := (preserves w settled m).

Lemma settled_io : keeps io. Proof using Type. by intros r Hr. Qed.
Lemma settled_now : keeps now. Proof using Type. by intros r Hr. Qed.
Lemma settled_uuid : keeps new_uuid. Proof using Type. by intros r Hr. Qed.
Lemma settled_escalations f : keeps (set_escalations f). Proof using Type. by intros r Hr. Qed.
Lemma settled_counts f : keeps (set_counts f). Proof using Type. by intros r Hr. Qed.
Lemma settled_emit e' : keeps (emit e').
Proof using Type. intros r (Hk & He & Hev). split; [done|]. split; [done|]. apply elem_of_app. by left. Qed.
#[local] Hint Resolve settled_io settled_now settled_uuid settled_escalations settled_counts settled_emit : preserves.

Lemma settled_escalate sig : keeps (escalate cfg sig).
Proof using Type. unfold escalate, create_escalation, update_status. preserve. Qed.
#[local] Hint Resolve settled_escalate : preserves.

Lemma settled_escalate_all l : keeps (escalate_all cfg l).
Proof using Type. unfold escalate_all. preserve. Qed.

Lemma settled_gc : keeps (gcExpiredEscalations cfg).
Proof using Type.
  assert (Hgc : forall ttl l, keeps (gc_escalations ttl l)).
  { intros ttl l. induction l as [|x l IH]; cbn [gc_escalations]; unfold delete_escalation; preserve. }
  unfold gcExpiredEscalations, list_escalations. preserve. Qed.

Lemma nothing_matches t c l :
  (forall sig, sig ∈ l -> Match e t c sig = None) -> MatchHighestPriority e t c l = None.
Proof using Type.
  intros Hl. pose proof (match_fold_best e t c l) as Hb. unfold MatchHighestPriority.
  destruct (foldl _ _ _) as [[[sig rule]|] rank]; unfold best_of in Hb; cbn [fst snd] in Hb.
  - destruct Hb as (_ & Hm & l1 & l2 & -> & _). rewrite Hl in Hm; [done|]. apply elem_of_app. right. by left.
  - destruct Hb as [-> _]. done.
Qed.

Lemma settled_handle l : (forall sig, sig ∈ l -> sig ∈ claw_signals (claw k) (pods k)) -> keeps (handle_signals cfg l).
Proof using Hquiet.
  intros Hl r Hr. unfold handle_signals, isRateLimited, set_counts. wp_step. destruct Hr as (Hk & He & Hev).
  case_if; [apply settled_escalate_all; by split_and!|]. wp_step. cbn [cluster RuleEngine]. unfold the_claw. rewrite Hk.
  rewrite He, nothing_matches by (intros sig Hsig; by apply Hquiet, Hl).
  apply settled_escalate_all. by split_and!.
Qed.

(** Everything after the approved escalations. *)
Lemma settled_tail r :
  settled r ->
  wp w (let* _ := gcExpiredEscalations cfg in
        let* signals := collectSignals in
        match signals with
        | Err err => mret (Err err)
        | Ok [] => mret (Ok tt)
        | Ok ((_ :: _) as signals) =>
            let* signals := deduplicateSignals signals in
            match signals with [] => mret (Ok tt) | _ => handle_signals cfg signals ;;; mret (Ok tt) end
        end) (fun res r' => res = Ok tt /\ settled r') r.
Proof using Hok Hquiet.
  intros Hr. rewrite wp_bind. eapply wp_conseq; [|by apply settled_gc]. cbn beta. intros res r1 H1.
  unfold collectSignals. wp_step. rewrite Hok. wp_step. pose proof H1 as (Hk & _). unfold the_claw. rewrite Hk.
  fold (claw_signals (claw k) (pods k)).
  destruct (claw_signals (claw k) (pods k)) as [|sig signals] eqn:Es; [wp_step; by split|].
  unfold deduplicateSignals, list_escalations. wp_step. rewrite Hok. wp_step.
  set (l := filter _ (sig :: signals)).
  assert (Hl : forall x, x ∈ l -> x ∈ claw_signals (claw k) (pods k)).
  { intros x [_ Hx]%list_elem_of_filter. by rewrite Es. }
  clearbody l. destruct l as [|y l]; [wp_step; by split|].
  wp_step. eapply wp_conseq; [|apply settled_handle; [exact Hl|]]; [|exact H1].
  cbn beta. intros [] r2 H2. by wp_step.
Qed.
End Settled.

(** The whole run of the ops controller: the claw gets the approved action. *)
Lemma ops_run cfg e l1 l2 r :
  let c := stored (cluster (run_st r)) in
  escalations (run_st r) = l1 ++ e :: l2 -> only_approved c e (l1 ++ l2) ->
  no_rule_matches (RuleEngine (run_st r)) c (pods (cluster (run_st r))) ->
  let c' := asked (ProposedAction (es_Status e)) c in
  wp w (Reconcile cfg) (fun res r' => res = Ok tt /\
    cluster (run_st r') = mkCluster c' c' (pods (cluster (run_st r))) /\
    exists t, EvStatus (with_es_status (executed_status (es_Status e) t) e) ∈ run_trace r') r.
Proof using Hok.
  intros c Hl Ho Hq c'. unfold Reconcile. rewrite wp_bind, wp_io, Hok, wp_bind. unfold on_cluster.
  rewrite wp_zoom, wp_mmodify. cbn [run_st run_tick run_trace map]. rewrite app_nil_r.
  rewrite wp_bind. eapply wp_conseq; [|apply (hand_over e l1 l2)];
    cbn [run_st set_cluster cluster stored claw escalations RuleEngine]; [|done..].
  intros res r1 (_ & t & Hr1 & Hev). fold c c' in Hr1. cbn [pods actionCounts] in Hr1.
  eapply wp_conseq; [|apply (settled_tail cfg (mkCluster c' c' (pods (cluster (run_st r))))
                               (RuleEngine (run_st r)) (EvStatus (with_es_status (executed_status (es_Status e) t) e)))].
  - intros res' r2 (-> & Hk & _ & Hev2). split; [done|]. split; [exact Hk|]. by exists t.
  - exact Hq.
  - unfold settled. rewrite Hr1. by split_and!.
Qed.

(** ** The claw reconciler *)

Implicit Types q : Run Cluster ops_event.

Lemma parse_asked raw c i :
  raw <> ""%string -> ValidateIntent raw = Ok i -> currentIntentGen (Meta c) < Generation i ->
  parseOpsIntent (Meta (asked raw c)) = Ok (Some i).
Proof.
  intros Hne Hv Hg. unfold parseOpsIntent. rewrite asked_intent, decide_False, Hv by done. cbn [rbind].
  cbv zeta. rewrite asked_other by done. apply Z.leb_gt in Hg. unfold currentIntentGen in Hg.
  destruct (annotation (Meta c) AnnotationOpsIntentGen); by rewrite Hg.
Qed.

(** *** Executing the action *)

Lemma built_action i p : buildIntentPatch i = Ok p -> ip_Action p = Action i.
Proof.
  unfold buildIntentPatch. cbv zeta.
  repeat (case_decide; [by repeat (case_match; try done); intros [= <-]|]). done.
Qed.

Lemma built_known i p :
  buildIntentPatch i = Ok p ->
  ip_Action p ∈ ["bump-memory"; "bump-cpu"; "scale-replicas"; "rollout-restart"; "restart-pod"]%string.
Proof.
  intros Hb. rewrite (built_action _ _ Hb). revert Hb. unfold buildIntentPatch. cbv zeta.
  repeat match goal with
  | |- context [decide (Action i = ?a)] => destruct (decide (Action i = a)) as [->|_]; [intros _; decide_now|]
  end. done.
Qed.

(** The pods after the action: a restart deletes the oldest one of the claw. *)
Definition pods_after (p : IntentPatch) (c : Claw) (l : list Pod) : list Pod :=
  if decide (ip_Action p = "restart-pod"%string) then
    match claw_pods c l with
    | [] => l
    | x :: rest => filter (fun y => Name (pod_Meta y) <> Name (pod_Meta (oldest_pod x rest))) l
    end
  else l.

Definition restart_stamp (t : Z) : string :=
  String.string_of_list_ascii (format_nano (t - t mod 1000000000)).

(** The stamp of a restart: the time of the action, or what was there. *)
Definition restarted (p : IntentPatch) (before after : ObjectMeta) : Prop :=
  if decide (ip_Action p = "rollout-restart"%string) then
    exists n, annotation after AnnotationRestartedAt = Some (restart_stamp (o_now w n))
  else annotation after AnnotationRestartedAt = annotation before AnnotationRestartedAt.

Lemma restarted_ext p m1 m2 m1' m2' :
  annotation m1' AnnotationRestartedAt = annotation m1 AnnotationRestartedAt ->
  annotation m2' AnnotationRestartedAt = annotation m2 AnnotationRestartedAt ->
  restarted p m1 m2 -> restarted p m1' m2'.
Proof. unfold restarted. intros -> ->. done. Qed.

Lemma applyRestartPod_ok q :
  wp w applyRestartPod (fun res q' => res = Ok tt /\ claw (run_st q') = claw (run_st q) /\
    pods (run_st q') = match claw_pods (claw (run_st q)) (pods (run_st q)) with
                       | [] => pods (run_st q)
                       | x :: rest => filter (fun y => Name (pod_Meta y) <> Name (pod_Meta (oldest_pod x rest)))
                                        (pods (run_st q))
                       end) q.
Proof using Hok.
  unfold applyRestartPod. wp_step. rewrite Hok. wp_step.
  destruct (claw_pods _ _); wp_step; [done|]. rewrite Hok. by wp_step.
Qed.

(** With every request answered an action that was accepted is executed. *)
Lemma applyIntentPatch_ok p q :
  ip_Action p ∈ ["bump-memory"; "bump-cpu"; "scale-replicas"; "rollout-restart"; "restart-pod"]%string ->
  wp w (applyIntentPatch p) (fun res q' => res = Ok tt /\
    pods (run_st q') = pods_after p (claw (run_st q)) (pods (run_st q)) /\
    restarted p (Meta (claw (run_st q))) (Meta (claw (run_st q')))) q.
Proof using Hok.
  intros Hin. unfold applyIntentPatch, put_claw, pods_after, restarted.
  rewrite wp_bind, wp_mget. cbn [run_st].
  destruct (decide (ip_Action p = "bump-memory"%string)) as [Ha|N1].
  { wp_step. by repeat rewrite decide_False by congruence. }
  destruct (decide (ip_Action p = "bump-cpu"%string)) as [Ha|N2].
  { wp_step. by repeat rewrite decide_False by congruence. }
  destruct (decide (ip_Action p = "scale-replicas"%string)) as [Ha|N3].
  { wp_step. by repeat rewrite decide_False by congruence. }
  destruct (decide (ip_Action p = "rollout-restart"%string)) as [Ha|N4].
  { wp_step. rewrite decide_False by congruence. split; [done|]. split; [done|]. exists (run_tick q).
    cbn [claw set_meta Meta]. rewrite annotation_put. by rewrite decide_True. }
  destruct (decide (ip_Action p = "restart-pod"%string)) as [Ha|N5].
  { eapply wp_conseq; [|apply applyRestartPod_ok]. intros res q' (-> & Hc & Hp). rewrite Hc. by split_and!. }
  exfalso. by repeat (apply elem_of_cons in Hin as [Hin|Hin]; [done|]); apply not_elem_of_nil in Hin.
Qed.

(** The claw after the action [i], whose patch is [p]: its spec, and of its
    annotations those of the intents and the stamp of a restart. *)
Definition repaired (i : OpsIntent) (p : IntentPatch) (before after : Claw) : Prop :=
  Spec after = intent_spec p (Spec before) /\
  currentIntentGen (Meta after) = Generation i /\
  annotation (Meta after) AnnotationOpsIntent = None /\
  restarted p (Meta before) (Meta after) /\
  forall k, k <> AnnotationOpsIntent -> k <> AnnotationOpsIntentGen -> k <> AnnotationRestartedAt ->
    (forall v, k <> snap_key v) -> annotation (Meta after) k = annotation (Meta before) k.

(** On a fresh copy a patch stores what was written. *)
Lemma annotation_fresh base new k : annotation (Meta (apply_patch base new base)) k = annotation (Meta new) k.
Proof. rewrite annotation_patch. by case_decide. Qed.

Lemma consume_executes i p q :
  claw (run_st q) = stored (run_st q) ->
  parseOpsIntent (Meta (stored (run_st q))) = Ok (Some i) -> buildIntentPatch i = Ok p ->
  wp w consumeAndExecuteOpsIntent (fun res q' => res = Ok tt /\
    claw (run_st q') = stored (run_st q') /\
    repaired i p (stored (run_st q)) (stored (run_st q')) /\
    pods (run_st q') = pods_after p (stored (run_st q)) (pods (run_st q)) /\
    EvRecorded EventOpsIntentExecuted (Some i) ∈ run_trace q') q.
Proof using Hok.
  intros Hf Hp Hb. destruct (parse_Some _ _ Hp) as (Hsome & Hgen & Hlt).
  unfold consumeAndExecuteOpsIntent. wp_step. rewrite Hf, Hp, Hb. wp_step.
  eapply wp_conseq; [|exact (wp_and _ _ _ _ _ (applyIntentPatch_ok p q (built_known _ _ Hb)) (applyIntentPatch_spec w p q))].
  intros res q1 ((-> & Hpods & Hre) & Hs & _ & Ha). rewrite Hf in Ha, Hpods, Hre. unfold commit, put_claw, Patch. wp_step.
  rewrite Hok. wp_step. cbn [claw stored pods]. rewrite Hs. split; [done|]. split; [done|].
  split; [|split; [exact Hpods|by apply elem_of_app; right; left]].
  destruct Ha as [Hspec Hann]. split; [by apply apply_patch_spec|]. split_and!.
  - rewrite patched_gen; [lia|done|apply currentIntentGen_ext|]; by apply Hann.
  - by apply patched_intent.
  - eapply restarted_ext; [done| |exact Hre]. rewrite annotation_fresh. cbn [set_meta Meta]. by apply clear_other.
  - intros k H1 H2 H3 _. rewrite annotation_fresh. cbn [set_meta Meta]. rewrite clear_other by done. by apply Hann.
Qed.
End Remediation.

(** ** The claw reconciler around it *)

Section Around.
Context `{QuantityLib, ConditionLib, CronLib, RangeOrder, SortSlice} (w : Oracle).
Context (c0 : Claw) (ps : list Pod) (ev : store_event).
Implicit Types r : Run ClawStore.World store_event.

(** But for the times of snapshots. *)
Definition same_ops (c : Claw) : Prop :=
  Spec c = Spec c0 /\
  forall k, (forall v, k <> snap_key v) -> annotation (Meta c) k = annotation (Meta c0) k.

Definition executed r : Prop :=
  ev ∈ run_trace r /\ w_pods (run_st r) = ps /\ exists c, w_claw (run_st r) = Some c /\ same_ops c.

Abbreviation keeps m := (preserves w executed m).

(** A result that carries the claw on. *)
Definition passes_on {A} (claw_of : A -> Claw) (m : KM (R A)) : Prop :=
  forall r, executed r -> wp w m (fun res r' => executed r' /\ forall a, res = Ok a -> same_ops (claw_of a)) r.

Lemma executed_io : keeps io. Proof using Type. by intros r Hr. Qed.
Lemma executed_now : keeps now. Proof using Type. by intros r Hr. Qed.
Lemma executed_get k : keeps (get_objs k). Proof using Type. by intros r Hr. Qed.
Lemma executed_put k n o : keeps (put_obj k n o). Proof using Type. by intros r Hr. Qed.
Lemma executed_set k m : keeps (mmodify (set_objs k m)). Proof using Type. by intros r Hr. Qed.
Lemma executed_emit e : keeps (emit e).
Proof using Type. intros r (He & Hr). split; [|exact Hr]. apply elem_of_app. by left. Qed.
#[local] Hint Resolve executed_io executed_now executed_get executed_put executed_set executed_emit : preserves.

Lemma executed_get_obj k n : keeps (Get_obj k n). Proof using Type. unfold Get_obj. preserve. Qed.
Lemma executed_create k o : keeps (Create_obj k o). Proof using Type. unfold Create_obj. preserve. Qed.
Lemma executed_update k n o : keeps (Update_obj k n o). Proof using Type. unfold Update_obj. preserve. Qed.
Lemma executed_delete k n : keeps (Delete_obj k n). Proof using Type. unfold Delete_obj. preserve. Qed.
Lemma executed_list k c : keeps (List_labelled k c). Proof using Type. unfold List_labelled. preserve. Qed.
#[local] Hint Resolve executed_get_obj executed_create executed_update executed_delete executed_list : preserves.

Lemma executed_delete_all {A} k (l : list (string * A)) : keeps (delete_all k l).
Proof using Type. induction l as [|[n a] l IH]; cbn [delete_all]; unfold andthen; preserve. Qed.
#[local] Hint Resolve executed_delete_all : preserves.

Lemma executed_ensure k g c merge built : keeps (ensure k g c merge built).
Proof using Type. unfold ensure. preserve. Qed.
Lemma executed_delete_owned k c n : keeps (delete_owned k c n).
Proof using Type. unfold delete_owned. preserve. Qed.
#[local] Hint Resolve executed_ensure executed_delete_owned : preserves.

Lemma executed_pvcs c : keeps (ensurePVCOwnerReferences c).
Proof using Type.
  assert (Hall : forall l, keeps (for_each (add_owner c) l)).
  { intros l. induction l as [|a l IH]; cbn [for_each]; unfold andthen, add_owner, Patch_owners; preserve. }
  unfold ensurePVCOwnerReferences, andthen. preserve.
Qed.
#[local] Hint Resolve executed_pvcs : preserves.

Lemma executed_ensure_objects env c adapter : keeps (ensure_objects env c adapter).
Proof using Type.
  unfold ensure_objects, andthen, ensureService, ensureConfigMap, ensureServiceAccount, ensureRole, ensureRoleBinding,
    ensureNetworkPolicy, ensureIngress, ensurePDB, ensureStatefulSet, deleteOwnedRole, deleteOwnedRoleBinding,
    deleteOwnedNetworkPolicy, deleteOwnedIngress, deleteOwnedPDB.
  preserve.
Qed.

Lemma executed_prune c v n : keeps (pruneSnapshots c v n).
Proof using Type. unfold pruneSnapshots, andthen. preserve. Qed.

Lemma passes_Update_status c : passes_on id (Update_status c).
Proof using Type.
  intros r (He & Hp & st & Hst & Hs). unfold Update_status. wp_step. rewrite Hst.
  case_if; wp_step.
  - split; [|by intros a [= <-]]. split; [apply elem_of_app; by left|]. split; [exact Hp|]. by eexists.
  - split; [|done]. split; [done|]. split; [done|]. by exists st.
Qed.

Lemma passes_updateStatus c : passes_on id (updateStatus c).
Proof using Type.
  intros r Hr. unfold updateStatus. rewrite wp_andthen. eapply wp_conseq; [|by apply executed_get_obj].
  cbn beta. intros [sts|e] r1 Hr1; [|by split]. destruct (phase_of sts) as [phase ready]. rewrite wp_bind.
  eapply (wp_conseq _ _ (fun _ => executed)); [|by destruct (phase_event phase); [case_decide|]; try (wp_step; exact Hr1); apply executed_emit].
  intros _ r2 Hr2. by apply passes_Update_status.
Qed.

Lemma passes_Update_claw c : same_ops c -> passes_on id (Update_claw c).
Proof using Type.
  intros Hc r (He & Hp & st & Hst & Hs). unfold Update_claw. wp_step. rewrite Hst.
  case_if; wp_step.
  - split; [|by intros a [= <-]]. split; [apply elem_of_app; by left|]. split; [exact Hp|]. by eexists.
  - split; [|done]. split; [done|]. split; [done|]. by exists st.
Qed.

Lemma same_ops_stamp c v s : same_ops c -> same_ops (set_meta (put_annotation (snap_key v) s) c).
Proof using Type.
  intros [Hs Ha]. split; [exact Hs|]. intros k Hk. cbn [set_meta Meta].
  rewrite annotation_put, decide_False by (intros Heq; by apply (Hk v)). by apply Ha.
Qed.

Lemma passes_snapshot vs c n : same_ops c -> passes_on fst (snapshot_volume vs c n).
Proof using Type.
  intros Hc r Hr. unfold snapshot_volume. destruct (ParseCron _) as [sched|].
  2: { wp_step. split; [done|]. by intros cn [= <-]. }
  rewrite wp_bind, wp_now. case_if; [wp_step; split; [done|]; by intros cn [= <-]|].
  rewrite wp_andthen. eapply wp_conseq; [|by apply executed_create].
  cbn beta. intros [b|e] r1 Hr1; [|by split].
  rewrite wp_andthen. eapply wp_conseq; [|by apply passes_Update_claw, Hr1; apply same_ops_stamp].
  intros [c'|e] r2 [Hr2 Hc2]; [|by split].
  rewrite wp_bind. eapply wp_conseq; [|by apply executed_prune]. cbn beta. intros ? r3 Hr3. wp_step.
  split; [done|]. intros cn [= <-]. by apply Hc2.
Qed.

Lemma executed_snapshots c : same_ops c -> keeps (reconcileSnapshots c).
Proof using Type.
  intros Hc. unfold reconcileSnapshots. destruct (Persistence (Spec c)) as [p|]; [|by intros r Hr].
  assert (Hall : forall l c n, same_ops c -> keeps (snapshot_volumes l c n)).
  { intros l. induction l as [|vs l IH]; intros c' n Hs r Hr; cbn [snapshot_volumes]; [done|].
    rewrite wp_andthen. eapply wp_conseq; [|by apply passes_snapshot].
    intros [cn|e] r1 [Hr1 Hcn]; [|done]. apply IH; [|done]. by apply Hcn. }
  destruct (snap_configs c p) as [|vs l]; [by intros r Hr|]. by apply Hall.
Qed.
End Around.

Section ClawRun.
Context `{QuantityLib, ConditionLib, CronLib, RangeOrder, SortSlice} (w : Oracle) (Hok : forall n, o_ok w n = true).
Implicit Types r : Run ClawStore.World store_event.

Lemma snap_key_ops v :
  AnnotationOpsIntent <> snap_key v /\ AnnotationOpsIntentGen <> snap_key v /\ AnnotationRestartedAt <> snap_key v.
Proof. split_and!; intros Heq; unfold snap_key in Heq; cbn in Heq; discriminate Heq. Qed.

Lemma repaired_ext i p b b' a a' :
  Spec b' = Spec b -> (forall k, annotation (Meta b') k = annotation (Meta b) k) ->
  same_ops a a' -> repaired w i p b a -> repaired w i p b' a'.
Proof.
  intros Hs Hann [Hs' Hann'] (R1 & R2 & R3 & R4 & R5). split_and!.
  - by rewrite Hs', R1, Hs.
  - rewrite <- R2. apply currentIntentGen_ext, Hann'. intros v. apply snap_key_ops.
  - rewrite <- R3. apply Hann'. intros v. apply snap_key_ops.
  - eapply restarted_ext; [apply Hann| |exact R4]. apply Hann'. intros v. apply snap_key_ops.
  - intros k K1 K2 K3 K4. rewrite Hann', Hann by done. by apply R5.
Qed.

Lemma ensureFinalizer_ok c r :
  w_claw (run_st r) = Some c ->
  wp w (ensureFinalizer c) (fun res r' => exists c1, res = Ok c1 /\ w_claw (run_st r') = Some c1 /\
    w_pods (run_st r') = w_pods (run_st r) /\ Spec c1 = Spec c /\
    Name (Meta c1) = Name (Meta c) /\ Namespace (Meta c1) = Namespace (Meta c) /\
    forall k, annotation (Meta c1) k = annotation (Meta c) k) r.
Proof using Hok.
  intros Hc. unfold ensureFinalizer. destruct (ContainsFinalizer _ _); [wp_step; by exists c|].
  unfold patch_finalizers. wp_step. rewrite Hok, Hc. wp_step.
  rewrite (bool_decide_false (_ ++ _ = [])) by (by destruct (Finalizers (Meta c))). cbn [andb].
  eexists. by split_and!.
Qed.

Lemma consume_intent_ok i p c r :
  w_claw (run_st r) = Some c -> parseOpsIntent (Meta c) = Ok (Some i) -> buildIntentPatch i = Ok p ->
  wp w (consume_intent c) (fun res r' => exists c1, res = Ok c1 /\ repaired w i p c c1 /\
    executed c1 (pods_after p c (w_pods (run_st r))) (EvOps (EvRecorded EventOpsIntentExecuted (Some i))) r') r.
Proof using Hok.
  intros Hc Hp Hb. unfold consume_intent. rewrite wp_bind, wp_zoom, wp_bind.
  set (q := mkRun (intent_cluster c (run_st r)) (run_tick r) []).
  assert (Hq : claw (run_st q) = c /\ stored (run_st q) = c /\ pods (run_st q) = w_pods (run_st r)).
  { unfold q, intent_cluster. by rewrite Hc. }
  destruct Hq as (Hq1 & Hq2 & Hq3).
  eapply wp_conseq; [|apply (consume_executes w Hok i p q); [by rewrite Hq1, Hq2|by rewrite Hq2|done]].
  intros res q' (-> & Hf & Hrep & Hpods & Hev). rewrite Hq2 in Hrep, Hpods. rewrite Hq3 in Hpods. wp_step.
  exists (claw (run_st q')). split; [done|]. rewrite Hf. split; [exact Hrep|]. split; [|split].
  - apply elem_of_app. right. by apply list_elem_of_fmap_2.
  - exact Hpods.
  - exists (stored (run_st q')). cbn [run_st from_cluster w_claw]. rewrite Hc. split; [done|]. by split.
Qed.

(** The whole run of the claw reconciler, whatever becomes of the objects. *)
Lemma claw_run env registry adapter i p c r :
  w_claw (run_st r) = Some c -> DeletionTimestamp (Meta c) = None ->
  Get registry (Runtime (Spec c)) = Some adapter ->
  parseOpsIntent (Meta c) = Ok (Some i) -> buildIntentPatch i = Ok p ->
  wp w (ClawController.Reconcile env registry) (fun _ r' =>
    EvOps (EvRecorded EventOpsIntentExecuted (Some i)) ∈ run_trace r' /\
    w_pods (run_st r') = pods_after p c (w_pods (run_st r)) /\
    exists c', w_claw (run_st r') = Some c' /\ repaired w i p c c') r.
Proof using Hok.
  intros Hc Hd Ha Hp Hb. unfold ClawController.Reconcile. rewrite wp_andthen.
  unfold Get_claw. wp_step. rewrite Hok. wp_step. rewrite Hc, Ha.
  rewrite bool_decide_false by (rewrite Hd; by intros []). unfold reconcile_live.
  rewrite wp_andthen. eapply wp_conseq; [|by apply (ensureFinalizer_ok c)].
  intros res r1 (c1 & -> & Hc1 & Hp1 & Hs1 & Hn1 & Hns1 & Hann1). cbn [run_st] in Hp1.
  rewrite wp_andthen. eapply wp_conseq; [|apply (consume_intent_ok i p c1); [done| |done]].
  2: { rewrite <- Hp. unfold parseOpsIntent. by rewrite !Hann1. }
  intros res r2 (c2 & -> & Hrep & Hex). rewrite Hp1 in Hex.
  assert (Hpods : pods_after p c1 (w_pods (run_st r)) = pods_after p c (w_pods (run_st r))).
  { unfold pods_after, claw_pods. by rewrite Hn1, Hns1. }
  rewrite Hpods in Hex. set (ps := pods_after p c _) in *. set (ev := EvOps _) in *.
  eapply (wp_conseq _ _ (fun _ => executed c2 ps ev)).
  { intros _ r3 (Hev & Hps & c3 & Hc3 & Hsame). split; [exact Hev|]. split; [exact Hps|]. exists c3.
    split; [exact Hc3|]. eapply repaired_ext; [by rewrite Hs1| |exact Hsame|exact Hrep]. intros k. by rewrite Hann1. }
  rewrite wp_andthen. eapply wp_conseq; [|by apply executed_ensure_objects].
  cbn beta. intros [[]|e] r3 Hr3; [|done].
  rewrite wp_andthen. unfold Get_claw. wp_step. rewrite Hok. wp_step.
  destruct Hr3 as (Hev & Hps & c3 & Hc3 & Hsame). rewrite Hc3.
  rewrite wp_andthen. eapply wp_conseq; [|apply (passes_updateStatus w c2 ps ev)].
  2: { split; [exact Hev|]. split; [exact Hps|]. by exists c3. }
  intros [c4|e] r4 [Hr4 Hc4]; [|done]. apply executed_snapshots; [by apply Hc4|done].
Qed.
End ClawRun.

(** C22: an approval with kubectl claw is executed.  If the program exits with
    0 it wrote one escalation, which awaited approval.  When the ops
    controller and then the claw reconciler run with all their requests
    answered, no other escalation of the claw is approved, the action is valid
    and newer than the last one, no rule matches a signal of the claw's pods
    (such a rule would replace the action, see
    [Sample.approved_replaced_by_rule]), and the claw is not being deleted and
    has a registered runtime, then the escalation is marked executed and the
    action is recorded as executed; the claw's spec and its pods are changed by
    exactly that action, and of its annotations only the stamp of a restart,
    the intent, which is gone, its generation, which keeps it from being
    executed again, and the times of snapshots. *)
Theorem approval_is_executed `{QuantityLib, ConditionLib, CronLib, RangeOrder, SortSlice}
    (wk wo wc : Oracle) (others : nat -> Escalations.World -> Escalations.World)
    (getenv : string -> string) (sk : Escalations.World) (opts : list option_arg) (name : string)
    (rest : list string) (rk : Run Escalations.World escalation_event)
    (cfg : ClawOpsConfig) (env : BuildEnv) (registry : Registry_) (adapter : RuntimeAdapter) :
  well_behaved others -> well_formed sk -> Forall (known "by") opts -> is_name name = true ->
  exec (kubectl_main others getenv ("approve"%string :: args_of opts ++ name :: rest)) wk sk = (0, rk) ->
  (forall n, o_ok wo n = true) -> (forall n, o_ok wc n = true) ->
  exists old new, run_trace rk = [Escalations.EvStatus old new] /\
  key_of new = (last_value ["n"; "namespace"]%string opts "default", name) /\
  es_Phase (es_Status old) = EscalationPhaseAwaitingApproval /\
  forall (s : World) (objs : forall k, Objects k) l1 l2 intent patch,
    let c := stored (cluster s) in
    escalations s = l1 ++ new :: l2 -> no_other_approved c new (l1 ++ l2) ->
    Namespace (es_Meta old) = Namespace (Meta c) -> ClawRef (es_Spec old) = Name (Meta c) ->
    ValidateIntent (ProposedAction (es_Status old)) = Ok intent ->
    currentIntentGen (Meta c) < Generation intent -> buildIntentPatch intent = Ok patch ->
    no_rule_matches (RuleEngine s) c (pods (cluster s)) ->
    DeletionTimestamp (Meta c) = None -> Get registry (Runtime (Spec c)) = Some adapter ->
    let '(res, ro) := exec (Reconcile cfg) wo s in
    let rc := snd (exec (ClawController.Reconcile env registry) wc (claw_world objs (run_st ro))) in
    res = Ok tt /\
    (exists t, EvStatus (with_es_status (executed_status (es_Status new) t) new) ∈ run_trace ro) /\
    EvOps (EvRecorded EventOpsIntentExecuted (Some intent)) ∈ run_trace rc /\
    w_pods (run_st rc) = pods_after patch c (pods (cluster s)) /\
    exists c', w_claw (run_st rc) = Some c' /\ repaired wc intent patch c c'.
Proof.
  intros Hothers Hwf Hk Hn He Hwo Hwc.
  pose proof (approve_call wk others getenv sk Hothers Hwf opts name rest Hk Hn) as Hc.
  unfold wp in Hc. unfold exec in He. rewrite He in Hc.
  destruct Hc as [[_ (old & new & Ht & Hkey & Hph & Hact & t & Hnew)]|[[=] _]].
  exists old, new. split; [done|]. rewrite Hnew. split; [done|]. split; [done|].
  intros s objs l1 l2 i p c Hl Ho Hns Hcl Hv Hg Hb Hq Hd Ha.
  assert (Hap : only_approved c (with_es_status (approved_status _ t (es_Status old)) old) (l1 ++ l2))
    by (split; [exact Hns|]; split; [by apply is_approved_spec|exact Ho]).
  pose proof (ops_run wo Hwo cfg _ l1 l2 (mkRun s 0 []) Hl Hap Hq) as Hr.
  unfold wp in Hr. unfold exec. destruct (Reconcile cfg wo _) as [res ro]. destruct Hr as (-> & Hcl' & Hst).
  split; [done|]. split; [exact Hst|].
  cbn [run_st] in Hcl'. fold c in Hcl'. cbn [with_es_status es_Status approved_status ProposedAction] in Hcl'.
  set (c' := asked (ProposedAction (es_Status old)) c) in *.
  pose proof (claw_run wc Hwc env registry adapter i p c' (mkRun (claw_world objs (run_st ro)) 0 [])) as Hr.
  unfold wp in Hr. destruct (ClawController.Reconcile env registry wc _) as [res2 rc]. cbn [snd].
  destruct Hr as (Hev & Hpods & c2 & Hc2 & Hrep).
  - cbn [run_st claw_world w_claw]. by rewrite Hcl'.
  - exact Hd.
  - unfold c'. by rewrite asked_spec.
  - apply parse_asked; [|done..]. intros Hnil. by rewrite Hnil in Hact.
  - done.
  - cbn [run_st claw_world w_pods] in Hpods. rewrite Hcl' in Hpods. cbn [pods] in Hpods.
    split; [exact Hev|]. split; [exact Hpods|]. exists c2. split; [exact Hc2|].
    destruct Hrep as (R1 & R2 & R3 & R4 & R5). split_and!; [|done|done| |].
    + rewrite R1. unfold c'. by rewrite asked_spec.
    + eapply restarted_ext; [|done|exact R4]. unfold c'. by rewrite asked_other.
    + intros k K1 K2 K3 K4. rewrite R5 by done. unfold c'. by rewrite asked_other.
Qed.

(** ** Samples *)

Module Sample.
#[local] Existing Instance suffix_quantities.
#[local] Existing Instance sorted_range.
#[local] Existing Instance insertion_slice.
#[local] Existing Instance Snapshots.Sample.hourly.
#[local] Existing Instance ClawController.Sample.replace_condition.

(** Three replicas, proposed with generation 7. *)
Definition scale : OpsIntent := sample_intent "scale-replicas" [("replicas", "3")]%string 7.
Definition action : string := intent_json scale.

Definition agent : Claw := ClawController.Sample.agent None [] ReclaimRetain.

Definition approved_world (l : list Pod) (e : ClawOpsEscalation) : World :=
  mkWorld (mkCluster agent agent l) [e] (NewEngine DefaultRules) ∅.

(** A pod that has crashed twice: too few times for a rule. *)
Definition restarted_pod : Pod :=
  mkPod (pod_Meta crash_pod) "Running" "" "" [mkContainerStatus "runtime" 2 None (Some "CrashLoopBackOff"%string)].

Lemma two_crashes_no_rule : no_rule_matches (NewEngine DefaultRules) agent [restarted_pod].
Proof.
  intros t sig Hsig.
  assert (Hs : claw_signals agent [restarted_pod] = flat_map container_signals (ContainerStatuses restarted_pod))
    by (vm_compute; reflexivity).
  rewrite Hs in Hsig. vm_compute in Hsig. apply list_elem_of_singleton in Hsig as ->. reflexivity.
Qed.

Definition call := exec (kubectl_main Escalations.Sample.alone (fun _ => ""%string)
  ("approve"%string :: args_of Kubectl.Sample.by_sre ++ ["e1"]%string)) all_ok (Escalations.Sample.cluster action).

Lemma approval_is_executed_witness :
  exists old new, run_trace (snd call) = [Escalations.EvStatus old new] /\
    let ro := snd (exec (Reconcile DefaultClawOpsConfig) all_ok (approved_world [restarted_pod] new)) in
    let rc := snd (exec (ClawController.Reconcile StatefulSet.Sample.build_env operator_registry) all_ok
                     (claw_world Snapshots.Sample.no_objects (run_st ro))) in
    (exists t, EvStatus (with_es_status (executed_status (es_Status new) t) new) ∈ run_trace ro) /\
    w_pods (run_st rc) = [restarted_pod] /\
    (c' ← w_claw (run_st rc); Replicas (Spec c')) = Some 3.
Proof.
  assert (Hcode : fst call = 0) by (vm_compute; reflexivity).
  assert (Hold : match run_trace (snd call) with
                 | [Escalations.EvStatus old _] => old = Escalations.Sample.waiting action
                 | _ => False
                 end) by (vm_compute; reflexivity).
  assert (Hvalid : ValidateIntent action = Ok scale) by (vm_compute; reflexivity).
  assert (Hnewer : currentIntentGen (Meta agent) < Generation scale) by (vm_compute; reflexivity).
  assert (Hp : match buildIntentPatch scale with
               | Ok p => ip_Action p = "scale-replicas"%string /\ ip_Replicas p = 3
               | Err _ => False
               end) by (vm_compute; split; reflexivity).
  destruct (buildIntentPatch scale) as [patch|] eqn:Hbuilt; [|destruct Hp]. destruct Hp as [Hact Hn].
  destruct (approval_is_executed all_ok all_ok all_ok Escalations.Sample.alone (fun _ => ""%string)
    (Escalations.Sample.cluster action) Kubectl.Sample.by_sre "e1" [] (snd call) DefaultClawOpsConfig
    StatefulSet.Sample.build_env operator_registry OpenClawAdapter
    Escalations.Sample.alone_well_behaved (Escalations.Sample.cluster_well_formed _)) as (old & new & Ht & _ & _ & Hrun).
  - repeat constructor; apply list_elem_of_In; cbn; tauto.
  - reflexivity.
  - fold call. rewrite <- Hcode. apply surjective_pairing.
  - done.
  - done.
  - exists old, new. split; [exact Ht|]. rewrite Ht in Hold. cbn beta iota in Hold.
    specialize (Hrun (approved_world [restarted_pod] new) Snapshots.Sample.no_objects [] [] scale patch). cbv zeta in Hrun.
    destruct (exec (Reconcile DefaultClawOpsConfig) all_ok (approved_world [restarted_pod] new)) as [res ro].
    destruct Hrun as (_ & Hst & _ & Hpods & c' & Hc' & Hspec & _); [done|constructor|by rewrite Hold..| | | | | | |].
    + rewrite Hold. exact Hvalid.
    + exact Hnewer.
    + exact Hbuilt.
    + exact two_crashes_no_rule.
    + reflexivity.
    + reflexivity.
    + cbn [snd] in *. split; [exact Hst|]. rewrite Hpods, Hc'. cbn [base.mbind option_bind]. rewrite Hspec.
      unfold intent_spec, pods_after. rewrite Hact, Hn. split; reflexivity.
Defined.

(** A rule that matches a signal of the same run writes its own intent over
    the approved one, which nobody executes; the escalation is marked
    executed. *)
Example approved_replaced_by_rule :
  let s := run_st (snd (exec (Reconcile DefaultClawOpsConfig) all_ok
                          (approved_world [crash_pod] (approved "e1" action)))) in
  map (fun e => es_Phase (es_Status e)) (escalations s) = [EscalationPhaseExecuted; EscalationPhaseAutoExecuted] /\
  match annotation (Meta (stored (cluster s))) AnnotationOpsIntent with
  | Some raw => exists i, ValidateIntent raw = Ok i /\ Action i = "restart-pod"%string
  | None => False
  end.
Proof. vm_compute. split; [reflexivity|]. eexists. split; reflexivity. Qed.

End Sample.
