(* ===== verification/ClawConverge.v ===== *)
(** * The claw reconciler settles

    Running the reconciler's object functions again, once they have
    succeeded, changes nothing: the loop of reconciliations comes to rest.
    Each function settles the kinds of objects it writes; functions that
    write different kinds settle together. *)

From S2P Require Import Prelude.
From S2P Require Import GoStrings.
From S2P Require Import Api.
From S2P Require Import Samples.
From S2P Require Import Kube.
From S2P Require Import OpsIntent.
From S2P Require Import PodBuilder.
From S2P Require Import Channel.
From S2P Require Import StatefulSet.
From S2P Require Import SubResources.
From S2P Require Import ClawStore.
From S2P Require Import Snapshots.
From S2P Require Import ClawController.

(** Proves [idempotent_merge] of an update of metadata and body fields. *)
Ltac idempotent_update :=
  split; [intros [[] []]; reflexivity|split; intros [[] []] [[] []]; reflexivity].

Section Settles.
Context `{QuantityLib}.
Implicit Types (r : Run World store_event) (s : World).

Definition within (ks : list kind) s s' : Prop := forall k, k ∉ ks -> w_objs s' k = w_objs s k.

(** Every request succeeds. *)
Definition succeeds (w : Oracle) : Prop := forall n, o_ok w n = true.

Definition same_objs r r' : Prop := forall k, objs_of k r' = objs_of k r.

(** [m] writes only the kinds [ks]; when it succeeds [P] holds of them; and
    where [P] holds, [m] changes nothing. *)
Record settles (ks : list kind) (m : KM (R unit)) (P : World -> Prop) : Prop := mkSettles {
  settles_within w r : wp w m (fun _ r' => within ks (run_st r) (run_st r')) r;
  settles_after w r : wp w m (fun res r' => res = Ok tt -> P (run_st r')) r;
  settles_local s s' : (forall k, k ∈ ks -> w_objs s' k = w_objs s k) -> P s -> P s';
  settles_again w r : succeeds w -> P (run_st r) ->
    wp w m (fun res r' => res = Ok tt /\ same_objs r r') r;
}.

Lemma settles_seq ks ks' m m' P P' :
  settles ks m P -> settles ks' m' P' -> ks ## ks' ->
  settles (ks ++ ks') (m ;;? m') (fun s => P s /\ P' s).
Proof.
  intros [Hw Ha Hl Hg] [Hw' Ha' Hl' Hg'] Hd. split.
  - intros w r. rewrite wp_andthen. eapply wp_conseq; [|apply Hw]. intros [[]|e] r1 H1.
    + eapply wp_conseq; [|apply Hw']. intros res r2 H2 k [Hk Hk']%not_elem_of_app. by rewrite H2, H1.
    + intros k [Hk _]%not_elem_of_app. by apply H1.
  - intros w r. rewrite wp_andthen. eapply wp_conseq; [|apply Ha]. intros [[]|e] r1 H1; [|done].
    eapply wp_conseq; [|apply (wp_and _ _ _ _ _ (Ha' w r1) (Hw' w r1))].
    intros res r2 [H2 Hwi] ->. split; [|by apply H2]. apply (Hl (run_st r1)); [|by apply H1].
    intros k Hk. apply Hwi. intros Hk'. by destruct (Hd k Hk Hk').
  - intros s s' Hs [H1 H2]. split; [apply (Hl s)|apply (Hl' s)]; try done;
      intros k Hk; apply Hs, elem_of_app; auto.
  - intros w r Hok [H1 H2]. rewrite wp_andthen. eapply wp_conseq; [|by apply Hg].
    intros res r1 [-> Hs1]. eapply wp_conseq; [|apply Hg'; [done|]].
    + intros res r2 [-> Hs2]. split; [done|]. intros k. by rewrite Hs2, Hs1.
    + apply (Hl' (run_st r)); [intros k _; apply Hs1|done].
Qed.

(** A function that can only fail. *)
Lemma settles_err ks e : settles ks (mret (Err e)) (fun _ => False).
Proof. split; try done; intros; by wp_step. Qed.

Lemma settles_ret ks : settles ks (mret (Ok tt)) (fun _ => True).
Proof. split; try done; intros; by wp_step. Qed.

Lemma within_only k s s' : only k s s' -> within [k] s s'.
Proof. intros (_ & _ & Hk) k' Hn. apply Hk. intros ->. apply Hn. by left. Qed.

(** [ensure] settles its kind, if its update is idempotent and keeps the
    owners. *)
Definition idempotent_merge {A} (merge : Obj A -> Obj A -> Obj A) : Prop :=
  (forall d, merge d d = d) /\ (forall e d, merge (merge e d) d = merge e d) /\
  forall e d, OwnerReferences (o_Meta (merge e d)) = OwnerReferences (o_Meta e).

Lemma controlled_desired {A} claw (o : Obj A) :
  IsControlledBy (o_Meta (SetControllerReference claw o)) (Meta claw) = true.
Proof. unfold IsControlledBy, controlled_by. cbn. rewrite (bool_decide_true (Some true = Some true)) by done. cbn. by rewrite bool_decide_true. Qed.

Lemma IsControlledBy_owners m m' owner :
  OwnerReferences m = OwnerReferences m' -> IsControlledBy m owner = IsControlledBy m' owner.
Proof. unfold IsControlledBy, controlled_by. by intros ->. Qed.

Lemma Get_obj_ok w k name r :
  succeeds w -> wp w (Get_obj k name) (fun res r' => run_st r' = run_st r /\ res = Ok (objs_of k r !! name)) r.
Proof. intros Hok. unfold Get_obj, get_objs. wp_step. rewrite Hok. by wp_step. Qed.

Definition settled_at k g claw merge (built : Obj (body k)) s : Prop :=
  exists e, w_objs s k !! Name (o_Meta built) = Some e /\
    (g = true -> IsControlledBy (o_Meta e) (Meta claw) = true) /\
    merge e (SetControllerReference claw built) = e.

Lemma settles_ensure k g claw merge built :
  idempotent_merge merge -> settles [k] (ensure k g claw merge built) (settled_at k g claw merge built).
Proof.
  intros (Hself & Hidem & Hown). split.
  - intros w r. eapply wp_conseq; [|apply ensure_spec]. intros res r' [Ho _]. by apply within_only.
  - intros w r. eapply wp_conseq; [|apply ensure_spec].
    intros res r' [_ [[Hf _]|[_ Hr']]] ->; [done|]. unfold settled_at. fold (objs_of k r').
    destruct (objs_of k r !! Name (o_Meta built)) as [e|] eqn:He; [destruct Hr' as [Hc Hr']|]; rewrite Hr';
      rewrite lookup_insert_eq; eexists; (split; [done|]).
    + split; [|apply Hidem]. intros Hg. rewrite (IsControlledBy_owners _ (o_Meta e)) by apply Hown. by apply Hc.
    + split; [|apply Hself]. intros _. apply controlled_desired.
  - intros s s' Hs. unfold settled_at. by rewrite (Hs k) by by left.
  - intros w r Hok (e & He & Hg & Hm). unfold ensure. rewrite wp_bind.
    eapply wp_conseq; [|by apply Get_obj_ok]. intros res r1 [Hst ->].
    change (Name (o_Meta (SetControllerReference claw built))) with (Name (o_Meta built)).
    unfold objs_of at 1. rewrite He.
    destruct (g && negb (IsControlledBy (o_Meta e) (Meta claw))) eqn:Hgc.
    { apply andb_true_iff in Hgc as [-> Hn]. by rewrite Hg in Hn. }
    unfold Update_obj, put_obj. wp_step. rewrite Hok. wp_step. split; [done|]. intros k'.
    rewrite Hst, Hm. destruct (decide (k = k')) as [<-|Hk].
    + rewrite objs_of_set. by apply insert_id.
    + unfold objs_of. cbn. by apply put_objs_ne.
Qed.

(** [delete_owned] settles its kind. *)
Definition settled_absent k claw name s : Prop :=
  gone (w_objs s k !! name) \/
  exists e, w_objs s k !! name = Some e /\ IsControlledBy (o_Meta e) (Meta claw) = false.

Lemma settles_delete_owned k claw name :
  settles [k] (delete_owned k claw name) (settled_absent k claw name).
Proof.
  split.
  - intros w r. eapply wp_conseq; [|apply delete_owned_spec]. intros res r' [Ho _]. by apply within_only.
  - intros w r. eapply wp_conseq; [|apply delete_owned_spec]. intros res r' (_ & _ & _ & Ha) Hres. exact (Ha Hres).
  - intros s s' Hs. unfold settled_absent. by rewrite (Hs k) by by left.
  - intros w r Hok Hset. unfold delete_owned. rewrite wp_bind.
    eapply wp_conseq; [|by apply Get_obj_ok]. intros res r1 [Hst ->].
    unfold settled_absent in Hset. fold (objs_of k r) in Hset.
    assert (same_objs r r1) as Hr1 by (intros k'; unfold objs_of; by rewrite Hst).
    destruct (objs_of k r !! name) as [e|] eqn:He; [|by wp_step].
    destruct (IsControlledBy (o_Meta e) (Meta claw)) eqn:Hc; cbn [negb]; [|by wp_step].
    destruct Hset as [[Hdel Hfin]|(e' & [= <-] & Hc')]; [|congruence].
    unfold Delete_obj, get_objs. wp_step. rewrite Hok. fold (objs_of k r1). rewrite Hr1, He. wp_step.
    split; [done|]. intros k'. rewrite decide_False by done.
    destruct (decide (k = k')) as [<-|Hk].
    + rewrite objs_of_set. apply insert_id. rewrite He. f_equal.
      destruct e as [[] b]. cbn in *. unfold with_meta, set_deleted. cbn.
      by destruct DeletionTimestamp.
    + rewrite <- (Hr1 k'). unfold objs_of. cbn. by apply put_objs_ne.
Qed.
End Settles.

Section Converge.
Context `{QuantityLib, ConditionLib, CronLib, RangeOrder, SortSlice}.
Implicit Types (r : Run World store_event) (s : World).

Definition can_settle (ks : list kind) (m : KM (R unit)) : Prop := exists P, settles ks m P.

Lemma can_settle_seq ks ks' m m' :
  can_settle ks m -> can_settle ks' m' -> forallb (fun k => negb (bool_decide (k ∈ ks'))) ks = true ->
  can_settle (ks ++ ks') (m ;;? m').
Proof.
  intros [P HP] [P' HP'] Hd. eexists. apply settles_seq; [done|done|]. intros k Hk Hk'.
  rewrite forallb_forall in Hd. specialize (Hd k (proj1 (list_elem_of_In _ _) Hk)).
  by rewrite bool_decide_true in Hd.
Qed.

Lemma ensure_can_settle k g claw merge built :
  idempotent_merge merge -> can_settle [k] (ensure k g claw merge built).
Proof. intros Hm. eexists. by apply settles_ensure. Qed.

Lemma delete_can_settle k claw name : can_settle [k] (delete_owned k claw name).
Proof. eexists. apply settles_delete_owned. Qed.

Lemma err_can_settle k e : can_settle [k] (mret (Err e)).
Proof. eexists. apply settles_err. Qed.

Lemma ret_can_settle k : can_settle [k] (mret (Ok tt)).
Proof. eexists. apply settles_ret. Qed.

(** The updates of the reconciler. *)
Lemma relabel_idempotent {A} : idempotent_merge (@relabel A).
Proof. split; [by intros [[] ?]|]. by split; intros [[] ?] [[] ?]. Qed.

Create HintDb settle.
#[local] Hint Resolve ensure_can_settle delete_can_settle err_can_settle ret_can_settle relabel_idempotent : settle.

Lemma service_settles claw a : can_settle [KService] (ensureService claw a).
Proof.
  unfold ensureService. destruct (buildService claw a); [|auto with settle].
  apply ensure_can_settle. idempotent_update.
Qed.

Lemma configmap_settles claw a : can_settle [KConfigMap] (ensureConfigMap claw a).
Proof.
  unfold ensureConfigMap. destruct (buildConfigMap claw a); [|auto with settle].
  apply ensure_can_settle, relabel_idempotent.
Qed.

Lemma serviceaccount_settles claw : can_settle [KServiceAccount] (ensureServiceAccount claw).
Proof.
  unfold ensureServiceAccount. case_if; [auto with settle|]. apply ensure_can_settle. idempotent_update.
Qed.

Lemma role_settles claw : can_settle [KRole] (ensureRole claw).
Proof. unfold ensureRole, deleteOwnedRole. case_if; auto with settle. Qed.

Lemma binding_settles claw : can_settle [KRoleBinding] (ensureRoleBinding claw).
Proof. unfold ensureRoleBinding, deleteOwnedRoleBinding. case_if; auto with settle. Qed.

Lemma netpol_settles claw p : can_settle [KNetworkPolicy] (ensureNetworkPolicy claw p).
Proof. unfold ensureNetworkPolicy, deleteOwnedNetworkPolicy. case_if; auto with settle. Qed.

Lemma ingress_settles claw p : can_settle [KIngress] (ensureIngress claw p).
Proof.
  unfold ensureIngress, deleteOwnedIngress. destruct (Ingress (Spec claw)) as [i|]; [|auto with settle].
  case_if; [|auto with settle]. apply ensure_can_settle. idempotent_update.
Qed.

Lemma pdb_settles claw : can_settle [KPDB] (ensurePDB claw).
Proof. unfold ensurePDB, deleteOwnedPDB. case_if; auto with settle. Qed.

Lemma statefulset_settles env claw a : can_settle [KStatefulSet] (ensureStatefulSet env claw a).
Proof.
  unfold ensureStatefulSet. destruct (buildStatefulSet env claw a); [|auto with settle].
  apply ensure_can_settle. split; [intros [? [[] ?]]; reflexivity|].
  split; intros [? [[] ?]] [? [[] ?]]; reflexivity.
Qed.

(** The owner references of the claims. *)
Definition all_owned claw s : Prop :=
  forall n o, w_objs s KPVC !! n = Some o -> labelled_pvc claw o -> hasOwnerReference (o_Meta o) claw = true.

Lemma owned_twice claw m : hasOwnerReference (set_owners (OwnerReferences m ++ [claw_ref claw]) m) claw = true.
Proof.
  unfold hasOwnerReference. cbn [set_owners OwnerReferences]. rewrite existsb_app. cbn.
  rewrite bool_decide_true by done. by rewrite orb_true_r.
Qed.

Lemma for_each_owned w claw l r :
  (forall n o, (n, o) ∈ l -> hasOwnerReference (o_Meta o) claw = true) ->
  wp w (for_each (add_owner claw) l) (fun res r' => res = Ok tt /\ r' = r) r.
Proof.
  induction l as [|[n o] l IH]; intros Hl; cbn [for_each]; [by wp_step|].
  rewrite wp_andthen. unfold add_owner at 1. cbn [snd]. rewrite (Hl n o) by by left. rewrite wp_ret.
  apply IH. intros n' o' Hin. apply (Hl n'). by right.
Qed.

Lemma pvc_settles claw : can_settle [KPVC] (ensurePVCOwnerReferences claw).
Proof.
  exists (all_owned claw). split; unfold ensurePVCOwnerReferences;
    [intros w r|intros w r|intros s s' Hs Hall|intros w r Hok Hall].
  - rewrite wp_andthen. eapply wp_conseq; [|apply List_labelled_spec].
    intros [l|e] r1 [Hst Hl]; [|intros k _; by rewrite Hst].
    destruct Hl as [Hn Hl]. eapply wp_conseq; [|apply (for_each_spec w KPVC _ _ _ _ (add_owner_replaces w claw) Hn)].
    2: { intros n o [? _]%Hl. unfold objs_of. by rewrite Hst. }
    intros res r2 [Ho _]. rewrite Hst in Ho. by apply within_only.
  - rewrite wp_andthen. eapply wp_conseq; [|apply List_labelled_spec].
    intros [l|e] r1 [Hst Hl]; [|done].
    destruct Hl as [Hn Hl]. eapply wp_conseq; [|apply (for_each_spec w KPVC _ _ _ _ (add_owner_replaces w claw) Hn)].
    2: { intros n o [? _]%Hl. unfold objs_of. by rewrite Hst. }
    intros res r2 (_ & Hsame & Hdone) -> n o Ho Hlab.
    destruct (decide (n ∈ l.*1)) as [Hin|Hin].
    + apply list_elem_of_fmap in Hin as ([n' o'] & -> & Hin).
      destruct (Hdone _ _ Hin) as [Hd|[Hf _]]; [|done]. unfold objs_of in Hd. cbn [fst] in Ho. rewrite Ho in Hd.
      apply Some_inj in Hd as ->. destruct (hasOwnerReference (o_Meta o') claw) eqn:Hh; [done|apply owned_twice].
    + assert (objs_of KPVC r !! n = Some o) as Hr.
      { unfold objs_of in Hsame |- *. rewrite <- Hst, <- Hsame; done. }
      destruct Hin. apply (list_elem_of_fmap_2 fst _ (n, o)). by apply Hl.
  - intros n o Ho. rewrite (Hs KPVC) in Ho by by left. exact (Hall n o Ho).
  - rewrite wp_andthen. unfold List_labelled, get_objs. wp_step. rewrite Hok. wp_step.
    eapply wp_conseq; [|apply for_each_owned].
    + by intros res r' [-> ->].
    + intros n o [Hlab Hin]%list_elem_of_filter. rewrite range_perm, elem_of_map_to_list in Hin.
      exact (Hall n o Hin Hlab).
Qed.

Lemma objects_settle env claw a :
  can_settle [KService; KConfigMap; KServiceAccount; KRole; KRoleBinding; KNetworkPolicy; KIngress; KPDB;
              KStatefulSet; KPVC] (ensure_objects env claw a).
Proof.
  unfold ensure_objects.
  repeat (eapply (can_settle_seq [_] (_ :: _)); [| |vm_compute; reflexivity]);
    auto using service_settles, configmap_settles, serviceaccount_settles, role_settles, binding_settles,
      netpol_settles, ingress_settles, pdb_settles, statefulset_settles, pvc_settles.
Qed.

(** Property: the reconciler comes to rest.  Once a pass over the objects of a
    Claw has succeeded, another pass finds everything as it must be: every
    request of it succeeding, it succeeds and changes no object of any kind. *)
Theorem objects_come_to_rest env claw a w r :
  wp w (ensure_objects env claw a) (fun res r1 => res = Ok tt ->
    forall w2 r2, succeeds w2 -> run_st r2 = run_st r1 ->
      wp w2 (ensure_objects env claw a) (fun res2 r3 => res2 = Ok tt /\ same_objs r2 r3) r2) r.
Proof.
  destruct (objects_settle env claw a) as (P & [_ Ha _ Hg]).
  eapply wp_conseq; [|apply Ha]. intros res r1 HP Hres w2 r2 Hok Hst.
  apply Hg; [done|]. rewrite Hst. by apply HP.
Qed.
End Converge.

(** ** Evaluation *)

Module Sample.
#[local] Existing Instance suffix_quantities.
#[local] Existing Instance sorted_range.

Definition agent : Claw := ClawController.Sample.agent None [clawFinalizer] ReclaimRetain.
Definition pass : KM (R unit) := ensure_objects StatefulSet.Sample.build_env agent OpenClawAdapter.
Definition first_pass := exec pass all_ok (ClawController.Sample.world agent).

Lemma objects_come_to_rest_witness :
  is_ok (fst first_pass) = true /\
  wp all_ok pass (fun res r => res = Ok tt /\ same_objs (snd first_pass) r) (snd first_pass).
Proof.
  assert (Hok : is_ok (fst first_pass) = true) by (vm_compute; reflexivity). split; [exact Hok|].
  pose proof (objects_come_to_rest StatefulSet.Sample.build_env agent OpenClawAdapter all_ok
    (mkRun (ClawController.Sample.world agent) 0 [])) as Hp. fold pass in Hp.
  unfold first_pass, exec, wp in *. destruct (pass all_ok _) as [[[]|e] r1]; [|discriminate Hok].
  by apply Hp.
Defined.
End Sample.
