(* ===== verification/Metrics.v ===== *)
(** * Metrics (internal/controller/metrics.go, internal/ipcbus/metrics.go)

    Every function makes calls to the metrics library.  A gauge reads the
    value it was set to last; the theorem says what the phase gauges read
    after any history of status updates, and which alert that silences. *)

From Stdlib Require Import SpecFloat.
From S2P Require Import Prelude.
From S2P Require Import GoFloat.
From S2P Require Import Api.
From S2P Require Import Samples.
From S2P Require Import Kube.
From S2P Require Import SubResources.
From S2P Require Import StatefulSet.
From S2P Require Import ClawStore.
From S2P Require Import ClawController.

Inductive metric_call :=
| Inc (name : string) (labels : list string)
| Dec (name : string) (labels : list string)
| SetGauge (name : string) (labels : list string) (v : float64)
| Observe (name : string) (labels : list string) (v : float64).

Definition gauge_of (b : bool) : float64 := if b then f1_0 else f0.

(** [time.Duration.Seconds]. *)
Definition Seconds (d : Z) : float64 :=
  SFadd 53 1024 (of_int (Z.quot d 1000000000)) (fdiv (of_int (Z.rem d 1000000000)) (of_int 1000000000)).

(** ** The operator's metrics *)

Definition RecordReconcile (namespace result : string) (duration : Z) : list metric_call :=
  [Inc "claw_reconcile_total" [namespace; result];
   Observe "claw_reconcile_duration_seconds" [namespace] (Seconds duration)].

Definition SetManagedInstances (count : Z) : list metric_call :=
  [SetGauge "claw_managed_instances" [] (of_int count)].

Definition metric_phases : list string :=
  ["Pending"; "Provisioning"; "Running"; "Degraded"; "Updating"; "Failed"; "Terminating"]%string.

Definition SetInstancePhase (namespace instance phase : string) : list metric_call :=
  map (fun p => SetGauge "claw_instance_phase" [namespace; instance; p] (gauge_of (bool_decide (p = phase))))
    metric_phases.

Definition SetInstanceReady (namespace instance : string) (ready : bool) : list metric_call :=
  [SetGauge "claw_instance_ready" [namespace; instance] (gauge_of ready)].

Definition RecordResourceCreationFailure (namespace resource : string) : list metric_call :=
  [Inc "claw_resource_creation_failures_total" [namespace; resource]].

Definition RecordAutoUpdateCheck (namespace : string) : list metric_call :=
  [Inc "claw_autoupdate_checks_total" [namespace]].

Definition RecordAutoUpdateResult (namespace result : string) : list metric_call :=
  [Inc "claw_autoupdate_updates_total" [namespace; result]].

Definition SetAutoUpdateCircuit (namespace instance : string) (open : bool) : list metric_call :=
  [SetGauge "claw_autoupdate_circuit_open" [namespace; instance] (gauge_of open)].

(** ** The bus's metrics *)

Definition RecordInbound (channel : string) : list metric_call :=
  [Inc "claw_ipcbus_messages_total" [channel; "inbound"%string]; Inc "claw_ipcbus_messages_inflight" []].
Definition RecordOutbound (channel : string) : list metric_call :=
  [Inc "claw_ipcbus_messages_total" [channel; "outbound"%string]; Dec "claw_ipcbus_messages_inflight" []].
Definition RecordSpill : list metric_call := [Inc "claw_ipcbus_spill_total" []].
Definition RecordDLQ (currentSize : Z) : list metric_call :=
  [Inc "claw_ipcbus_dlq_total" []; SetGauge "claw_ipcbus_dlq_size" [] (of_int currentSize)].
Definition RecordRetry : list metric_call := [Inc "claw_ipcbus_retry_total" []].
Definition SetBridgeConnected (connected : bool) : list metric_call :=
  [SetGauge "claw_ipcbus_bridge_connected" [] (gauge_of connected)].
Definition SetSidecarConnections (n : Z) : list metric_call :=
  [SetGauge "claw_ipcbus_sidecar_connections" [] (of_int n)].
Definition SetWALEntries (n : Z) : list metric_call := [SetGauge "claw_ipcbus_wal_entries" [] (of_int n)].
Definition SetBufferUsage (channel : string) (ratio : float64) : list metric_call :=
  [SetGauge "claw_ipcbus_buffer_usage_ratio" [channel] ratio].

(** ** What a gauge reads *)

Definition sets (name : string) (labels : list string) (c : metric_call) : option float64 :=
  match c with
  | SetGauge n l v => if decide (n = name /\ l = labels) then Some v else None
  | _ => None
  end.

Definition reading (calls : list metric_call) (name : string) (labels : list string) : option float64 :=
  last (omap (sets name labels) calls).

Section Status.
Context `{QuantityLib}.

(** The metrics part of [updateStatus]. *)
Definition status_calls (ns instance : string) (sts : option (Obj (body KStatefulSet))) : list metric_call :=
  let '(phase, ready) := phase_of sts in
  SetInstancePhase ns instance phase ++ SetInstanceReady ns instance ready.

Record status_update := mkStatusUpdate {
  su_Namespace : string;
  su_Instance : string;
  su_StatefulSet : option (Obj (body KStatefulSet));
}.

Definition history (updates : list status_update) : list metric_call :=
  flat_map (fun u => status_calls (su_Namespace u) (su_Instance u) (su_StatefulSet u)) updates.

(** The phase an instance was given last. *)
Fixpoint last_phase (ns instance : string) (updates : list status_update) (p : option string) : option string :=
  match updates with
  | [] => p
  | u :: rest =>
      last_phase ns instance rest
        (if decide (su_Namespace u = ns /\ su_Instance u = instance)
         then Some (fst (phase_of (su_StatefulSet u))) else p)
  end.

(** ** Properties *)

Lemma reading_app c1 c2 name labels :
  reading (c1 ++ c2) name labels =
  match reading c2 name labels with Some v => Some v | None => reading c1 name labels end.
Proof. unfold reading. rewrite omap_app, last_app. by destruct (last (omap (sets name labels) c2)). Qed.

Lemma phase_calls_reading ns i phase ns' i' q :
  reading (SetInstancePhase ns i phase) "claw_instance_phase" [ns'; i'; q] =
  if decide ((ns = ns' /\ i = i') /\ q ∈ metric_phases) then Some (gauge_of (bool_decide (q = phase))) else None.
Proof.
  unfold SetInstancePhase, reading.
  assert (Hl : forall l, NoDup l ->
    last (omap (sets "claw_instance_phase" [ns'; i'; q])
      (map (fun p => SetGauge "claw_instance_phase" [ns; i; p] (gauge_of (bool_decide (p = phase)))) l)) =
    if decide ((ns = ns' /\ i = i') /\ q ∈ l) then Some (gauge_of (bool_decide (q = phase))) else None).
  { intros l. induction l as [|p l IH] using rev_ind; intros Hn.
    { rewrite decide_False; [done|]. intros [_ ?%not_elem_of_nil]. done. }
    apply NoDup_app in Hn as (Hl & Hd & _). rewrite map_app, omap_app, last_app. cbn [map omap list_omap sets].
    match goal with |- context [decide (_ = _ /\ [ns; i; p] = ?l')] => destruct (decide ([ns; i; p] = l')) as [E|E] end.
    - rewrite (decide_True (P := _ /\ [ns; i; p] = _)) by done. injection E as <- <- <-. cbn [last]. rewrite decide_True; [done|]. split; [done|set_solver].
    - rewrite (decide_False (P := _ /\ [ns; i; p] = _)) by tauto. cbn [last]. rewrite IH by done. apply decide_ext. split; [set_solver|]. intros [[-> ->] Hq].
      split; [done|]. apply elem_of_app in Hq as [Hq|Hq]; [done|]. apply list_elem_of_singleton in Hq as ->. done. }
  apply Hl. apply (bool_decide_unpack _). vm_compute. exact I.
Qed.

Lemma status_calls_reading u ns i q :
  reading (status_calls (su_Namespace u) (su_Instance u) (su_StatefulSet u)) "claw_instance_phase" [ns; i; q] =
  if decide ((su_Namespace u = ns /\ su_Instance u = i) /\ q ∈ metric_phases)
  then Some (gauge_of (bool_decide (q = fst (phase_of (su_StatefulSet u))))) else None.
Proof.
  unfold status_calls. destruct (phase_of _) as [phase ready]. cbn [fst]. rewrite reading_app.
  assert (reading (SetInstanceReady (su_Namespace u) (su_Instance u) ready) "claw_instance_phase" [ns; i; q] = None) as ->.
  { unfold reading, SetInstanceReady. cbn [omap list_omap sets]. by rewrite decide_False by (intros []; discriminate). }
  apply phase_calls_reading.
Qed.

(** Property: the phase gauges of an instance are one-hot: after any history of
    status updates the gauge of its last phase reads one and the others read
    zero.  Since the operator gives no other phase than Pending, Provisioning
    and Running, the gauges that the alert on failed and degraded instances
    watches never read one. *)
Theorem phase_gauges (updates : list status_update) (ns instance q : string) :
  q ∈ metric_phases ->
  reading (history updates) "claw_instance_phase" [ns; instance; q] =
    (fun p => gauge_of (bool_decide (q = p))) <$> last_phase ns instance updates None /\
  (q = ClawPhaseFailed \/ q = ClawPhaseDegraded ->
   reading (history updates) "claw_instance_phase" [ns; instance; q] <> Some f1_0).
Proof.
  intros Hq.
  assert (H1 : reading (history updates) "claw_instance_phase" [ns; instance; q] =
    (fun p => gauge_of (bool_decide (q = p))) <$> last_phase ns instance updates None).
  { induction updates as [|u updates IH] using rev_ind; [done|].
    assert (Hlast : forall l p, last_phase ns instance (l ++ [u]) p =
      if decide (su_Namespace u = ns /\ su_Instance u = instance) then Some (fst (phase_of (su_StatefulSet u)))
      else last_phase ns instance l p).
    { intros l. induction l as [|u' l IHl]; intros p; cbn [last_phase app]; [done|apply IHl]. }
    unfold history in *. rewrite flat_map_app, reading_app, Hlast. cbn [flat_map]. rewrite app_nil_r, status_calls_reading.
    destruct (decide (su_Namespace u = ns /\ su_Instance u = instance)) as [E|E].
    - by rewrite decide_True by done.
    - rewrite decide_False by tauto. exact IH. }
  split; [done|]. intros Hf. rewrite H1.
  assert (Hp : forall p0, p0 <> Some q -> last_phase ns instance updates p0 <> Some q).
  { clear H1. induction updates as [|u updates IH]; intros p0 Hp0; cbn [last_phase]; [done|]. apply IH.
    case_decide; [|done]. unfold phase_of. destruct (su_StatefulSet u) as [o|]; [case_if|]; destruct Hf as [->| ->]; done. }
  specialize (Hp None ltac:(done)). destruct (last_phase _ _ _ _) as [p|]; [|done]. cbn.
  rewrite bool_decide_false by congruence. done.
Qed.

End Status.

(** ** Samples *)

Module Sample.

#[local] Existing Instance int_quantities.

(** Two claws whose StatefulSets are not there yet. *)
Definition pending_updates : list status_update :=
  [mkStatusUpdate "default" "ada" None; mkStatusUpdate "default" "bob" None].

Lemma phase_gauges_witness :
  reading (history pending_updates) "claw_instance_phase" ["default"; "ada"; "Pending"]%string = Some f1_0 /\
  reading (history pending_updates) "claw_instance_phase" ["default"; "ada"; "Failed"]%string <> Some f1_0.
Proof.
  split.
  - rewrite (proj1 (phase_gauges pending_updates "default" "ada" "Pending" ltac:(by left))). vm_compute. reflexivity.
  - apply (phase_gauges pending_updates "default" "ada" "Failed"); [|by left].
    unfold metric_phases. do 5 right. by left.
Defined.

End Sample.
