(* ===== verification/ChannelController.v ===== *)
(** * The channel reconciler (internal/controller/channel_controller.go)

    A ClawChannel carries a finalizer; its reconciler counts the Claws that
    refer to it and lets a deleted channel go only when none does. *)

From S2P Require Import Prelude.
From S2P Require Import GoStrings.
From S2P Require Import Api.
From S2P Require Import Samples.
From S2P Require Import Kube.
From S2P Require Import OpsIntent.
From S2P Require Import Channel.
From S2P Require Import StatefulSet.
From S2P Require Import ClawController.

Definition clawChannelFinalizer : string := "claw.prismer.ai/channel-cleanup".

(** [fmt.Sprintf] with [%v] of a list of strings. *)
Definition format_names (l : list string) : string := ("[" +:+ String.concat " " l +:+ "]")%string.

Section Controller.
Context `{QuantityLib, ConditionLib}.

Record ChState := mkCh { chs_channel : option ClawChannel; chs_claws : list Claw }.

Inductive ch_event := EvChPatched (finalizers : list string) | EvChStatus (s : ClawChannelStatus).
Inductive ch_error := ErrChGet | ErrChList | ErrChPatch | ErrChStatus.

Abbreviation HM := (M ChState ch_event).

Definition put_channel (c : option ClawChannel) : HM unit := mmodify (fun s => mkCh c (chs_claws s)).

(** A merge patch that replaces the finalizers; the answer is the stored
    object. *)
Definition patch_channel_finalizers (l : list string) : HM (result ch_error ClawChannel) :=
  let* ok := io in
  let* s := mget in
  match ok, chs_channel s with
  | true, Some st =>
      let new := mkChannel (set_finalizers l (ch_Meta st)) (ch_Spec st) (ch_Status st) in
      let deleted := bool_decide (l = []) && bool_decide (is_Some (DeletionTimestamp (ch_Meta st))) in
      put_channel (if deleted then None else Some new) ;;;
      emit (EvChPatched l) ;;; mret (Ok new)
  | _, _ => mret (Err ErrChPatch)
  end.

Definition update_channel_status (c : ClawChannel) : HM (result ch_error unit) :=
  let* ok := io in
  let* s := mget in
  match ok, chs_channel s with
  | true, Some st =>
      put_channel (Some (mkChannel (ch_Meta st) (ch_Spec st) (ch_Status c))) ;;;
      emit (EvChStatus (ch_Status c)) ;;; mret (Ok tt)
  | _, _ => mret (Err ErrChStatus)
  end.

Definition findReferencingClaws (channel : ClawChannel) : HM (result ch_error (list string)) :=
  let* ok := io in
  let* s := mget in
  mret (if ok then Ok (clawsReferencingChannel (chs_claws s) (Namespace (ch_Meta channel)) (Name (ch_Meta channel)))
        else Err ErrChList).

Definition references_exist (channel : ClawChannel) (names : list string) : Condition :=
  mkCondition "InUse" "True" "ReferencesExist"
    ("channel is referenced by " +:+ text (format_int (Z.of_nat (length names))) +:+ " Claw(s): " +:+
     format_names names)%string (ObjGeneration (ch_Meta channel)).
Definition no_references (channel : ClawChannel) : Condition :=
  mkCondition "InUse" "False" "NoReferences" "channel is not referenced by any Claw"
    (ObjGeneration (ch_Meta channel)).

Definition with_channel_status (s : ClawChannelStatus) (c : ClawChannel) : ClawChannel :=
  mkChannel (ch_Meta c) (ch_Spec c) s.

Definition updateChannelStatus (channel : ClawChannel) (names : list string) : HM (result ch_error unit) :=
  let st := ch_Status channel in
  let cond := match names with [] => no_references channel | _ => references_exist channel names end in
  update_channel_status (with_channel_status
    (mkChannelStatus (SetStatusCondition cond (chs_Conditions st)) (ObjGeneration (ch_Meta channel))
       (Z.of_nat (length names)) names) channel).

Definition requeue_in_use : Z := 10 * 1000000000.

Definition handleChannelDeletion (channel : ClawChannel) (names : list string) : HM (result ch_error Z) :=
  if negb (ContainsFinalizer (ch_Meta channel) clawChannelFinalizer) then mret (Ok 0)
  else
    match names with
    | _ :: _ =>
        let st := ch_Status channel in
        let* u := update_channel_status (with_channel_status
          (mkChannelStatus (SetStatusCondition (references_exist channel names) (chs_Conditions st))
             (chs_ObservedGeneration st) (Z.of_nat (length names)) names) channel) in
        mret (match u with Ok _ => Ok requeue_in_use | Err e => Err e end)
    | [] =>
        let* p := patch_channel_finalizers
                    (filter (fun f => f <> clawChannelFinalizer) (Finalizers (ch_Meta channel))) in
        mret (match p with Ok _ => Ok 0 | Err e => Err e end)
    end.

Definition ensure_channel_finalizer (channel : ClawChannel) : HM (result ch_error ClawChannel) :=
  if ContainsFinalizer (ch_Meta channel) clawChannelFinalizer then mret (Ok channel)
  else patch_channel_finalizers (Finalizers (ch_Meta channel) ++ [clawChannelFinalizer]).

Definition Reconcile : HM (result ch_error Z) :=
  let* ok := io in
  let* s := mget in
  match ok, chs_channel s with
  | false, _ => mret (Err ErrChGet)
  | true, None => mret (Ok 0)
  | true, Some channel =>
      let* refs := findReferencingClaws channel in
      match refs with
      | Err e => mret (Err e)
      | Ok names =>
          if bool_decide (is_Some (DeletionTimestamp (ch_Meta channel))) then handleChannelDeletion channel names
          else
            let* f := ensure_channel_finalizer channel in
            match f with
            | Err e => mret (Err e)
            | Ok channel =>
                let* u := updateChannelStatus channel names in
                mret (match u with Ok _ => Ok 0 | Err e => Err e end)
            end
      end
  end.

(** ** The life of a channel

    The reconciler runs, under any pattern of failures; users ask for the
    deletion of the channel; Claws come, change and go. *)

Definition delete_requested (t : Z) (c : ClawChannel) : ClawChannel :=
  let m := ch_Meta c in
  mkChannel
    (mkMeta (Name m) (GenerateName m) (Namespace m) (UID m) (ObjGeneration m) (Labels m) (Annotations m)
       (OwnerReferences m) (Finalizers m) (CreationTimestamp m)
       (Some (default t (DeletionTimestamp m)))) (ch_Spec c) (ch_Status c).

Definition referring (s : ChState) (c : ClawChannel) : list string :=
  clawsReferencingChannel (chs_claws s) (Namespace (ch_Meta c)) (Name (ch_Meta c)).

Inductive ch_step : ChState -> ChState -> Prop :=
| ChReconcile w n tr s res r : Reconcile w (mkRun s n tr) = (res, r) -> ch_step s (run_st r)
| ChDelete t s c : chs_channel s = Some c ->
    ch_step s (mkCh (if decide (Finalizers (ch_Meta c) = []) then None else Some (delete_requested t c)) (chs_claws s))
| ChClaws claws s : ch_step s (mkCh (chs_channel s) claws).
End Controller.

(** ** A referenced channel is not lost *)

Section Safety.
Context `{QuantityLib, ConditionLib}.

Definition protected (s : ChState) : Prop :=
  exists c, chs_channel s = Some c /\ clawChannelFinalizer ∈ Finalizers (ch_Meta c).

(** What a reconciliation does to the stored channel: it keeps it with its
    finalizer, or had no finalizer to keep, or nothing refers to it. *)
Lemma status_protected w c (r : Run ChState ch_event) :
  protected (run_st r) -> wp w (update_channel_status c) (fun _ r' => protected (run_st r')) r.
Proof.
  intros (st & Hst & Hf). unfold update_channel_status, put_channel. wp_step. rewrite Hst.
  case_match; wp_step; [|by exists st]. eexists. split; [done|done].
Qed.

Lemma reconcile_protected w c (r : Run ChState ch_event) :
  chs_channel (run_st r) = Some c -> clawChannelFinalizer ∈ Finalizers (ch_Meta c) ->
  referring (run_st r) c <> [] ->
  wp w Reconcile (fun _ r' => protected (run_st r')) r.
Proof.
  intros Hc Hf Href. unfold Reconcile. wp_step. rewrite Hc. case_match; wp_step; [|by exists c].
  unfold findReferencingClaws. wp_step. case_if; wp_step; [|by exists c].
  fold (referring (run_st r) c). case_bool_decide.
  - unfold handleChannelDeletion, ContainsFinalizer. rewrite bool_decide_true by done. cbn [negb].
    destruct (referring (run_st r) c) as [|n l]; [done|].
    rewrite wp_bind. eapply wp_conseq; [|apply status_protected; by exists c].
    intros u r' Hr'. by wp_step.
  - unfold ensure_channel_finalizer, ContainsFinalizer. rewrite bool_decide_true by done. wp_step.
    eapply wp_conseq; [|apply status_protected; by exists c]. intros u r' Hr'. by wp_step.
Qed.

(** C17: a channel that carries the finalizer is not lost while a Claw refers
    to it: whatever is requested and whatever fails, as long as every state on
    the way has a Claw that refers to the channel, the channel is there with
    its finalizer. *)
Theorem referenced_channel_kept s s' :
  protected s ->
  rtc (fun a b => ch_step a b /\ forall c, chs_channel a = Some c -> referring a c <> []) s s' ->
  protected s'.
Proof.
  intros Hp. induction 1 as [s|s s1 s2 [Hstep Href] _ IH]; [done|]. apply IH. clear IH.
  destruct Hp as (c & Hc & Hf). destruct Hstep as [w n tr s res r Hrun|t s c' Hc'|claws s].
  - pose proof (reconcile_protected w c (mkRun s n tr) Hc Hf (Href c Hc)) as Hw. unfold wp in Hw.
    by rewrite Hrun in Hw.
  - rewrite Hc in Hc'. apply Some_inj in Hc' as <-.
    rewrite decide_False by (intros Hn; rewrite Hn in Hf; by apply not_elem_of_nil in Hf).
    eexists. split; [done|done].
  - by exists c.
Qed.

(** An unreferenced channel whose deletion was requested goes. *)
Lemma unreferenced_channel_goes w c r :
  (forall n, o_ok w n = true) -> chs_channel (run_st r) = Some c ->
  clawChannelFinalizer ∈ Finalizers (ch_Meta c) -> is_Some (DeletionTimestamp (ch_Meta c)) ->
  referring (run_st r) c = [] ->
  wp w Reconcile (fun res r' => res = Ok 0 /\ ~ protected (run_st r')) r.
Proof.
  intros Hok Hc Hf Hd Href. unfold Reconcile. wp_step. rewrite Hok, Hc. wp_step.
  unfold findReferencingClaws. wp_step. rewrite Hok. fold (referring (run_st r) c). rewrite Href.
  rewrite bool_decide_true by done. unfold handleChannelDeletion, ContainsFinalizer.
  rewrite bool_decide_true by done. cbn [negb]. unfold patch_channel_finalizers, put_channel. wp_step.
  rewrite Hok, Hc. wp_step. split; [done|]. intros (c' & Hc' & Hin). cbn [chs_channel] in Hc'.
  case_match; [done|]. apply Some_inj in Hc' as <-. cbn in Hin. by apply list_elem_of_filter in Hin as [? _].
Qed.
End Safety.

(** ** Evaluation *)

Module Sample.
#[local] Existing Instance suffix_quantities.
#[local] Existing Instance ClawController.Sample.replace_condition.

Definition slack_meta (finalizers : list string) (deleted : option Z) : ObjectMeta :=
  mkMeta "slack" "" "default" "c1" 1 ∅ None [] finalizers 0 deleted.

Definition slack (deleted : option Z) : ClawChannel :=
  mkChannel (slack_meta [clawChannelFinalizer] deleted)
    (mkChannelSpec ChannelTypeSlack ChannelModeBidirectional None None None None None) (mkChannelStatus [] 0 0 []).

(** A Claw of the namespace that refers to the channel. *)
Definition in_use (deleted : option Z) : ChState := mkCh (Some (slack deleted)) [StatefulSet.Sample.agent RuntimeOpenClaw None].

Definition after_reconcile : ChState := run_st (snd (exec Reconcile all_ok (in_use (Some 5)))).

Lemma referenced_channel_kept_witness : protected after_reconcile.
Proof.
  assert (Hfin : clawChannelFinalizer ∈ Finalizers (slack_meta [clawChannelFinalizer] None)) by decide_now.
  assert (Href : forall d c, chs_channel (in_use d) = Some c -> referring (in_use d) c <> []).
  { intros d c Hc. apply Some_inj in Hc as <-. intros Hn.
    assert (length (referring (in_use d) (slack d)) = 1%nat) as Hl by (vm_compute; reflexivity).
    rewrite Hn in Hl. discriminate Hl. }
  apply (referenced_channel_kept (in_use None)); [by exists (slack None)|].
  eapply rtc_l; [split; [exact (ChDelete 5 (in_use None) (slack None) eq_refl)|apply Href]|].
  eapply rtc_l; [|apply rtc_refl]. split; [|apply (Href (Some 5))].
  exact (ChReconcile all_ok 0 [] (in_use (Some 5)) (fst (exec Reconcile all_ok (in_use (Some 5))))
    (snd (exec Reconcile all_ok (in_use (Some 5)))) (surjective_pairing _)).
Defined.

Example in_use_status :
  (fun c => (ReferenceCount (ch_Status c), ReferencingClaws (ch_Status c), map co_Message (chs_Conditions (ch_Status c))))
    <$> chs_channel after_reconcile
  = Some (1, ["agent"], ["channel is referenced by 1 Claw(s): [agent]"])%string.
Proof. vm_compute. reflexivity. Qed.
End Sample.
