(* ===== verification/SelfConfig.v ===== *)
(** * Self-configuration (api/v1alpha1/clawselfconfig_types.go and
    internal/controller/selfconfig_controller.go)

    An agent asks for changes to its own Claw with a ClawSelfConfig.  The
    reconciler checks the request against the Claw's allow-list, marks the
    Claw with an annotation, and deletes the request an hour after it was
    applied. *)

From S2P Require Import Prelude.
From S2P Require Import GoStrings.
From S2P Require Import GoTime.
From S2P Require Import Api.
From S2P Require Import Samples.
From S2P Require Import Kube.
From S2P Require Import ClawStore.

Definition SelfConfigPhasePending : string := "Pending".
Definition SelfConfigPhaseApplied : string := "Applied".
Definition SelfConfigPhaseFailed : string := "Failed".
Definition SelfConfigPhaseDenied : string := "Denied".

Record SelfConfigEnvVar := mkSelfEnv { se_Name : string; se_Value : string }.

Record ClawSelfConfigSpec := mkSelfConfigSpec {
  sc_ClawRef : string;
  AddSkills : list string;
  RemoveSkills : list string;
  ConfigPatch : gmap string string;
  AddWorkspaceFiles : gmap string string;
  RemoveWorkspaceFiles : list string;
  AddEnvVars : list SelfConfigEnvVar;
  RemoveEnvVars : list string;
}.

Record ClawSelfConfigStatus := mkSelfConfigStatus {
  scs_Phase : string;
  scs_Message : string;
  scs_AppliedAt : option Z;
}.

Record ClawSelfConfig := mkSelfConfig {
  sc_Meta : ObjectMeta;
  sc_Spec : ClawSelfConfigSpec;
  sc_Status : ClawSelfConfigStatus;
}.

Definition selfConfigTTL : Z := 3600 * ns_per_s.

(** [%q], for the names the API server allows: nothing needs an escape. *)
Definition quoted (s : string) : string := String (ascii_of_nat 34) (s +:+ String (ascii_of_nat 34) "").

(** ** validateActions: the reason for a denial, if any *)

Definition nonempty {A} (l : list A) : bool := negb (bool_decide (length l = 0%nat)).

Fixpoint first_reason (l : list (bool * string)) : option string :=
  match l with
  | [] => None
  | (bad, reason) :: l' => if bad then Some reason else first_reason l'
  end.

Definition not_allowed (a : string) : string := ("action '" +:+ a +:+ "' is not in allowedActions")%string.
Definition too_many (f : string) : string := (f +:+ " exceeds max 10 items")%string.

Definition validateActions (s : ClawSelfConfigSpec) (allowed : list string) : option string :=
  let lacks a := negb (bool_decide (a ∈ allowed)) in
  let over {A} (l : list A) := (10 <? length l)%nat in
  first_reason
    [((nonempty (AddSkills s) || nonempty (RemoveSkills s)) && lacks "skills"%string, not_allowed "skills");
     (negb (size (ConfigPatch s) =? 0)%nat && lacks "config"%string, not_allowed "config");
     ((negb (size (AddWorkspaceFiles s) =? 0)%nat || nonempty (RemoveWorkspaceFiles s)) && lacks "workspaceFiles"%string,
      not_allowed "workspaceFiles");
     ((nonempty (AddEnvVars s) || nonempty (RemoveEnvVars s)) && lacks "envVars"%string, not_allowed "envVars");
     (over (AddSkills s), too_many "addSkills"); (over (RemoveSkills s), too_many "removeSkills");
     ((10 <? size (AddWorkspaceFiles s))%nat, too_many "addWorkspaceFiles");
     (over (RemoveWorkspaceFiles s), too_many "removeWorkspaceFiles");
     (over (AddEnvVars s), too_many "addEnvVars"); (over (RemoveEnvVars s), too_many "removeEnvVars")].

Section Controller.
Context `{QuantityLib}.

(** ** The namespace: the request and the Claws by name *)

Record ScState := mkSc { sc_request : option ClawSelfConfig; sc_claws : gmap string Claw }.

Inductive sc_event :=
| EvScStatus (s : ClawSelfConfigStatus)
| EvScUpdated
| EvScDeleted
| EvScClawUpdated (name : string)
| EvScRecord (reason message : string).

Inductive sc_error := ErrScGet | ErrScDelete | ErrScStatus | ErrScClaw | ErrScUpdate | ErrScApply.

Abbreviation SM := (M ScState sc_event).

Definition with_sc_status (s : ClawSelfConfigStatus) (c : ClawSelfConfig) : ClawSelfConfig :=
  mkSelfConfig (sc_Meta c) (sc_Spec c) s.

(** Times are stored in whole seconds. *)
Definition store_sc_status (s : ClawSelfConfigStatus) : ClawSelfConfigStatus :=
  mkSelfConfigStatus (scs_Phase s) (scs_Message s) (trunc_s <$> scs_AppliedAt s).

(** [Status().Update]. *)
Definition update_sc_status (s : ClawSelfConfigStatus) : SM bool :=
  let* ok := io in
  let* st := mget in
  match ok, sc_request st with
  | true, Some c =>
      mput (mkSc (Some (with_sc_status (store_sc_status s) c)) (sc_claws st)) ;;;
      emit (EvScStatus s) ;;; mret true
  | _, _ => mret false
  end.

(** [Update] of the request's metadata. *)
Definition update_sc_meta (m : ObjectMeta) : SM bool :=
  let* ok := io in
  let* st := mget in
  match ok, sc_request st with
  | true, Some c =>
      mput (mkSc (Some (mkSelfConfig m (sc_Spec c) (sc_Status c))) (sc_claws st)) ;;;
      emit EvScUpdated ;;; mret true
  | _, _ => mret false
  end.

(** [Update] of the metadata and specification of the Claw read as [name]. *)
Definition update_sc_claw (name : string) (claw : Claw) : SM bool :=
  let* ok := io in
  let* st := mget in
  match ok, sc_claws st !! name with
  | true, Some stored =>
      mput (mkSc (sc_request st) (<[name := mkClaw (Meta claw) (Spec claw) (Status stored)]> (sc_claws st))) ;;;
      emit (EvScClawUpdated name) ;;; mret true
  | _, _ => mret false
  end.

Definition delete_sc : SM bool :=
  let* ok := io in
  if ok then mmodify (fun st => mkSc None (sc_claws st)) ;;; emit EvScDeleted ;;; mret true
  else mret false.

(** ** deny, applyChanges *)

Definition EventSelfConfigApplied : string := "SelfConfigApplied".
Definition EventSelfConfigDenied : string := "SelfConfigDenied".

Definition deny (reason : string) : SM (result sc_error Z) :=
  let* s := mget in
  let appliedAt := (sc_request s ≫= fun c => scs_AppliedAt (sc_Status c)) in
  let* ok := update_sc_status (mkSelfConfigStatus SelfConfigPhaseDenied reason appliedAt) in
  if ok then emit (EvScRecord EventSelfConfigDenied reason) ;;; mret (Ok 0) else mret (Err ErrScStatus).

Definition annotationLastSelfConfig : string := "claw.prismer.ai/last-self-config".

Definition applyChanges (claw : Claw) (sc : ClawSelfConfig) : SM bool :=
  update_sc_claw (sc_ClawRef (sc_Spec sc)) (set_meta (put_annotation annotationLastSelfConfig (Name (sc_Meta sc))) claw).

(** [controllerutil.SetOwnerReference]: one reference per kind and name. *)
Definition SetOwnerReference (claw : Claw) (m : ObjectMeta) : ObjectMeta :=
  let ref := mkOwnerRef "Claw" (Name (Meta claw)) (UID (Meta claw)) None in
  let same r := bool_decide (or_Kind r = or_Kind ref /\ or_Name r = or_Name ref) in
  set_owners
    (if existsb same (OwnerReferences m) then map (fun r => if same r then ref else r) (OwnerReferences m)
     else OwnerReferences m ++ [ref]) m.

(** ** Reconcile; the texts of the API server's errors are left out of the
    messages. *)

Definition self_configure_allowed (claw : Claw) : option (list string) :=
  match SelfConfigure (Spec claw) with
  | Some s => if sc_Enabled s then Some (AllowedActions s) else None
  | None => None
  end.

Definition apply_request (claw : Claw) (sc : ClawSelfConfig) : SM (result sc_error Z) :=
  let* updated := update_sc_meta (SetOwnerReference claw (sc_Meta sc)) in
  if negb updated then mret (Err ErrScUpdate)
  else
    let* applied := applyChanges claw sc in
    if negb applied then
      let* _ := update_sc_status (mkSelfConfigStatus SelfConfigPhaseFailed "failed to update Claw"
                                    (scs_AppliedAt (sc_Status sc))) in
      mret (Err ErrScApply)
    else
      let* t := now in
      let* ok := update_sc_status
        (mkSelfConfigStatus SelfConfigPhaseApplied "configuration applied successfully" (Some t)) in
      if ok then
        emit (EvScRecord EventSelfConfigApplied
                ("Self-configuration applied to Claw " +:+ sc_ClawRef (sc_Spec sc))%string) ;;;
        mret (Ok selfConfigTTL)
      else mret (Err ErrScStatus).

Definition process_request (sc : ClawSelfConfig) : SM (result sc_error Z) :=
  let* ok := io in
  let* st := mget in
  if negb ok then mret (Err ErrScClaw)
  else
    match sc_claws st !! sc_ClawRef (sc_Spec sc) with
    | None => deny ("target Claw " +:+ quoted (sc_ClawRef (sc_Spec sc)) +:+ " not found")%string
    | Some claw =>
        match self_configure_allowed claw with
        | None => deny "self-configuration is not enabled on target Claw"
        | Some allowed =>
            match validateActions (sc_Spec sc) allowed with
            | Some reason => deny reason
            | None => apply_request claw sc
            end
        end
    end.

Definition Reconcile : SM (result sc_error Z) :=
  let* ok := io in
  let* st := mget in
  match ok, sc_request st with
  | false, _ => mret (Err ErrScGet)
  | true, None => mret (Ok 0)
  | true, Some sc =>
      let phase := scs_Phase (sc_Status sc) in
      match bool_decide (phase = SelfConfigPhaseApplied), scs_AppliedAt (sc_Status sc) with
      | true, Some at_ =>
          let* t := now in
          let elapsed := time_sub t at_ in
          if selfConfigTTL <=? elapsed then
            let* d := delete_sc in mret (if d then Ok 0 else Err ErrScDelete)
          else mret (Ok (selfConfigTTL - elapsed))
      | _, _ =>
          if bool_decide (phase = SelfConfigPhaseDenied \/ phase = SelfConfigPhaseFailed) then mret (Ok 0)
          else process_request sc
      end
  end.
End Controller.

(** ** What a request may ask for *)

Definition uses (b : bool) (a : string) (allowed : list string) : Prop := b = true -> a ∈ allowed.

(** Every kind of change asked for is allowed, and no list has more than ten
    items. *)
Definition permitted (s : ClawSelfConfigSpec) (allowed : list string) : Prop :=
  ((AddSkills s <> [] \/ RemoveSkills s <> []) -> "skills"%string ∈ allowed) /\
  (ConfigPatch s <> ∅ -> "config"%string ∈ allowed) /\
  ((AddWorkspaceFiles s <> ∅ \/ RemoveWorkspaceFiles s <> []) -> "workspaceFiles"%string ∈ allowed) /\
  ((AddEnvVars s <> [] \/ RemoveEnvVars s <> []) -> "envVars"%string ∈ allowed) /\
  (length (AddSkills s) <= 10 /\ length (RemoveSkills s) <= 10 /\ size (AddWorkspaceFiles s) <= 10 /\
   length (RemoveWorkspaceFiles s) <= 10 /\ length (AddEnvVars s) <= 10 /\ length (RemoveEnvVars s) <= 10)%nat.

Lemma first_reason_None l : first_reason l = None <-> Forall (fun x => fst x = false) l.
Proof.
  induction l as [|[[] reason] l IH]; cbn; rewrite ?Forall_cons, ?Forall_nil; [done|naive_solver|].
  rewrite IH. naive_solver.
Qed.

Lemma nonempty_spec {A} (l : list A) : nonempty l = true <-> l <> [].
Proof. unfold nonempty. rewrite negb_true_iff, bool_decide_eq_false. by destruct l. Qed.

Lemma nonempty_map_spec {V} (m : gmap string V) : negb (size m =? 0)%nat = true <-> m <> ∅.
Proof. rewrite negb_true_iff, Nat.eqb_neq. by rewrite map_size_empty_iff. Qed.

(** A check that is passed. *)
Lemma passed b a (allowed : list string) :
  b && negb (bool_decide (a ∈ allowed)) = false <-> (b = true -> a ∈ allowed).
Proof. destruct b; cbn; [|naive_solver]. rewrite negb_false_iff, bool_decide_eq_true. naive_solver. Qed.

Lemma validateActions_spec s allowed : validateActions s allowed = None <-> permitted s allowed.
Proof.
  unfold validateActions. rewrite first_reason_None, !Forall_cons, Forall_nil. cbn [fst].
  rewrite !passed, !orb_true_iff, !nonempty_spec, !nonempty_map_spec, !Nat.ltb_ge. unfold permitted. tauto.
Qed.

Section Gate.
Context `{QuantityLib} (w : Oracle).
Implicit Types r : Run ScState sc_event.

(** The request may go ahead: it is new, and its Claw allows it. *)
Definition may_apply (st : ScState) : Prop :=
  exists sc claw s, sc_request st = Some sc /\ sc_claws st !! sc_ClawRef (sc_Spec sc) = Some claw /\
    SelfConfigure (Spec claw) = Some s /\ sc_Enabled s = true /\ permitted (sc_Spec sc) (AllowedActions s) /\
    ~ (scs_Phase (sc_Status sc) = SelfConfigPhaseDenied \/ scs_Phase (sc_Status sc) = SelfConfigPhaseFailed).

(** An event of a change that goes through. *)
Definition applies (e : sc_event) : bool :=
  match e with
  | EvScStatus s => bool_decide (scs_Phase s = SelfConfigPhaseApplied)
  | EvScClawUpdated _ => true
  | _ => false
  end.

Definition quiet r : Prop := Forall (fun e => applies e = false) (run_trace r).

(** The Claws are as they were, but for annotations. *)
Definition claws_kept (st : ScState) r : Prop :=
  forall n c, sc_claws st !! n = Some c ->
    exists c', sc_claws (run_st r) !! n = Some c' /\ Spec c' = Spec c /\ Status c' = Status c /\
      exists a, Meta c' = set_annotations a (Meta c).

Definition sc_gate_inv (st : ScState) r : Prop := claws_kept st r /\ (quiet r \/ may_apply st).

Lemma claws_kept_refl r : claws_kept (run_st r) r.
Proof. intros n c Hc. exists c. split; [done|]. split; [done|]. split; [done|]. exists (Annotations (Meta c)). by destruct c as [[] ? ?]. Qed.

Lemma sc_gate_io st : preserves w (sc_gate_inv st) io.
Proof. by intros r Hr. Qed.
Lemma sc_gate_now st : preserves w (sc_gate_inv st) now.
Proof. by intros r Hr. Qed.

Lemma sc_gate_emit st e : applies e = false \/ may_apply st -> preserves w (sc_gate_inv st) (emit e).
Proof.
  intros He r [Hk Hq]. rewrite wp_emit. split; [exact Hk|]. destruct Hq as [Hq|Hq]; [|by right].
  destruct He as [He|He]; [left|by right]. unfold quiet. cbn. apply Forall_app. by repeat constructor.
Qed.

Lemma sc_gate_status st s :
  scs_Phase s <> SelfConfigPhaseApplied \/ may_apply st -> preserves w (sc_gate_inv st) (update_sc_status s).
Proof.
  intros Hs r [Hk Hq]. unfold update_sc_status. wp_step. case_match; wp_step; [|done].
  destruct (sc_request (run_st r)) as [c|]; wp_step; [|done]. split; [exact Hk|].
  destruct Hq as [Hq|Hq]; [|by right]. destruct Hs as [Hs|Hs]; [left|by right].
  unfold quiet. cbn. apply Forall_app. split; [exact Hq|]. repeat constructor. cbn. by apply bool_decide_eq_false.
Qed.

Lemma sc_gate_meta st m : preserves w (sc_gate_inv st) (update_sc_meta m).
Proof.
  intros r [Hk Hq]. unfold update_sc_meta. wp_step. case_match; wp_step; [|done].
  destruct (sc_request (run_st r)) as [c|]; wp_step; [|done]. split; [exact Hk|].
  destruct Hq as [Hq|Hq]; [left|by right]. unfold quiet. cbn. apply Forall_app. by repeat constructor.
Qed.

Lemma sc_gate_delete st : preserves w (sc_gate_inv st) delete_sc.
Proof.
  intros r [Hk Hq]. unfold delete_sc. wp_step. case_if; wp_step; [|done]. split; [exact Hk|].
  destruct Hq as [Hq|Hq]; [left|by right]. unfold quiet. cbn. apply Forall_app. by repeat constructor.
Qed.

(** The Claw that was read at the start is written back with an annotation. *)
Lemma sc_gate_apply st claw sc :
  sc_claws st !! sc_ClawRef (sc_Spec sc) = Some claw -> may_apply st ->
  preserves w (sc_gate_inv st) (applyChanges claw sc).
Proof.
  intros Hc Hm r [Hk Hq]. unfold applyChanges, update_sc_claw. wp_step. case_match; wp_step; [|done].
  destruct (sc_claws (run_st r) !! _) as [stored|] eqn:Hst; wp_step; [|done]. split; [|by right].
  intros n c Hn. cbn [run_st sc_claws]. destruct (decide (n = sc_ClawRef (sc_Spec sc))) as [->|Hne].
  - rewrite lookup_insert_eq. rewrite Hc in Hn. apply Some_inj in Hn as <-.
    destruct (Hk _ _ Hc) as (c' & Hc' & _ & Hs' & _). rewrite Hst in Hc'. apply Some_inj in Hc' as ->.
    eexists. split; [done|]. cbn. split; [done|]. split; [done|]. eexists. reflexivity.
  - rewrite lookup_insert_ne by done. by apply Hk.
Qed.

#[local] Hint Resolve sc_gate_io sc_gate_now sc_gate_meta sc_gate_delete : preserves.

Lemma sc_gate_deny st reason : preserves w (sc_gate_inv st) (deny reason).
Proof.
  assert (forall s, scs_Phase s = SelfConfigPhaseDenied -> preserves w (sc_gate_inv st) (update_sc_status s)) as Hs.
  { intros s Hp. apply sc_gate_status. left. by rewrite Hp. }
  assert (forall m, preserves w (sc_gate_inv st) (emit (EvScRecord EventSelfConfigDenied m))) as He
    by (intros m; apply sc_gate_emit; by left).
  unfold deny. preserve.
Qed.

Lemma sc_gate_apply_request st claw sc :
  sc_claws st !! sc_ClawRef (sc_Spec sc) = Some claw -> may_apply st ->
  preserves w (sc_gate_inv st) (apply_request claw sc).
Proof.
  intros Hc Hm.
  assert (forall s, preserves w (sc_gate_inv st) (update_sc_status s)) by (intros s; apply sc_gate_status; by right).
  assert (forall e, preserves w (sc_gate_inv st) (emit e)) by (intros e; apply sc_gate_emit; by right).
  pose proof (sc_gate_apply st claw sc Hc Hm). unfold apply_request. preserve.
Qed.

(** C18: a self-configuration goes ahead - is marked as applied, or touches a
    Claw - only if it is new, its Claw has self-configuration enabled, every
    kind of change it asks for is in the Claw's allow-list and no list is
    longer than ten.  And whatever it asks for, no Claw gets more than an
    annotation. *)
Theorem selfconfig_gate r :
  run_trace r = [] ->
  wp w Reconcile (fun _ r' => claws_kept (run_st r) r' /\
    ((exists e, e ∈ run_trace r' /\ applies e = true) -> may_apply (run_st r))) r.
Proof.
  intros Htr. set (st := run_st r).
  eapply (wp_conseq _ _ (fun _ => sc_gate_inv st)).
  { intros _ r' [Hk Hq]. split; [exact Hk|]. intros (e & Hin & He). destruct Hq as [Hq|Hq]; [|exact Hq].
    unfold quiet in Hq. rewrite Forall_forall in Hq. by rewrite Hq in He. }
  assert (sc_gate_inv st r) as Hr by (split; [apply claws_kept_refl|left; unfold quiet; by rewrite Htr]).
  unfold Reconcile. rewrite wp_bind, wp_io, wp_bind, wp_mget. cbn [run_st]. fold st.
  set (r1 := mkRun _ _ _). assert (sc_gate_inv st r1) as Hr1 by exact Hr. assert (run_st r1 = st) as Hst by done.
  clearbody r1. destruct (o_ok w (run_tick r)); [|done].
  destruct (sc_request st) as [sc|] eqn:Hsc; [|done].
  assert (preserves w (sc_gate_inv st) (let* t := now in
     if selfConfigTTL <=? time_sub t (default 0 (scs_AppliedAt (sc_Status sc)))
     then let* d := delete_sc in mret (if d then Ok 0 else Err ErrScDelete)
     else mret (Ok (selfConfigTTL - time_sub t (default 0 (scs_AppliedAt (sc_Status sc))))))) as Httl by preserve.
  assert (wp w (if bool_decide (scs_Phase (sc_Status sc) = SelfConfigPhaseDenied \/
                               scs_Phase (sc_Status sc) = SelfConfigPhaseFailed)
                then mret (Ok 0) else process_request sc) (fun _ => sc_gate_inv st) r1) as Hproc.
  { case_bool_decide as Hphase; [done|]. unfold process_request.
    rewrite wp_bind, wp_io, wp_bind, wp_mget. cbn [run_st]. rewrite Hst. set (r2 := mkRun _ _ _).
    assert (sc_gate_inv st r2) as Hr2 by (subst r2; destruct Hr1 as [Hk Hq]; split; [|done]; intros n c Hc; rewrite <- Hst; by apply Hk).
    clearbody r2. destruct (o_ok w (run_tick r1)); cbn [negb]; [|done].
    destruct (sc_claws st !! sc_ClawRef (sc_Spec sc)) as [claw|] eqn:Hclaw; [|by apply sc_gate_deny].
    destruct (self_configure_allowed claw) as [allowed|] eqn:Hal; [|by apply sc_gate_deny].
    destruct (validateActions (sc_Spec sc) allowed) as [reason|] eqn:Hv; [by apply sc_gate_deny|].
    apply sc_gate_apply_request; [done| |done]. unfold self_configure_allowed in Hal.
    destruct (SelfConfigure (Spec claw)) as [s|] eqn:Hs; [|done].
    destruct (sc_Enabled s) eqn:Hen; [|done]. apply Some_inj in Hal as <-. exists sc, claw, s.
    do 4 (split; [done|]). split; [by apply validateActions_spec|done]. }
  cbv zeta. destruct (bool_decide (scs_Phase (sc_Status sc) = SelfConfigPhaseApplied)); [|exact Hproc].
  destruct (scs_AppliedAt (sc_Status sc)) as [at_|]; [by apply Httl|exact Hproc].
Qed.

(** A request that failed, even because one write to the Claw did not go
    through, is never tried again. *)
Lemma failed_is_final sc r :
  sc_request (run_st r) = Some sc -> scs_Phase (sc_Status sc) = SelfConfigPhaseFailed ->
  wp w Reconcile (fun _ r' => run_st r' = run_st r) r.
Proof.
  intros Hsc Hp. unfold Reconcile. wp_step. rewrite Hsc. destruct (o_ok w _); wp_step; [|done].
  rewrite Hp, bool_decide_false by done. rewrite bool_decide_true by auto. by wp_step.
Qed.
End Gate.

(** ** Evaluation *)

Module Sample.
#[local] Existing Instance suffix_quantities.

Definition agent (actions : list string) : Claw :=
  mkClaw (sample_meta [])
    (mkClawSpec RuntimeOpenClaw None None [] None None None None None None (Some (mkSelfConfigure true actions))
       None None None)
    (mkClawStatus "" 0 [] None).

Definition request : ClawSelfConfig :=
  mkSelfConfig (mkMeta "learn" "" "default" "s1" 1 ∅ None [] [] 0 None)
    (mkSelfConfigSpec "agent" ["search"%string] [] ∅ ∅ [] [mkSelfEnv "LOG" "debug"] [])
    (mkSelfConfigStatus "" "" None).

Definition namespace (actions : list string) : ScState :=
  mkSc (Some request) {["agent"%string := agent actions]}.

Definition run_request (actions : list string) : Run ScState sc_event :=
  snd (exec Reconcile all_ok (namespace actions)).

(** The request is applied, and the Claw's specification is what it was: the
    skill and the variable are in no object. *)
Lemma selfconfig_gate_witness :
  existsb applies (run_trace (run_request ["skills"; "envVars"]%string)) = true /\
  may_apply (namespace ["skills"; "envVars"]%string).
Proof.
  assert (Hev : existsb applies (run_trace (run_request ["skills"; "envVars"]%string)) = true) by (vm_compute; reflexivity).
  split; [exact Hev|].
  pose proof (selfconfig_gate all_ok (mkRun (namespace ["skills"; "envVars"]%string) 0 []) eq_refl) as Hg.
  unfold run_request, exec in Hev. unfold wp in Hg. destruct (Reconcile all_ok _) as [res r'].
  apply Hg. apply existsb_exists in Hev as (e & Hin & He). exists e. split; [by apply list_elem_of_In|exact He].
Defined.

Example denied_without_permission :
  (fun c => (scs_Phase (sc_Status c), scs_Message (sc_Status c))) <$> sc_request (run_st (run_request ["skills"%string]))
  = Some ("Denied", "action 'envVars' is not in allowedActions")%string.
Proof. vm_compute. reflexivity. Qed.
End Sample.
