(* ===== verification/Operator.v ===== *)
(** * The operator's wiring (cmd/operator/main.go and the SetupWithManager
    functions of internal/controller)

    What the operator registers when it starts, and which events of the
    cluster make which reconciler run.  The predicates and event handlers of
    controller-runtime are parameters with their documented behaviour.  The
    theorem about them and the claw reconciler: what others delete of the
    objects it created is noticed and comes back as it was. *)

From stdpp Require Import sorting.
From S2P Require Import Prelude.
From S2P Require Import GoStrings.
From S2P Require Import Api.
From S2P Require Import Samples.
From S2P Require Import Kube.
From S2P Require Import OpsIntent.
From S2P Require Import PodBuilder.
From S2P Require Import Channel.
From S2P Require Import StatefulSet.
From S2P Require Import SubResources.
From S2P Require Import ClawOps.
From S2P Require Import AutoUpdate.
From S2P Require Import ConfigMerge.
From S2P Require Import ClawStore.
From S2P Require Import Snapshots.
From S2P Require Import ClawController.
From S2P Require Import ClawConverge.
From S2P Require Import ChannelController.
From S2P Require Import SelfConfig.

(** ** Events (controller-runtime) *)

(** Namespace and name. *)
Abbreviation request := (string * string)%type.

(** An update says whether the resource version moved: a periodic resync
    repeats an object without a change. *)
Inductive watch_event (A : Type) :=
| EvtCreate (o : A)
| EvtUpdate (old new : A) (version_moved : bool)
| EvtDelete (o : A).
Arguments EvtCreate {A} o.
Arguments EvtUpdate {A} old new version_moved.
Arguments EvtDelete {A} o.

Definition event_objects {A} (e : watch_event A) : list A :=
  match e with
  | EvtCreate o | EvtDelete o => [o]
  | EvtUpdate old new _ => [old; new]
  end.

Section Requests.
Context {A : Type}.
Implicit Types e : watch_event A.

(** What the library promises of its handlers and predicates:
    EnqueueRequestForOwner with OnlyControllerOwner, EnqueueRequestsFromMapFunc,
    GenerationChangedPredicate, ResourceVersionChangedPredicate. *)
Class WatchLib := {
  owner_requests : string -> ObjectMeta -> list request;
  owner_requests_spec owner m q :
    q ∈ owner_requests owner m <->
    exists ref, find_first (fun r => bool_decide (or_Controller r = Some true)) (OwnerReferences m) = Some ref /\
      or_Kind ref = owner /\ q = (Namespace m, or_Name ref);
  enqueue : forall {A}, (A -> list request) -> watch_event A -> list request;
  enqueue_spec {A} (f : A -> list request) (e : watch_event A) q :
    q ∈ enqueue f e <-> exists o, o ∈ event_objects e /\ q ∈ f o;
  generation_changed : forall {A}, (A -> ObjectMeta) -> watch_event A -> bool;
  generation_changed_spec {A} (meta : A -> ObjectMeta) (e : watch_event A) :
    generation_changed meta e = false <->
    exists old new v, e = EvtUpdate old new v /\ ObjGeneration (meta old) = ObjGeneration (meta new);
  version_changed : forall {A}, watch_event A -> bool;
  version_changed_spec {A} (e : watch_event A) :
    version_changed e = false <-> exists old new, e = EvtUpdate old new false;
}.
End Requests.

Inductive controller := ClawC | ChannelC | SelfConfigC | AutoUpdateC | ClawOpsC.

Section Wiring.
Context `{QuantityLib, WatchLib}.

Inductive cluster_event :=
| OnClaw (e : watch_event Claw)
| OnChannel (e : watch_event ClawChannel)
| OnSelfConfig (e : watch_event ClawSelfConfig)
| OnObject (k : kind) (e : watch_event (Obj (body k)))
| OnPod (e : watch_event Pod)
| OnEscalation (e : watch_event ClawOpsEscalation).

Definition request_of (m : ObjectMeta) : list request := [(Namespace m, Name m)].

(** [findClawsForChannel]: the Claws of the cache, or [None] when the list
    fails. *)
Definition findClawsForChannel (claws : option (list Claw)) (channel : ClawChannel) : list request :=
  match claws with
  | None => []
  | Some claws =>
      map (pair (Namespace (ch_Meta channel)))
        (clawsReferencingChannel claws (Namespace (ch_Meta channel)) (Name (ch_Meta channel)))
  end.

(** The kinds in the [Owns] calls. *)
Definition owned_kinds : list kind :=
  [KStatefulSet; KService; KPVC; KConfigMap; KServiceAccount; KRole; KRoleBinding; KNetworkPolicy; KIngress; KPDB].

Definition setup_claw (claws : option (list Claw)) (e : cluster_event) : list request :=
  match e with
  | OnClaw e => enqueue (fun c => request_of (Meta c)) e
  | OnObject k e =>
      if bool_decide (k ∈ owned_kinds) then enqueue (fun o => owner_requests "Claw" (o_Meta o)) e else []
  | OnChannel e => enqueue (findClawsForChannel claws) e
  | _ => []
  end.

Definition setup_channel (e : cluster_event) : list request :=
  match e with OnChannel e => enqueue (fun c => request_of (ch_Meta c)) e | _ => [] end.

Definition setup_selfconfig (e : cluster_event) : list request :=
  match e with OnSelfConfig e => enqueue (fun c => request_of (sc_Meta c)) e | _ => [] end.

Definition setup_autoupdate (e : cluster_event) : list request :=
  match e with OnClaw e => enqueue (fun c => request_of (Meta c)) e | _ => [] end.

Definition setup_clawops (e : cluster_event) : list request :=
  match e with
  | OnClaw e => if generation_changed Meta e then enqueue (fun c => request_of (Meta c)) e else []
  | OnPod e => if version_changed e then enqueue podToClaw e else []
  | OnEscalation e => if version_changed e then enqueue escalationToClaw e else []
  | _ => []
  end.

Definition triggers (claws : option (list Claw)) (c : controller) (e : cluster_event) : list request :=
  match c with
  | ClawC => setup_claw claws e
  | ChannelC => setup_channel e
  | SelfConfigC => setup_selfconfig e
  | AutoUpdateC => setup_autoupdate e
  | ClawOpsC => setup_clawops e
  end.
End Wiring.

(** ** The start of the operator *)

Record flags := mkFlags {
  fl_metricsAddr : string;
  fl_probeAddr : string;
  fl_leaderElect : bool;
  fl_nativeSidecars : bool;
  fl_disableWebhooks : bool;
  fl_webhookPort : Z;
}.

Definition default_flags : flags := mkFlags ":8080" ":8081" false true false 9443.

Inductive setup_step :=
| NewManager (metricsAddr probeAddr : string) (leaderElect : bool) (webhookPort : option Z)
| IndexChannelNames
| SetupController (c : controller)
| SetupWebhook
| AddHealthz
| AddReadyz
| StartManager.

Definition setup_steps (f : flags) : list setup_step :=
  [NewManager (fl_metricsAddr f) (fl_probeAddr f) (fl_leaderElect f)
     (if fl_disableWebhooks f then None else Some (fl_webhookPort f));
   IndexChannelNames;
   SetupController ClawC; SetupController ChannelC; SetupController SelfConfigC;
   SetupController AutoUpdateC; SetupController ClawOpsC] ++
  (if fl_disableWebhooks f then [] else [SetupWebhook]) ++
  [AddHealthz; AddReadyz; StartManager].

(** Each step may fail, which ends the program with exit code 1. *)
Fixpoint run_steps (l : list setup_step) : M unit setup_step Z :=
  match l with
  | [] => mret 0
  | s :: l' => let* ok := io in if ok then emit s ;;; run_steps l' else mret 1
  end.

Definition operator_main (f : flags) : M unit setup_step Z := run_steps (setup_steps f).

(** The readiness check: the caches synced within its timeout. *)
Definition readyz (synced : bool) : option string :=
  if negb synced then Some "informer caches not synced"%string else None.

(** ** Lost objects come back *)

Section Heal.
Context `{QuantityLib, ConditionLib, CronLib, RangeOrder, SortSlice, WatchLib}.
Implicit Types (r : Run World store_event) (s : World).

(** A change of the object wakes the reconciler of the Claw. *)
Definition wakes (claw : Claw) (k : kind) (o : Obj (body k)) : Prop :=
  forall claws e, o ∈ event_objects e ->
    (Namespace (Meta claw), Name (Meta claw)) ∈ triggers claws ClawC (OnObject k e).

(** The handler created the object of this kind and name. *)
Definition created k n (o : Obj (body k)) r r1 : Prop :=
  objs_of k r !! n = None /\ objs_of k r1 !! n = Some o.

(** [r2] is [r1] without some of the objects created since [r]. *)
Definition lost (ks : list kind) r r1 r2 : Prop :=
  forall k n, k ∈ ks -> objs_of k r2 !! n = objs_of k r1 !! n \/
    (objs_of k r2 !! n = None /\ exists o, created k n o r r1).

(** [m] works on the kinds [ks]; what it creates wakes the reconciler, and
    running it again brings back what was lost of it. *)
Record heals (claw : Claw) (ks : list kind) (m : KM (R unit)) : Prop := mkHeals {
  heals_within w r : wp w m (fun _ r' => within ks (run_st r) (run_st r')) r;
  heals_wakes w r : wp w m (fun _ r1 => forall k n o, created k n o r r1 -> wakes claw k o) r;
  heals_again w r : wp w m (fun res r1 => res = Ok tt -> forall w2 r2, succeeds w2 -> lost ks r r1 r2 ->
    wp w2 m (fun res2 r3 => res2 = Ok tt /\ forall k, k ∈ ks -> objs_of k r3 = objs_of k r1) r2) r;
}.

Lemma lost_weaken ks ks' r r' r1 r1' r2 r2' :
  (forall k, k ∈ ks' -> k ∈ ks /\ objs_of k r' = objs_of k r /\ objs_of k r1' = objs_of k r1 /\
    objs_of k r2' = objs_of k r2) ->
  lost ks r r1 r2 -> lost ks' r' r1' r2'.
Proof.
  intros Hk Hl k n Hin. destruct (Hk k Hin) as (Hin' & Hr & E1 & E2). unfold created. rewrite E2, E1, Hr.
  by apply Hl.
Qed.

Lemma heals_seq claw ks ks' m m' :
  heals claw ks m -> heals claw ks' m' -> ks ## ks' -> heals claw (ks ++ ks') (m ;;? m').
Proof.
  intros [Hw Hk Hg] [Hw' Hk' Hg'] Hd. split.
  - intros w r. rewrite wp_andthen. eapply wp_conseq; [|apply Hw]. intros [[]|e] r1 E1.
    + eapply wp_conseq; [|apply Hw']. intros res r2 E2 k [Hin Hin']%not_elem_of_app. by rewrite E2, E1.
    + intros k [Hin _]%not_elem_of_app. by apply E1.
  - intros w r. rewrite wp_andthen. eapply wp_conseq; [|apply (wp_and _ _ _ _ _ (Hw w r) (Hk w r))].
    intros [[]|e] r1 [Hwi E1]; [|done].
    eapply wp_conseq; [|apply (wp_and _ _ _ _ _ (Hw' w r1) (Hk' w r1))].
    intros res r2 [Hwi' E2] k n o [Hn Ho]. destruct (decide (k ∈ ks')) as [Hin|Hin].
    + apply (E2 k n o). split; [|done]. unfold objs_of. rewrite Hwi; [done|]. intros Hin'. by apply (Hd k).
    + apply (E1 k n o). split; [done|]. unfold objs_of. by rewrite <- Hwi'.
  - intros w r. rewrite wp_andthen. eapply wp_conseq; [|apply (wp_and _ _ _ _ _ (Hw w r) (Hg w r))].
    intros [[]|e] r1 [Hwi E1]; [|done].
    eapply wp_conseq; [|apply (wp_and _ _ _ _ _ (Hw' w r1) (Hg' w r1))].
    intros res r2 [Hwi' E2] Hres w2 r3 Hok Hlost. rewrite wp_andthen.
    assert (Hks : forall k, k ∈ ks -> objs_of k r2 = objs_of k r1).
    { intros k Hin. unfold objs_of. rewrite Hwi'; [done|]. intros Hin'. by apply (Hd k). }
    assert (Hks' : forall k, k ∈ ks' -> objs_of k r1 = objs_of k r).
    { intros k Hin. unfold objs_of. rewrite Hwi; [done|]. intros Hin'. by apply (Hd k). }
    assert (L1 : lost ks r r1 r3).
    { eapply lost_weaken; [|exact Hlost]. intros k Hin. split_and!; try done; [set_solver|]. by rewrite Hks. }
    eapply wp_conseq; [|apply (wp_and _ _ _ _ _ (Hw w2 r3) (E1 eq_refl w2 r3 Hok L1))].
    intros res3 r4 [Hwi4 [-> E4]].
    assert (Hr4 : forall k, k ∈ ks' -> objs_of k r4 = objs_of k r3).
    { intros k Hin. unfold objs_of. rewrite Hwi4; [done|]. intros Hin'. by apply (Hd k). }
    assert (L2 : lost ks' r1 r2 r4).
    { eapply lost_weaken; [|exact Hlost]. intros k Hin. split_and!; [set_solver|by apply Hks'|done|by apply Hr4]. }
    eapply wp_conseq; [|apply (wp_and _ _ _ _ _ (Hw' w2 r4) (E2 Hres w2 r4 Hok L2))].
    intros res5 r5 [Hwi5 [-> E5]]. split; [done|]. intros k [Hin|Hin]%elem_of_app; [|by apply E5].
    rewrite Hks, <- E4 by done. unfold objs_of. rewrite Hwi5; [done|]. intros Hin'. by apply (Hd k).
Qed.

(** A function that creates nothing heals if it settles. *)
Definition creates_nothing (m : KM (R unit)) : Prop :=
  forall w r, wp w m (fun _ r1 => forall k n, objs_of k r !! n = None -> objs_of k r1 !! n = None) r.

Lemma settles_heals claw ks m P : settles ks m P -> creates_nothing m -> heals claw ks m.
Proof.
  intros [Hw Ha Hl Hg] Hn. split; [exact Hw| |].
  - intros w r. eapply wp_conseq; [|apply Hn]. intros res r1 Hr k n o [E1 E2]. specialize (Hr k n E1). congruence.
  - intros w r. eapply wp_conseq; [|apply (wp_and _ _ _ _ _ (Ha w r) (Hn w r))].
    intros res r1 [HP Hr] Hres w2 r2 Hok Hlost.
    assert (Hsame : forall k, k ∈ ks -> w_objs (run_st r2) k = w_objs (run_st r1) k).
    { intros k Hin. apply map_eq. intros n. destruct (Hlost k n Hin) as [E|(E & o & E1 & E2)]; [exact E|].
      specialize (Hr k n E1). congruence. }
    eapply wp_conseq; [|apply Hg; [done|]]; [|by apply (Hl (run_st r1)); auto].
    intros res2 r3 [-> Hs]. split; [done|]. intros k Hin. rewrite Hs. by apply Hsame.
Qed.

(** [ensure] heals its kind. *)
Lemma desired_wakes claw k (built : Obj (body k)) :
  k ∈ owned_kinds -> Namespace (o_Meta built) = Namespace (Meta claw) ->
  wakes claw k (SetControllerReference claw built).
Proof.
  intros Hk Hns claws e Ho. cbn [triggers setup_claw]. rewrite bool_decide_true by done.
  apply enqueue_spec. eexists. split; [exact Ho|]. apply owner_requests_spec. eexists. split; [reflexivity|].
  split; [done|]. by rewrite <- Hns.
Qed.

Lemma ensure_absent w k g claw merge built r :
  succeeds w -> objs_of k r !! Name (o_Meta built) = None ->
  wp w (ensure k g claw merge built) (fun res r' => res = Ok tt /\
    objs_of k r' = <[Name (o_Meta built) := SetControllerReference claw built]> (objs_of k r)) r.
Proof.
  intros Hok Hnone. unfold ensure. rewrite wp_bind. eapply wp_conseq; [|by apply Get_obj_ok].
  intros res r1 [Hst ->]. change (Name (o_Meta (SetControllerReference claw built))) with (Name (o_Meta built)).
  rewrite Hnone. unfold Create_obj, put_obj, get_objs. wp_step. rewrite Hok, Hst. fold (objs_of k r).
  change (Name (o_Meta (SetControllerReference claw built))) with (Name (o_Meta built)).
  rewrite Hnone. wp_step. by rewrite objs_of_set.
Qed.

Lemma heals_ensure k g claw merge built :
  idempotent_merge merge -> k ∈ owned_kinds -> Namespace (o_Meta built) = Namespace (Meta claw) ->
  heals claw [k] (ensure k g claw merge built).
Proof.
  intros Hm Hk Hns. set (name := Name (o_Meta built)).
  assert (Hcreated : forall w r, wp w (ensure k g claw merge built) (fun res r1 => forall k' n o,
    created k' n o r r1 -> k' = k /\ n = name /\ objs_of k r !! name = None /\
      (res = Ok tt /\ objs_of k r1 = <[name := SetControllerReference claw built]> (objs_of k r))) r).
  { intros w r. eapply wp_conseq; [|apply ensure_spec]. cbv zeta. intros res r1 [(_ & _ & Ho) Hr] k' n o [E1 E2].
    destruct (decide (k = k')) as [<-|Hne]; [|unfold objs_of in *; rewrite Ho in E2 by done; congruence].
    fold name in Hr. destruct Hr as [[_ Hr]|[-> Hr]]; [congruence|].
    destruct (objs_of k r !! name) as [e|] eqn:He.
    - destruct Hr as [_ Hr]. rewrite Hr in E2. destruct (decide (n = name)) as [->|Hn]; [congruence|].
      rewrite lookup_insert_ne in E2 by done. congruence.
    - rewrite Hr in E2. destruct (decide (n = name)) as [->|Hn]; [done|].
      rewrite lookup_insert_ne in E2 by done. congruence. }
  destruct (settles_ensure k g claw merge built Hm) as [Hw Ha Hl Hg]. split; [exact Hw| |].
  - intros w r. eapply wp_conseq; [|apply Hcreated]. intros res r1 Hc k' n o Ho.
    destruct (Hc k' n o Ho) as (-> & -> & _ & _ & Hr). destruct Ho as [_ Ho].
    rewrite Hr, lookup_insert_eq in Ho. apply Some_inj in Ho as <-. by apply desired_wakes.
  - intros w r. eapply wp_conseq; [|apply (wp_and _ _ _ _ _ (Ha w r) (Hcreated w r))].
    intros res r1 [HP Hc] Hres w2 r2 Hok Hlost.
    assert (Hcase : objs_of k r2 = objs_of k r1 \/
      objs_of k r2 !! name = None /\ <[name := SetControllerReference claw built]> (objs_of k r2) = objs_of k r1).
    { destruct (Hlost k name (list_elem_of_here _ _)) as [E|(E & o & Ho)].
      - left. apply map_eq. intros n. destruct (Hlost k n (list_elem_of_here _ _)) as [E'|(E' & o & Ho)]; [exact E'|].
        destruct (Hc k n o Ho) as (_ & -> & _). exact E.
      - right. split; [exact E|]. destruct (Hc k name o Ho) as (_ & _ & Hnone & _ & Hr). apply map_eq. intros n.
        destruct (decide (n = name)) as [->|Hn]; [by rewrite Hr, !lookup_insert_eq|].
        rewrite lookup_insert_ne by done. destruct (Hlost k n (list_elem_of_here _ _)) as [E'|(E' & o' & Ho')]; [exact E'|].
        by destruct (Hc k n o' Ho') as (_ & -> & _). }
    destruct Hcase as [Hsame|[Hnone Hins]].
    + eapply wp_conseq; [|apply Hg; [done|]].
      * intros res2 r3 [-> Hs]. split; [done|]. intros k' ->%list_elem_of_singleton. by rewrite Hs.
      * apply (Hl (run_st r1)); [intros k' ->%list_elem_of_singleton; exact Hsame|by apply HP].
    + eapply wp_conseq; [|by apply ensure_absent]. intros res2 r3 [-> Hr3]. split; [done|].
      intros k' ->%list_elem_of_singleton. by rewrite Hr3.
Qed.

Lemma delete_owned_creates_nothing k claw name : creates_nothing (delete_owned k claw name).
Proof.
  intros w r. eapply wp_conseq; [|apply delete_owned_spec].
  intros res r1 ((_ & _ & Ho) & Hne & Hsame & _) k' n E. destruct (decide (k = k')) as [<-|Hk].
  - destruct (decide (n = name)) as [->|Hn]; [|by rewrite Hne]. rewrite Hsame; [done|]. intros e. by rewrite E.
  - unfold objs_of. by rewrite Ho.
Qed.

Lemma heals_delete k claw name : heals claw [k] (delete_owned k claw name).
Proof. eapply settles_heals; [apply settles_delete_owned|apply delete_owned_creates_nothing]. Qed.

Lemma heals_err claw k e : heals claw [k] (mret (Err e)).
Proof. eapply settles_heals; [apply settles_err|]. intros w r. by wp_step. Qed.

Lemma heals_ret claw k : heals claw [k] (mret (Ok tt)).
Proof. eapply settles_heals; [apply settles_ret|]. intros w r. by wp_step. Qed.

Create HintDb heal.
#[local] Hint Resolve heals_ensure heals_delete heals_err heals_ret relabel_idempotent : heal.

(** The side conditions of [heals_ensure] at a kind and a built object. *)
Ltac heal_ensure := apply heals_ensure; [|set_solver|done].

Lemma service_heals claw a : heals claw [KService] (ensureService claw a).
Proof.
  unfold ensureService, buildService. destruct (adapter_PodTemplate a claw); cbn; [|apply heals_err].
  heal_ensure. idempotent_update.
Qed.

Lemma configmap_heals claw a : heals claw [KConfigMap] (ensureConfigMap claw a).
Proof.
  unfold ensureConfigMap, buildConfigMap. destruct (config_text_of claw a); cbn; [|apply heals_err].
  heal_ensure. apply relabel_idempotent.
Qed.

Lemma serviceaccount_heals claw : heals claw [KServiceAccount] (ensureServiceAccount claw).
Proof. unfold ensureServiceAccount. case_if; [apply heals_ret|]. heal_ensure. idempotent_update. Qed.

Lemma role_heals claw : heals claw [KRole] (ensureRole claw).
Proof.
  unfold ensureRole, deleteOwnedRole. case_if; [apply heals_delete|]. heal_ensure. apply relabel_idempotent.
Qed.

Lemma binding_heals claw : heals claw [KRoleBinding] (ensureRoleBinding claw).
Proof.
  unfold ensureRoleBinding, deleteOwnedRoleBinding. case_if; [apply heals_delete|]. heal_ensure. apply relabel_idempotent.
Qed.

Lemma netpol_heals claw p : heals claw [KNetworkPolicy] (ensureNetworkPolicy claw p).
Proof.
  unfold ensureNetworkPolicy, deleteOwnedNetworkPolicy. case_if; [apply heals_delete|]. heal_ensure.
  apply relabel_idempotent.
Qed.

Lemma ingress_heals claw p : heals claw [KIngress] (ensureIngress claw p).
Proof.
  unfold ensureIngress, deleteOwnedIngress. destruct (Ingress (Spec claw)); [|apply heals_delete].
  case_if; [|apply heals_delete]. heal_ensure. idempotent_update.
Qed.

Lemma pdb_heals claw : heals claw [KPDB] (ensurePDB claw).
Proof.
  unfold ensurePDB, deleteOwnedPDB. case_if; [apply heals_delete|]. heal_ensure. apply relabel_idempotent.
Qed.

Lemma statefulset_heals env claw a : heals claw [KStatefulSet] (ensureStatefulSet env claw a).
Proof.
  unfold ensureStatefulSet. destruct (buildStatefulSet env claw a) as [ss|] eqn:Hb; [|apply heals_err].
  apply heals_ensure; [|set_solver|].
  - split; [intros [? [[] ?]]; reflexivity|]. split; intros [? [[] ?]] [? [[] ?]]; reflexivity.
  - revert Hb. unfold buildStatefulSet. destruct (build_template _ _ _); [|done]. cbn.
    destruct (unpanic _); [|done]. cbn. by intros [= <-].
Qed.

Lemma pvc_heals claw : heals claw [KPVC] (ensurePVCOwnerReferences claw).
Proof.
  destruct (pvc_settles claw) as [P HP]. apply (settles_heals _ _ _ P HP). intros w r.
  unfold ensurePVCOwnerReferences. rewrite wp_andthen. eapply wp_conseq; [|apply List_labelled_spec].
  intros [l|e] r1 [Hst Hl]; [|by unfold objs_of; rewrite Hst].
  destruct Hl as [Hn Hl]. eapply wp_conseq; [|apply (for_each_spec w KPVC _ _ _ _ (add_owner_replaces w claw) Hn)].
  2: { intros n o [? _]%Hl. unfold objs_of. by rewrite Hst. }
  intros res r2 ((_ & _ & Ho) & Hsame & _) k n E. unfold objs_of in *. rewrite <- Hst in E.
  destruct (decide (KPVC = k)) as [<-|Hk]; [|by rewrite Ho].
  rewrite Hsame; [done|]. intros ((n' & o) & -> & Hin)%list_elem_of_fmap. apply Hl in Hin as [Hin _].
  rewrite <- Hst in Hin. cbn [fst] in E. congruence.
Qed.

Lemma heals_cons claw k ks m m' :
  heals claw [k] m -> heals claw ks m' -> bool_decide (k ∈ ks) = false -> heals claw (k :: ks) (m ;;? m').
Proof.
  intros Hm Hm' Hk%bool_decide_eq_false. apply (heals_seq claw [k] ks); [done|done|].
  by intros k' ->%list_elem_of_singleton.
Qed.

(** The kinds [ensure_objects] writes, in its order. *)
Definition written_kinds : list kind :=
  [KService; KConfigMap; KServiceAccount; KRole; KRoleBinding; KNetworkPolicy; KIngress; KPDB; KStatefulSet; KPVC].

Lemma snapshots_not_written : KSnapshot ∉ written_kinds.
Proof. apply (bool_decide_eq_false (KSnapshot ∈ written_kinds)). reflexivity. Qed.

Lemma objects_heal env claw a : heals claw written_kinds (ensure_objects env claw a).
Proof.
  unfold ensure_objects, written_kinds.
  repeat (apply heals_cons; [| |vm_compute; reflexivity]);
    eauto 2 using service_heals, configmap_heals, serviceaccount_heals, role_heals, binding_heals, netpol_heals,
      ingress_heals, pdb_heals, statefulset_heals, pvc_heals.
Qed.

(** C10: what others delete comes back.  Whatever objects a successful
    pass over the objects of a Claw created, any event on one of them, its
    deletion included, makes the claw reconciler run for this Claw; and if
    others delete any set of them, a pass whose requests succeed succeeds and
    leaves every object of every kind as the first pass left it. *)
Theorem lost_objects_return env claw a w r :
  wp w (ensure_objects env claw a) (fun res r1 => res = Ok tt ->
    (forall k n o, created k n o r r1 -> wakes claw k o) /\
    forall w2 r2, succeeds w2 ->
      (forall k n, objs_of k r2 !! n = objs_of k r1 !! n \/
        (objs_of k r2 !! n = None /\ exists o, created k n o r r1)) ->
      wp w2 (ensure_objects env claw a) (fun res2 r3 => res2 = Ok tt /\ same_objs r1 r3) r2) r.
Proof.
  destruct (objects_heal env claw a) as [Hw Hk Hg].
  eapply wp_conseq; [|apply (wp_and _ _ _ _ _ (wp_and _ _ _ _ _ (Hw w r) (Hk w r)) (Hg w r))].
  intros res r1 [[Hwi Hwake] Hagain] Hres. split; [exact Hwake|]. intros w2 r2 Hok Hlost.
  eapply wp_conseq; [|apply (wp_and _ _ _ _ _ (Hw w2 r2) (Hagain Hres w2 r2 Hok (fun k n _ => Hlost k n)))].
  intros res2 r3 [Hwi3 [-> Hs]]. split; [done|]. intros k.
  destruct (decide (k = KSnapshot)) as [->|Hne]; [|apply Hs, list_elem_of_In; destruct k; try done; cbn; tauto].
  unfold objs_of in *. rewrite (Hwi3 KSnapshot) by apply snapshots_not_written. apply map_eq. intros n.
  destruct (Hlost KSnapshot n) as [E|(_ & o & E1 & E2)]; [exact E|].
  unfold objs_of in E1, E2. rewrite (Hwi KSnapshot) in E2 by apply snapshots_not_written. congruence.
Qed.
End Heal.

(** ** Who is woken by what *)

Section Wake.
Context `{QuantityLib, WatchLib}.

Lemma enqueue_nil {A} (f : A -> list request) e : (forall o, o ∈ event_objects e -> f o = []) -> enqueue f e = [].
Proof.
  intros Hf. destruct (enqueue f e) as [|q l] eqn:E; [done|].
  assert (Hq : q ∈ enqueue f e) by (rewrite E; left). apply enqueue_spec in Hq as (o & Ho & Hq).
  rewrite (Hf o Ho) in Hq. by apply not_elem_of_nil in Hq.
Qed.

(** An event on a channel wakes the claw reconciler for exactly the Claws of
    its namespace that refer to it. *)
Theorem channel_wakes_referrers claws e q :
  q ∈ triggers (Some claws) ClawC (OnChannel e) <->
  exists ch c, ch ∈ event_objects e /\ c ∈ claws /\ Namespace (Meta c) = Namespace (ch_Meta ch) /\
    Name (ch_Meta ch) ∈ channel_names c /\ q = (Namespace (Meta c), Name (Meta c)).
Proof.
  cbn [triggers setup_claw]. rewrite enqueue_spec. unfold findClawsForChannel, clawsReferencingChannel. split.
  - intros (ch & Hch & (n & -> & Hn)%list_elem_of_fmap).
    rewrite merge_sort_Permutation in Hn. apply list_elem_of_fmap in Hn as (c & -> & Hc).
    apply list_elem_of_filter in Hc as [[Hns Hin] Hc]. exists ch, c. by rewrite Hns.
  - intros (ch & c & Hch & Hc & Hns & Hin & ->). exists ch. split; [done|]. rewrite Hns.
    apply list_elem_of_fmap. eexists. split; [done|]. rewrite merge_sort_Permutation.
    apply list_elem_of_fmap. exists c. split; [done|]. by apply list_elem_of_filter.
Qed.

(** When the cache cannot list the Claws, the event is dropped. *)
Lemma channel_event_dropped e : triggers None ClawC (OnChannel e) = [].
Proof. by apply enqueue_nil. Qed.

(** The channel reconciler never hears of Claws: a reference that comes or
    goes does not update the channel's status. *)
Lemma channel_blind_to_claws claws e : triggers claws ChannelC (OnClaw e) = [].
Proof. done. Qed.

(** The reference that the reconciler adds to a claim is not a controller's,
    so the watch on claims never wakes it. *)
Lemma claim_reference_wakes_nobody claw m q :
  q ∈ owner_requests "Claw" (set_owners (OwnerReferences m ++ [claw_ref claw]) m) <->
  q ∈ owner_requests "Claw" m.
Proof.
  rewrite !owner_requests_spec. cbn [set_owners OwnerReferences Namespace].
  assert (E : forall l, find_first (fun r => bool_decide (or_Controller r = Some true)) (l ++ [claw_ref claw])
            = find_first (fun r => bool_decide (or_Controller r = Some true)) l).
  { induction l as [|x l IH]; [done|]. cbn [app find_first]. by rewrite IH. }
  by rewrite E.
Qed.

(** A change of annotations, such as an ops intent, wakes the claw and the
    update reconcilers; the ops controller, which writes the intents, only
    hears of changes that move the generation. *)
Theorem annotation_change_wakes claws old new :
  ObjGeneration (Meta old) = ObjGeneration (Meta new) ->
  let e := OnClaw (EvtUpdate old new true) in
  let q := (Namespace (Meta new), Name (Meta new)) in
  q ∈ triggers claws ClawC e /\ q ∈ triggers claws AutoUpdateC e /\ triggers claws ClawOpsC e = [].
Proof.
  intros Hg e q. cbn [triggers setup_claw setup_autoupdate setup_clawops e].
  rewrite (proj2 (generation_changed_spec Meta (EvtUpdate old new true))) by by exists old, new, true.
  split_and!; [apply enqueue_spec..|done]; exists new; (split; [by right; left|by left]).
Qed.
End Wake.

(** ** The start *)

(** Membership in a concrete list. *)
Ltac listed := apply list_elem_of_In; cbn; tauto.
Ltac unlisted := let Hin := fresh in intros Hin%list_elem_of_In; cbn in Hin; intuition (try discriminate).

Lemma run_steps_spec w l (r : Run unit setup_step) :
  wp w (run_steps l) (fun code r' => exists n, run_trace r' = run_trace r ++ take n l /\
    ((code = 0 /\ (length l <= n)%nat) \/ (code = 1 /\ (n < length l)%nat))) r.
Proof.
  revert r. induction l as [|s l IH]; intros r; cbn [run_steps].
  { wp_step. exists 0%nat. rewrite app_nil_r. split; [done|]. left. cbn. auto. }
  wp_step. case_match; wp_step.
  - eapply wp_conseq; [|apply IH]. intros code r' (n & Ht & Hc). exists (S n). rewrite Ht. cbn [take length run_trace].
    split; [by rewrite <- app_assoc|]. destruct Hc as [[-> ?]|[-> ?]]; [left|right]; (split; [done|lia]).
  - exists 0%nat. rewrite app_nil_r. split; [done|]. right. cbn. split; [done|lia].
Qed.

(** The operator exits with 0 only after a full run of the manager, and the
    manager never starts before every reconciler, the index of channel names
    and, unless they are disabled, the admission webhooks are set up. *)
Theorem operator_start w f r :
  run_trace r = [] ->
  wp w (operator_main f) (fun code r' =>
    (code = 0 <-> StartManager ∈ run_trace r') /\
    (StartManager ∈ run_trace r' -> IndexChannelNames ∈ run_trace r' /\
      (forall c, SetupController c ∈ run_trace r') /\
      (SetupWebhook ∈ run_trace r' <-> fl_disableWebhooks f = false))) r.
Proof.
  intros Hr. eapply wp_conseq; [|apply run_steps_spec]. intros code r' (n & Ht & Hc). rewrite Hr in Ht. cbn in Ht.
  unfold setup_steps in *. destruct (fl_disableWebhooks f); cbn [app length] in Ht, Hc;
    (destruct Hc as [[-> Hn]|[-> Hn]];
     [rewrite take_ge in Ht by (cbn; lia); rewrite Ht; split_and!;
      [by split; [intros _; listed|]
      |intros _; split_and!; [listed|intros []; listed|split; [first [unlisted|done]|first [done|intros _; listed]]]]
     |assert (Hno : StartManager ∉ run_trace r');
      [rewrite Ht; do 11 (destruct n as [|n]; [unlisted|]); lia|by split]]).
Qed.

(** ** Evaluation *)

Module Sample.
#[local] Existing Instance suffix_quantities.
#[local] Existing Instance sorted_range.
#[local] Existing Instance ClawController.Sample.replace_condition.

Definition watch_owner (owner : string) (m : ObjectMeta) : list request :=
  match find_first (fun r => bool_decide (or_Controller r = Some true)) (OwnerReferences m) with
  | Some ref => if decide (or_Kind ref = owner) then [(Namespace m, or_Name ref)] else []
  | None => []
  end.

#[export, refine] Instance watches : WatchLib := {|
  owner_requests := watch_owner;
  enqueue A f e := flat_map f (event_objects e);
  generation_changed A meta e :=
    match e with
    | EvtUpdate old new _ => negb (bool_decide (ObjGeneration (meta old) = ObjGeneration (meta new)))
    | _ => true
    end;
  version_changed A e := match e with EvtUpdate _ _ v => v | _ => true end;
|}.
Proof.
  - intros owner m q. unfold watch_owner. destruct (find_first _ _) as [ref|].
    2: { split; [by intros ?%not_elem_of_nil|by intros (? & ? & _)]. }
    case_decide as Hk; [rewrite list_elem_of_singleton|]; split.
    + intros ->. by exists ref.
    + by intros (? & [= <-] & _ & ->).
    + by intros ?%not_elem_of_nil.
    + by intros (? & [= <-] & ? & _).
  - intros A f e q. rewrite list_elem_of_In, in_flat_map. by setoid_rewrite list_elem_of_In.
  - intros A meta [o|old new v|o]; (split; [|intros (old' & new' & v' & He & Hg)]); try done.
    + intros Hd%negb_false_iff%bool_decide_eq_true. by exists old, new, v.
    + simplify_eq. by apply negb_false_iff, bool_decide_eq_true.
  - intros A [o|old new v|o]; (split; [|intros (old' & new' & He)]); try done.
    + intros ->. by exists old, new.
    + by simplify_eq.
Defined.

Definition pass : KM (R unit) := ClawConverge.Sample.pass.
Definition before : Run World store_event := mkRun (ClawController.Sample.world ClawConverge.Sample.agent) 0 [].
Definition after_pass : Run World store_event := snd (pass all_ok before).

(** Someone deletes the Service and the disruption budget. *)
Definition after_loss : Run World store_event :=
  mkRun (set_objs KPDB (delete "agent"%string (objs_of KPDB after_pass))
          (set_objs KService (delete "agent"%string (objs_of KService after_pass)) (run_st after_pass))) 0 [].

Example objects_lost :
  (size (objs_of KService after_pass), size (objs_of KService after_loss), size (objs_of KPDB after_loss)) =
  (1, 0, 0)%nat.
Proof. vm_compute. reflexivity. Qed.

Lemma lost_objects_return_witness :
  is_ok (fst (pass all_ok before)) = true /\
  wp all_ok pass (fun res r => res = Ok tt /\ same_objs after_pass r) after_loss.
Proof.
  assert (Hok : is_ok (fst (pass all_ok before)) = true) by (vm_compute; reflexivity). split; [exact Hok|].
  pose proof (lost_objects_return StatefulSet.Sample.build_env ClawConverge.Sample.agent OpenClawAdapter
    all_ok before) as Hp.
  change (ensure_objects StatefulSet.Sample.build_env ClawConverge.Sample.agent OpenClawAdapter) with pass in Hp.
  unfold wp in Hp at 1.
  assert (Hlost : forall k n, objs_of k after_loss !! n = objs_of k after_pass !! n \/
    (objs_of k after_loss !! n = None /\ exists o, created k n o before after_pass)).
  { intros k n. destruct (decide (k = KPDB)) as [->|Hp1]; [|destruct (decide (k = KService)) as [->|Hp2]].
    - destruct (decide (n = "agent"%string)) as [->|Hn].
      + right. split; [vm_compute; reflexivity|]. eexists. split; vm_compute; reflexivity.
      + left. unfold after_loss, objs_of at 1. cbn [run_st]. rewrite set_objs_eq. by rewrite lookup_delete_ne.
    - destruct (decide (n = "agent"%string)) as [->|Hn].
      + right. split; [vm_compute; reflexivity|]. eexists. split; vm_compute; reflexivity.
      + left. unfold after_loss, objs_of at 1. cbn [run_st set_objs w_objs]. rewrite put_objs_ne by done.
        change (w_objs (set_objs KService ?m ?s) KService) with (w_objs (set_objs KService m s) KService).
        rewrite put_objs_eq. by rewrite lookup_delete_ne.
    - left. unfold after_loss, objs_of. cbn [run_st set_objs w_objs]. by rewrite !put_objs_ne by done. }
  assert (Hrun : pass all_ok before = (Ok tt, after_pass)).
  { unfold after_pass. destruct (pass all_ok before) as [[[]|e] r1]; [done|discriminate Hok]. }
  rewrite Hrun in Hp. destruct (Hp eq_refl) as [_ Hagain].
  exact (Hagain all_ok after_loss (fun _ => eq_refl) Hlost).
Defined.
End Sample.
